(* ===== verification/_CoqProject ===== *)
-Q . S2P
Prelude.v
Pte.v
PteProps.v
Machine.v
SimpleEnv.v
Cpu.v
Allocator.v
PageTable.v
PtMap.v
Vm.v
Uart.v
Trapframe.v
VmSpec.v
UserMem.v
VmLoad.v
KvmSpec.v
Sv32.v
PtProps.v
UvmProps.v
KernelProps.v
Asm.v
AsmSpec.v
AsmProps.v
Process.v
Kernel.v
Sched.v
Trap.v
Calm.v
System.v
Abs.v
KernelSpec.v
ProcSpec.v
ThreadSpec.v
TrapSpec.v
Refine.v
Keeps.v
SchedSpec.v
ExecSpec.v
FrameSpec.v
MemSpec.v
Touch.v
TouchCode.v
ForkSpec.v
WaitSpec.v
ExitSpec.v
KexecSpec.v
ExecAny.v
BootSpec.v
Layout.v
LayoutSpec.v
LayoutCode.v
BootRun.v
Isolation.v
Fixtures.v
ExecProps.v
ForkProps.v
WaitProps.v
ExitProps.v
SyscallProps.v
Scenario.v
SyscallRun.v
SysProps.v
SchedProps.v
BootProps.v
TrapReady.v
Interrupts.v
IsolProps.v
TrapProps.v
