(* ===== verification/Prelude.v ===== *)
(** * rust-baremetal: a verification library for the kernel

    The program is a small RISC-V kernel in Rust (src/kernel/src): a 32-bit, one-hart
    machine with Sv32 paging, a table of four processes, a scheduler, fork,
    exec, exit, wait and write, and the assembly that enters and leaves it.  The library
    translates it function by function into an executable state-and-outcome monad and
    proves what its parts promise to each other.

    ** How the program fits together

    [main] sets up the heap, the trap vectors, the [KERNEL] object, the kernel's page
    table and the first process, and calls [scheduler].  The scheduler picks a process
    and calls [switch]; the process goes through [forkret] or the end of [sched] to user
    mode; a trap enters through [uservec] and [usertrap], which serves a system call or
    yields, and returns through [prepare_return] and [userret].  In the kernel, an
    interrupt goes through [kernelvec] and [kerneltrap].  Every process has a lock, the
    table has the [KERNEL] lock, and both disable interrupts on a stack kept per hart.

    ** The layers

    - _Words._  [Pte], [PteProps]: virtmemory.rs, lines 1 to 196: page-table entries,
      addresses and satp as 32-bit words.
    - _Machine._  [Machine]: memory in bytes, CSRs (csr.rs), the [Cpu] record; the classes
      [Env] and [EnvLaws] stand for what is not under src/: the buddy heap, the spin
      mutex, the linker's symbols, function addresses and the embedded programs.
      [SimpleEnv] is an instance of both, which the witnesses compute with.
    - _Interrupts, locks, heap._  [Cpu]: [interrupt_*], [push_interrupt_off] and
      [pop_interrupt_off] (trap.rs, kernel.rs), [IntMutex] (lock.rs).  [Allocator]:
      [LockedHeap] and [FrameAllocator] (allocator.rs).
    - _Page tables._  [PageTable]: [PageTable::new/free/walk/map/unmap] word for word over
      memory.  [PtMap] gives a table its meaning, a finite map from pages to frames and
      permissions ([pt_rep]), and restates the operations as insertion and deletion.
      [Sv32] is the hart's own translation, from the privileged architecture, and proves
      that it reads the same map.  [PtProps]: the properties.
    - _Address spaces._  [Vm]: [Kvm], [Uvm], the copies in and out.  [VmSpec] ([uvm_rep]: a
      [Uvm] is a map from user pages to frames, and the heap's frames are accounted for
      exactly), [UserMem], [VmLoad], [KvmSpec]: the specifications; [UvmProps],
      [KernelProps]: the properties.
    - _Console and frame._  [Uart] (uart.rs and the macros of main.rs); [Trapframe]
      (process/trapframe.rs).
    - _Assembly._  [Asm]: the instruction lists of [switch] (process.rs), [kernelvec]
      (trap.rs), [uservec] and [userret] (trap/trampoline.rs), with a semantics of the
      instructions they use, memory accesses translated under satp.  [AsmSpec],
      [AsmProps].
    - _Processes._  [Process], [Kernel], [Sched], [Trap]: process.rs, kernel.rs, trap.rs and
      kernel/syscall: data, table operations, the life of a process, the trap handlers and
      system calls.  The state is a [Sys]: the machine, the kernel object, the [KERNEL]
      lock.
    - _The running system._  [System]: [main] up to [scheduler] ([main_boot]), and a step
      relation on configurations: the hart's place ([running]), the suspended threads
      ([resume]) and the [Sys].
    - _Specifications of the kernel._  [Abs] is an abstract machine of processes, without
      memory, locks or interrupts, with its invariants.  [Calm] has a program logic
      ([wpd]) that excludes the outcomes a broken discipline would have and allows the
      panics the code means to raise; [KernelSpec], [ProcSpec], [ThreadSpec] and
      [TrapSpec] match every stretch of kernel code with steps of [Abs]; [Refine] puts them
      together.  [Keeps]: fields that code leaves alone, whatever its outcome.
      [SchedSpec], [ExecSpec], [KexecSpec], [FrameSpec], [MemSpec], [ForkSpec], [WaitSpec],
      [ExitSpec], [BootSpec]: specifications of the scheduler's choice, of [kexec], of trap
      frames, and of the operations on the table: fork, wait, exit, its construction at
      boot.
    - _The memory of the running system._  [Layout]: who owns which frame of the heap
      ([laid]: the kernel's page table and each entry's address space and trap frame, all
      apart) and what one process's work may change ([isolated]).  [Touch], [TouchCode]: a
      logic for code that allocates nothing, which writes inside a given set of addresses
      and moves no frame; the scheduler, the traps and write, exit and yield are in it.
      [ExecAny], [LayoutSpec]: exec, fork, wait and the copies to user memory, on a layout.
      [LayoutCode]: every stretch of kernel code.  [BootRun]: the layout at the end of boot.
      [Isolation]: the steps of [System] with the program held to what the hart's
      translation lets it store to, and the invariant of what they reach.  [TrapReady]: what
      [prepare_return] leaves for the trampoline, in every state in which a program runs.
      [Interrupts]: a process between an interrupt and its next turn.
    - _Properties._  [ExecProps], [ForkProps], [WaitProps], [ExitProps], [SyscallProps], [SysProps],
      [SchedProps], [BootProps], [IsolProps], [TrapProps]; [SyscallRun]: the pieces of a
      system call and the whole.  [Fixtures] and [Scenario] hold the concrete states and the
      executable driver of the witnesses.

    ** How code is translated

    A function of the source is a definition of the same name (a method has its type in
    front, or not where the name is unique).  [M S A] is a function from a state to an
    [outcome]: the function returns, panics with the constructor of its own message, has
    undefined behaviour or faults, spins for ever on a lock, or runs out of a loop's fuel.
    Arithmetic is on 32 bits with the overflow checks of the dev profile ([add32] and the
    like panic), bit operations are those of [Z], an index or slice of the console's buffer
    is checked ([set_index], [slice_to]).  A result or option is an [option], and
    [?] is the bind written with a question mark.  [self] is passed and returned where the
    method changes it.  Dropping a value is explicit.

    A function that calls [switch] is cut there, [f_enter] before and [f_leave] after, and
    the locals that live across are in [resume].  A step of [System] is a stretch of code
    between two such places or between two places at which an interrupt is let in.  A
    system call runs with interrupts on, so it is cut into pieces ([syscall_enter],
    [syscall_more]) with the locals between them in [cont]: at each byte it prints, at each
    argument of [exec] and before [kexec], and on both sides of the lock in [kwait].
    [fork] and [exit] hold a guard throughout.  The whole calls ([syscall] and those it
    makes) are definitions of their own, which [SyscallRun.syscall_in_pieces] proves equal
    to their pieces.

    A specification is [wpo fails m Q s]: run from [s], [m] returns with [Q], or does not
    return and [fails] holds.  With [False] this is total correctness ([wp]), with [True]
    partial ([wlp]).  The specifications of the code that allocates are proved for any
    [fails], each bound on the heap's room being weakened to [room] or [fails]: the
    properties of single operations take the first reading, the invariant of the running
    system, where a full heap may panic, the second.

    ** What the theorems show

    - C1: for everything the system can reach, from power-on through any interleaving of
      processes, traps and interrupts, it refines [Abs].  C11, C12, C31, C32: it keeps the
      locking and interrupt discipline, loses no wakeup, keeps the tree of processes and
      the balance of locks.
    - C2 to C4: memory of the running system: a step changes what belongs to the process
      at work and nothing of the others or of the kernel; every frame has one owner; a
      program reaches its own pages only.  C15: the kernel's text never changes, and the
      stores of the kernel that the model lets succeed are those its own table allows.
      C40: the address that [wait] is given is not checked like an access of the program,
      which can so write into its trap frame or stop the kernel.
    - C5: [main] boots from power-on to a table in which init is ready to run.  C7 to C10:
      [kfork] copies the parent; [kexec] builds the new program or leaves the old one
      alone; [kwait] collects a zombie, or goes to sleep, or fails; [kexit] makes the caller a
      zombie, gives its children to init and wakes who waits.  C25: the system call
      [exec], from the words in the caller's registers to the new program.  C39:
      [sys_write] prints what the program wrote.
    - C13, C33: the scheduler picks the process that ran least, and a runnable process is
      overtaken a bounded number of times.
    - C16, C19, C20: a trap, a switch and an interrupt in the kernel are transparent to the
      code they suspend.  C17, C18: in the running system the code of the trampoline does
      the very steps of [System]: the frame and the registers that [prepare_return] sets
      take [uservec] to [usertrap] on the process's own kernel stack and [userret] back to
      the program.  C21: the kernel's identity map is write-xor-execute.  C22: in
      every reachable configuration the trampoline is at one address for the kernel and
      every process, and user mode reaches neither it nor the trap frame.
    - C6, C23, C24, C26: the hart reads a page table as the code means it; [map] inserts,
      [unmap] deletes, [walkaddr] and the hart agree.  [PtProps.map_checks]: what [map]
      refuses; [PtProps.free_leaks_tables]: what [free] leaks.
    - C34 to C37: growing, dropping and loading an address space, and
      the copies, in terms of the bytes the program sees.
    - C27 to C30: frames are exclusive; the mutex; interrupt nesting; the codec of entries.
      C38: the console's buffer, whose accesses are all in bounds.
    - C14: an interrupt inside a system call, and whatever runs until the call goes on,
      leaves the call's place and locals and the memory of its process as they were.
      [SyscallRun.syscall_in_pieces]: with no interrupt, the pieces of a system call are the
      system call, and the running system goes through them; C1, C2 and the others hold
      with any interrupts between them.

    ** Fuel and bounds

    The loops of [map], [unmap], [alloc], [load] and [clone] are given the number of pages
    of the range, which their specifications show to be enough (the result is never
    [OutOfFuel]).  [free_req] gets three levels for a tree of two.  [digits] gets more
    digits than a 32-bit number has.  The searches for the end of a user string and of the
    argument vector have no bound in the code: their fuel is a parameter ([code] takes
    it), the step relation allows any, and [UvmProps.copy_in_str_reads] says that any fuel
    longer than the string is enough.  The runs of [Scenario] use 10.

    ** What is not modelled

    - More than one hart: the code reads its id nowhere.  The spin lock of another hart is
      therefore a lock that never becomes free.
    - The small heap blocks of [Vec], [String], [Arc] and [format!]: values are passed as
      lists.  Frames, page tables and trap frames are allocated.
    - Interrupts at every instruction: between two places of a system call at which one is
      let in, the code reads the caller's own memory and entry, which nothing else
      changes, or runs inside a critical section.  The exception is [kexec], one piece with
      a critical section for each frame it allocates: another process can run, and
      allocate, while it builds the new address space, which nothing reaches before it is
      installed.
    - What a user program does: a step of user code may change any memory in C1 and the
      other theorems on [reachable], which need no assumption on it.  In the theorems on
      [creachable] it stores bytes where the hart's translation through its own table
      allows, and a trap writes its frame, as [uservec] does (C17).
    - The translation of the kernel's own accesses: loads and stores go to physical memory.
      The kernel's map is the identity (C21), so what is left of it is a check: a load or
      store outside RAM is a fault, and, once paging is on, a store to the text is one
      too ([storable]; C15 proves that these are the stores the table refuses).
    - The kernel's stacks as memory: the locals of Rust functions are values.
    - The debug! lines, which [DEBUG] turns off ([debug_off]), are left out at their call
      sites, and a panic is an outcome of its own ([panic_handler] prints and loops).
    - The empty stubs of system calls that no program can reach, build.rs, the user
      programs. *)
From stdpp Require Export base tactics option list list_numbers numbers gmap sets.
From Stdlib Require Export ZArith Lia.

#[export] Set Default Goal Selector "!".
#[export] Set Warnings "-clear-no-such-hyp".
#[global] Open Scope Z_scope.

(** ** Outcomes and the kernel monad *)

(** Why the kernel stops.  [POverflow] is the overflow check of the dev profile,
    [PRemZero] that of a remainder by zero, [PBounds] the bounds check of an index or a
    slice, [PUnwrap] an [unwrap] or [expect] of [None] or [Err], [PAllocError] the default
    handler of a failed [Box] allocation; the others are the [panic!] calls of the source, one constructor each. *)
Inductive panic :=
  | POverflow
  | PRemZero
  | PBounds
  | PUnwrap
  | PAllocError
  | PUnalignedFrame
  | PUnalignedPage
  | PNotWholePages
  | PUnmapAllocated (pa perm : Z)
  | PPopEmpty
  | PSchedInterrupts
  | PSchedLocks
  | PSchedRunning
  | PInitExit
  | PUnknownProgram
  | PCordyceps
  | PWriteFd
  | PUnimplementedSyscall
  | PNullCurrent
  | PTrapMode
  | PTrapInterrupts
  | PTrapCause.

(** The result of running a piece of kernel code on a state: it returns, it
    panics, it has undefined behaviour or faults (an access outside RAM, a store that the
    kernel's page table refuses or a misaligned word access), it spins for ever on a held lock, or the fuel given
    to a loop of the model ran out (excluded by the theorems). *)
Inductive outcome (S A : Type) :=
  | Done (a : A) (s : S)
  | Panic (p : panic)
  | Fault
  | Spin
  | OutOfFuel.
Arguments Done {S A} a s.
Arguments Panic {S A} p.
Arguments Fault {S A}.
Arguments Spin {S A}.
Arguments OutOfFuel {S A}.

Definition M (S A : Type) : Type := S → outcome S A.

#[export] Instance M_ret {S} : MRet (M S) := λ A a s, Done a s.
#[export] Instance M_bind {S} : MBind (M S) := λ A B f m s,
  match m s with
  | Done a s' => f a s'
  | Panic p => Panic p
  | Fault => Fault
  | Spin => Spin
  | OutOfFuel => OutOfFuel
  end.

Section primitives.
Context {S A : Type}.
Definition get : M S S := λ s, Done s s.
Definition gets (f : S → A) : M S A := λ s, Done (f s) s.
Definition modify (f : S → S) : M S unit := λ s, Done tt (f s).
Definition panic_with (p : panic) : M S A := λ _, Panic p.
Definition fault : M S A := λ _, Fault.
Definition spin : M S A := λ _, Spin.
Definition out_of_fuel : M S A := λ _, OutOfFuel.
(** [Option::unwrap], [Result::unwrap] and [expect]. *)
Definition unwrap (o : option A) : M S A :=
  match o with Some a => mret a | None => panic_with PUnwrap end.
End primitives.

(** [l[i] = x] and [&l[..n]]: out of range they panic. *)
Definition set_index {S A} (l : list A) (i : nat) (x : A) : M S (list A) :=
  if decide (i < length l)%nat then mret (<[i := x]> l) else panic_with PBounds.
Definition slice_to {S A} (l : list A) (n : nat) : M S (list A) :=
  if decide (n ≤ length l)%nat then mret (take n l) else panic_with PBounds.

(** The [?] operator on [Option] and on [Result<_, ()>], both read as [option]. *)
Notation "x ←? e ; k" :=
  (mbind (λ o, match o with Some x => k | None => mret None end) e)
  (at level 20, e at level 100, k at level 200, only parsing) : stdpp_scope.

(** A [for] loop over a list of values. *)
Fixpoint for_each {S A} (l : list A) (body : A → M S unit) : M S unit :=
  match l with
  | [] => mret tt
  | x :: l' => body x;; for_each l' body
  end.

(** A [for] loop whose body uses [?] or [return Err]. *)
Fixpoint for_each_try {S A} (l : list A) (body : A → M S (option unit)) : M S (option unit) :=
  match l with
  | [] => mret (Some tt)
  | x :: l' => _ ←? body x; for_each_try l' body
  end.

(** ** Strings

    A [String] is its bytes; [String::from_utf8] accepts well-formed UTF-8. *)
Definition byte_in (lo hi b : Z) : bool := bool_decide (lo ≤ b ≤ hi).
Definition is_cont : Z → bool := byte_in 0x80 0xbf.

Fixpoint utf8_valid (l : list Z) : bool :=
  match l with
  | [] => true
  | b0 :: l0 =>
      if byte_in 0 0x7f b0 then utf8_valid l0
      else match l0 with
      | [] => false
      | b1 :: l1 =>
          if byte_in 0xc2 0xdf b0 then is_cont b1 && utf8_valid l1
          else match l1 with
          | [] => false
          | b2 :: l2 =>
              if byte_in 0xe0 0xef b0 then
                (if decide (b0 = 0xe0) then byte_in 0xa0 0xbf b1
                 else if decide (b0 = 0xed) then byte_in 0x80 0x9f b1
                 else is_cont b1) && is_cont b2 && utf8_valid l2
              else match l2 with
              | [] => false
              | b3 :: l3 =>
                  byte_in 0xf0 0xf4 b0 &&
                  (if decide (b0 = 0xf0) then byte_in 0x90 0xbf b1
                   else if decide (b0 = 0xf4) then byte_in 0x80 0x8f b1
                   else is_cont b1) && is_cont b2 && is_cont b3 && utf8_valid l3
              end
          end
      end
  end.

(** [String::from_utf8]. *)
Definition from_utf8 (l : list Z) : option (list Z) :=
  if utf8_valid l then Some l else None.

(** ** Total-correctness triples *)

(** [wpo fails m Q s]: running [m] from [s] returns and the result and final state
    satisfy [Q], or it does not return (a panic, a fault, a deadlock, not enough fuel)
    and [fails] holds.  Total correctness, [wp], excludes the latter; partial
    correctness, [wlp], says nothing about it.  A specification proved for any [fails]
    gives both. *)
Definition wpo (fails : Prop) {S A} (m : M S A) (Q : A → S → Prop) (s : S) : Prop :=
  match m s with Done a s' => Q a s' | _ => fails end.
Abbreviation wp := (wpo False).
Abbreviation wlp := (wpo True).

Lemma wp_unfold {S A} (m : M S A) Q s : wp m Q s ↔ ∃ a s', m s = Done a s' ∧ Q a s'.
Proof.
  unfold wpo. split; [|by intros (a & s' & -> & ?)].
  destruct (m s); try done. eauto.
Qed.
Lemma wlp_unfold {S A} (m : M S A) (Q : A → S → Prop) s : wlp m Q s ↔ ∀ a s', m s = Done a s' → Q a s'.
Proof. unfold wpo. destruct (m s); naive_solver. Qed.
(** A step of a sequence that returned. *)
Lemma bind_done {S A B} (m : M S A) (k : A → M S B) s b s' :
  (m ≫= k) s = Done b s' → ∃ a s1, m s = Done a s1 ∧ k a s1 = Done b s'.
Proof. unfold mbind, M_bind. destruct (m s) as [a s1| | | |] eqn:Hm; [by exists a, s1|done..]. Qed.

Lemma wpo_fails {S A} (fails : Prop) (m : M S A) (Q : A → S → Prop) s :
  fails → (∀ a s', m s = Done a s' → Q a s') → wpo fails m Q s.
Proof. unfold wpo. destruct (m s); auto. Qed.
Lemma wpo_weaken {S A} (fails fails' : Prop) (m : M S A) Q s : (fails → fails') → wpo fails m Q s → wpo fails' m Q s.
Proof. unfold wpo. destruct (m s); auto. Qed.

Section wp.
Context {S A B : Type} {fails : Prop}.
Implicit Types (s : S).
Local Abbreviation wp := (wpo fails).

Lemma wp_done (m : M S A) a s' (Q : A → S → Prop) s :
  m s = Done a s' → Q a s' → wp m Q s.
Proof. unfold wpo. by intros ->. Qed.

Lemma wp_ret (a : A) (Q : A → S → Prop) s : Q a s → wp (mret a) Q s.
Proof. done. Qed.

Lemma wp_bind (m : M S A) (f : A → M S B) Q s :
  wp m (λ a, wp (f a) Q) s → wp (m ≫= f) Q s.
Proof. unfold wpo, mbind, M_bind. by destruct (m s). Qed.

Lemma wp_mono (m : M S A) (Q R : A → S → Prop) s :
  wp m Q s → (∀ a s', Q a s' → R a s') → wp m R s.
Proof. unfold wpo. destruct (m s); naive_solver. Qed.

Lemma wp_get (Q : S → S → Prop) s : Q s s → wp get Q s.
Proof. done. Qed.

Lemma wp_gets (f : S → A) (Q : A → S → Prop) s : Q (f s) s → wp (gets f) Q s.
Proof. done. Qed.

Lemma wp_modify (f : S → S) (Q : unit → S → Prop) s : Q tt (f s) → wp (modify f) Q s.
Proof. done. Qed.

Lemma wp_unwrap (o : option A) a (Q : A → S → Prop) s :
  o = Some a → Q a s → wp (unwrap o) Q s.
Proof. by intros ->. Qed.
End wp.

(** A loop is correct when its body preserves an invariant indexed by the
      elements still to do. *)
Lemma wp_for_each {S A} {fails : Prop} (I : list A → S → Prop) (l : list A) (body : A → M S unit) Q s :
  I l s →
  (∀ x l' s', I (x :: l') s' → wpo fails (body x) (λ _, I l') s') →
  (∀ s', I [] s' → Q tt s') →
  wpo fails (for_each l body) Q s.
Proof.
  intros HI Hbody HQ. revert s HI. induction l as [|x l IH]; intros s HI; simpl.
  { by apply HQ. }
  apply wp_bind. eapply wp_mono; [by apply Hbody|]. intros [] s' HI'. by apply IH.
Qed.

(** Discharges the monadic plumbing in front of the next interesting call. *)
Ltac wp_pure :=
  repeat (cbv beta;
    lazymatch goal with
    | |- wpo _ (mbind _ _) _ _ => apply wp_bind
    | |- wpo _ (mret _) _ _ => apply wp_ret
    | |- wpo _ (gets _) _ _ => apply wp_gets
    | |- wpo _ get _ _ => apply wp_get
    | |- wpo _ (modify _) _ _ => apply wp_modify
    end); cbv beta.

(** Use a specification for the call at the head of the program. *)
Tactic Notation "wp_apply" uconstr(H) :=
  try apply wp_bind; eapply wp_mono; [eapply H|].

(** ** Machine words *)

Definition U32 : Z := 0x100000000.

Definition wrap32 (z : Z) : Z := Z.land z 0xffffffff.
(** [!x] on [usize]. *)
Definition not32 (z : Z) : Z := Z.lxor z 0xffffffff.
(** [x << n], [x >> n] for a shift amount below 32. *)
Definition shl32 (z n : Z) : Z := wrap32 (Z.shiftl z n).
Definition shr32 (z n : Z) : Z := Z.shiftr z n.

Definition is_u32 (z : Z) : Prop := 0 ≤ z < U32.

Section checked.
Context {S : Type}.
(** [a + b], [a - b], [a * b] on [usize], with the dev profile's check. *)
Definition add32 (a b : Z) : M S Z :=
  if decide (a + b < U32) then mret (a + b) else panic_with POverflow.
Definition sub32 (a b : Z) : M S Z :=
  if decide (b ≤ a) then mret (a - b) else panic_with POverflow.
Definition mul32 (a b : Z) : M S Z :=
  if decide (a * b < U32) then mret (a * b) else panic_with POverflow.

Lemma wp_add32 {fails : Prop} a b (Q : Z → S → Prop) s :
  a + b < U32 → Q (a + b) s → wpo fails (add32 a b) Q s.
Proof. intros. unfold add32. by rewrite decide_True. Qed.
Lemma wp_add32_or {fails : Prop} a b (Q : Z → S → Prop) s :
  a + b < U32 ∨ fails → (a + b < U32 → Q (a + b) s) → wpo fails (add32 a b) Q s.
Proof. intros [H|H] HQ; unfold add32; (case_decide; [by apply HQ|done]). Qed.
Lemma wp_sub32_or {fails : Prop} a b (Q : Z → S → Prop) s :
  b ≤ a ∨ fails → (b ≤ a → Q (a - b) s) → wpo fails (sub32 a b) Q s.
Proof. intros [H|H] HQ; unfold sub32; (case_decide; [by apply HQ|done]). Qed.
Lemma wp_sub32 {fails : Prop} a b (Q : Z → S → Prop) s :
  b ≤ a → Q (a - b) s → wpo fails (sub32 a b) Q s.
Proof. intros. unfold sub32. by rewrite decide_True. Qed.
End checked.

Lemma wrap32_mod z : wrap32 z = z mod U32.
Proof. unfold wrap32. change 0xffffffff with (Z.ones 32). by rewrite Z.land_ones. Qed.

Lemma wrap32_small z : is_u32 z → wrap32 z = z.
Proof. intros. rewrite wrap32_mod. by apply Z.mod_small. Qed.

Lemma wrap32_range z : is_u32 (wrap32 z).
Proof. rewrite wrap32_mod. by apply Z.mod_pos_bound. Qed.

(** ** Bit-level reasoning *)

Lemma testbit_high z n i : 0 ≤ z < 2 ^ n → n ≤ i → Z.testbit z i = false.
Proof.
  intros Hz Hi. destruct (decide (0 ≤ n)) as [Hn|Hn].
  - rewrite <- (Z.mod_small z (2 ^ n)) by done. by apply Z.mod_pow2_bits_high.
  - rewrite Z.pow_neg_r in Hz by lia. lia.
Qed.

Lemma bits_inj32 a b :
  is_u32 a → is_u32 b →
  Forall (λ i, Z.testbit a i = Z.testbit b i) (seqZ 0 32) → a = b.
Proof.
  unfold is_u32, U32. intros Ha Hb Hall. apply Z.bits_inj'. intros i Hi.
  destruct (decide (i < 32)) as [Hlt|Hge].
  - rewrite Forall_forall in Hall. apply Hall, elem_of_seqZ. lia.
  - rewrite !(testbit_high _ 32) by (simpl; lia). done.
Qed.

Lemma testbit_b2z_high b i : 0 < i → Z.testbit (Z.b2z b) i = false.
Proof. intros. apply (testbit_high _ 1); destruct b; simpl; lia. Qed.

(** Masking with one bit. *)
Lemma land_pow2 w k : 0 ≤ k → Z.land w (2 ^ k) = if Z.testbit w k then 2 ^ k else 0.
Proof.
  intros Hk. apply Z.bits_inj'. intros i Hi. rewrite Z.land_spec, Z.pow2_bits_eqb by lia.
  destruct (Z.eqb_spec k i) as [->|Hne].
  - destruct (Z.testbit w i) eqn:E; rewrite ?Z.testbit_0_l; [|done].
    rewrite Z.pow2_bits_true by lia. done.
  - rewrite andb_false_r. destruct (Z.testbit w k); [|by rewrite Z.testbit_0_l].
    symmetry. by apply Z.pow2_bits_false.
Qed.

(** [(w & (1 << k)) >= 1] is bit [k] of [w]. *)
Lemma flag_bit w k : 0 ≤ k → (1 <=? Z.land w (2 ^ k)) = Z.testbit w k.
Proof.
  intros Hk. rewrite land_pow2 by done. destruct (Z.testbit w k); [|done].
  apply Z.leb_le. pose proof (Z.pow_pos_nonneg 2 k). lia.
Qed.

Create Rewrite HintDb bits.
#[export] Hint Rewrite Z.lor_spec Z.land_spec Z.lxor_spec Z.testbit_0_l Z.b2z_bit0
  orb_false_r orb_false_l andb_true_r andb_false_r andb_true_l andb_false_l
  orb_true_r orb_true_l xorb_false_r xorb_false_l xorb_true_r xorb_true_l
  negb_involutive : bits.
#[export] Hint Rewrite Z.shiftl_spec Z.shiftr_spec Z.testbit_neg_r testbit_b2z_high
  using (lia) : bits.

Ltac is_Zlit z :=
  lazymatch z with
  | Z0 => idtac
  | Zpos ?p => is_poslit p
  | Zneg ?p => is_poslit p
  end
with is_poslit p :=
  lazymatch p with
  | xH => idtac
  | xO ?q => is_poslit q
  | xI ?q => is_poslit q
  end.

(** Compute the literal parts of a bit-level goal: indices and constants. *)
Ltac bits_compute :=
  repeat match goal with
  | |- context [?a + ?b] => is_Zlit a; is_Zlit b;
      let r := eval vm_compute in (a + b) in change (a + b) with r
  | |- context [?a - ?b] => is_Zlit a; is_Zlit b;
      let r := eval vm_compute in (a - b) in change (a - b) with r
  | |- context [Z.testbit ?a ?b] => is_Zlit a; is_Zlit b;
      let r := eval vm_compute in (Z.testbit a b) in change (Z.testbit a b) with r
  end.

(** Prove one bit equation at a literal index. *)
Ltac bit_step := repeat (progress (autorewrite with bits; bits_compute)).

Lemma is_u32_bits z : 0 ≤ z → (∀ i, 32 ≤ i → Z.testbit z i = false) → is_u32 z.
Proof.
  intros Hz Hb. replace z with (z mod 2 ^ 32); [apply (Z.mod_pos_bound _ (2 ^ 32)); lia|].
  apply Z.bits_inj'. intros i Hi. destruct (decide (i < 32)).
  - by rewrite Z.mod_pow2_bits_low.
  - rewrite Z.mod_pow2_bits_high by lia. symmetry. apply Hb. lia.
Qed.
Lemma is_u32_high z i : is_u32 z → 32 ≤ i → Z.testbit z i = false.
Proof. intros. by apply (testbit_high _ 32). Qed.
Lemma is_u32_land_l a b : is_u32 a → 0 ≤ b → is_u32 (Z.land a b).
Proof.
  intros Ha Hb. apply is_u32_bits; [apply Z.land_nonneg; auto|].
  intros i Hi. by rewrite Z.land_spec, is_u32_high.
Qed.
Lemma is_u32_land_r a b : 0 ≤ a → is_u32 b → is_u32 (Z.land a b).
Proof. intros. rewrite Z.land_comm. by apply is_u32_land_l. Qed.
Lemma lor_range n a b : 0 ≤ a < 2 ^ n → 0 ≤ b < 2 ^ n → 0 ≤ Z.lor a b < 2 ^ n.
Proof.
  intros Ha Hb. destruct (decide (0 ≤ n)); [|rewrite Z.pow_neg_r in Ha by lia; lia].
  assert (Z.lor a b = Z.lor a b mod 2 ^ n) as ->.
  { apply Z.bits_inj'. intros i Hi. destruct (decide (i < n)).
    - by rewrite Z.mod_pow2_bits_low.
    - by rewrite Z.mod_pow2_bits_high, Z.lor_spec, !(testbit_high _ n) by lia. }
  apply Z.mod_pos_bound, Z.pow_pos_nonneg; lia.
Qed.
Lemma is_u32_lor a b : is_u32 a → is_u32 b → is_u32 (Z.lor a b).
Proof. apply (lor_range 32). Qed.
Lemma is_u32_shl32 a n : is_u32 (shl32 a n).
Proof. apply wrap32_range. Qed.
Lemma is_u32_shr32 a n : is_u32 a → 0 ≤ n → is_u32 (shr32 a n).
Proof.
  unfold is_u32, shr32. intros Ha Hn. rewrite Z.shiftr_div_pow2 by done.
  pose proof (Z.pow_pos_nonneg 2 n). split; [apply Z.div_pos; lia|].
  apply Z.div_lt_upper_bound; nia.
Qed.
Lemma is_u32_b2z b : is_u32 (Z.b2z b).
Proof. destruct b; done. Qed.
Lemma is_u32_nonneg a : is_u32 a → 0 ≤ a.
Proof. unfold is_u32. lia. Qed.

Create HintDb u32.
#[export] Hint Resolve is_u32_land_l is_u32_land_r is_u32_lor is_u32_shl32
  is_u32_shr32 is_u32_b2z wrap32_range : u32.
#[export] Hint Extern 2 (0 ≤ _) => apply is_u32_nonneg; assumption : u32.
#[export] Hint Extern 1 (is_u32 _) => (split; [lia|reflexivity]) : u32.
#[export] Hint Extern 5 (0 ≤ _) => lia : u32.

(** Prove an equation between two 32-bit expressions bit by bit; [tac] closes
    the bits that need a hypothesis. *)
Tactic Notation "bits32" "using" tactic3(tac) :=
  apply bits_inj32;
  [ eauto 20 with u32 | eauto 20 with u32
  | let l := eval vm_compute in (seqZ 0 32) in change (seqZ 0 32) with l;
    repeat first [apply List.Forall_nil | apply List.Forall_cons]; cbv beta; unfold shl32, shr32, not32, wrap32; bit_step;
    first [reflexivity | tac] ].
Tactic Notation "bits32" := bits32 using idtac.

(** ** Pages *)

Definition page_size : Z := 0x1000.
Definition page_of (a : Z) : Z := a - a mod page_size.
Definition page_aligned (a : Z) : Prop := a mod page_size = 0.

Lemma page_of_add p i : page_aligned p → 0 ≤ i < page_size → page_of (p + i) = p.
Proof.
  unfold page_aligned, page_of, page_size. intros Hp Hi.
  rewrite Z.add_mod, Hp, (Z.mod_small i), Z.add_0_l, Z.mod_small by lia. lia.
Qed.

Lemma page_of_range a : page_of a ≤ a < page_of a + page_size.
Proof. unfold page_of, page_size. pose proof (Z.mod_pos_bound a 0x1000). lia. Qed.

Lemma page_of_aligned a : page_aligned (page_of a).
Proof.
  unfold page_of, page_aligned, page_size.
  rewrite Zminus_mod, Z.mod_mod, Z.sub_diag by lia. done.
Qed.

Lemma page_of_inside p a : page_aligned p → p ≤ a < p + page_size → page_of a = p.
Proof.
  intros Hp Ha. replace a with (p + (a - p)) by lia. apply page_of_add; [done|lia].
Qed.

Lemma page_aligned_add a b : page_aligned a → page_aligned b → page_aligned (a + b).
Proof. unfold page_aligned, page_size. intros. rewrite Z.add_mod, H, H0 by lia. done. Qed.

Lemma page_aligned_mul k : page_aligned (k * page_size).
Proof. unfold page_aligned. apply Z.mod_mul. done. Qed.

Lemma page_aligned_next a : page_aligned a → page_aligned (a + page_size).
Proof. intros. by apply page_aligned_add. Qed.

(** Between two page-aligned bounds, the page of an address decides. *)
Lemma page_of_lt_iff a b : page_aligned b → page_of a < b ↔ a < b.
Proof. unfold page_aligned, page_of, page_size. intros. Z.div_mod_to_equations. lia. Qed.

Lemma page_of_eq_iff a p : page_aligned p → page_of a = p ↔ p ≤ a < p + page_size.
Proof.
  intros Hp. split; [intros <-; apply page_of_range|by apply page_of_inside].
Qed.

Lemma page_of_idemp p : page_aligned p → page_of p = p.
Proof. intros H. apply page_of_inside; [done|unfold page_size; lia]. Qed.

Lemma page_aligned_quot p :
  page_aligned p → is_u32 p → ∃ q, 0 ≤ q < 2 ^ 20 ∧ p = Z.shiftl q 12.
Proof.
  unfold page_aligned, is_u32, U32, page_size. intros Hp Hr. exists (p / 0x1000).
  rewrite Z.shiftl_mul_pow2 by lia. change (2 ^ 12) with 0x1000.
  change (2 ^ 20) with 0x100000. split; [|Z.div_mod_to_equations; lia].
  split; [apply Z.div_pos|apply Z.div_lt_upper_bound]; lia.
Qed.

(** ** Lists and finite sets *)

Lemma elem_of_option_list {A} (o : option A) x : x ∈ option_list o ↔ o = Some x.
Proof.
  destruct o as [y|]; simpl; [rewrite list_elem_of_singleton|rewrite elem_of_nil]; naive_solver.
Qed.

Lemma size_add_le (x : Z) (X : gset Z) : (size ({[x]} ∪ X) ≤ size X + 1)%nat.
Proof.
  rewrite size_union_alt, size_singleton.
  pose proof (subseteq_size (X ∖ {[x]}) X ltac:(set_solver +)). lia.
Qed.
