(* ===== verification/Pte.v ===== *)
(** Page-table entries, virtual addresses and the satp value of Sv32: the
    pure data conversions of src/kernel/src/virtmemory.rs. *)
From S2P Require Export Prelude.

(** ** Constants *)

Definition PAGESIZE : Z := 4 * 1024.
Definition RAMSIZE : Z := 62 * 1024 * 1024.
Definition RAMSTART : Z := 0x80200000.
Definition RAMEND : Z := RAMSTART + RAMSIZE.
Definition KERNEL_START : Z := 0x80200000.
Definition USER_START : Z := 0x10000.
Definition UART : Z := 0x10000000.
Definition VIRT_END : Z := 0xffffffff - PAGESIZE + 1.
Definition TRAMPOLINE : Z := VIRT_END - PAGESIZE.
Definition TRAPFRAME : Z := TRAMPOLINE - PAGESIZE.

Definition PTE_R : Z := 2.
Definition PTE_W : Z := 4.
Definition PTE_X : Z := 8.
Definition PTE_U : Z := 16.

(** ** Page-table entries *)

Record Pte := mkPte {
  pte_pa : Z;
  pte_ppn : Z;
  pte_ppn1 : Z;
  pte_ppn0 : Z;
  pte_rsw : Z;
  pte_d : bool;
  pte_a : bool;
  pte_g : bool;
  pte_u : bool;
  pte_x : bool;
  pte_w : bool;
  pte_r : bool;
  pte_v : bool;
  pte_perm : Z;
}.

(** [impl From<usize> for Pte]; the masks are the source's binary literals. *)
Definition Pte_from (pte : Z) : Pte := {|
  pte_pa := shl32 (Z.land pte 0xfffffc00) 2;
  pte_ppn := shr32 (Z.land pte 0xfffffc00) 10;
  pte_ppn1 := shr32 (Z.land pte 0xfff00000) 20;
  pte_ppn0 := shr32 (Z.land pte 0x000ffc00) 10;
  pte_rsw := Z.land (shr32 (Z.land pte 0x300) 8) 0xff;
  pte_d := 1 <=? Z.land pte 0x80;
  pte_a := 1 <=? Z.land pte 0x40;
  pte_g := 1 <=? Z.land pte 0x20;
  pte_u := 1 <=? Z.land pte 0x10;
  pte_x := 1 <=? Z.land pte 0x08;
  pte_w := 1 <=? Z.land pte 0x04;
  pte_r := 1 <=? Z.land pte 0x02;
  pte_v := 1 <=? Z.land pte 0x01;
  pte_perm := Z.land pte 0x1e;
|}.

(** [impl From<Pte> for usize]. *)
Definition usize_from_Pte (val : Pte) : Z :=
  Z.lor (shl32 (pte_ppn val) 10)
  (Z.lor (shl32 (pte_rsw val) 8)
  (Z.lor (shl32 (Z.b2z (pte_d val)) 7)
  (Z.lor (shl32 (Z.b2z (pte_a val)) 6)
  (Z.lor (shl32 (Z.b2z (pte_g val)) 5)
  (Z.lor (shl32 (Z.b2z (pte_u val)) 4)
  (Z.lor (shl32 (Z.b2z (pte_x val)) 3)
  (Z.lor (shl32 (Z.b2z (pte_w val)) 2)
  (Z.lor (shl32 (Z.b2z (pte_r val)) 1)
  (Z.b2z (pte_v val)))))))))).

(** [Pte::from_addr]. *)
Definition Pte_from_addr (pa : Z) : Pte :=
  let mask := Z.shiftl 1 12 - 1 in
  let pte := shr32 (Z.land pa (not32 mask)) 2 in
  Pte_from pte.

(** [pte.v = true]. *)
Definition set_v (p : Pte) : Pte :=
  mkPte (pte_pa p) (pte_ppn p) (pte_ppn1 p) (pte_ppn0 p) (pte_rsw p) (pte_d p)
    (pte_a p) (pte_g p) (pte_u p) (pte_x p) (pte_w p) (pte_r p) true (pte_perm p).

Record Perm := mkPerm { perm_r : bool; perm_w : bool; perm_x : bool }.

(** [impl From<Perm> for usize]. *)
Definition usize_from_Perm (val : Perm) : Z :=
  let res := 0 in
  let res := if perm_r val then Z.lor res 2 else res in
  let res := if perm_w val then Z.lor res 4 else res in
  let res := if perm_x val then Z.lor res 8 else res in
  res.

Record SATP := mkSATP { satp_mode : Z; satp_asid : Z; satp_ppn : Z }.

(** [impl From<SATP> for usize]. *)
Definition usize_from_SATP (val : SATP) : Z :=
  let satp := 0 in
  let satp := Z.lor satp (shl32 (satp_mode val) 31) in
  let satp := Z.lor satp (shl32 (satp_asid val) 22) in
  let satp := Z.lor satp (satp_ppn val) in
  satp.

Record VA := mkVA { vpn1 : Z; vpn0 : Z }.

(** [VA::vpn]. *)
Definition VA_vpn (self : VA) (level : Z) : option Z :=
  match level with
  | 0 => Some (vpn0 self)
  | 1 => Some (vpn1 self)
  | _ => None
  end.

(** [impl From<usize> for VA]. *)
Definition VA_from (val : Z) : VA := {|
  vpn1 := shr32 (Z.land val 0xffc00000) 22;
  vpn0 := shr32 (Z.land val 0x003ff000) 12;
|}.

Record PA := mkPA { pa_ppn1 : Z; pa_ppn0 : Z; pa_offset : Z }.

(** [impl From<PA> for usize]. *)
Definition usize_from_PA (val : PA) : Z :=
  let ppn1 := shl32 (pa_ppn1 val) 22 in
  let ppn0 := shl32 (pa_ppn0 val) 12 in
  Z.lor (Z.lor ppn1 ppn0) (pa_offset val).

(** ** Facts *)

Lemma Pte_from_flags w :
  pte_d (Pte_from w) = Z.testbit w 7 ∧ pte_a (Pte_from w) = Z.testbit w 6 ∧
  pte_g (Pte_from w) = Z.testbit w 5 ∧ pte_u (Pte_from w) = Z.testbit w 4 ∧
  pte_x (Pte_from w) = Z.testbit w 3 ∧ pte_w (Pte_from w) = Z.testbit w 2 ∧
  pte_r (Pte_from w) = Z.testbit w 1 ∧ pte_v (Pte_from w) = Z.testbit w 0.
Proof.
  cbn [Pte_from pte_d pte_a pte_g pte_u pte_x pte_w pte_r pte_v].
  split_and!; rewrite <- flag_bit by done; done.
Qed.

Lemma Pte_roundtrip w : is_u32 w → usize_from_Pte (Pte_from w) = w.
Proof.
  intros Hw. unfold usize_from_Pte.
  destruct (Pte_from_flags w) as (-> & -> & -> & -> & -> & -> & -> & ->).
  cbn [Pte_from pte_ppn pte_rsw].
  bits32.
Qed.

(** The word of an entry for frame number [q] with low ten bits [f]. *)
Definition pte_word (q f : Z) : Z := Z.lor (Z.shiftl q 10) f.

Section words.
Context (q f : Z) (Hq : 0 ≤ q < 2 ^ 20) (Hf : 0 ≤ f < 2 ^ 10).

Lemma q_bit i : 20 ≤ i → Z.testbit q i = false.
Proof. by apply testbit_high. Qed.
Lemma f_bit i : 10 ≤ i → Z.testbit f i = false.
Proof. by apply testbit_high. Qed.
Lemma is_u32_q n : 0 ≤ n ≤ 12 → is_u32 (Z.shiftl q n).
Proof.
  intros Hn. unfold is_u32, U32. rewrite Z.shiftl_mul_pow2 by lia.
  pose proof (Z.pow_le_mono_r 2 n 12). simpl in *. nia.
Qed.
Lemma is_u32_q0 : is_u32 q.
Proof. unfold is_u32, U32. simpl in *. lia. Qed.
Lemma is_u32_f : is_u32 f.
Proof. unfold is_u32, U32. simpl in *. lia. Qed.
Local Hint Resolve is_u32_q is_u32_q0 is_u32_f : u32.
Local Hint Extern 1 (0 ≤ _ ≤ 12) => lia : u32.
Local Ltac close_bit := rewrite ?q_bit, ?f_bit by lia; bit_step; done.

Lemma pte_word_u32 : is_u32 (pte_word q f).
Proof. unfold pte_word. eauto with u32. Qed.

(** Decoding such a word gives back the frame and the flag bits. *)
Lemma Pte_from_word :
  Pte_from (pte_word q f) =
    mkPte (Z.shiftl q 12) q (Z.shiftr q 10) (Z.land q 0x3ff) (Z.shiftr f 8)
      (Z.testbit f 7) (Z.testbit f 6) (Z.testbit f 5) (Z.testbit f 4)
      (Z.testbit f 3) (Z.testbit f 2) (Z.testbit f 1) (Z.testbit f 0)
      (Z.land f 0x1e).
Proof.
  pose proof pte_word_u32 as Hw.
  pose proof (Pte_from_flags (pte_word q f)) as Hflags.
  unfold Pte_from in *. cbn [pte_u pte_d pte_a pte_g pte_x pte_w pte_r pte_v] in Hflags.
  destruct Hflags as (-> & -> & -> & -> & -> & -> & -> & ->).
  unfold pte_word in *.
  f_equal; try (bit_step; close_bit); bits32 using close_bit.
Qed.

(** Encoding it again gives the word. *)
Lemma usize_from_word : usize_from_Pte (Pte_from (pte_word q f)) = pte_word q f.
Proof. apply Pte_roundtrip, pte_word_u32. Qed.

Lemma from_addr_word : Pte_from_addr (Z.shiftl q 12) = Pte_from (pte_word q 0).
Proof.
  unfold Pte_from_addr, pte_word. f_equal. change (not32 (Z.shiftl 1 12 - 1)) with 0xfffff000.
  bits32 using close_bit.
Qed.
End words.

(** Setting V in the entry for a frame sets bit 0 of its word. *)
Lemma set_v_word q f :
  0 ≤ q < 2 ^ 20 → 0 ≤ f < 2 ^ 10 →
  set_v (Pte_from (pte_word q f)) = Pte_from (pte_word q (Z.lor f 1)).
Proof.
  intros Hq Hf. assert (0 ≤ Z.lor f 1 < 2 ^ 10) as Hf' by (by apply lor_range).
  rewrite !Pte_from_word by done. unfold set_v.
  cbn [pte_pa pte_ppn pte_ppn1 pte_ppn0 pte_rsw pte_d pte_a pte_g
    pte_u pte_x pte_w pte_r pte_v].
  rewrite Z.shiftr_lor, Z.land_lor_distr_l, !Z.lor_0_r.
  by bit_step.
Qed.

(** ** Virtual addresses *)

Section va.
Context (va : Z) (Hva : is_u32 va).

Lemma vpn1_eq : vpn1 (VA_from va) = va / 0x400000.
Proof.
  change 0x400000 with (2 ^ 22). rewrite <- Z.shiftr_div_pow2 by done. cbn [VA_from vpn1].
  change (Z.shiftr va 22) with (shr32 va 22). bits32 using (rewrite ?(testbit_high va 32); done).
Qed.

Lemma vpn0_eq : vpn0 (VA_from va) = (va / 0x1000) mod 0x400.
Proof.
  change 0x1000 with (2 ^ 12). change 0x400 with (2 ^ 10).
  rewrite <- Z.shiftr_div_pow2, <- Z.land_ones by done. cbn [VA_from vpn0].
  change (Z.shiftr va 12) with (shr32 va 12). change (Z.ones 10) with 0x3ff.
  bits32 using (rewrite ?(testbit_high va 32); done).
Qed.

Lemma vpn1_range : 0 ≤ vpn1 (VA_from va) < 0x400.
Proof. rewrite vpn1_eq. unfold is_u32, U32 in Hva. Z.div_mod_to_equations. lia. Qed.

Lemma vpn0_range : 0 ≤ vpn0 (VA_from va) < 0x400.
Proof. rewrite vpn0_eq. by apply Z.mod_pos_bound. Qed.

(** The two indices and the offset determine the address. *)
Lemma va_split :
  va = vpn1 (VA_from va) * 0x400000 + vpn0 (VA_from va) * 0x1000 + va mod page_size.
Proof.
  rewrite vpn1_eq, vpn0_eq. unfold page_size, is_u32, U32 in *.
  Z.div_mod_to_equations. lia.
Qed.
End va.

(** Two addresses with the same indices are in the same page. *)
Lemma vpn_inj va va' :
  is_u32 va → is_u32 va' →
  vpn1 (VA_from va) = vpn1 (VA_from va') → vpn0 (VA_from va) = vpn0 (VA_from va') →
  page_of va = page_of va'.
Proof.
  intros H H' H1 H0. unfold page_of.
  pose proof (va_split va H). pose proof (va_split va' H'). lia.
Qed.

Lemma VA_from_page_of va : is_u32 va → VA_from (page_of va) = VA_from va.
Proof.
  intros H. assert (is_u32 (page_of va)) as H'.
  { unfold page_of, page_size, is_u32, U32 in *. Z.div_mod_to_equations. lia. }
  destruct (VA_from (page_of va)) as [a b] eqn:E, (VA_from va) as [a' b'] eqn:E'.
  pose proof (vpn1_eq va H) as A. pose proof (vpn0_eq va H) as B.
  pose proof (vpn1_eq _ H') as C. pose proof (vpn0_eq _ H') as D.
  rewrite E in C, D. rewrite E' in A, B. cbn in *. unfold page_of, page_size in *.
  f_equal; Z.div_mod_to_equations; lia.
Qed.
