(* ===== verification/PteProps.v ===== *)
(** The page-table entry codec and the splitting of virtual addresses: the
    properties of the conversions of [Pte]. *)
From S2P Require Export Pte.

(** ** Properties *)

(** The entries [Pte_from] can return: the derived fields follow from the frame
    number and the flags. *)
Record pte_canonical (p : Pte) : Prop := {
  pc_ppn : 0 ≤ pte_ppn p < 2 ^ 22;
  pc_rsw : 0 ≤ pte_rsw p < 2 ^ 2;
  pc_pa : pte_pa p = shl32 (pte_ppn p) 12;
  pc_ppn1 : pte_ppn1 p = Z.shiftr (pte_ppn p) 10;
  pc_ppn0 : pte_ppn0 p = Z.land (pte_ppn p) 0x3ff;
  pc_perm : pte_perm p =
    Z.lor (Z.lor (Z.shiftl (Z.b2z (pte_r p)) 1) (Z.shiftl (Z.b2z (pte_w p)) 2))
      (Z.lor (Z.shiftl (Z.b2z (pte_x p)) 3) (Z.shiftl (Z.b2z (pte_u p)) 4));
}.

Lemma shift_range w n k : 0 ≤ n → 0 ≤ k → 0 ≤ w < 2 ^ (n + k) → 0 ≤ Z.shiftr w k < 2 ^ n.
Proof.
  intros Hn Hk Hw. rewrite Z.shiftr_div_pow2 by done. rewrite Z.pow_add_r in Hw by done.
  pose proof (Z.pow_pos_nonneg 2 k). pose proof (Z.pow_pos_nonneg 2 n).
  split; [apply Z.div_pos|apply Z.div_lt_upper_bound]; lia.
Qed.

Lemma is_u32_small z n : 0 ≤ n ≤ 32 → 0 ≤ z < 2 ^ n → is_u32 z.
Proof.
  intros Hn Hz. unfold is_u32, U32. pose proof (Z.pow_le_mono_r 2 n 32).
  change 0x100000000 with (2 ^ 32). lia.
Qed.

Lemma Pte_from_canonical w : is_u32 w → pte_canonical (Pte_from w).
Proof.
  intros Hw. destruct (Pte_from_flags w) as (_ & _ & _ & Hu & Hx & Hwr & Hr & _). split.
  - cbn. apply (shift_range _ 22 10); [done..|].
    pose proof (is_u32_land_l w 0xfffffc00 Hw ltac:(done)). done.
  - assert (pte_rsw (Pte_from w) = Z.land (shr32 w 8) (Z.ones 2)) as ->.
    { cbn [Pte_from pte_rsw]. change (Z.ones 2) with 3. bits32. }
    rewrite Z.land_ones by done. by apply Z.mod_pos_bound.
  - cbn. bits32.
  - cbn. bits32.
  - cbn. bits32.
  - rewrite Hr, Hwr, Hx, Hu. cbn [Pte_from pte_perm].
    assert (∀ b n, 0 ≤ n ≤ 4 → is_u32 (Z.shiftl (Z.b2z b) n)) as Hs.
    { intros b n Hn. assert (n = 0 ∨ n = 1 ∨ n = 2 ∨ n = 3 ∨ n = 4) as Hc by lia.
      destruct b; repeat destruct Hc as [-> |Hc]; subst; done. }
    apply bits_inj32; [eauto with u32|repeat apply is_u32_lor; by apply Hs|].
    let l := eval vm_compute in (seqZ 0 32) in change (seqZ 0 32) with l.
    repeat first [apply List.Forall_nil | apply List.Forall_cons]; cbv beta; bit_step; done.
Qed.

Lemma Pte_ext (p q : Pte) :
  pte_pa p = pte_pa q → pte_ppn p = pte_ppn q → pte_ppn1 p = pte_ppn1 q →
  pte_ppn0 p = pte_ppn0 q → pte_rsw p = pte_rsw q → pte_d p = pte_d q → pte_a p = pte_a q →
  pte_g p = pte_g q → pte_u p = pte_u q → pte_x p = pte_x q → pte_w p = pte_w q →
  pte_r p = pte_r q → pte_v p = pte_v q → pte_perm p = pte_perm q → p = q.
Proof. destruct p, q; cbn; intros; by subst. Qed.

Section encode.
Context (p : Pte) (Hp : pte_canonical p).
Local Ltac close_bit :=
  rewrite ?(testbit_high (pte_ppn p) 22), ?(testbit_high (pte_rsw p) 2)
    by (apply Hp || lia); bit_step; done.

Lemma encode_fields : is_u32 (pte_ppn p) ∧ is_u32 (pte_rsw p).
Proof using All.
  split; [apply (is_u32_small _ 22)|apply (is_u32_small _ 2)]; (lia || apply Hp).
Qed.

Lemma encode_flags :
  let w := usize_from_Pte p in
  Z.testbit w 7 = pte_d p ∧ Z.testbit w 6 = pte_a p ∧ Z.testbit w 5 = pte_g p ∧
  Z.testbit w 4 = pte_u p ∧ Z.testbit w 3 = pte_x p ∧ Z.testbit w 2 = pte_w p ∧
  Z.testbit w 1 = pte_r p ∧ Z.testbit w 0 = pte_v p.
Proof using All.
  cbv zeta. unfold usize_from_Pte, shl32, wrap32. split_and!; bit_step; done.
Qed.

Lemma encode_u32 : is_u32 (usize_from_Pte p).
Proof using All.
  unfold usize_from_Pte. repeat apply is_u32_lor; eauto with u32.
Qed.

Lemma encode_decode : Pte_from (usize_from_Pte p) = p.
Proof using All.
  destruct encode_fields as [H1 H2]. pose proof encode_u32 as Hw.
  destruct encode_flags as (Hd & Ha & Hg & Hu & Hx & Hwr & Hr & Hv).
  pose proof (Pte_from_flags (usize_from_Pte p)) as (Fd & Fa & Fg & Fu & Fx & Fw & Fr & Fv).
  pose proof (Pte_from_canonical _ Hw) as Hc.
  assert (pte_ppn (Pte_from (usize_from_Pte p)) = pte_ppn p) as Eppn.
  { cbn [Pte_from pte_ppn]. unfold usize_from_Pte. bits32 using close_bit. }
  assert (pte_rsw (Pte_from (usize_from_Pte p)) = pte_rsw p) as Ersw.
  { cbn [Pte_from pte_rsw]. unfold usize_from_Pte. bits32 using close_bit. }
  destruct Hc as [_ _ Cpa Cp1 Cp0 Cperm]. destruct Hp as [_ _ Dpa Dp1 Dp0 Dperm].
  rewrite Eppn in Cpa, Cp1, Cp0. rewrite Fr, Fw, Fx, Fu, Hr, Hwr, Hx, Hu in Cperm.
  apply Pte_ext; congruence.
Qed.
End encode.

(** C30. The page-table entry codec is a bijection between 32-bit words and the
    canonical [Pte] records: encoding what was decoded gives the word back, decoding
    what was encoded gives the record back, and what [Pte_from] returns is canonical. *)
Theorem pte_codec :
  (∀ w, is_u32 w → pte_canonical (Pte_from w) ∧ usize_from_Pte (Pte_from w) = w) ∧
  (∀ p, pte_canonical p → is_u32 (usize_from_Pte p) ∧ Pte_from (usize_from_Pte p) = p).
Proof.
  split; intros x Hx.
  - split; [by apply Pte_from_canonical|by apply Pte_roundtrip].
  - split; [by apply encode_u32|by apply encode_decode].
Qed.

(** [VA] and [PA] take an address apart and put it together: the two table
    indices of a 32-bit virtual address are below 1024, and joined with its page
    offset they give the address back; addresses with the same indices are in the
    same page. *)
Theorem va_pa_roundtrip (va : Z) :
  is_u32 va →
  0 ≤ vpn1 (VA_from va) < 1024 ∧ 0 ≤ vpn0 (VA_from va) < 1024 ∧
  VA_vpn (VA_from va) 1 = Some (vpn1 (VA_from va)) ∧
  VA_vpn (VA_from va) 0 = Some (vpn0 (VA_from va)) ∧
  usize_from_PA (mkPA (vpn1 (VA_from va)) (vpn0 (VA_from va)) (va mod PAGESIZE)) = va ∧
  (∀ va', is_u32 va' → VA_from va' = VA_from va ↔ page_of va' = page_of va).
Proof.
  intros Hva. split; [by apply vpn1_range|]. split; [by apply vpn0_range|].
  do 2 (split; [done|]). split.
  - unfold usize_from_PA. cbn [pa_ppn1 pa_ppn0 pa_offset VA_from vpn1 vpn0].
    change PAGESIZE with (2 ^ 12). rewrite <- Z.land_ones by done. change (Z.ones 12) with 0xfff.
    assert (shl32 (shr32 (Z.land va 0xffc00000) 22) 22 = Z.land va 0xffc00000) as -> by bits32.
    assert (shl32 (shr32 (Z.land va 0x003ff000) 12) 12 = Z.land va 0x003ff000) as -> by bits32.
    rewrite <- !Z.land_lor_distr_r. change (Z.lor (Z.lor _ _) _) with 0xffffffff.
    fold (wrap32 va). by apply wrap32_small.
  - intros va' Hva'. split.
    + intros Heq. apply vpn_inj; [done|done|by rewrite Heq..].
    + intros Heq. by rewrite <- (VA_from_page_of va'), Heq, VA_from_page_of.
Qed.

Lemma va_pa_roundtrip_witness :
  usize_from_PA (mkPA (vpn1 (VA_from 0x80345678)) (vpn0 (VA_from 0x80345678))
    (0x80345678 mod PAGESIZE)) = 0x80345678.
Proof. apply (va_pa_roundtrip 0x80345678). by split. Defined.

Lemma pte_codec_witness : usize_from_Pte (Pte_from 0x200f14df) = 0x200f14df.
Proof. apply (proj1 pte_codec). by split. Defined.
