(* ===== verification/Machine.v ===== *)
(** The machine the kernel runs on: byte-addressed memory, the CSRs of
    src/kernel/src/csr.rs, the [Cpu] record of src/kernel/src/kernel.rs, the
    parameters that stand for third-party code and for the linker, and the
    primitive operations of the kernel monad. *)
From S2P Require Export Pte.

(** ** Memory *)

(** Bytes by physical address.  An address with no entry reads as zero, and a zero that
    is stored takes no entry; every statement quantifies over all memories, so this fixes
    no initial content. *)
Abbreviation mem := (gmap Z Z).

Definition ld8 (m : mem) (a : Z) : Z := default 0 (m !! a) mod 256.
Definition st8 (m : mem) (a v : Z) : mem :=
  let b := v mod 256 in if decide (b = 0) then delete a m else <[a := b]> m.

(** Little-endian 32-bit words. *)
Definition ld32 (m : mem) (a : Z) : Z :=
  ld8 m a + 256 * (ld8 m (a + 1) + 256 * (ld8 m (a + 2) + 256 * ld8 m (a + 3))).
Definition st32 (m : mem) (a v : Z) : mem :=
  st8 (st8 (st8 (st8 m a v) (a + 1) (v / 256)) (a + 2) (v / 65536)) (a + 3) (v / 16777216).

Fixpoint fill (m : mem) (a : Z) (n : nat) (v : Z) : mem :=
  match n with
  | O => m
  | S n => fill (st8 m a v) (a + 1) n v
  end.

(** Keep conversion checks from running the loop. *)
#[global] Strategy 1000 [fill].

Fixpoint store_list (m : mem) (a : Z) (l : list Z) : mem :=
  match l with
  | [] => m
  | b :: l => store_list (st8 m a b) (a + 1) l
  end.

Fixpoint load_list (m : mem) (a : Z) (n : nat) : list Z :=
  match n with
  | O => []
  | S n => ld8 m a :: load_list m (a + 1) n
  end.

(** ** Layouts *)

Record Layout := mkLayout { layout_size : Z; layout_align : Z }.
Definition PAGE_LAYOUT : Layout := mkLayout PAGESIZE PAGESIZE.

(** ** CSRs *)

Inductive Csr :=
  | mvendorid | marchid | mimpid
  | menvcfg | menvcfgh
  | mscratch | sscratch
  | cycle | cycleh | time | timeh | instret | instreth
  | mcycle | mcycleh | minstret | minstreth
  | mcountinhibit | scountinhibit | mcounteren | scounteren
  | mip | sip | mie | sie | mtvec | stvec
  | mepc | sepc | mcause | scause | mtval | stval
  | medeleg | medelegh | mideleg
  | mstatus | mstatush | sstatus
  | satp
  | misa | mhartid
  | pmpcfg0 | pmpcfg1 | pmpcfg2 | pmpcfg3
  | pmpaddr0 | pmpaddr1 | pmpaddr2 | pmpaddr3 | pmpaddr4 | pmpaddr5 | pmpaddr6
  | pmpaddr7 | pmpaddr8 | pmpaddr9 | pmpaddr10 | pmpaddr11 | pmpaddr12
  | pmpaddr13 | pmpaddr14 | pmpaddr15.

(** The registers the macros [read_csr!] and [write_csr!] name: they paste the
    name into the assembly, so they also reach [stimecmp], which the enum lacks. *)
Inductive csr_name := Named (c : Csr) | Stimecmp.
Coercion Named : Csr >-> csr_name.

#[export] Instance Csr_eq_dec : EqDecision Csr.
Proof. solve_decision. Defined.
#[export] Instance csr_name_eq_dec : EqDecision csr_name.
Proof. solve_decision. Defined.

(** The register file. *)
Definition csrs : Type := csr_name → Z.
Definition csr_set (f : csrs) (c : csr_name) (v : Z) : csrs :=
  λ c', if decide (c' = c) then v else f c'.

Definition SSTATUS_SPP : Z := Z.shiftl 1 8.
Definition SSTATUS_SPIE : Z := Z.shiftl 1 5.
Definition SSTATUS_UPIE : Z := Z.shiftl 1 4.
Definition SSTATUS_SIE : Z := Z.shiftl 1 1.
Definition SSTATUS_UIE : Z := Z.shiftl 1 0.

(** ** The CPU *)

Record Context := mkContext {
  ctx_ra : Z; ctx_sp : Z;
  ctx_s0 : Z; ctx_s1 : Z; ctx_s2 : Z; ctx_s3 : Z; ctx_s4 : Z; ctx_s5 : Z;
  ctx_s6 : Z; ctx_s7 : Z; ctx_s8 : Z; ctx_s9 : Z; ctx_s10 : Z; ctx_s11 : Z;
}.

(** [Context::zero], also the derived [Default]. *)
Definition Context_zero : Context := mkContext 0 0 0 0 0 0 0 0 0 0 0 0 0 0.

(** [current] is the raw pointer into the process table: null or an index. *)
Record Cpu := mkCpu {
  current : option nat;
  context : Context;
  interrupt_off_stack : Z;
  interrupt_prev_state : bool;
}.

(** [Cpu::new]. *)
Definition Cpu_new : Cpu := mkCpu None Context_zero 0 false.

(** ** What the kernel takes from outside *)

(** Third-party code and link-time values.  [heap_*] is
    [buddy_system_allocator::Heap<32>], which keeps its free lists in the free
    memory itself and so may write there; [lock_*] is [spin::Mutex], whose
    [lock] spins for ever ([None]) on a held lock of a single hart; the rest are
    linker symbols, function addresses and the embedded user programs. *)
Class Env := {
  heap_t : Type;
  heap_new : heap_t;
  heap_init : heap_t → mem → Z → Z → (heap_t * mem)%type;
  heap_alloc : heap_t → mem → Layout → (option Z * heap_t * mem)%type;
  heap_dealloc : heap_t → mem → Z → Layout → (heap_t * mem)%type;
  lock_t : Type;
  lock_new : lock_t;
  lock_acquire : lock_t → option lock_t;
  lock_release : lock_t → lock_t;
  etext : Z;
  ekernel : Z;
  trampoline : Z;
  uservec_addr : Z;
  userret_addr : Z;
  kernelvec_addr : Z;
  usertrap_addr : Z;
  forkret_addr : Z;
  INIT : (Z * Z)%type;
  PRIME : (Z * Z)%type;
}.

(** Memory the heap may use for itself: inside the heap, not handed out. *)
Definition heap_area `{Env} (a : Z) : Prop := ekernel ≤ a < RAMEND.

(** What the kernel relies on.  [heap_live] is the set of frames handed out with
    [PAGE_LAYOUT], [heap_capacity] how many can be out at once; [heap_inv] says
    the heap's own structures are intact.  The
    allocator never touches a frame it has handed out, and stays intact as long
    as nobody writes to memory it has not handed out. *)
Class EnvLaws (E : Env) := {
  heap_live : heap_t → gset Z;
  heap_capacity : heap_t → nat;
  heap_inv : heap_t → mem → Prop;
  heap_live_frame h m p : heap_inv h m → p ∈ heap_live h →
    page_aligned p ∧ ekernel ≤ p ∧ p + page_size ≤ RAMEND;
  heap_inv_frame h m m' : heap_inv h m →
    (∀ a, heap_area a → page_of a ∉ heap_live h → ld8 m' a = ld8 m a) →
    heap_inv h m';
  heap_init_spec m h' m' :
    heap_init heap_new m ekernel (RAMEND - ekernel) = (h', m') →
    heap_inv h' m' ∧ heap_live h' = ∅ ∧
    (∀ a, ¬ heap_area a → ld8 m' a = ld8 m a);
  heap_alloc_spec h m r h' m' : heap_inv h m →
    heap_alloc h m PAGE_LAYOUT = (r, h', m') →
    heap_inv h' m' ∧
    (∀ a, page_of a ∈ heap_live h ∨ ¬ heap_area a → ld8 m' a = ld8 m a) ∧
    match r with
    | Some p => (p ∉ heap_live h) ∧ heap_live h' = {[p]} ∪ heap_live h
    | None => heap_live h' = heap_live h ∧ (heap_capacity h ≤ size (heap_live h))%nat
    end ∧
    heap_capacity h' = heap_capacity h;
  heap_dealloc_spec h m p h' m' : heap_inv h m → p ∈ heap_live h →
    heap_dealloc h m p PAGE_LAYOUT = (h', m') →
    heap_inv h' m' ∧ heap_live h' = heap_live h ∖ {[p]} ∧
    heap_capacity h' = heap_capacity h ∧
    (∀ a, page_of a ∈ heap_live h' ∨ ¬ heap_area a → ld8 m' a = ld8 m a);
  lock_held : lock_t → bool;
  lock_new_free : lock_held lock_new = false;
  lock_acquire_free l : lock_held l = false →
    ∃ l', lock_acquire l = Some l' ∧ lock_held l' = true;
  lock_acquire_held l : lock_held l = true → lock_acquire l = None;
  lock_release_free l : lock_held (lock_release l) = false;
  etext_aligned : page_aligned etext;
  ekernel_aligned : page_aligned ekernel;
  text_after_start : KERNEL_START < etext;
  etext_before_ekernel : etext ≤ ekernel;
  ekernel_before_end : ekernel < RAMEND;
  trampoline_last : trampoline = etext - page_size;
  uservec_inside : trampoline ≤ uservec_addr < trampoline + page_size;
  userret_inside : trampoline ≤ userret_addr < trampoline + page_size;
  usertrap_u32 : is_u32 usertrap_addr;
}.

(** ** The machine state and its primitive operations *)

Section machine.
Context {E : Env}.

Record Machine := mkMachine {
  m_mem : mem;
  m_heap : heap_t;
  m_heap_lock : lock_t;
  m_cpu : Cpu;
  m_csr : csrs;
  m_uart : list Z;
}.

Definition set_mem (m : mem) (s : Machine) : Machine :=
  mkMachine m (m_heap s) (m_heap_lock s) (m_cpu s) (m_csr s) (m_uart s).
Definition set_heap (h : heap_t) (s : Machine) : Machine :=
  mkMachine (m_mem s) h (m_heap_lock s) (m_cpu s) (m_csr s) (m_uart s).
Definition set_heap_lock (l : lock_t) (s : Machine) : Machine :=
  mkMachine (m_mem s) (m_heap s) l (m_cpu s) (m_csr s) (m_uart s).
Definition set_cpu (c : Cpu) (s : Machine) : Machine :=
  mkMachine (m_mem s) (m_heap s) (m_heap_lock s) c (m_csr s) (m_uart s).
Definition set_csr (f : csrs) (s : Machine) : Machine :=
  mkMachine (m_mem s) (m_heap s) (m_heap_lock s) (m_cpu s) f (m_uart s).
Definition set_uart (o : list Z) (s : Machine) : Machine :=
  mkMachine (m_mem s) (m_heap s) (m_heap_lock s) (m_cpu s) (m_csr s) o.

Abbreviation MM := (M Machine).

(** [read_csr!] is [csrrc rd, csr, x0]: it clears no bit. *)
Definition read_csr (c : csr_name) : MM Z := gets (λ s, m_csr s c).
(** [write_csr!] is [csrrw x0, csr, rs]. *)
Definition write_csr (c : csr_name) (v : Z) : MM unit :=
  modify (λ s, set_csr (csr_set (m_csr s) c v) s).

(** A raw access of [n] bytes at [a] is defined when it stays in RAM (which the
    kernel maps at its own addresses). *)
Definition in_ram (a n : Z) : Prop := RAMSTART ≤ a ∧ a + n ≤ RAMEND.
#[global] Instance in_ram_dec a n : Decision (in_ram a n) := _.

(** Whether the hart translates addresses. *)
Definition paging (s : Machine) : bool := Z.testbit (m_csr s satp) 31.

(** A store must not reach the kernel's text either, once [start_kvm] has turned
    translation on: [Kvm::init] maps the text, which RAM starts with, readable and
    executable only, so the hart takes a store page fault there.  In the running system the
    table that satp selects allows exactly these accesses (IsolProps.v). *)
Definition storable (s : Machine) (a n : Z) : Prop :=
  in_ram a n ∧ (paging s = true → etext ≤ a).
#[global] Instance storable_dec s a n : Decision (storable s a n).
Proof. unfold storable. apply _. Defined.

(** [ptr::read] and [ptr::write] of a byte and of an aligned word. *)
Definition read8 (a : Z) : MM Z :=
  if decide (in_ram a 1) then gets (λ s, ld8 (m_mem s) a) else fault.
Definition write8 (a v : Z) : MM unit :=
  λ s, if decide (storable s a 1) then Done tt (set_mem (st8 (m_mem s) a v) s) else Fault.
Definition read32 (a : Z) : MM Z :=
  if decide (in_ram a 4 ∧ a mod 4 = 0) then gets (λ s, ld32 (m_mem s) a) else fault.
Definition write32 (a v : Z) : MM unit :=
  λ s, if decide (storable s a 4 ∧ a mod 4 = 0)
       then Done tt (set_mem (st32 (m_mem s) a v) s) else Fault.

(** [ptr::write_bytes], [n] counted in bytes. *)
Definition write_bytes (a v n : Z) : MM unit :=
  λ s, if decide (storable s a n)
       then Done tt (set_mem (fill (m_mem s) a (Z.to_nat n) v) s) else Fault.

(** [ptr::copy_nonoverlapping] of [n] bytes. *)
Definition copy_nonoverlapping (src dst n : Z) : MM unit :=
  λ s, if decide (in_ram src n ∧ storable s dst n ∧ (src + n ≤ dst ∨ dst + n ≤ src))
       then Done tt (set_mem
              (store_list (m_mem s) dst (load_list (m_mem s) src (Z.to_nat n))) s)
       else Fault.
End machine.
Abbreviation MM := (M Machine).

(** [NonNull::new]. *)
Definition NonNull_new (p : Z) : option Z := if decide (p = 0) then None else Some p.

(** [ptr.add(i)] on a pointer to [usize]. *)
Definition ptr_add (p i : Z) : Z := p + 4 * i.

(** ** Memory facts *)

Lemma ld8_range m a : 0 ≤ ld8 m a < 256.
Proof. unfold ld8. by apply Z.mod_pos_bound. Qed.

Lemma ld8_st8 m a v b : ld8 (st8 m a v) b = if decide (a = b) then v mod 256 else ld8 m b.
Proof.
  unfold ld8, st8. destruct (decide (v mod 256 = 0)) as [Hv|_].
  - rewrite lookup_delete. case_decide; simpl; [by rewrite Hv|done].
  - rewrite lookup_insert. case_decide; simpl; [by rewrite Z.mod_mod|done].
Qed.

Lemma ld32_range m a : is_u32 (ld32 m a).
Proof.
  unfold ld32, is_u32, U32.
  pose proof (ld8_range m a). pose proof (ld8_range m (a + 1)).
  pose proof (ld8_range m (a + 2)). pose proof (ld8_range m (a + 3)). lia.
Qed.
#[export] Hint Resolve ld32_range : u32.

Lemma ld8_st32_other m a v b : b < a ∨ a + 4 ≤ b → ld8 (st32 m a v) b = ld8 m b.
Proof. intros. unfold st32. rewrite !ld8_st8. repeat case_decide; lia || done. Qed.

Lemma ld32_st32_same m a v : is_u32 v → ld32 (st32 m a v) a = v.
Proof.
  unfold is_u32, U32. intros Hv. unfold ld32, st32. rewrite !ld8_st8.
  repeat case_decide; try lia. Z.div_mod_to_equations. lia.
Qed.

Lemma ld32_ext m m' a : (∀ b, a ≤ b < a + 4 → ld8 m' b = ld8 m b) → ld32 m' a = ld32 m a.
Proof. intros H. unfold ld32. by rewrite !H by lia. Qed.

Lemma ld32_st32_other m a v b : b + 4 ≤ a ∨ a + 4 ≤ b → ld32 (st32 m a v) b = ld32 m b.
Proof. intros. apply ld32_ext. intros. apply ld8_st32_other. lia. Qed.

Lemma ld8_fill m a n v b :
  ld8 (fill m a n v) b = if decide (a ≤ b < a + Z.of_nat n) then v mod 256 else ld8 m b.
Proof.
  revert m a. induction n as [|n IH]; intros m a; simpl fill.
  { case_decide; [lia|done]. }
  rewrite IH, ld8_st8. repeat case_decide; lia || done.
Qed.

Lemma ld32_fill_zero m a n b :
  a ≤ b → b + 4 ≤ a + Z.of_nat n → ld32 (fill m a n 0) b = 0.
Proof.
  intros H1 H2. unfold ld32. rewrite !ld8_fill, !decide_True by lia. done.
Qed.

(** A page of zeroes, [write_bytes(p, 0, 1024)] on a pointer to [usize]. *)
Definition zero_page (m : mem) (p : Z) : mem := fill m p (Z.to_nat (1024 * 4)) 0.

Lemma ld8_zero_page m p a :
  ld8 (zero_page m p) a = if decide (p ≤ a < p + page_size) then 0 else ld8 m a.
Proof.
  unfold zero_page. rewrite ld8_fill.
  by change (Z.of_nat (Z.to_nat (1024 * 4))) with page_size.
Qed.

Lemma ld32_zero_page m p a :
  p ≤ a → a + 4 ≤ p + page_size → ld32 (zero_page m p) a = 0.
Proof.
  intros. unfold zero_page. apply ld32_fill_zero; [done|].
  by change (Z.of_nat (Z.to_nat (1024 * 4))) with page_size.
Qed.

Lemma ld8_store_list m a l b :
  ld8 (store_list m a l) b =
    match l !! Z.to_nat (b - a) with
    | Some v => if decide (a ≤ b) then v mod 256 else ld8 m b
    | None => ld8 m b
    end.
Proof.
  revert m a. induction l as [|x l IH]; intros m a; simpl store_list; [done|].
  rewrite IH, ld8_st8.
  destruct (decide (a = b)) as [->|Hne].
  - rewrite Z.sub_diag. simpl. rewrite (decide_True (P := b ≤ b)) by lia.
    destruct (l !! _); [|done]. rewrite decide_False by lia. done.
  - destruct (decide (a ≤ b)).
    + replace (Z.to_nat (b - a)) with (S (Z.to_nat (b - (a + 1)))) by lia. simpl.
      destruct (l !! _); [|done]. by rewrite decide_True by lia.
    + destruct (l !! Z.to_nat _), ((_ :: _) !! Z.to_nat _);
        rewrite ?decide_False by lia; done.
Qed.

Lemma length_load_list m a n : length (load_list m a n) = n.
Proof. revert a. induction n as [|n IH]; intros a; cbn [load_list length]; [done|by rewrite IH]. Qed.

Lemma load_list_lookup m a n i :
  (i < n)%nat → load_list m a n !! i = Some (ld8 m (a + Z.of_nat i)).
Proof.
  revert a i. induction n as [|n IH]; intros a [|i] Hi; cbn [load_list lookup list_lookup]; [lia|lia|by rewrite Z.add_0_r|].
  rewrite IH by lia. do 2 f_equal. lia.
Qed.

Lemma load_list_cons m a n : load_list m a (S n) = ld8 m a :: load_list m (a + 1) n.
Proof. done. Qed.

(** Copying [n] bytes makes the destination read like the source did. *)
Lemma ld8_copy m src dst n b :
  0 ≤ n →
  ld8 (store_list m dst (load_list m src (Z.to_nat n))) b =
    if decide (dst ≤ b < dst + n) then ld8 m (src + (b - dst)) else ld8 m b.
Proof.
  intros Hn. rewrite ld8_store_list.
  destruct (decide (dst ≤ b < dst + n)) as [H|H].
  - rewrite load_list_lookup by lia. rewrite decide_True by lia.
    rewrite Z2Nat.id by lia. apply Z.mod_small, ld8_range.
  - destruct (decide (dst ≤ b)); [|by destruct (_ !! _); rewrite ?decide_False by lia].
    rewrite lookup_ge_None_2; [done|]. rewrite length_load_list. lia.
Qed.

(** ** Specifications of the primitives *)

(** RAM above the kernel's text, where a store is always allowed. *)
Definition in_data `{Env} (a n : Z) : Prop := etext ≤ a ∧ a + n ≤ RAMEND.

Section primitive_specs.
Context {E : Env} {EL : EnvLaws E} {fails : Prop}.
Local Abbreviation wp := (wpo fails).
Implicit Types (s : Machine).

Lemma in_data_ram a n : in_data a n → in_ram a n.
Proof.
  pose proof text_after_start. unfold in_data, in_ram, KERNEL_START, RAMSTART in *. lia.
Qed.
Lemma in_data_storable s a n : in_data a n → storable s a n.
Proof. intros Ha. split; [by apply in_data_ram|]. intros _. apply Ha. Qed.

Lemma wp_read_csr c (Q : Z → Machine → Prop) s : Q (m_csr s c) s → wp (read_csr c) Q s.
Proof. done. Qed.
Lemma wp_write_csr c v (Q : unit → Machine → Prop) s :
  Q tt (set_csr (csr_set (m_csr s) c v) s) → wp (write_csr c v) Q s.
Proof. done. Qed.

Lemma wp_read32 a (Q : Z → Machine → Prop) s :
  in_ram a 4 → a mod 4 = 0 → Q (ld32 (m_mem s) a) s → wp (read32 a) Q s.
Proof. intros. unfold read32. by rewrite decide_True. Qed.
Lemma wp_write32 a v (Q : unit → Machine → Prop) s :
  in_data a 4 → a mod 4 = 0 →
  Q tt (set_mem (st32 (m_mem s) a v) s) → wp (write32 a v) Q s.
Proof. intros. unfold write32, wpo. by rewrite decide_True by (split; [by apply in_data_storable|done]). Qed.
Lemma wp_read8 a (Q : Z → Machine → Prop) s :
  in_ram a 1 → Q (ld8 (m_mem s) a) s → wp (read8 a) Q s.
Proof. intros. unfold read8. by rewrite decide_True. Qed.
Lemma wp_write8 a v (Q : unit → Machine → Prop) s :
  in_data a 1 → Q tt (set_mem (st8 (m_mem s) a v) s) → wp (write8 a v) Q s.
Proof. intros. unfold write8, wpo. by rewrite decide_True by by apply in_data_storable. Qed.
Lemma wp_write_bytes a v n (Q : unit → Machine → Prop) s :
  in_data a n →
  Q tt (set_mem (fill (m_mem s) a (Z.to_nat n) v) s) → wp (write_bytes a v n) Q s.
Proof. intros. unfold write_bytes, wpo. by rewrite decide_True by by apply in_data_storable. Qed.
Lemma wp_zero_page p (Q : unit → Machine → Prop) s :
  in_data p page_size → Q tt (set_mem (zero_page (m_mem s) p) s) →
  wp (write_bytes p 0 (1024 * 4)) Q s.
Proof. intros Hr HQ. apply wp_write_bytes; [done|]. unfold zero_page in HQ. exact HQ. Qed.
Lemma wp_copy_nonoverlapping src dst n (Q : unit → Machine → Prop) s :
  in_ram src n → in_data dst n → src + n ≤ dst ∨ dst + n ≤ src →
  Q tt (set_mem (store_list (m_mem s) dst (load_list (m_mem s) src (Z.to_nat n))) s) →
  wp (copy_nonoverlapping src dst n) Q s.
Proof. intros. unfold copy_nonoverlapping, wpo. by rewrite decide_True by (split_and!; [|apply in_data_storable|]; done). Qed.

Lemma csr_set_eq f c v : csr_set f c v c = v.
Proof. unfold csr_set. by rewrite decide_True. Qed.
Lemma csr_set_ne f c c' v : c' ≠ c → csr_set f c v c' = f c'.
Proof. intros. unfold csr_set. by rewrite decide_False. Qed.
End primitive_specs.

#[global] Opaque zero_page.

(** ** Frames and ownership *)

Section frames.
Context {E : Env} {EL : EnvLaws E} {fails : Prop}.
Local Abbreviation wp := (wpo fails).
Implicit Types (s : Machine) (F : gset Z).

(** The frames handed out by the heap. *)
Definition live s : gset Z := heap_live (m_heap s).
(** How many frames the heap can have out at once. *)
Definition capacity s : nat := heap_capacity (m_heap s).

Definition frame_ok (p : Z) : Prop :=
  page_aligned p ∧ ekernel ≤ p ∧ p + page_size ≤ RAMEND.

(** Nothing in the frames [F], nor outside the heap, has changed. *)
Definition agree F (m m' : mem) : Prop :=
  ∀ a, page_of a ∈ F ∨ ¬ heap_area a → ld8 m' a = ld8 m a.

Lemma agree_refl F m : agree F m m.
Proof. done. Qed.
Lemma agree_trans F m1 m2 m3 : agree F m1 m2 → agree F m2 m3 → agree F m1 m3.
Proof. intros H1 H2 a Ha. by rewrite H2, H1. Qed.
Lemma agree_weaken F F' m m' : F' ⊆ F → agree F m m' → agree F' m m'.
Proof. intros HF H a [Ha|Ha]; apply H; [left; set_solver|by right]. Qed.

(** Nothing in the frames [F] has changed. *)
Definition same_on F (m m' : mem) : Prop := ∀ a, page_of a ∈ F → ld8 m' a = ld8 m a.

Lemma agree_same F m m' : agree F m m' → same_on F m m'.
Proof. intros H a Ha. apply H. by left. Qed.
Lemma same_on_trans F m1 m2 m3 : same_on F m1 m2 → same_on F m2 m3 → same_on F m1 m3.
Proof. intros H1 H2 a Ha. by rewrite H2, H1. Qed.
Lemma same_on_weaken F F' m m' : F' ⊆ F → same_on F m m' → same_on F' m m'.
Proof. intros HF H a Ha. apply H. set_solver. Qed.

Lemma frame_ok_range p : frame_ok p → RAMSTART < p ∧ p + page_size ≤ RAMEND.
Proof.
  intros (_ & Hlo & Hhi). pose proof text_after_start. pose proof etext_before_ekernel.
  unfold KERNEL_START, RAMSTART in *. lia.
Qed.

Lemma frame_ok_u32 p : frame_ok p → is_u32 p.
Proof.
  intros H%frame_ok_range. unfold is_u32, U32, RAMSTART, RAMEND, RAMSIZE, RAMSTART in *.
  unfold page_size in H. lia.
Qed.

Lemma frame_ok_in_data p i n :
  frame_ok p → 0 ≤ i → i + n ≤ page_size → in_data (p + i) n.
Proof. intros (_ & Hlo & Hhi). pose proof etext_before_ekernel. unfold in_data. lia. Qed.
Lemma frame_ok_in_ram p i n :
  frame_ok p → 0 ≤ i → i + n ≤ page_size → in_ram (p + i) n.
Proof. intros. by apply in_data_ram, frame_ok_in_data. Qed.

Lemma frame_in_data p : frame_ok p → in_data p page_size.
Proof. intros (_ & Hlo & Hhi). pose proof etext_before_ekernel. unfold in_data. lia. Qed.
Lemma frame_in_ram p : frame_ok p → in_ram p page_size.
Proof. intros. by apply in_data_ram, frame_in_data. Qed.

Lemma frame_ok_heap_area p a : frame_ok p → page_of a = p → heap_area a.
Proof.
  intros (_ & Hlo & Hhi) <-. pose proof (page_of_range a). unfold heap_area. lia.
Qed.

Lemma frame_ok_word p i :
  frame_ok p → 0 ≤ i < 1024 →
  in_data (ptr_add p i) 4 ∧ ptr_add p i mod 4 = 0 ∧
  page_of (ptr_add p i) = p ∧ ptr_add p i + 4 ≤ p + page_size.
Proof.
  unfold ptr_add, page_size. intros Hp Hi. split_and!.
  - apply frame_ok_in_data; [done|lia|unfold page_size; lia].
  - destruct Hp as [Hp _]. unfold page_aligned, page_size in Hp. Z.div_mod_to_equations. lia.
  - apply page_of_add; [apply Hp|unfold page_size; lia].
  - lia.
Qed.

(** A write confined to one frame leaves the others alone. *)
Lemma agree_write p F m m' :
  frame_ok p → p ∉ F → (∀ a, page_of a ≠ p → ld8 m' a = ld8 m a) → agree F m m'.
Proof.
  intros Hp HpF H a Ha. apply H. intros Heq. destruct Ha as [Ha|Ha]; [by subst|].
  by eapply Ha, frame_ok_heap_area.
Qed.

Lemma st32_outside p i m v a :
  frame_ok p → 0 ≤ i < 1024 → page_of a ≠ p → ld8 (st32 m (ptr_add p i) v) a = ld8 m a.
Proof.
  intros Hp Hi Ha. destruct (frame_ok_word p i) as (_ & _ & _ & Hle); [done..|].
  apply ld8_st32_other. unfold ptr_add in *.
  destruct (decide (a < p + 4 * i)); [by left|]. right.
  destruct (decide (p + 4 * i + 4 ≤ a)); [done|]. exfalso. apply Ha.
  apply page_of_inside; [apply Hp|lia].
Qed.

Lemma zero_page_outside p m a :
  frame_ok p → page_of a ≠ p → ld8 (zero_page m p) a = ld8 m a.
Proof.
  intros Hp Ha. rewrite ld8_zero_page, decide_False; [done|]. intros Hr. apply Ha.
  by apply page_of_inside; [apply Hp|].
Qed.
End frames.
