(* ===== verification/SimpleEnv.v ===== *)
(** A concrete instance of the external code, used by the witnesses: a bump
    allocator with a free list that writes a link word into each freed frame, a
    boolean lock, and a link map with the layout of src/kernel/rvem_layout.ld. *)
From S2P Require Export Machine.

Record sheap := mkSheap {
  sh_next : Z;
  sh_limit : Z;
  sh_freed : list Z;
  sh_live : gset Z;
}.

Definition s_ekernel : Z := 0x80240000.
Definition s_etext : Z := 0x80220000.

Definition s_init (h : sheap) (m : mem) (start size : Z) : sheap * mem :=
  (mkSheap start (start + size) [] ∅, m).

Definition s_alloc (h : sheap) (m : mem) (l : Layout) : option Z * sheap * mem :=
  match sh_freed h with
  | p :: f => (Some p, mkSheap (sh_next h) (sh_limit h) f ({[p]} ∪ sh_live h), m)
  | [] =>
      if decide (sh_next h + page_size ≤ sh_limit h)
      then (Some (sh_next h),
            mkSheap (sh_next h + page_size) (sh_limit h) [] ({[sh_next h]} ∪ sh_live h), m)
      else (None, h, m)
  end.

Definition s_dealloc (h : sheap) (m : mem) (p : Z) (l : Layout) : sheap * mem :=
  (mkSheap (sh_next h) (sh_limit h) (p :: sh_freed h) (sh_live h ∖ {[p]}),
   st32 m p (default 0 (head (sh_freed h)))).

Definition simple_env : Env := {|
  heap_t := sheap;
  heap_new := mkSheap 0 0 [] ∅;
  heap_init := s_init;
  heap_alloc := s_alloc;
  heap_dealloc := s_dealloc;
  lock_t := bool;
  lock_new := false;
  lock_acquire l := if l then None else Some true;
  lock_release l := false;
  etext := s_etext;
  ekernel := s_ekernel;
  trampoline := 0x8021f000;
  uservec_addr := 0x8021f000;
  userret_addr := 0x8021f0a0;
  kernelvec_addr := 0x80210000;
  usertrap_addr := 0x80210100;
  forkret_addr := 0x80210200;
  INIT := (0x80230000, 0x1800);
  PRIME := (0x80232000, 0x1000);
|}.

(** A frame below the bump pointer. *)
Definition s_frame (h : sheap) (p : Z) : Prop :=
  page_aligned p ∧ s_ekernel ≤ p ∧ p + page_size ≤ sh_next h.

Record s_inv (h : sheap) (m : mem) : Prop := {
  si_next : page_aligned (sh_next h) ∧ s_ekernel ≤ sh_next h ∧ sh_next h ≤ RAMEND;
  si_limit : sh_limit h = RAMEND;
  si_live p : p ∈ sh_live h → s_frame h p;
  si_freed p : p ∈ sh_freed h → s_frame h p ∧ p ∉ sh_live h;
  si_nodup : NoDup (sh_freed h);
  si_count : Z.of_nat (size (sh_live h) + length (sh_freed h)) * page_size =
    sh_next h - s_ekernel;
}.

Definition s_capacity (h : sheap) : nat := Z.to_nat ((RAMEND - s_ekernel) / page_size).

Lemma s_alloc_spec (h : sheap) m r h' m' :
  s_inv h m → s_alloc h m PAGE_LAYOUT = (r, h', m') →
  s_inv h' m' ∧ m' = m ∧
  match r with
  | Some p => (p ∉ sh_live h) ∧ sh_live h' = {[p]} ∪ sh_live h
  | None => sh_live h' = sh_live h ∧ (s_capacity h ≤ size (sh_live h))%nat
  end.
Proof.
  intros [(Hn1 & Hn2 & Hn3) Hlim Hlive Hfreed Hnd Hcount] Heq. unfold s_alloc in Heq.
  destruct (sh_freed h) as [|p f] eqn:Hf; [case_decide as Hle|]; simplify_eq; cbn [sh_live].
  - assert (sh_next h ∉ sh_live h) as Hnx.
    { intros Hin%Hlive. destruct Hin as (_ & _ & H). unfold page_size in H. lia. }
    split_and!; [|done..].
    + split; cbn [sh_next sh_limit sh_freed sh_live]; try done.
      * split; [by apply page_aligned_next|]. unfold page_size in *. lia.
      * intros q [->%elem_of_singleton|Hq]%elem_of_union; unfold s_frame; cbn [sh_next].
        -- split; [done|]. lia.
        -- destruct (Hlive q Hq) as (? & ? & ?). split; [done|]. unfold page_size in *. lia.
      * intros q Hq. by apply elem_of_nil in Hq.
      * rewrite size_union, size_singleton by (by apply disjoint_singleton_l). cbn in *. unfold page_size in *. lia.
  - split_and!; [|done|done|].
    + split; try done; rewrite Hf; done.
    + unfold s_capacity. rewrite Hlim in Hle. cbn in Hcount. unfold page_size in *.
      apply Nat2Z.inj_le. rewrite Z2Nat.id by done.
      apply Z.lt_succ_r, Z.div_lt_upper_bound; lia.
  - assert (p ∉ sh_live h) as Hpl by (by apply Hfreed; left).
    split_and!; [|done|done|done].
    apply NoDup_cons in Hnd as [Hpf Hnd].
    split; cbn [sh_next sh_limit sh_freed sh_live]; try done.
    + intros q [->%elem_of_singleton|Hq]%elem_of_union; [|by apply Hlive].
      by apply (Hfreed p); left.
    + intros q Hq. destruct (Hfreed q) as [? ?]; [by right|]. split; [done|]. set_solver.
    + rewrite size_union, size_singleton by (by apply disjoint_singleton_l). cbn in *. lia.
Qed.

Lemma s_dealloc_spec (h : sheap) m p h' m' :
  s_inv h m → p ∈ sh_live h → s_dealloc h m p PAGE_LAYOUT = (h', m') →
  s_inv h' m' ∧ sh_live h' = sh_live h ∖ {[p]} ∧
  (∀ a, page_of a ≠ p → ld8 m' a = ld8 m a).
Proof.
  intros [Hn Hlim Hlive Hfreed Hnd Hcount] Hp Heq. unfold s_dealloc in Heq. simplify_eq.
  cbn [sh_live]. split_and!; [|done|].
  - split; cbn [sh_next sh_limit sh_freed sh_live]; try done.
    + intros q Hq. apply Hlive. set_solver.
    + intros q [->|Hq]%elem_of_cons; [split; [by apply Hlive|set_solver]|].
      destruct (Hfreed q Hq). split; [done|set_solver].
    + apply NoDup_cons. split; [|done]. intros Hin. by destruct (Hfreed p Hin).
    + rewrite size_difference, size_singleton by set_solver. cbn [length].
      assert (size (sh_live h) ≠ 0%nat) by (intros ?%size_empty_inv; set_solver).
      rewrite <- Hcount. f_equal. lia.
  - intros a Ha. apply ld8_st32_other.
    destruct (decide (a < p)); [by left|right]. destruct (decide (p + 4 ≤ a)); [done|].
    exfalso. apply Ha, page_of_inside; [by apply (Hlive p)|unfold page_size; lia].
Qed.

Definition simple_laws : EnvLaws simple_env.
Proof.
  refine {| heap_live := sh_live : @heap_t simple_env → gset Z;
            heap_capacity := s_capacity : @heap_t simple_env → nat;
            heap_inv := s_inv : @heap_t simple_env → mem → Prop;
            lock_held := id : @lock_t simple_env → bool |}.
  - intros h m p Hinv Hp. destruct (si_live h m Hinv p Hp) as (? & ? & ?).
    destruct (si_next h m Hinv) as (_ & _ & ?). split_and!; [done..|lia].
  - intros h m m' [] _. by split.
  - intros h' m m' Heq. unfold heap_init in Heq; cbn in Heq. unfold s_init in Heq.
    simplify_eq. split_and!; [|done|done]. split; cbn [sh_next sh_limit sh_freed sh_live]; try done.
    + intros p Hp. by apply elem_of_nil in Hp.
    + constructor.
  - intros h m r h' m' Hinv Heq. destruct (s_alloc_spec h m r h' m' Hinv Heq) as (? & -> & ?). done.
  - intros h m p h' m' Hinv Hp Heq.
    destruct (s_dealloc_spec h m p h' m' Hinv Hp Heq) as (? & Hl & Hm).
    split_and!; [done|done|done|].
    intros a Ha. apply Hm. intros <-. destruct Ha as [Ha|Ha].
    + rewrite Hl in Ha. set_solver.
    + apply Ha. destruct (si_live h m Hinv _ Hp) as (? & ? & ?).
      destruct (si_next h m Hinv) as (_ & _ & ?).
      pose proof (page_of_range a). unfold heap_area, ekernel; cbn. lia.
  - done.
  - intros [] ?; [done|]. by eexists.
  - by intros [].
  - done.
  - done.
  - done.
  - done.
  - done.
  - done.
  - done.
  - done.
  - done.
  - done.
Defined.

(** The machine before [main] has touched it, with an initialised heap and
    interrupts off. *)
Definition boot_machine : @Machine simple_env :=
  @mkMachine simple_env ∅ (mkSheap s_ekernel RAMEND [] ∅) false Cpu_new (λ _, 0) [].
