(* ===== verification/Cpu.v ===== *)
(** Interrupt control (src/kernel/src/trap.rs), the interrupt-disable stack of
    [Cpu] (src/kernel/src/kernel.rs) and the interrupt-safe mutex [IntMutex]
    (src/kernel/src/lock.rs). *)
From S2P Require Export Machine.
From S2P Require Import SimpleEnv.

(** ** Interrupts *)

Section interrupts.
Context {E : Env}.

(** [const SSTATUS_SIE] of trap.rs. *)
Definition trap_SSTATUS_SIE : Z := Z.shiftl 1 1.

Definition interrupt_on : MM unit :=
  sst ← read_csr sstatus;
  write_csr sstatus (Z.lor sst trap_SSTATUS_SIE).

Definition interrupt_off : MM unit :=
  sst ← read_csr sstatus;
  write_csr sstatus (Z.land sst (not32 trap_SSTATUS_SIE)).

Definition interrupt_read : MM bool :=
  state ← (sst ← read_csr sstatus; mret (Z.land sst trap_SSTATUS_SIE));
  mret (bool_decide (state ≠ 0)).

(** ** Cpu *)

Definition set_stack (n : Z) (c : Cpu) : Cpu :=
  mkCpu (current c) (context c) n (interrupt_prev_state c).
Definition set_prev (b : bool) (c : Cpu) : Cpu :=
  mkCpu (current c) (context c) (interrupt_off_stack c) b.
Definition modify_cpu (f : Cpu → Cpu) : MM unit := modify (λ s, set_cpu (f (m_cpu s)) s).

Definition push_interrupt_off : MM unit :=
  old ← interrupt_read;
  interrupt_off;;
  self ← gets m_cpu;
  (if decide (interrupt_off_stack self = 0)
   then modify_cpu (set_prev old) else mret tt);;
  n ← add32 (interrupt_off_stack self) 1;
  modify_cpu (set_stack n).

Definition pop_interrupt_off : MM unit :=
  self ← gets m_cpu;
  if decide (interrupt_off_stack self < 1) then panic_with PPopEmpty
  else
    n ← sub32 (interrupt_off_stack self) 1;
    modify_cpu (set_stack n);;
    if decide (n = 0 ∧ interrupt_prev_state self = true) then interrupt_on else mret tt.

(** ** IntMutex

    The protected value and the [spin::Mutex] are stored by the caller, so the
    operations take and return the mutex. *)

Definition IntMutex_new : lock_t := lock_new.

(** [self.0.lock()] of [spin::Mutex]. *)
Definition spin_lock (l : lock_t) : MM lock_t :=
  match lock_acquire l with Some l' => mret l' | None => spin end.

Definition IntMutex_lock (self : lock_t) : MM lock_t :=
  push_interrupt_off;; spin_lock self.

(** [drop] of [IntMutexGuard]: the inner guard is dropped first. *)
Definition IntMutexGuard_drop (self : lock_t) : MM lock_t :=
  let self' := lock_release self in
  pop_interrupt_off;; mret self'.

(** The guard is forgotten, so the mutex stays locked. *)
Definition lock_manual (self : lock_t) : MM lock_t :=
  push_interrupt_off;; spin_lock self.

Definition unlock_manual (self : lock_t) : MM lock_t :=
  let self' := lock_release self in
  pop_interrupt_off;; mret self'.
End interrupts.

(** ** Specifications *)

Section specs.
Context {E : Env} {fails : Prop}.
Local Abbreviation wp := (wpo fails).
Implicit Types (s : Machine).

(** Are supervisor interrupts on? *)
Definition sie_on s : bool := Z.testbit (m_csr s sstatus) 1.
Definition stack s : Z := interrupt_off_stack (m_cpu s).
Definition prev s : bool := interrupt_prev_state (m_cpu s).

(** What every kernel operation relies on: interrupts are on only when the
    disable stack is empty, and the counter is far from overflow. *)
Record cpu_ok s : Prop := {
  co_u32 : is_u32 (m_csr s sstatus);
  co_stack : 0 ≤ stack s < U32 - 8;
  co_sie : sie_on s = true → stack s = 0;
}.

Definition csr_eq (f g : csrs) : Prop := ∀ c, f c = g c.

#[global] Instance csr_eq_equiv : Equivalence csr_eq.
Proof.
  split; [done| |].
  - intros f g H c. symmetry. apply H.
  - intros f g h H1 H2 c. trans (g c); [apply H1|apply H2].
Qed.

(** The state between a [push] and its [pop]. *)
Definition pushed s : Machine :=
  set_cpu (mkCpu (current (m_cpu s)) (context (m_cpu s)) (stack s + 1)
             (if decide (stack s = 0) then sie_on s else prev s))
    (set_csr (csr_set (m_csr s) sstatus
                (Z.land (m_csr s sstatus) (not32 trap_SSTATUS_SIE))) s).

Lemma interrupt_read_spec (Q : bool → Machine → Prop) s :
  Q (sie_on s) s → wp interrupt_read Q s.
Proof.
  intros HQ. unfold interrupt_read. wp_pure. apply wp_read_csr. wp_pure.
  assert (bool_decide (Z.land (m_csr s sstatus) trap_SSTATUS_SIE ≠ 0) = sie_on s) as ->; [|done].
  unfold sie_on. rewrite <- (flag_bit _ 1) by done. change trap_SSTATUS_SIE with (2 ^ 1).
  assert (0 ≤ Z.land (m_csr s sstatus) (2 ^ 1)) by (apply Z.land_nonneg; right; done).
  destruct (1 <=? _) eqn:Hle; rewrite ?Z.leb_le, ?Z.leb_gt in Hle.
  - apply bool_decide_eq_true. lia.
  - apply bool_decide_eq_false. lia.
Qed.

Lemma push_spec (Q : unit → Machine → Prop) s :
  stack s < U32 - 1 → Q tt (pushed s) → wp push_interrupt_off Q s.
Proof.
  intros Hst HQ. unfold push_interrupt_off. apply wp_bind, interrupt_read_spec.
  unfold interrupt_off. wp_pure. apply wp_read_csr. wp_pure. apply wp_write_csr. wp_pure.
  unfold pushed, stack, modify_cpu in *. simpl.
  destruct (decide (interrupt_off_stack (m_cpu s) = 0)); wp_pure; simpl;
    (apply wp_add32; [lia|]); wp_pure; done.
Qed.

Lemma sie_on_pushed s : sie_on (pushed s) = false.
Proof. 
  unfold sie_on, pushed. cbn [set_cpu set_csr m_csr].
  rewrite csr_set_eq, Z.land_spec. apply andb_false_r.
Qed.

Lemma restore_bit w : is_u32 w → Z.testbit w 1 = true →
  Z.lor (Z.land w (not32 trap_SSTATUS_SIE)) trap_SSTATUS_SIE = w.
Proof.
  intros Hw Hb. change (not32 trap_SSTATUS_SIE) with 0xfffffffd.
  change trap_SSTATUS_SIE with 2. bits32. by rewrite Hb.
Qed.

Lemma clear_clear w : is_u32 w → Z.testbit w 1 = false →
  Z.land w (not32 trap_SSTATUS_SIE) = w.
Proof.
  intros Hw Hb. change (not32 trap_SSTATUS_SIE) with 0xfffffffd. bits32. by rewrite Hb.
Qed.

(** [s'] has the same interrupt state as [s] and has printed nothing.  The saved
    state is scratch while the disable stack is empty. *)
Record same_cpu s s' : Prop := {
  sc_current : current (m_cpu s') = current (m_cpu s);
  sc_context : context (m_cpu s') = context (m_cpu s);
  sc_stack : stack s' = stack s;
  sc_prev : stack s ≠ 0 → prev s' = prev s;
  sc_csr : csr_eq (m_csr s') (m_csr s);
  sc_uart : m_uart s' = m_uart s;
}.

#[global] Instance same_cpu_preorder : PreOrder same_cpu.
Proof.
  split; [by split|]. intros s1 s2 s3 [] []. split; try congruence.
  intros. rewrite sc_prev1, sc_prev0; congruence.
Qed.

Lemma same_cpu_sie s s' : same_cpu s s' → sie_on s' = sie_on s.
Proof. intros H. unfold sie_on. by rewrite (sc_csr _ _ H). Qed.

Lemma cpu_ok_same s s' : same_cpu s s' → cpu_ok s → cpu_ok s'.
Proof.
  intros H [H1 H2 H3]. split; rewrite ?(sc_csr _ _ H), ?(sc_stack _ _ H); try done.
  rewrite (same_cpu_sie _ _ H). done.
Qed.

(** Everything but the CPU record and the CSRs is untouched. *)
Definition only_cpu s s' : Prop :=
  m_mem s' = m_mem s ∧ m_heap s' = m_heap s ∧ m_heap_lock s' = m_heap_lock s ∧
  m_uart s' = m_uart s.

Lemma interrupt_on_spec (Q : unit → Machine → Prop) s :
  Q tt (set_csr (csr_set (m_csr s) sstatus (Z.lor (m_csr s sstatus) trap_SSTATUS_SIE)) s) →
  wp interrupt_on Q s.
Proof. done. Qed.

(** A [pop] undoes the matching [push]. *)
Lemma pop_spec (Q : unit → Machine → Prop) s s1 :
  cpu_ok s → m_cpu s1 = m_cpu (pushed s) → csr_eq (m_csr s1) (m_csr (pushed s)) →
  m_uart s1 = m_uart s →
  (∀ s2, same_cpu s s2 → only_cpu s1 s2 → Q tt s2) →
  wp pop_interrupt_off Q s1.
Proof.
  intros [Hu Hst Hsie] Hcpu Hcsr Huart HQ.
  destruct s1 as [me h hl c f o]; simpl in *; subst c o.
  unfold pop_interrupt_off, modify_cpu. wp_pure. cbn [m_cpu interrupt_off_stack].
  rewrite decide_False by lia. apply wp_bind, wp_sub32; [lia|]. wp_pure.
  rewrite Z.add_simpl_r. cbn [interrupt_prev_state].
  assert (∀ c : csr_name, c ≠ sstatus → f c = m_csr s c) as Hother.
  { intros c Hc. etrans; [apply Hcsr|].
    by apply csr_set_ne. }
  assert (f sstatus = Z.land (m_csr s sstatus) (not32 trap_SSTATUS_SIE)) as Hsst.
  { etrans; [apply Hcsr|]. apply csr_set_eq. }
  assert (sie_on s = false → csr_eq f (m_csr s)) as Hoff.
  { intros Hoff c. destruct (decide (c = Named sstatus)) as [->|Hc]; [|by apply Hother].
    rewrite Hsst. by apply clear_clear. }
  destruct (decide (stack s = 0)) as [H0|H0].
  - destruct (sie_on s) eqn:Hon.
    + rewrite decide_True by done. apply interrupt_on_spec, HQ; [|by unfold only_cpu].
      split; try done. intros c. cbn. unfold csr_set.
      case_decide; [|by apply Hother]. subst. rewrite Hsst. by apply restore_bit.
    + rewrite decide_False by (intros [_ ?]; congruence).
      apply wp_ret, HQ; [|by unfold only_cpu]. split; try done. by apply Hoff.
  - assert (sie_on s = false) as Hsoff.
    { destruct (sie_on s); [|done]. by rewrite Hsie in H0. }
    rewrite decide_False by lia. apply wp_ret, HQ; [|by unfold only_cpu].
    split; try done. by apply Hoff.
Qed.

(** Any depth of nesting: [n] pushes, the body, [n] pops. *)
Fixpoint nested {A} (n : nat) (body : MM A) : MM A :=
  match n with
  | O => body
  | S n =>
      push_interrupt_off;;
      a ← nested n body;
      pop_interrupt_off;;
      mret a
  end.

Lemma cpu_ok_pushed s : cpu_ok s → stack s + 1 < U32 - 8 → cpu_ok (pushed s).
Proof.
  intros [Hu Hst Hsie] Hlt. split.
  - cbn -[csr_set]. rewrite csr_set_eq. by apply is_u32_land_l.
  - change (stack (pushed s)) with (stack s + 1). lia.
  - by rewrite sie_on_pushed.
Qed.
End specs.

Section lock_specs.
Context {E : Env} {EL : EnvLaws E} {fails : Prop}.
Local Abbreviation wp := (wpo fails).
Implicit Types (s : Machine).

Lemma IntMutex_lock_spec (l : lock_t) (Q : lock_t → Machine → Prop) s :
  stack s < U32 - 1 → lock_held l = false →
  (∀ l', lock_held l' = true → Q l' (pushed s)) →
  wp (IntMutex_lock l) Q s.
Proof.
  intros Hst Hfree HQ. unfold IntMutex_lock. apply wp_bind, push_spec; [done|].
  unfold spin_lock. destruct (lock_acquire_free l Hfree) as (l' & -> & Hl').
  apply wp_ret. by apply HQ.
Qed.

Lemma IntMutexGuard_drop_spec (l : lock_t) (Q : lock_t → Machine → Prop) s s1 :
  cpu_ok s → m_cpu s1 = m_cpu (pushed s) → csr_eq (m_csr s1) (m_csr (pushed s)) →
  m_uart s1 = m_uart s →
  (∀ l' s2, lock_held l' = false → same_cpu s s2 → only_cpu s1 s2 → Q l' s2) →
  wp (IntMutexGuard_drop l) Q s1.
Proof.
  intros ???? HQ. unfold IntMutexGuard_drop.
  apply wp_bind. eapply pop_spec; [done..|]. intros s2 ??. apply wp_ret.
  apply HQ; [apply lock_release_free|done..].
Qed.
End lock_specs.

(** ** Properties *)





(** Popping the empty disable stack panics, whatever the rest of the state. *)
Theorem pop_empty_panics {E : Env} (s : Machine) :
  stack s = 0 → pop_interrupt_off s = Panic PPopEmpty.
Proof.
  unfold stack. intros H. unfold pop_interrupt_off, mbind, M_bind, gets.
  by rewrite H, decide_True by lia.
Qed.

Lemma pop_empty_panics_witness :
  @pop_interrupt_off simple_env boot_machine = Panic PPopEmpty.
Proof. by apply (@pop_empty_panics simple_env boot_machine). Defined.
