(* ===== verification/Allocator.v ===== *)
(** The locked heap and the frame allocator: src/kernel/src/allocator.rs. *)
From S2P Require Export Cpu.
From S2P Require Import SimpleEnv.

Section allocator.
Context {E : Env}.

(** The heap and its lock, as [LockedHeap::new] and [LockedHeap::empty] make them. *)
Definition LockedHeap : Type := (heap_t * lock_t)%type.
Definition LockedHeap_new : LockedHeap := (heap_new, IntMutex_new).
Definition LockedHeap_empty : LockedHeap := (heap_new, IntMutex_new).

(** [LockedHeap::alloc], the global allocator; a null pointer is [0]. *)
Definition LockedHeap_alloc (layout : Layout) : MM Z :=
  l ← gets m_heap_lock;
  guard ← IntMutex_lock l;
  modify (set_heap_lock guard);;
  s ← get;
  let '(r, h, m) := heap_alloc (m_heap s) (m_mem s) layout in
  modify (λ s, set_heap h (set_mem m s));;
  guard ← gets m_heap_lock;
  l ← IntMutexGuard_drop guard;
  modify (set_heap_lock l);;
  mret (default 0 r).

(** [LockedHeap::dealloc]. *)
Definition LockedHeap_dealloc (ptr : Z) (layout : Layout) : MM unit :=
  ptr_non ← unwrap (NonNull_new ptr);
  l ← gets m_heap_lock;
  guard ← IntMutex_lock l;
  modify (set_heap_lock guard);;
  s ← get;
  let '(h, m) := heap_dealloc (m_heap s) (m_mem s) ptr_non layout in
  modify (λ s, set_heap h (set_mem m s));;
  guard ← gets m_heap_lock;
  l ← IntMutexGuard_drop guard;
  modify (set_heap_lock l).

(** [FrameAllocator::allocate]: the slice is its pointer and length. *)
Definition FrameAllocator_allocate (layout : Layout) : MM (option (Z * Z)) :=
  if decide (PAGESIZE < layout_size layout) then mret None
  else
    frame_ptr ← LockedHeap_alloc PAGE_LAYOUT;
    match NonNull_new frame_ptr with
    | None => mret None
    | Some ptr => mret (Some (ptr, layout_size layout))
    end.

(** [FrameAllocator::deallocate]. *)
Definition FrameAllocator_deallocate (ptr : Z) (_layout : Layout) : MM unit :=
  LockedHeap_dealloc ptr PAGE_LAYOUT.

(** [HEAP_ALLOCATOR.lock().init(start, size)] of main.rs. *)
Definition HEAP_ALLOCATOR_init (start size : Z) : MM unit :=
  l ← gets m_heap_lock;
  guard ← IntMutex_lock l;
  modify (set_heap_lock guard);;
  s ← get;
  let '(h, m) := heap_init (m_heap s) (m_mem s) start size in
  modify (λ s, set_heap h (set_mem m s));;
  guard ← gets m_heap_lock;
  l ← IntMutexGuard_drop guard;
  modify (set_heap_lock l).
End allocator.

(** ** Specifications *)

Section specs.
Context {E : Env} {EL : EnvLaws E} {fails : Prop}.
Local Abbreviation wp := (wpo fails).
Implicit Types (s : Machine) (F : gset Z).

(** The machine invariant every operation keeps. *)
Record mach_ok s : Prop := {
  mo_cpu : cpu_ok s;
  mo_heap : heap_inv (m_heap s) (m_mem s);
  mo_lock : lock_held (m_heap_lock s) = false;
}.

Lemma live_frame_ok s p : mach_ok s → p ∈ live s → frame_ok p.
Proof. intros [_ Hinv _] Hp. by eapply heap_live_frame. Qed.

(** A CSR write that leaves [sstatus] alone. *)
Lemma mach_ok_csr (f : csrs) s : mach_ok s → f sstatus = m_csr s sstatus → mach_ok (set_csr f s).
Proof.
  intros [[H1 H2 H3] ? ?] Hf. split; [split|..]; try done; unfold sie_on in *; cbn; by rewrite Hf.
Qed.

(** The heap stays intact under writes confined to frames it has handed out. *)
Lemma mach_ok_write s m :
  mach_ok s →
  (∀ a, heap_area a → page_of a ∉ live s → ld8 m a = ld8 (m_mem s) a) →
  mach_ok (set_mem m s).
Proof.
  intros [Hc Hi Hl] Hm. split; [destruct Hc; by split| |done].
  by eapply heap_inv_frame.
Qed.

Lemma mach_ok_write_frame s m p :
  mach_ok s → p ∈ live s → (∀ a, page_of a ≠ p → ld8 m a = ld8 (m_mem s) a) →
  mach_ok (set_mem m s).
Proof.
  intros Hok Hp Hm. apply mach_ok_write; [done|]. intros a _ Ha. apply Hm.
  by intros <-.
Qed.

(** [s'] differs from [s] in nothing but memory and the frames handed out. *)
Record quiet s s' : Prop := {
  qt_cpu : same_cpu s s';
  qt_cap : capacity s' = capacity s;
}.

#[global] Instance quiet_preorder : PreOrder quiet.
Proof.
  split; [by split|]. intros s1 s2 s3 [] []. split; [by trans s2|congruence].
Qed.

Lemma quiet_set_mem s s' m : quiet s s' → quiet s (set_mem m s').
Proof. intros [[] ?]. by split. Qed.

(** The effect of an allocation of one frame: null, or a fresh frame. *)
Definition alloc_post s (r : Z) s' : Prop :=
  mach_ok s' ∧ quiet s s' ∧ agree (live s) (m_mem s) (m_mem s') ∧
  ((r = 0 ∧ live s' = live s ∧ (capacity s ≤ size (live s))%nat) ∨
   (frame_ok r ∧ (r ∉ live s) ∧ live s' = {[r]} ∪ live s)).

Lemma LockedHeap_alloc_spec (Q : Z → Machine → Prop) s :
  mach_ok s → (∀ r s', alloc_post s r s' → Q r s') →
  wp (LockedHeap_alloc PAGE_LAYOUT) Q s.
Proof.
  intros [Hc Hi Hl] HQ. pose proof (co_stack _ Hc).
  unfold LockedHeap_alloc. wp_pure.
  apply IntMutex_lock_spec; [lia|done|]. intros g Hg. wp_pure. cbn [m_heap m_mem pushed set_heap_lock set_cpu set_csr].
  destruct (heap_alloc (m_heap s) (m_mem s) PAGE_LAYOUT) as [[r h] m] eqn:Ha.
  destruct (heap_alloc_spec _ _ _ _ _ Hi Ha) as (Hi' & Hm & Hr & Hcap). wp_pure.
  eapply IntMutexGuard_drop_spec; [done..|].
  intros l' s2 Hl' Hsame (Hmem & Hheap & _ & Huart). wp_pure. apply HQ.
  cbn in Hmem, Hheap.
  assert (heap_inv (m_heap s2) (m_mem s2)) as Hi2 by (by rewrite Hmem, Hheap).
  split_and!.
  - split; [|done|done]. destruct (cpu_ok_same _ _ Hsame Hc). by split.
  - split; [destruct Hsame; by split|]. unfold capacity. cbn. by rewrite Hheap.
  - intros a Ha'. cbn. rewrite Hmem. by apply Hm.
  - unfold live; cbn. rewrite Hheap. destruct r as [p|]; cbn; [right|by left].
    destruct Hr as [Hp Hlive]. split_and!; [|done..].
    apply (heap_live_frame h m p); [done|]. rewrite Hlive. set_solver.
Qed.

Lemma LockedHeap_dealloc_spec p (Q : unit → Machine → Prop) s :
  mach_ok s → p ∈ live s →
  (∀ s', mach_ok s' → quiet s s' → live s' = live s ∖ {[p]} →
         agree (live s ∖ {[p]}) (m_mem s) (m_mem s') → Q tt s') →
  wp (LockedHeap_dealloc p PAGE_LAYOUT) Q s.
Proof.
  intros Hok Hp HQ. pose proof Hok as [Hc Hi Hl]. pose proof (co_stack _ Hc).
  pose proof (frame_ok_range _ (live_frame_ok _ _ Hok Hp)) as [Hpos _].
  unfold LockedHeap_dealloc. apply wp_bind. apply (wp_unwrap _ p).
  { unfold NonNull_new. rewrite decide_False; [done|]. unfold RAMSTART in Hpos. lia. }
  wp_pure.
  apply IntMutex_lock_spec; [lia|done|]. intros g Hg. wp_pure. cbn [m_heap m_mem pushed set_heap_lock set_cpu set_csr].
  destruct (heap_dealloc (m_heap s) (m_mem s) p PAGE_LAYOUT) as [h m] eqn:Ha.
  destruct (heap_dealloc_spec _ _ _ _ _ Hi Hp Ha) as (Hi' & Hlive & Hcap & Hm). wp_pure.
  eapply IntMutexGuard_drop_spec; [done..|].
  intros l' s2 Hl' Hsame (Hmem & Hheap & _ & Huart). wp_pure. cbn in Hmem, Hheap.
  apply HQ.
  - split; [|cbn; by rewrite Hmem, Hheap|done].
    destruct (cpu_ok_same _ _ Hsame Hc). by split.
  - split; [destruct Hsame; by split|]. unfold capacity. cbn. by rewrite Hheap.
  - unfold live. cbn. by rewrite Hheap.
  - intros a Ha'. cbn. rewrite Hmem. apply Hm. rewrite Hlive. exact Ha'.
Qed.

(** [FrameAllocator::allocate] of a page is the heap's allocation. *)
Lemma FrameAllocator_allocate_spec (Q : option (Z * Z) → Machine → Prop) s :
  wp (LockedHeap_alloc PAGE_LAYOUT)
    (λ r, Q (if decide (r = 0) then None else Some (r, PAGESIZE))) s →
  wp (FrameAllocator_allocate PAGE_LAYOUT) Q s.
Proof.
  intros H. unfold FrameAllocator_allocate. rewrite decide_False by done.
  apply wp_bind. eapply wp_mono; [exact H|]. intros r s' HQ. unfold NonNull_new.
  cbv beta in HQ. destruct (decide (r = 0)); by apply wp_ret.
Qed.
End specs.

(** ** Properties *)

Section properties.
Context {E : Env} {EL : EnvLaws E}.

(** Allocating two frames and giving the first one back. *)
Definition alloc_alloc_dealloc : MM (Z * Z) :=
  a ← LockedHeap_alloc PAGE_LAYOUT;
  b ← LockedHeap_alloc PAGE_LAYOUT;
  LockedHeap_dealloc a PAGE_LAYOUT;;
  mret (a, b).

(** C27. Frames are exclusive and accounted for: while there is room, two
    allocations return two different page-aligned frames of the heap area, neither
    of them handed out before; giving the first one back leaves exactly the second
    one (and what was out before) handed out, and neither the frames that were out
    nor anything outside the heap area has changed; the interrupt state is as found. *)
Theorem frames_exclusive s :
  mach_ok s → (size (live s) + 2 ≤ capacity s)%nat →
  wp alloc_alloc_dealloc (λ ab s',
    ab.1 ≠ ab.2 ∧ frame_ok ab.1 ∧ frame_ok ab.2 ∧ (ab.1 ∉ live s) ∧ (ab.2 ∉ live s) ∧
    live s' = {[ab.2]} ∪ live s ∧ mach_ok s' ∧ same_cpu s s' ∧
    agree (live s) (m_mem s) (m_mem s')) s.
Proof.
  intros Hok Hroom. unfold alloc_alloc_dealloc.
  apply wp_bind, LockedHeap_alloc_spec; [done|].
  intros a s1 (Hok1 & Hq1 & Hag1 & [(_ & _ & Hc)|(Ha & Han & Hl1)]); [lia|].
  apply wp_bind, LockedHeap_alloc_spec; [done|].
  intros b s2 (Hok2 & Hq2 & Hag2 & [(_ & _ & Hc)|(Hb & Hbn & Hl2)]).
  { rewrite (qt_cap _ _ Hq1), Hl1 in Hc. pose proof (size_add_le a (live s)). lia. }
  rewrite Hl1 in Hbn, Hl2, Hag2.
  apply wp_bind, LockedHeap_dealloc_spec; [done|rewrite Hl2; set_solver +|].
  intros s3 Hok3 Hq3 Hl3 Hag3. rewrite Hl2 in Hl3, Hag3. apply wp_ret. cbn [fst snd].
  assert (({[b]} ∪ ({[a]} ∪ live s)) ∖ {[a]} = {[b]} ∪ live s) as Hd by (set_solver +Han Hbn).
  rewrite Hd in Hl3, Hag3. split_and!; try done.
  - set_solver +Hbn.
  - set_solver +Hbn.
  - apply (qt_cpu s s3). trans s1; [done|]. by trans s2.
  - eapply agree_trans; [done|]. eapply agree_trans; (eapply agree_weaken; [|done]); set_solver +.
Qed.
End properties.

(** The example machine with its heap ready is well formed. *)
Lemma boot_ok : @mach_ok simple_env simple_laws boot_machine.
Proof.
  split; [by split| |done]. split; try done.
  - intros p Hp. by apply elem_of_nil in Hp.
  - constructor.
Qed.

Lemma frames_exclusive_witness :
  wp (@alloc_alloc_dealloc simple_env) (λ ab s', ab.1 ≠ ab.2 ∧
    @live simple_env simple_laws s' = {[ab.2]}) boot_machine.
Proof.
  eapply wp_mono; [apply (@frames_exclusive simple_env simple_laws boot_machine boot_ok)|].
  - by apply Nat.leb_le.
  - intros ab s' (H1 & _ & _ & _ & _ & H2 & _). split; [done|].
    etrans; [exact H2|]. apply union_empty_r_L.
Defined.
