(* ===== verification/PageTable.v ===== *)
(** The two-level page table of src/kernel/src/virtmemory.rs: [PageTable] and
    its operations, word for word over memory. *)
From S2P Require Export Allocator.

Inductive WalkType := Alloc | Walk.

#[export] Instance WalkType_eq_dec : EqDecision WalkType.
Proof. solve_decision. Defined.

(** [size.is_multiple_of(n)]. *)
Definition is_multiple_of (a n : Z) : Prop := a mod n = 0.
#[export] Instance is_multiple_of_dec a n : Decision (is_multiple_of a n) :=
  decide (a mod n = 0).

Record PageTable := mkPageTable { root : Z }.

Section page_table.
Context {E : Env}.

(** [PageTable::new]; the page is cleared before the null check. *)
Definition PageTable_new : MM PageTable :=
  ptr ← LockedHeap_alloc PAGE_LAYOUT;
  write_bytes ptr 0 (1024 * 4);;
  pagetable ← unwrap (NonNull_new ptr);
  mret (mkPageTable pagetable).

(** [PageTable::free_req], recursive over the levels of the tree. *)
Fixpoint free_req (fuel : nat) (root : Z) : MM unit :=
  match fuel with
  | O => out_of_fuel
  | S fuel =>
      for_each (seqZ 0 1024) (λ i,
        pte ← read32 (ptr_add root i);
        let pte := Pte_from pte in
        if pte_v pte then
          if negb (pte_r pte) && negb (pte_w pte) && negb (pte_x pte) then
            root ← unwrap (NonNull_new (shl32 (pte_ppn pte) 12));
            free_req fuel root;;
            write32 root 0
          else
            panic_with (PUnmapAllocated (pte_pa pte) (pte_perm pte))
        else mret tt)
  end.

(** Two levels, so two nested calls; one more for a corrupted tree to show. *)
Definition free_fuel : nat := 3.

(** [PageTable::free], also [Drop for PageTable]. *)
Definition PageTable_free (self : PageTable) : MM unit :=
  free_req free_fuel (root self);;
  LockedHeap_dealloc (root self) PAGE_LAYOUT.

(** [Default] and [Drop]. *)
Definition PageTable_default : MM PageTable := PageTable_new.
Definition PageTable_drop (self : PageTable) : MM unit := PageTable_free self.

(** [PageTable::walk]. *)
Definition walk (self : PageTable) (virt_a : Z) (walk_type : WalkType) : MM (option Z) :=
  let va := VA_from virt_a in
  index ←? mret (VA_vpn va 1);
  let pte_addr := ptr_add (root self) index in
  pte ← read32 pte_addr;
  let pte := Pte_from pte in
  a ←? (if pte_v pte then mret (NonNull_new (shl32 (pte_ppn pte) 12))
        else if decide (walk_type = Walk) then mret None
        else
          new_page ← LockedHeap_alloc PAGE_LAYOUT;
          new_page ←? mret (NonNull_new new_page);
          write_bytes new_page 0 (1024 * 4);;
          let new_pte := set_v (Pte_from_addr new_page) in
          let tmp := usize_from_Pte new_pte in
          write32 pte_addr tmp;;
          mret (Some new_page));
  index ←? mret (VA_vpn va 0);
  mret (Some (ptr_add a index)).

(** The [while] loop of [PageTable::map]. *)
Fixpoint map_loop (fuel : nat) (self : PageTable) (vaddr paddr vaddr_end perm : Z)
    : MM (option unit) :=
  if decide (vaddr < vaddr_end) then
    match fuel with
    | O => out_of_fuel
    | S fuel =>
        pte_addr ←? walk self vaddr Alloc;
        let pte := set_v (Pte_from_addr paddr) in
        let pte := Z.lor (usize_from_Pte pte) perm in
        write32 pte_addr pte;;
        vaddr ← add32 vaddr PAGESIZE;
        paddr ← add32 paddr PAGESIZE;
        map_loop fuel self vaddr paddr vaddr_end perm
    end
  else mret (Some tt).

(** [PageTable::map]: [Some] is [Ok], [None] is [Err]. *)
Definition map (self : PageTable) (virt phys size perm : Z) : MM (option unit) :=
  if decide (¬ is_multiple_of phys PAGESIZE) then panic_with PUnalignedFrame
  else if decide (¬ is_multiple_of virt PAGESIZE) then panic_with PUnalignedPage
  else if decide (¬ is_multiple_of size PAGESIZE) then panic_with PNotWholePages
  else
    vaddr_end ← add32 virt size;
    map_loop (Z.to_nat (size / PAGESIZE)) self virt phys vaddr_end perm.

(** One iteration of the loop of [PageTable::unmap] at [va]. *)
Definition unmap_page (self : PageTable) (va : Z) (free : bool) : MM unit :=
  o ← walk self va Walk;
  match o with
  | None => mret tt
  | Some pte_addr =>
      pte ← read32 pte_addr;
      let pte := Pte_from pte in
      if pte_v pte then
        let is_leaf := pte_r pte || pte_w pte || pte_x pte in
        (if free && is_leaf && pte_u pte
         then LockedHeap_dealloc (shl32 (pte_ppn pte) 12) PAGE_LAYOUT
         else mret tt);;
        write32 pte_addr 0
      else mret tt
  end.

Fixpoint unmap_loop (n : nat) (self : PageTable) (va : Z) (free : bool) : MM unit :=
  match n with
  | O => mret tt
  | S n =>
      unmap_page self va free;;
      va ← add32 va PAGESIZE;
      unmap_loop n self va free
  end.

(** [PageTable::unmap]. *)
Definition unmap (self : PageTable) (virt size : Z) (free : bool) : MM (option unit) :=
  if decide (¬ is_multiple_of size PAGESIZE) then mret None
  else
    unmap_loop (Z.to_nat (size / PAGESIZE)) self virt free;;
    mret (Some tt).
End page_table.

(** ** Abstract view

    [tabs] maps the first-level indices in use to their second-level tables; the
    translation is read through it. *)

Section view.
Context {E : Env} {EL : EnvLaws E} {fails : Prop}.
Local Abbreviation wp := (wpo fails).
Implicit Types (s : Machine) (F : gset Z) (tabs : gmap Z Z).

Abbreviation vpn1_of va := (vpn1 (VA_from va)).
Abbreviation vpn0_of va := (vpn0 (VA_from va)).

Definition table_word (t : Z) : Z := usize_from_Pte (set_v (Pte_from_addr t)).
Definition leaf_word (p perm : Z) : Z := Z.lor (table_word p) perm.

Record pt_wf (m : mem) (root : Z) tabs : Prop := {
  pw_root : frame_ok root;
  pw_tab i t : tabs !! i = Some t →
    0 ≤ i < 1024 ∧ frame_ok t ∧ ld32 m (ptr_add root i) = table_word t;
  pw_none i : 0 ≤ i < 1024 → tabs !! i = None →
    Z.testbit (ld32 m (ptr_add root i)) 0 = false;
  pw_inj i j t : tabs !! i = Some t → tabs !! j = Some t → i = j;
  pw_root_fresh i t : tabs !! i = Some t → t ≠ root;
}.

Definition pt_tables tabs : gset Z := map_img tabs.
Definition pt_pages (root : Z) tabs : gset Z := {[root]} ∪ pt_tables tabs.

(** The leaf entry for an address; zero (invalid) where there is no table. *)
Definition pt_lookup (m : mem) tabs (va : Z) : Z :=
  match tabs !! vpn1_of va with
  | Some t => ld32 m (ptr_add t (vpn0_of va))
  | None => 0
  end.

(** The heap has handed out exactly the table's pages and [F]. *)
Record pt_own s (root : Z) tabs F : Prop := {
  po_ok : mach_ok s;
  po_wf : pt_wf (m_mem s) root tabs;
  po_disj : pt_pages root tabs ## F;
  po_live : live s = pt_pages root tabs ∪ F;
}.

Lemma frame_quot p : frame_ok p → ∃ q, 0 ≤ q < 2 ^ 20 ∧ p = Z.shiftl q 12.
Proof. intros H. apply page_aligned_quot; [apply H|by apply frame_ok_u32]. Qed.

Lemma table_word_eq q : 0 ≤ q < 2 ^ 20 → table_word (Z.shiftl q 12) = pte_word q 1.
Proof.
  intros Hq. unfold table_word.
  rewrite from_addr_word, set_v_word, usize_from_word by done. done.
Qed.

Lemma leaf_word_eq q perm :
  0 ≤ q < 2 ^ 20 → leaf_word (Z.shiftl q 12) perm = pte_word q (Z.lor 1 perm).
Proof.
  intros. unfold leaf_word. rewrite table_word_eq by done.
  unfold pte_word. by rewrite Z.lor_assoc.
Qed.

Lemma table_word_u32 t : page_aligned t → is_u32 t → is_u32 (table_word t).
Proof.
  intros Ha Hu. destruct (page_aligned_quot t) as (q & Hq & ->); [done..|].
  rewrite table_word_eq by done. by apply pte_word_u32.
Qed.

Lemma shl12_frame q : 0 ≤ q < 2 ^ 20 → shl32 q 12 = Z.shiftl q 12.
Proof. intros. unfold shl32. apply wrap32_small. by apply is_u32_q. Qed.

(** What the code reads back from a first-level entry it wrote. *)
Lemma table_word_decode t : frame_ok t →
  pte_v (Pte_from (table_word t)) = true ∧
  pte_r (Pte_from (table_word t)) = false ∧
  pte_w (Pte_from (table_word t)) = false ∧
  pte_x (Pte_from (table_word t)) = false ∧
  NonNull_new (shl32 (pte_ppn (Pte_from (table_word t))) 12) = Some t.
Proof.
  intros Ht. destruct (frame_quot t Ht) as (q & Hq & Heq). subst t.
  rewrite table_word_eq, Pte_from_word by done.
  cbn [pte_v pte_r pte_w pte_x pte_ppn]. split_and!; [done..|].
  rewrite shl12_frame by done. unfold NonNull_new. rewrite decide_False; [done|].
  apply frame_ok_range in Ht. unfold RAMSTART in Ht. lia.
Qed.

Lemma pte_v_bit w : pte_v (Pte_from w) = Z.testbit w 0.
Proof. apply Pte_from_flags. Qed.

Lemma pt_wf_ext m m' root tabs :
  (∀ a, page_of a = root → ld8 m' a = ld8 m a) → pt_wf m root tabs → pt_wf m' root tabs.
Proof.
  intros Hm [Hr Ht Hn Hi Hf].
  assert (∀ i, 0 ≤ i < 1024 → ld32 m' (ptr_add root i) = ld32 m (ptr_add root i)) as Heq.
  { intros i Hi'. destruct (frame_ok_word root i Hr Hi') as (_ & _ & Hp & Hle).
    apply ld32_ext. intros b Hb. apply Hm. apply page_of_inside; [apply Hr|].
    pose proof (page_of_range (ptr_add root i)). lia. }
  split; [done|..].
  - intros i t Hit. destruct (Ht i t Hit) as (? & ? & <-). auto.
  - intros i Hi' Hit. rewrite Heq by done. auto.
  - done.
  - done.
Qed.

Lemma pt_lookup_ext m m' root tabs va :
  is_u32 va → pt_wf m root tabs →
  (∀ t a, t ∈ pt_tables tabs → page_of a = t → ld8 m' a = ld8 m a) →
  pt_lookup m' tabs va = pt_lookup m tabs va.
Proof.
  intros Hva Hwf Hm. unfold pt_lookup. destruct (tabs !! _) as [t|] eqn:Ht; [|done].
  destruct (pw_tab _ _ _ Hwf _ _ Ht) as (_ & Hok & _).
  pose proof (vpn0_range va Hva) as Hr.
  destruct (frame_ok_word t _ Hok Hr) as (_ & _ & Hp & Hle).
  apply ld32_ext. intros b Hb. apply (Hm t); [by eapply elem_of_map_img_2|].
  apply page_of_inside; [apply Hok|]. pose proof (page_of_range (ptr_add t (vpn0_of va))). lia.
Qed.

Lemma elem_of_pt_pages root tabs p :
  p ∈ pt_pages root tabs ↔ p = root ∨ ∃ i, tabs !! i = Some p.
Proof. unfold pt_pages, pt_tables. by rewrite elem_of_union, elem_of_singleton, elem_of_map_img. Qed.

Lemma pt_pages_frames m root tabs p : pt_wf m root tabs → p ∈ pt_pages root tabs → frame_ok p.
Proof.
  intros Hwf [->|[i Hi]]%elem_of_pt_pages; [apply Hwf|].
  by destruct (pw_tab _ _ _ Hwf _ _ Hi) as (_ & ? & _).
Qed.

Lemma tab_not_root m root tabs i t : pt_wf m root tabs → tabs !! i = Some t → root ≠ t.
Proof. intros Hwf Hi ->. by eapply pw_root_fresh. Qed.

(** ** walk *)

(** [walk] without allocation: a pure lookup. *)
Lemma walk_lookup_spec root tabs va (Q : option Z → Machine → Prop) s :
  pt_wf (m_mem s) root tabs → is_u32 va →
  Q ((λ t, ptr_add t (vpn0_of va)) <$> tabs !! vpn1_of va) s →
  wp (walk (mkPageTable root) va Walk) Q s.
Proof.
  intros Hwf Hva HQ. unfold walk. cbn [VA_vpn PageTable.root]. wp_pure.
  pose proof (vpn1_range va Hva) as Hr.
  destruct (frame_ok_word root _ (pw_root _ _ _ Hwf) Hr) as (Hram & Hal & _).
  apply wp_read32; [by apply in_data_ram|done|]. wp_pure. rewrite pte_v_bit.
  destruct (tabs !! vpn1_of va) as [t|] eqn:Ht.
  - destruct (pw_tab _ _ _ Hwf _ _ Ht) as (_ & Hok & ->).
    destruct (table_word_decode t Hok) as (Hv & _ & _ & _ & Hnn).
    rewrite <- pte_v_bit, Hv. wp_pure. rewrite Hnn. wp_pure. done.
  - rewrite (pw_none _ _ _ Hwf) by done. rewrite decide_True by done. wp_pure. done.
Qed.

(** A fresh zeroed page linked into the first level. *)
Definition linked (m : mem) (root i t : Z) : mem :=
  st32 (zero_page m t) (ptr_add root i) (table_word t).

Section link.
Context (m : mem) (root : Z) (tabs : gmap Z Z) (i t : Z).
Context (Hwf : pt_wf m root tabs) (Hi : 0 ≤ i < 1024) (Hti : tabs !! i = None).
Context (Ht : frame_ok t) (Hfresh : t ∉ pt_pages root tabs).

Lemma linked_outside a : page_of a ≠ root → page_of a ≠ t → ld8 (linked m root i t) a = ld8 m a.
Proof using All.
  intros Hr Ha. unfold linked. rewrite st32_outside; [|apply Hwf|done|done].
  by apply zero_page_outside.
Qed.

Lemma fresh_not_root : t ≠ root.
Proof using All. intros ->. apply Hfresh, elem_of_pt_pages. by left. Qed.

Lemma linked_root j : 0 ≤ j < 1024 →
  ld32 (linked m root i t) (ptr_add root j) =
    if decide (j = i) then table_word t else ld32 m (ptr_add root j).
Proof using All.
  intros Hj. unfold linked. case_decide as Hji.
  - subst. apply ld32_st32_same, table_word_u32; [apply Ht|by apply frame_ok_u32].
  - rewrite ld32_st32_other by (unfold ptr_add; lia).
    destruct (frame_ok_word root j (pw_root _ _ _ Hwf) Hj) as (_ & _ & Hp & Hle).
    apply ld32_ext. intros b Hb. apply zero_page_outside; [done|].
    rewrite (page_of_inside root b); [symmetry; apply fresh_not_root|apply Hwf|].
    pose proof (page_of_range (ptr_add root j)). lia.
Qed.

Lemma linked_table j : 0 ≤ j < 1024 → ld32 (linked m root i t) (ptr_add t j) = 0.
Proof using All.
  intros Hj. destruct (frame_ok_word t j Ht Hj) as (_ & _ & Hp & Hle).
  rewrite (ld32_ext (zero_page m t)).
  - apply ld32_zero_page; unfold ptr_add, page_size in *; lia.
  - intros b Hb. apply st32_outside; [apply Hwf|done|].
    rewrite (page_of_inside t b); [apply fresh_not_root|apply Ht|].
    pose proof (page_of_range (ptr_add t j)). lia.
Qed.

Lemma linked_wf : pt_wf (linked m root i t) root (<[i:=t]> tabs).
Proof using All.
  pose proof linked_root as Hlr. pose proof fresh_not_root as Hfr. split.
  - apply Hwf.
  - intros j u Hj. rewrite lookup_insert in Hj. case_decide; simplify_eq.
    + rewrite Hlr, decide_True by done. done.
    + destruct (pw_tab _ _ _ Hwf _ _ Hj) as (? & ? & ?).
      rewrite Hlr, decide_False by done. done.
  - intros j Hj Hnone. rewrite lookup_insert in Hnone. case_decide; simplify_eq.
    rewrite Hlr, decide_False by done. by apply Hwf.
  - intros j k u. rewrite !lookup_insert. intros Hj Hk.
    assert (∀ l, tabs !! l = Some t → False) as Hno.
    { intros l Hl. apply Hfresh, elem_of_pt_pages. eauto. }
    repeat case_decide; simplify_eq; try done; [by edestruct Hno..|]. by eapply pw_inj.
  - intros j u. rewrite lookup_insert. intros Hj. case_decide; simplify_eq.
    + done.
    + by eapply pw_root_fresh.
Qed.

Lemma linked_lookup va : is_u32 va →
  pt_lookup (linked m root i t) (<[i:=t]> tabs) va = pt_lookup m tabs va.
Proof using All.
  intros Hva. destruct (decide (vpn1_of va = i)) as [Heq|Hne].
  - unfold pt_lookup. rewrite Heq, lookup_insert_eq, Hti. apply linked_table, vpn0_range, Hva.
  - transitivity (pt_lookup (linked m root i t) tabs va).
    { unfold pt_lookup. by rewrite lookup_insert_ne. }
    eapply pt_lookup_ext; [done..|]. intros u a Hu Ha. apply linked_outside.
    + rewrite Ha. intros ->. apply elem_of_map_img in Hu as [k Hk].
      by eapply pw_root_fresh in Hk.
    + rewrite Ha. intros ->. apply Hfresh. unfold pt_pages. set_solver +Hu.
Qed.
End link.

Lemma pt_own_live s root tabs F p :
  pt_own s root tabs F → p ∈ pt_pages root tabs → p ∈ live s.
Proof. intros [_ _ _ ->]. set_solver +. Qed.

(** A change of state that keeps the table's pages keeps the table. *)
Lemma pt_own_same s s' root tabs F F' :
  pt_own s root tabs F → mach_ok s' → same_on (pt_pages root tabs) (m_mem s) (m_mem s') →
  pt_pages root tabs ## F' → live s' = pt_pages root tabs ∪ F' →
  pt_own s' root tabs F'.
Proof.
  intros [Hok Hwf Hdisj Hlive] Hok' Hag Hd Hl. split; [done| |done..].
  eapply pt_wf_ext; [|done]. intros a Ha. apply Hag. rewrite Ha.
  unfold pt_pages. set_solver +.
Qed.
Lemma pt_own_agree s s' root tabs F F' :
  pt_own s root tabs F → mach_ok s' → agree (pt_pages root tabs) (m_mem s) (m_mem s') →
  pt_pages root tabs ## F' → live s' = pt_pages root tabs ∪ F' →
  pt_own s' root tabs F'.
Proof. intros Hown Hok Hag. eapply pt_own_same; [exact Hown|exact Hok|by apply agree_same]. Qed.

Lemma pt_lookup_same m m' root tabs va :
  is_u32 va → pt_wf m root tabs → same_on (pt_tables tabs) m m' →
  pt_lookup m' tabs va = pt_lookup m tabs va.
Proof.
  intros Hva Hwf Hag. eapply pt_lookup_ext; [done..|].
  intros t a Ht Ha. apply Hag. by rewrite Ha.
Qed.
Lemma pt_lookup_agree m m' root tabs va :
  is_u32 va → pt_wf m root tabs → agree (pt_tables tabs) m m' →
  pt_lookup m' tabs va = pt_lookup m tabs va.
Proof. intros Hva Hwf Hag. by eapply pt_lookup_same, agree_same. Qed.

(** What [walk] with allocation promises. *)
Definition walk_post s root tabs F va (r : option Z) s' : Prop :=
  ∃ tabs', pt_own s' root tabs' F ∧ quiet s s' ∧
    agree F (m_mem s) (m_mem s') ∧ tabs ⊆ tabs' ∧
    (∀ va', is_u32 va' →
      pt_lookup (m_mem s') tabs' va' = pt_lookup (m_mem s) tabs va') ∧
    (size (live s') ≤ size (live s) + 1)%nat ∧
    (∀ i, is_Some (tabs' !! i) → is_Some (tabs !! i) ∨ i = vpn1_of va) ∧
    match r with
    | Some a => ∃ t, tabs' !! vpn1_of va = Some t ∧ a = ptr_add t (vpn0_of va)
    | None => tabs' = tabs ∧ tabs !! vpn1_of va = None ∧ live s' = live s ∧
        (capacity s ≤ size (live s))%nat
    end.

(** Linking a fresh frame keeps ownership exact. *)
Lemma linked_own s root tabs F i r :
  mach_ok s → pt_wf (m_mem s) root tabs → 0 ≤ i < 1024 → tabs !! i = None →
  frame_ok r → r ∉ pt_pages root tabs ∪ F → pt_pages root tabs ## F →
  live s = {[r]} ∪ (pt_pages root tabs ∪ F) →
  let s' := set_mem (linked (m_mem s) root i r) s in
  pt_own s' root (<[i:=r]> tabs) F ∧ agree F (m_mem s) (m_mem s').
Proof.
  intros Hok Hwf Hi Hti Hr Hfresh Hdisj Hlive s'.
  assert (r ∉ pt_pages root tabs) as Hfp by (set_solver +Hfresh).
  assert (∀ a, page_of a ∉ live s ∨ page_of a ∈ F →
    ld8 (linked (m_mem s) root i r) a = ld8 (m_mem s) a) as Hout.
  { intros a Ha. apply linked_outside with tabs; try done.
    - intros Heq. rewrite Heq, Hlive in Ha. unfold pt_pages in *. set_solver +Ha Hdisj.
    - intros Heq. rewrite Heq, Hlive in Ha. set_solver +Ha Hfresh. }
  assert (pt_pages root (<[i:=r]> tabs) = {[r]} ∪ pt_pages root tabs) as Hpages.
  { unfold pt_pages, pt_tables. rewrite map_img_insert_notin_L by done. set_solver +. }
  split; [split|].
  - apply mach_ok_write; [done|]. intros a _ Ha. apply Hout. by left.
  - by apply linked_wf.
  - rewrite Hpages. set_solver +Hfresh Hdisj.
  - rewrite Hpages. change (live s') with (live s). rewrite Hlive. set_solver +.
  - intros a [Ha|Ha]; [apply Hout; by right|].
    apply linked_outside with tabs; try done.
    + intros Heq. eapply Ha, frame_ok_heap_area; [apply Hwf|done].
    + intros Heq. by eapply Ha, frame_ok_heap_area.
Qed.

Lemma walk_alloc_spec root tabs F va (Q : option Z → Machine → Prop) s :
  pt_own s root tabs F → is_u32 va →
  (∀ r s', walk_post s root tabs F va r s' → Q r s') →
  wp (walk (mkPageTable root) va Alloc) Q s.
Proof.
  intros Hown Hva HQ. pose proof Hown as [Hok Hwf Hdisj Hlive].
  unfold walk. cbn [VA_vpn PageTable.root]. wp_pure.
  pose proof (vpn1_range va Hva) as Hr.
  destruct (frame_ok_word root _ (pw_root _ _ _ Hwf) Hr) as (Hram & Hal & _).
  apply wp_read32; [by apply in_data_ram|done|]. wp_pure. rewrite pte_v_bit.
  destruct (tabs !! vpn1_of va) as [t|] eqn:Ht.
  { destruct (pw_tab _ _ _ Hwf _ _ Ht) as (_ & Hfok & ->).
    destruct (table_word_decode t Hfok) as (Hv & _ & _ & _ & Hnn).
    rewrite <- pte_v_bit, Hv. wp_pure. rewrite Hnn. wp_pure.
    apply HQ. exists tabs. split_and!; eauto using agree_refl; [reflexivity|lia]. }
  rewrite (pw_none _ _ _ Hwf) by done. rewrite decide_False by done. wp_pure.
  apply LockedHeap_alloc_spec; [done|]. intros r s' (Hok' & Hcpu & Hag & Hr').
  assert (agree (pt_pages root tabs) (m_mem s) (m_mem s')) as Hagp.
  { eapply agree_weaken; [|exact Hag]. rewrite Hlive. set_solver +. }
  assert (agree F (m_mem s) (m_mem s')) as HagF.
  { eapply agree_weaken; [|exact Hag]. rewrite Hlive. set_solver +. }
  assert (∀ va', is_u32 va' →
    pt_lookup (m_mem s') tabs va' = pt_lookup (m_mem s) tabs va') as Hlk.
  { intros. eapply pt_lookup_agree; [done..|]. eapply agree_weaken; [|exact Hagp].
    unfold pt_pages. set_solver +. }
  wp_pure. destruct Hr' as [(-> & Hl' & Hcap)|(Hfr & Hfresh & Hl')].
  { cbn. wp_pure. apply HQ. exists tabs. split_and!; try done; [|rewrite Hl'; lia|by left].
    eapply pt_own_agree; [done..|]. by rewrite Hl', Hlive. }
  assert (NonNull_new r = Some r) as ->.
  { unfold NonNull_new. rewrite decide_False; [done|].
    apply frame_ok_range in Hfr. unfold RAMSTART in Hfr. lia. }
  assert (pt_wf (m_mem s') root tabs) as Hwf'.
  { eapply pt_wf_ext; [|done]. intros a Ha. apply Hagp. left. rewrite Ha.
    unfold pt_pages. set_solver +. }
  assert (r ∉ pt_pages root tabs) as Hfp by (rewrite Hlive in Hfresh; set_solver +Hfresh).
  wp_pure. apply wp_zero_page; [by apply frame_in_data|].
  wp_pure. apply wp_write32; [done..|]. wp_pure. apply HQ. cbn [m_mem set_mem].
  fold (table_word r) (linked (m_mem s') root (vpn1_of va) r).
  assert (size (live s') ≤ size (live s) + 1)%nat as Hsize.
  { rewrite Hl'. apply size_add_le. }
  rewrite Hlive in Hfresh, Hl'.
  destruct (linked_own s' root tabs F (vpn1_of va) r) as [Hown' HagF']; try done.
  exists (<[vpn1_of va:=r]> tabs). split_and!; try done.
  - by do 2 apply quiet_set_mem.
  - by eapply agree_trans.
  - by apply insert_subseteq.
  - intros va' Hva'. cbn [m_mem set_mem]. rewrite linked_lookup by done. by apply Hlk.
  - intros i [u Hi]. apply lookup_insert_Some in Hi as [[<- _]|[_ Hi]]; [by right|left; by eauto].
  - exists r. by rewrite lookup_insert_eq.
Qed.

(** ** Writing a leaf entry *)

Lemma VA_from_same_page va va' :
  is_u32 va → is_u32 va' → page_of va = page_of va' → VA_from va = VA_from va'.
Proof.
  intros H H' Heq. by rewrite <- (VA_from_page_of va), Heq, VA_from_page_of.
Qed.

Lemma leaf_write_lookup m root tabs va t w va' :
  pt_wf m root tabs → is_u32 va → is_u32 va' → is_u32 w → tabs !! vpn1_of va = Some t →
  pt_lookup (st32 m (ptr_add t (vpn0_of va)) w) tabs va' =
    if decide (page_of va' = page_of va) then w else pt_lookup m tabs va'.
Proof.
  intros Hwf Hva Hva' Hw Ht. unfold pt_lookup. case_decide as Hp.
  { rewrite (VA_from_same_page va' va), Ht by done. by apply ld32_st32_same. }
  destruct (tabs !! vpn1_of va') as [u|] eqn:Hu; [|done].
  destruct (pw_tab _ _ _ Hwf _ _ Ht) as (_ & Htok & _).
  destruct (pw_tab _ _ _ Hwf _ _ Hu) as (_ & Huok & _).
  pose proof (vpn0_range va Hva) as Hr. pose proof (vpn0_range va' Hva') as Hr'.
  destruct (decide (u = t)) as [->|Hne].
  - apply ld32_st32_other. unfold ptr_add.
    assert (vpn1_of va = vpn1_of va') by by eapply pw_inj.
    assert (vpn0_of va ≠ vpn0_of va') by (intros ?; by apply Hp, vpn_inj). lia.
  - destruct (frame_ok_word u _ Huok Hr') as (_ & _ & Hpu & Hle).
    apply ld32_ext. intros b Hb. apply st32_outside; [done..|].
    rewrite (page_of_inside u b); [done|apply Huok|].
    pose proof (page_of_range (ptr_add u (vpn0_of va'))). lia.
Qed.

Lemma table_write_own s root tabs F i t j w :
  pt_own s root tabs F → tabs !! i = Some t → 0 ≤ j < 1024 →
  let s' := set_mem (st32 (m_mem s) (ptr_add t j) w) s in
  pt_own s' root tabs F ∧ agree F (m_mem s) (m_mem s').
Proof.
  intros [Hok Hwf Hdisj Hlive] Ht Hj s'.
  destruct (pw_tab _ _ _ Hwf _ _ Ht) as (_ & Htok & _).
  assert (t ∈ pt_pages root tabs) as Hin by (apply elem_of_pt_pages; eauto).
  assert (∀ a, page_of a ≠ t → ld8 (m_mem s') a = ld8 (m_mem s) a) as Hout.
  { intros a Ha. by apply st32_outside. }
  split; [split|]; try done.
  - apply mach_ok_write_frame with t; try done. rewrite Hlive. set_solver +Hin.
  - eapply pt_wf_ext; [|done]. intros a Ha. apply Hout. rewrite Ha. by eapply tab_not_root.
  - apply agree_write with t; try done. set_solver +Hin Hdisj.
Qed.

Lemma leaf_write_own s root tabs F va t w :
  pt_own s root tabs F → is_u32 va → tabs !! vpn1_of va = Some t →
  let s' := set_mem (st32 (m_mem s) (ptr_add t (vpn0_of va)) w) s in
  pt_own s' root tabs F ∧ agree F (m_mem s) (m_mem s').
Proof. intros. eapply table_write_own; try done. by apply vpn0_range. Qed.

(** ** map *)

(** [k] pages from [v] map to the frames from [p]; the rest is as before. *)
Definition mapped (m : mem) tabs (m' : mem) (tabs' : gmap Z Z) (v p perm k : Z) : Prop :=
  ∀ va, is_u32 va →
    pt_lookup m' tabs' va =
      if decide (v ≤ va < v + k * page_size) then leaf_word (p + (page_of va - v)) perm
      else pt_lookup m tabs va.

(** Only the second-level tables the [k] pages from [v] need are added. *)
Definition new_tables tabs (tabs' : gmap Z Z) (v k : Z) : Prop :=
  ∀ i, is_Some (tabs' !! i) → is_Some (tabs !! i) ∨
    ∃ j, 0 ≤ j < k ∧ i = vpn1_of (v + j * page_size).

Lemma new_tables_cons tabs tabs1 tabs2 v k :
  0 ≤ k → (∀ i, is_Some (tabs1 !! i) → is_Some (tabs !! i) ∨ i = vpn1_of v) →
  new_tables tabs1 tabs2 (v + page_size) k → new_tables tabs tabs2 v (k + 1).
Proof.
  intros Hk H1 H2 i Hi. destruct (H2 i Hi) as [[H| ->]%H1|(j & Hj & ->)]; [by left| |]; right.
  - exists 0. split; [lia|]. by rewrite Z.add_0_r.
  - exists (j + 1). split; [lia|]. do 2 f_equal. lia.
Qed.

(** What [map] of [n] pages promises: [k] of them are mapped, all on success. *)
Definition map_post s root tabs F (v p perm n : Z) (r : option unit) s' : Prop :=
  ∃ k tabs', 0 ≤ k ≤ n ∧ (r = Some tt ↔ k = n) ∧
    pt_own s' root tabs' F ∧ quiet s s' ∧ agree F (m_mem s) (m_mem s') ∧
    tabs ⊆ tabs' ∧ (size (live s') ≤ size (live s) + Z.to_nat k)%nat ∧
    new_tables tabs tabs' v k ∧
    (r = None → (capacity s ≤ size (live s'))%nat) ∧ mapped (m_mem s) tabs (m_mem s') tabs' v p perm k.

Lemma leaf_word_u32 p perm :
  page_aligned p → is_u32 p → is_u32 perm → is_u32 (leaf_word p perm).
Proof. intros. unfold leaf_word. apply is_u32_lor; [by apply table_word_u32|done]. Qed.

(** One page, then [k] pages from the next one. *)
Lemma mapped_cons m tabs m1 tabs1 m2 tabs2 v p perm k :
  page_aligned v → 0 ≤ k →
  (∀ va, is_u32 va → pt_lookup m1 tabs1 va =
     if decide (page_of va = page_of v) then leaf_word p perm else pt_lookup m tabs va) →
  mapped m1 tabs1 m2 tabs2 (v + page_size) (p + page_size) perm k →
  mapped m tabs m2 tabs2 v p perm (k + 1).
Proof.
  intros Hv Hk H1 H2 va Hva. rewrite H2, H1, (page_of_idemp v) by done.
  pose proof (page_of_eq_iff va v Hv) as Hiff. unfold page_size in *.
  destruct (decide (v ≤ va < v + (k + 1) * 0x1000)) as [Hin|Hout].
  - case_decide; [f_equal; lia|]. rewrite decide_True by lia. f_equal. lia.
  - rewrite !decide_False by lia. done.
Qed.

Lemma map_loop_spec n root tabs F v p perm (Q : option unit → Machine → Prop) s :
  pt_own s root tabs F →
  page_aligned v → 0 ≤ v → v + Z.of_nat n * page_size < U32 →
  page_aligned p → 0 ≤ p → p + Z.of_nat n * page_size < U32 →
  is_u32 perm →
  (∀ r s', map_post s root tabs F v p perm (Z.of_nat n) r s' → Q r s') →
  wp (map_loop n (mkPageTable root) v p (v + Z.of_nat n * page_size) perm) Q s.
Proof.
  intros Hown Hv Hv0 Hvn Hp Hp0 Hpn Hperm.
  revert s tabs v p Q Hown Hv Hv0 Hvn Hp Hp0 Hpn.
  induction n as [|n IH]; intros s tabs v p Q Hown Hv Hv0 Hvn Hp Hp0 Hpn HQ.
  { simpl. rewrite decide_False by lia. wp_pure. apply HQ.
    exists 0, tabs. split_and!; try done; [lia|by left|].
    intros va Hva. rewrite decide_False by lia. done. }
  assert (is_u32 v) as Hvu by (unfold is_u32, page_size in *; lia).
  assert (is_u32 p) as Hpu by (unfold is_u32, page_size in *; lia).
  simpl map_loop. rewrite decide_True by (unfold page_size; lia). wp_pure.
  eapply walk_alloc_spec; [done..|]. intros r s1 (tabs1 & Hown1 & Hcpu1 & Hag1 & Hsub1 & Hlk1 & Hsz1 & Hnew1 & Hr).
  destruct r as [a|]; cycle 1.
  { wp_pure. apply HQ. exists 0, tabs1. destruct Hr as (-> & _ & Hl & Hcap).
    rewrite <- Hl in Hcap. split_and!; try done; try lia; [rewrite Hl; lia|by left|].
    intros va Hva. rewrite decide_False by lia. auto. }
  destruct Hr as (t & Ht & ->).
  destruct (pw_tab _ _ _ (po_wf _ _ _ _ Hown1) _ _ Ht) as (_ & Htok & _).
  destruct (frame_ok_word t _ Htok (vpn0_range v Hvu)) as (Hram & Hal & _).
  wp_pure. apply wp_write32; [done..|]. fold (table_word p) (leaf_word p perm).
  destruct (leaf_write_own s1 root tabs1 F v t (leaf_word p perm)) as [Hown2 Hag2]; try done.
  wp_pure. change PAGESIZE with page_size. apply wp_add32; [unfold page_size in *; lia|].
  wp_pure. apply wp_add32; [unfold page_size in *; lia|].
  wp_pure. replace (v + Z.of_nat (S n) * page_size)
    with (v + page_size + Z.of_nat n * page_size) by lia.
  eapply IH; [exact Hown2|by apply page_aligned_next|unfold page_size; lia|lia
    |by apply page_aligned_next|unfold page_size; lia|lia|].
  intros r s3 (k & tabs3 & Hk & Hkr & Hown3 & Hcpu3 & Hag3 & Hsub3 & Hsz3 & Hnew3 & Hcap3 & Hmap3).
  change (live (set_mem _ s1)) with (live s1) in Hsz3.
  change (capacity (set_mem _ s1)) with (capacity s1) in Hcap3.
  rewrite (qt_cap _ _ Hcpu1) in Hcap3. apply HQ.
  exists (k + 1), tabs3. split_and!; try done; try lia.
  - rewrite Hkr. lia.
  - trans s1; [done|]. trans (set_mem (st32 (m_mem s1) (ptr_add t (vpn0_of v)) (leaf_word p perm)) s1); [by apply quiet_set_mem|done].
  - eapply agree_trans; [done|]. by eapply agree_trans.
  - by trans tabs1.
  - eapply new_tables_cons; [lia|done|done].
  - eapply mapped_cons; [done|lia| |done]. intros va Hva. rewrite <- Hlk1 by done.
    eapply leaf_write_lookup; try done; [apply Hown1|by apply leaf_word_u32].
Qed.

Lemma map_spec root tabs F virt phys size perm (Q : option unit → Machine → Prop) s :
  pt_own s root tabs F →
  page_aligned virt → page_aligned phys → page_aligned size →
  0 ≤ virt → 0 ≤ phys → 0 ≤ size →
  virt + size < U32 → phys + size < U32 → is_u32 perm →
  (∀ r s', map_post s root tabs F virt phys perm (size / page_size) r s' → Q r s') →
  wp (map (mkPageTable root) virt phys size perm) Q s.
Proof.
  intros Hown Hv Hp Hs Hv0 Hp0 Hs0 Hvs Hps Hperm HQ.
  pose proof (Z.div_pos size page_size) as Hn. unfold page_size in Hn.
  assert (size = Z.of_nat (Z.to_nat (size / page_size)) * page_size) as Heq.
  { rewrite Z2Nat.id by (unfold page_size; lia). unfold page_aligned, page_size in *.
    Z.div_mod_to_equations. lia. }
  unfold map, is_multiple_of. change PAGESIZE with page_size.
  do 3 (rewrite decide_False by (intros Hne; by apply Hne)).
  apply wp_bind, wp_add32; [done|]. rewrite Heq at 2.
  eapply map_loop_spec; try done; try (rewrite <- Heq; done).
  intros r s'. rewrite Z2Nat.id by (unfold page_size; lia). apply HQ.
Qed.

(** ** unmap *)

(** The page [unmap] gives back to the heap for the entry word [w]. *)
Definition unmap_frees (free : bool) (w : Z) : option Z :=
  let pte := Pte_from w in
  if pte_v pte && (free && (pte_r pte || pte_w pte || pte_x pte) && pte_u pte)
  then Some (shl32 (pte_ppn pte) 12) else None.

(** The entry it leaves behind. *)
Definition unmapped_word (w : Z) : Z := if Z.testbit w 0 then 0 else w.

Fixpoint frees (m : mem) tabs (free : bool) (n : nat) (v : Z) : list Z :=
  match n with
  | O => []
  | S n => option_list (unmap_frees free (pt_lookup m tabs v)) ++
           frees m tabs free n (v + page_size)
  end.

Definition unmapped (m : mem) tabs (m' : mem) (v k : Z) : Prop :=
  ∀ va, is_u32 va →
    pt_lookup m' tabs va =
      if decide (v ≤ va < v + k * page_size) then unmapped_word (pt_lookup m tabs va)
      else pt_lookup m tabs va.

Definition unmap_post s root tabs F (v k : Z) (l : list Z) s' : Prop :=
  pt_own s' root tabs (F ∖ list_to_set l) ∧ quiet s s' ∧
  agree (F ∖ list_to_set l) (m_mem s) (m_mem s') ∧
  unmapped (m_mem s) tabs (m_mem s') v k.

Lemma unmapped_one m tabs m' v w :
  page_aligned v → is_u32 v → unmapped_word (pt_lookup m tabs v) = w →
  (∀ va, is_u32 va → pt_lookup m' tabs va =
     if decide (page_of va = page_of v) then w else pt_lookup m tabs va) →
  unmapped m tabs m' v 1.
Proof.
  intros Hv Hvu Hw H va Hva. rewrite H, (page_of_idemp v) by done.
  pose proof (page_of_eq_iff va v Hv) as Hiff.
  destruct (decide (page_of va = v)) as [Hp|Hp].
  - rewrite decide_True by (rewrite Z.mul_1_l; tauto). subst w. f_equal.
    unfold pt_lookup. by rewrite (VA_from_same_page va v) by (rewrite ?(page_of_idemp v); done).
  - rewrite decide_False; [done|]. rewrite Z.mul_1_l. tauto.
Qed.

(** The write that ends the iteration, once the page has been given back. *)
Lemma unmap_clear s s1 root tabs F l v t (Q : unit → Machine → Prop) :
  page_aligned v → is_u32 v → tabs !! vpn1_of v = Some t →
  Z.testbit (pt_lookup (m_mem s) tabs v) 0 = true →
  pt_own s1 root tabs (F ∖ list_to_set l) → quiet s s1 →
  agree (F ∖ list_to_set l) (m_mem s) (m_mem s1) →
  (∀ va, is_u32 va → pt_lookup (m_mem s1) tabs va = pt_lookup (m_mem s) tabs va) →
  (∀ s', unmap_post s root tabs F v 1 l s' → Q tt s') →
  wp (write32 (ptr_add t (vpn0_of v)) 0) Q s1.
Proof.
  intros Hv Hvu Ht Hbit Hown Hcpu Hag Hlk HQ.
  destruct (pw_tab _ _ _ (po_wf _ _ _ _ Hown) _ _ Ht) as (_ & Htok & _).
  destruct (frame_ok_word t _ Htok (vpn0_range v Hvu)) as (Hram & Hal & _).
  apply wp_write32; [done..|]. apply HQ.
  edestruct leaf_write_own as [Hown' Hag']; [done..|].
  split_and!; [exact Hown'|by apply quiet_set_mem|by eapply agree_trans|].
  eapply unmapped_one; [done..|]. intros va Hva. unfold unmapped_word.
  rewrite Hbit, <- Hlk by done. eapply leaf_write_lookup; try done. apply Hown.
Qed.

Lemma unmap_page_spec root tabs F v free (Q : unit → Machine → Prop) s :
  pt_own s root tabs F → page_aligned v → is_u32 v →
  let l := option_list (unmap_frees free (pt_lookup (m_mem s) tabs v)) in
  (∀ p, p ∈ l → p ∈ F) →
  (∀ s', unmap_post s root tabs F v 1 l s' → Q tt s') →
  wp (unmap_page (mkPageTable root) v free) Q s.
Proof.
  intros Hown Hv Hvu l Hl HQ. pose proof Hown as [Hok Hwf Hdisj Hlive].
  unfold unmap_page. apply wp_bind. eapply walk_lookup_spec; [done..|].
  assert (∀ w, l = [] → unmapped_word (pt_lookup (m_mem s) tabs v) = w →
    w = pt_lookup (m_mem s) tabs v → Q tt s) as Hnop.
  { intros w Hl0 Hw Hw'. apply HQ. unfold unmap_post. rewrite Hl0. cbn [list_to_set].
    rewrite difference_empty_L. split_and!; try done.
    eapply unmapped_one; [done..|]. intros va Hva. case_decide as Hp; [|done].
    rewrite Hw'. unfold pt_lookup. by rewrite (VA_from_same_page va v) by done. }
  unfold l, pt_lookup in *. destruct (tabs !! vpn1_of v) as [t|] eqn:Ht; cbn [fmap option_fmap option_map].
  2: { wp_pure. by eapply Hnop. }
  destruct (pw_tab _ _ _ Hwf _ _ Ht) as (_ & Htok & _).
  destruct (frame_ok_word t _ Htok (vpn0_range v Hvu)) as (Hram & Hal & _).
  apply wp_bind, wp_read32; [by apply in_data_ram|done|].
  set (w := ld32 (m_mem s) (ptr_add t (vpn0_of v))) in *.
  unfold unmap_frees in *. rewrite pte_v_bit in *.
  destruct (Z.testbit w 0) eqn:Hbit; rewrite ?andb_true_l, ?andb_false_l in *.
  2: { wp_pure. eapply (Hnop w); unfold unmapped_word; by rewrite ?Hbit. }
  apply wp_bind. cbv beta zeta.
  destruct (free && _ && _) eqn:Hfree; cbn [option_list] in *; cycle 1.
  { wp_pure. eapply (unmap_clear s s root tabs F []); try done;
      unfold pt_lookup; rewrite ?Ht; try done; cbn [list_to_set];
      by rewrite ?difference_empty_L. }
  set (pg := shl32 _ 12) in *. assert (pg ∈ F) as HpF by (apply Hl; set_solver +).
  apply LockedHeap_dealloc_spec; [done|rewrite Hlive; set_solver +HpF|].
  intros s1 Hok1 Hcpu1 Hlive1 Hag1. rewrite Hlive in Hlive1, Hag1.
  assert (list_to_set [pg] = ({[pg]} : gset Z)) as Hset.
  { cbn [list_to_set]. apply union_empty_r_L. }
  eapply (unmap_clear s s1 root tabs F [pg]); rewrite ?Hset; try done.
  - unfold pt_lookup. by rewrite Ht.
  - eapply pt_own_agree; [done..| | |].
    + eapply agree_weaken; [|exact Hag1]. set_solver +Hdisj HpF.
    + set_solver +Hdisj.
    + rewrite Hlive1. set_solver +Hdisj HpF.
  - eapply agree_weaken; [|exact Hag1]. set_solver +.
  - intros va Hva. eapply pt_lookup_agree; [done..|].
    eapply agree_weaken; [|exact Hag1]. unfold pt_pages in *. set_solver +Hdisj HpF.
Qed.

Lemma frees_ext m m' tabs free n v :
  0 ≤ v → v + Z.of_nat n * page_size < U32 →
  (∀ va, is_u32 va → v ≤ va → pt_lookup m' tabs va = pt_lookup m tabs va) →
  frees m' tabs free n v = frees m tabs free n v.
Proof.
  revert v. induction n as [|n IH]; intros v Hv Hvn H; [done|]. simpl. unfold page_size in *.
  rewrite H by (unfold is_u32; lia). f_equal. apply IH; [lia..|].
  intros. apply H; [done|lia].
Qed.

Lemma unmapped_cons m m1 m2 tabs v k :
  page_aligned v → 0 ≤ k → unmapped m tabs m1 v 1 → unmapped m1 tabs m2 (v + page_size) k →
  unmapped m tabs m2 v (k + 1).
Proof.
  intros Hv Hk H1 H2 va Hva. rewrite H2, H1 by done. unfold page_size in *.
  repeat case_decide; lia || done.
Qed.

Lemma unmap_loop_spec n root tabs F v free (Q : unit → Machine → Prop) s :
  pt_own s root tabs F → page_aligned v → 0 ≤ v → v + Z.of_nat n * page_size < U32 →
  let l := frees (m_mem s) tabs free n v in
  NoDup l → (∀ p, p ∈ l → p ∈ F) →
  (∀ s', unmap_post s root tabs F v (Z.of_nat n) l s' → Q tt s') →
  wp (unmap_loop n (mkPageTable root) v free) Q s.
Proof.
  revert s F v Q. induction n as [|n IH]; intros s F v Q Hown Hv Hv0 Hvn l Hnd Hl HQ.
  { wp_pure. apply HQ. unfold unmap_post. cbn [frees list_to_set l].
    rewrite difference_empty_L. split_and!; try done.
    intros va Hva. rewrite decide_False by lia. done. }
  assert (is_u32 v) as Hvu by (unfold is_u32, page_size in *; lia).
  subst l. cbn [frees] in *.
  set (l1 := option_list (unmap_frees free (pt_lookup (m_mem s) tabs v))) in *.
  set (l2 := frees (m_mem s) tabs free n (v + page_size)) in *.
  apply NoDup_app in Hnd as (_ & Hdis & Hnd2).
  cbn [unmap_loop]. apply wp_bind. eapply unmap_page_spec; [done..| |].
  { intros p Hp. apply Hl. set_solver +Hp. }
  fold l1. intros s1 (Hown1 & Hcpu1 & Hag1 & Hun1).
  apply wp_bind, wp_add32; [unfold page_size in *; change PAGESIZE with 0x1000; lia|].
  change PAGESIZE with page_size.
  assert (frees (m_mem s1) tabs free n (v + page_size) = l2) as Hl2.
  { apply frees_ext; [unfold page_size; lia|lia|]. intros va Hva Hle.
    rewrite Hun1 by done. rewrite decide_False; [done|lia]. }
  eapply IH; [exact Hown1|by apply page_aligned_next|unfold page_size; lia|lia|..].
  { by rewrite Hl2. }
  { rewrite Hl2. intros p Hp. apply elem_of_difference. split; [apply Hl; set_solver +Hp|].
    rewrite elem_of_list_to_set. intros Hp1. by eapply Hdis. }
  rewrite Hl2. intros s2 (Hown2 & Hcpu2 & Hag2 & Hun2). apply HQ.
  unfold unmap_post. rewrite list_to_set_app_L, <- difference_difference_l_L.
  split_and!; [done|by trans s1| |].
  - eapply agree_trans; [|done]. eapply agree_weaken; [|done]. set_solver +.
  - rewrite Nat2Z.inj_succ. eapply unmapped_cons; [done|lia|done..].
Qed.

Lemma unmap_spec root tabs F v size free (Q : option unit → Machine → Prop) s :
  pt_own s root tabs F → page_aligned v → page_aligned size → 0 ≤ v → 0 ≤ size →
  v + size < U32 →
  let l := frees (m_mem s) tabs free (Z.to_nat (size / page_size)) v in
  NoDup l → (∀ p, p ∈ l → p ∈ F) →
  (∀ s', unmap_post s root tabs F v (size / page_size) l s' → Q (Some tt) s') →
  wp (unmap (mkPageTable root) v size free) Q s.
Proof.
  intros Hown Hv Hs Hv0 Hs0 Hvs l Hnd Hl HQ.
  unfold unmap, is_multiple_of. change PAGESIZE with page_size.
  rewrite decide_False by (intros Hne; by apply Hne).
  assert (0 ≤ size / page_size) by (apply Z.div_pos; unfold page_size; lia).
  apply wp_bind. eapply unmap_loop_spec; try done.
  - rewrite Z2Nat.id by done. unfold page_aligned, page_size in *. Z.div_mod_to_equations. lia.
  - intros s'. rewrite Z2Nat.id by done. intros Hpost. apply wp_ret. by apply HQ.
Qed.

(** ** new and free *)

(** A table with nothing in it. *)
Lemma PageTable_new_spec (Q : PageTable → Machine → Prop) s :
  mach_ok s → (size (live s) < capacity s)%nat ∨ fails →
  (∀ r s', pt_own s' r ∅ (live s) → quiet s s' → agree (live s) (m_mem s) (m_mem s') →
     Q (mkPageTable r) s') →
  wp PageTable_new Q s.
Proof.
  intros Hok Hcapacity HQ. unfold PageTable_new. apply wp_bind.
  apply LockedHeap_alloc_spec; [done|].
  intros r s1 (Hok1 & Hcpu & Hag & [(-> & _ & ?)|(Hfr & Hfresh & Hlive)]).
  { destruct Hcapacity as [?|Hf]; [lia|]. unfold write_bytes, mbind, M_bind, wpo.
    rewrite decide_False; [exact Hf|]. unfold storable, in_ram, RAMSTART. lia. }
  assert (r ≠ 0) as Hr0.
  { apply frame_ok_range in Hfr. unfold RAMSTART in Hfr. lia. }
  apply wp_bind, wp_zero_page; [by apply frame_in_data|].
  apply wp_bind, (wp_unwrap _ r).
  { unfold NonNull_new. by rewrite decide_False. }
  apply wp_ret.
  assert (∀ a, page_of a ≠ r → ld8 (zero_page (m_mem s1) r) a = ld8 (m_mem s1) a) as Hout.
  { intros a. by apply zero_page_outside. }
  apply HQ.
  - split.
    + apply mach_ok_write_frame with r; [done|set_solver +Hlive|done].
    + split; try done. intros i Hi _. destruct (frame_ok_word r i) as (_ & _ & _ & Hle); [done..|].
      cbn [m_mem set_mem]. rewrite ld32_zero_page; [done|unfold ptr_add; lia|done].
    + unfold pt_pages, pt_tables. rewrite map_img_empty_L. set_solver +Hfresh.
    + unfold pt_pages, pt_tables. rewrite map_img_empty_L.
      etrans; [exact Hlive|]. set_solver +.
  - by apply quiet_set_mem.
  - eapply agree_trans; [done|]. by apply agree_write with r.
Qed.

(** Out of memory: the page is cleared through the null pointer before the
    pointer is checked. *)
Lemma PageTable_new_oom s :
  wpo False (LockedHeap_alloc PAGE_LAYOUT) (λ r _, r = 0) s → PageTable_new s = Fault.
Proof.
  intros (r & s1 & Hrun & ->)%wp_unfold. unfold PageTable_new, mbind, M_bind.
  rewrite Hrun. unfold write_bytes. rewrite decide_False; [done|].
  unfold storable, in_ram, RAMSTART. lia.
Qed.

(** [free_req] on a table none of whose entries is valid. *)
Lemma free_req_empty fuel t (Q : unit → Machine → Prop) s :
  frame_ok t → (∀ i, 0 ≤ i < 1024 → Z.testbit (ld32 (m_mem s) (ptr_add t i)) 0 = false) →
  Q tt s → wp (free_req (S fuel) t) Q s.
Proof.
  intros Ht Hz HQ. cbn [free_req].
  apply (wp_for_each (λ l s', s' = s ∧ ∀ i, i ∈ l → 0 ≤ i < 1024)).
  - split; [done|]. intros i. rewrite elem_of_seqZ. lia.
  - intros i l s' [-> Hl]. assert (0 ≤ i < 1024) as Hi by (apply Hl; set_solver +).
    destruct (frame_ok_word t i Ht Hi) as (Hram & Hal & _).
    apply wp_bind, wp_read32; [by apply in_data_ram|done|]. cbv beta zeta. rewrite pte_v_bit, Hz by done.
    apply wp_ret. split; [done|]. intros j Hj. apply Hl. set_solver +Hj.
  - by intros s' [-> _].
Qed.

(** Every leaf has been unmapped. *)
Definition no_leaves (m : mem) tabs : Prop :=
  ∀ i t j, tabs !! i = Some t → 0 ≤ j < 1024 → Z.testbit (ld32 m (ptr_add t j)) 0 = false.

Lemma no_leaves_write m root tabs t i :
  pt_wf m root tabs → tabs !! i = Some t → no_leaves m tabs →
  no_leaves (st32 m (ptr_add t 0) 0) tabs.
Proof.
  intros Hwf Ht Hnl k u j Hu Hj.
  destruct (pw_tab _ _ _ Hwf _ _ Ht) as (_ & Htok & _).
  destruct (pw_tab _ _ _ Hwf _ _ Hu) as (_ & Huok & _).
  destruct (decide (u = t)) as [->|Hne].
  - destruct (decide (j = 0)) as [->|Hj0]; [by rewrite ld32_st32_same|].
    rewrite ld32_st32_other by (unfold ptr_add; lia). by eapply Hnl.
  - rewrite (ld32_ext m); [by eapply Hnl|]. intros b Hb.
    apply st32_outside; [done|lia|].
    destruct (frame_ok_word u j Huok Hj) as (_ & _ & Hpu & Hle).
    rewrite (page_of_inside u b); [done|apply Huok|].
    pose proof (page_of_range (ptr_add u j)). lia.
Qed.

(** Freeing a table clears the first word of each second-level table (the
    write goes through the shadowing [root]) and changes nothing else. *)
Lemma free_req_spec fuel root tabs F (Q : unit → Machine → Prop) s :
  pt_own s root tabs F → no_leaves (m_mem s) tabs →
  (∀ s', pt_own s' root tabs F → quiet s s' → agree F (m_mem s) (m_mem s') → Q tt s') →
  wp (free_req (S (S fuel)) root) Q s.
Proof.
  intros Hown Hnl HQ. cbn [free_req].
  apply (wp_for_each (λ l s', (∀ i, i ∈ l → 0 ≤ i < 1024) ∧ pt_own s' root tabs F ∧
    no_leaves (m_mem s') tabs ∧ quiet s s' ∧ agree F (m_mem s) (m_mem s'))).
  - split_and!; try done. intros i. rewrite elem_of_seqZ. lia.
  - intros i l s' (Hl & Hown' & Hnl' & Hcpu & Hag).
    assert (0 ≤ i < 1024) as Hi by (apply Hl; set_solver +).
    assert (∀ j, j ∈ l → 0 ≤ j < 1024) as Hl' by (intros j Hj; apply Hl; set_solver +Hj).
    pose proof (po_wf _ _ _ _ Hown') as Hwf.
    destruct (frame_ok_word root i (pw_root _ _ _ Hwf) Hi) as (Hram & Hal & _).
    apply wp_bind, wp_read32; [by apply in_data_ram|done|]. cbv beta zeta.
    destruct (tabs !! i) as [t|] eqn:Ht; cycle 1.
    { rewrite pte_v_bit, (pw_none _ _ _ Hwf) by done. by apply wp_ret. }
    destruct (pw_tab _ _ _ Hwf _ _ Ht) as (_ & Htok & ->).
    destruct (table_word_decode t Htok) as (-> & -> & -> & -> & ->). cbn [negb andb].
    apply wp_bind, (wp_unwrap _ t); [done|].
    apply wp_bind, free_req_empty; [done|intros j Hj; by eapply Hnl'|].
    destruct (frame_ok_word t 0 Htok) as (Hram0 & Hal0 & _); [lia|].
    assert (ptr_add t 0 = t) as Ht0 by (unfold ptr_add; lia). rewrite Ht0 in Hram0, Hal0.
    apply wp_write32; [done..|].
    destruct (table_write_own s' root tabs F i t 0 0) as [Hown2 Hag2]; try done.
    rewrite Ht0 in Hown2, Hag2. split_and!; try done.
    + cbn [m_mem set_mem]. rewrite <- Ht0. by eapply no_leaves_write.
    + trans s'; [done|]. by apply quiet_set_mem.
    + by eapply agree_trans.
  - intros s' (_ & ? & _ & ? & ?). by apply HQ.
Qed.

(** [PageTable::free]: the root goes back to the heap, the second-level tables
    do not. *)
Lemma PageTable_free_spec root tabs F (Q : unit → Machine → Prop) s :
  pt_own s root tabs F → no_leaves (m_mem s) tabs →
  (∀ s', mach_ok s' → live s' = pt_tables tabs ∪ F → quiet s s' →
     agree F (m_mem s) (m_mem s') → Q tt s') →
  wp (PageTable_free (mkPageTable root)) Q s.
Proof.
  intros Hown Hnl HQ. unfold PageTable_free. cbn [PageTable.root]. apply wp_bind.
  eapply free_req_spec; [done..|]. intros s1 [Hok1 Hwf1 Hdisj1 Hlive1] Hcpu1 Hag1.
  assert (root ∉ pt_tables tabs) as Hroot.
  { intros [i Hi]%elem_of_map_img. by eapply pw_root_fresh in Hi. }
  unfold pt_pages in *.
  assert (({[root]} ∪ pt_tables tabs ∪ F) ∖ {[root]} = pt_tables tabs ∪ F) as Hdiff.
  { apply set_eq. intros x. destruct (decide (x = root)); set_solver. }
  apply LockedHeap_dealloc_spec; [done|rewrite Hlive1; set_solver +|].
  rewrite Hlive1, Hdiff. intros s2 Hok2 Hcpu2 Hlive2 Hag2. apply HQ; try done.
  - by trans s1.
  - eapply agree_trans; [done|]. eapply agree_weaken; [|exact Hag2]. set_solver +.
Qed.
End view.
