(* ===== verification/PtMap.v ===== *)
(** The page table as a finite map: [pt_rep s root tabs F e] says that the table
    at [root] represents [e], from virtual pages to frames and permissions, and
    the operations of [PageTable] are restated as insertions and deletions. *)
From S2P Require Export PageTable.

(** ** Leaf entries *)

(** Permission bits, as [PTE_R | PTE_W | PTE_X | PTE_U] make them. *)
Definition perm_ok (perm : Z) : Prop := is_u32 perm ∧ Z.land perm 0x1e = perm.

(** A user page: accessible from user mode, and a leaf. *)
Definition user_perm (perm : Z) : Prop :=
  perm_ok perm ∧ Z.testbit perm 4 = true ∧
  (Z.testbit perm 1 || Z.testbit perm 2 || Z.testbit perm 3) = true.

Lemma perm_ok_range perm : perm_ok perm → 0 ≤ perm < 2 ^ 5.
Proof.
  intros [Hu <-]. split; [apply Z.land_nonneg; right; done|].
  change 0x1e with (Z.land 0x1f 0x1e) at 1. rewrite (Z.land_comm 0x1f), Z.land_assoc.
  change 0x1f with (Z.ones 5). rewrite Z.land_ones by done. by apply Z.mod_pos_bound.
Qed.

Section leaf.
Context (p perm : Z) (Hp : page_aligned p) (Hu : is_u32 p) (Hperm : perm_ok perm).

Lemma leaf_decode : ∃ q, p = Z.shiftl q 12 ∧ 0 ≤ q < 2 ^ 20 ∧
  Pte_from (leaf_word p perm) =
    mkPte p q (Z.shiftr q 10) (Z.land q 0x3ff) 0 false false false
      (Z.testbit perm 4) (Z.testbit perm 3) (Z.testbit perm 2) (Z.testbit perm 1) true perm.
Proof using All.
  destruct (page_aligned_quot p Hp Hu) as (q & Hq & ->). exists q. split_and!; [done|lia|lia|].
  pose proof (perm_ok_range perm Hperm) as Hr. destruct Hperm as [_ Hland].
  assert (0 ≤ Z.lor 1 perm < 2 ^ 5) as Hf by (by apply lor_range).
  rewrite leaf_word_eq by done. rewrite Pte_from_word by (simpl in *; lia).
  assert (Z.shiftr (Z.lor 1 perm) 8 = 0) as ->.
  { rewrite Z.shiftr_div_pow2 by done. apply Z.div_small. simpl in *. lia. }
  assert (Z.land (Z.lor 1 perm) 0x1e = perm) as -> by (by rewrite Z.land_lor_distr_l, Hland).
  rewrite !(testbit_high _ 5 7), !(testbit_high _ 5 6), !(testbit_high _ 5 5) by (done || lia).
  by rewrite !Z.lor_spec.
Qed.

Lemma leaf_v : Z.testbit (leaf_word p perm) 0 = true.
Proof using All.
  rewrite <- pte_v_bit. destruct leaf_decode as (q & _ & _ & ->). done.
Qed.
Lemma leaf_pa : pte_pa (Pte_from (leaf_word p perm)) = p.
Proof using All. destruct leaf_decode as (q & _ & _ & ->). done. Qed.
Lemma leaf_perm : pte_perm (Pte_from (leaf_word p perm)) = perm.
Proof using All. destruct leaf_decode as (q & _ & _ & ->). done. Qed.
Lemma leaf_ppn : shl32 (pte_ppn (Pte_from (leaf_word p perm))) 12 = p.
Proof using All.
  destruct leaf_decode as (q & Heq & Hq & ->). cbn [pte_ppn]. by rewrite shl12_frame.
Qed.

Lemma leaf_frees : unmap_frees true (leaf_word p perm) =
  if Z.testbit perm 4 && (Z.testbit perm 1 || Z.testbit perm 2 || Z.testbit perm 3)
  then Some p else None.
Proof using All.
  unfold unmap_frees. rewrite leaf_ppn. destruct leaf_decode as (q & _ & _ & ->).
  cbn [pte_v pte_r pte_w pte_x pte_u andb]. by rewrite (andb_comm _ (Z.testbit perm 4)).
Qed.
End leaf.

Lemma unmap_frees_invalid free w : Z.testbit w 0 = false → unmap_frees free w = None.
Proof. intros H. unfold unmap_frees. by rewrite pte_v_bit, H. Qed.

Lemma user_leaf_frees p perm : page_aligned p → is_u32 p → user_perm perm →
  unmap_frees true (leaf_word p perm) = Some p.
Proof. intros Hp Hu (Hok & H4 & Hrwx). rewrite leaf_frees by done. by rewrite H4, Hrwx. Qed.

Lemma perm_ok_u32 perm : perm_ok perm → is_u32 perm.
Proof. by intros [? _]. Qed.

(** ** Representation *)

(** A virtual page's frame and permission bits. *)
Abbreviation entries := (gmap Z (Z * Z)).

Definition entry_ok (va : Z) (x : Z * Z) : Prop :=
  page_aligned va ∧ is_u32 va ∧ page_aligned x.1 ∧ is_u32 x.1 ∧ perm_ok x.2.

(** The leaf word an entry stands for. *)
Definition entry_word (x : Z * Z) : Z := leaf_word x.1 x.2.

Definition translates (m : mem) (tabs : gmap Z Z) (e : entries) : Prop :=
  ∀ va, is_u32 va →
    match e !! page_of va with
    | Some x => pt_lookup m tabs va = entry_word x
    | None => Z.testbit (pt_lookup m tabs va) 0 = false
    end.

(** [k] pages from [v] mapped to the frames from [p]. *)
Definition map_range (e : entries) (v p perm k : Z) : entries :=
  foldr (λ i e, <[v + i * page_size := (p + i * page_size, perm)]> e) e (seqZ 0 k).

(** No page of the [k] from [v]. *)
Definition unmap_range (e : entries) (v k : Z) : entries :=
  filter (λ x, ¬ (v ≤ x.1 < v + k * page_size)) e.

Lemma page_aligned_diff a v : page_aligned a → page_aligned v → ∃ i, a = v + i * page_size.
Proof.
  unfold page_aligned, page_size. intros. exists (a / 0x1000 - v / 0x1000).
  Z.div_mod_to_equations. lia.
Qed.

Lemma map_range_fold_lookup (e : entries) v p perm l i :
  foldr (λ i (e : entries), <[v + i * page_size := (p + i * page_size, perm)]> e) e l !! (v + i * page_size) =
    if decide (i ∈ l) then Some (p + i * page_size, perm) else e !! (v + i * page_size).
Proof.
  induction l as [|j l IH]; cbn [foldr].
  { rewrite decide_False; [done|]. by intros ?%elem_of_nil. }
  rewrite lookup_insert, IH. destruct (decide (v + j * page_size = v + i * page_size)) as [Heq|Hne].
  - assert (j = i) as -> by (unfold page_size in Heq; lia). rewrite decide_True; [done|by left].
  - apply decide_ext. rewrite elem_of_cons. naive_solver.
Qed.

Lemma map_range_lookup e v p perm k a :
  page_aligned v → page_aligned a →
  map_range e v p perm k !! a =
    if decide (v ≤ a < v + k * page_size) then Some (p + (a - v), perm) else e !! a.
Proof.
  intros Hv Ha. destruct (page_aligned_diff a v) as [i ->]; [done..|].
  unfold map_range. rewrite map_range_fold_lookup. replace (v + i * page_size - v) with (i * page_size) by lia.
  apply decide_ext. rewrite elem_of_seqZ. unfold page_size. lia.
Qed.

Lemma map_range_0 e v p perm : map_range e v p perm 0 = e.
Proof. done. Qed.

Lemma map_range_1 e v p perm : map_range e v p perm 1 = <[v := (p, perm)]> e.
Proof. unfold map_range. simpl. by rewrite !Z.add_0_r. Qed.

Lemma unmap_range_lookup e v k a :
  unmap_range e v k !! a = if decide (v ≤ a < v + k * page_size) then None else e !! a.
Proof.
  apply option_eq. intros x. unfold unmap_range. rewrite map_lookup_filter_Some. simpl.
  case_decide; naive_solver.
Qed.

Section rep.
Context {E : Env} {EL : EnvLaws E} {fails : Prop}.
Local Abbreviation wp := (wpo fails).
Implicit Types (s : Machine) (F : gset Z) (tabs : gmap Z Z) (e : entries).

Record pt_rep s (root : Z) tabs F e : Prop := {
  pr_own : pt_own s root tabs F;
  pr_trans : translates (m_mem s) tabs e;
  pr_ok : map_Forall entry_ok e;
}.

Lemma is_u32_page_of va : is_u32 va → is_u32 (page_of va).
Proof. unfold is_u32, U32, page_of, page_size. intros. Z.div_mod_to_equations. lia. Qed.

Lemma pt_rep_wf s root tabs F e : pt_rep s root tabs F e → pt_wf (m_mem s) root tabs.
Proof. intros []. by eapply po_wf. Qed.

Lemma pt_rep_ok s root tabs F e : pt_rep s root tabs F e → mach_ok s.
Proof. intros []. by eapply po_ok. Qed.

(** A change of state that keeps the table's pages keeps what it represents. *)
Lemma pt_rep_same s s' root tabs F F' e :
  pt_rep s root tabs F e → mach_ok s' → same_on (pt_pages root tabs) (m_mem s) (m_mem s') →
  pt_pages root tabs ## F' → live s' = pt_pages root tabs ∪ F' →
  pt_rep s' root tabs F' e.
Proof.
  intros [Hown Htr Hok] Hm Hag Hd Hl. split; [by eapply pt_own_same| |done].
  intros va Hva. specialize (Htr va Hva).
  rewrite (pt_lookup_same (m_mem s) _ root); [done|done|apply Hown|].
  eapply same_on_weaken; [|exact Hag]. unfold pt_pages. set_solver +.
Qed.
Lemma pt_rep_agree s s' root tabs F F' e :
  pt_rep s root tabs F e → mach_ok s' → agree (pt_pages root tabs) (m_mem s) (m_mem s') →
  pt_pages root tabs ## F' → live s' = pt_pages root tabs ∪ F' →
  pt_rep s' root tabs F' e.
Proof. intros Hrep Hok Hag. eapply pt_rep_same; [exact Hrep|exact Hok|by apply agree_same]. Qed.

Lemma pt_rep_disj s root tabs F e : pt_rep s root tabs F e → pt_pages root tabs ## F.
Proof. intros []. by eapply po_disj. Qed.

Lemma pt_rep_live s root tabs F e : pt_rep s root tabs F e → live s = pt_pages root tabs ∪ F.
Proof. intros []. by eapply po_live. Qed.

(** ** map as insertion *)

Lemma mapped_translates m tabs m' tabs' e v p perm k :
  page_aligned v → translates m tabs e → mapped m tabs m' tabs' v p perm k →
  translates m' tabs' (map_range e v p perm k).
Proof.
  intros Hv Htr Hm va Hva. specialize (Htr va Hva). specialize (Hm va Hva).
  rewrite map_range_lookup by (done || apply page_of_aligned). rewrite Hm.
  pose proof (page_of_range va) as Hr.
  assert (v ≤ page_of va < v + k * page_size ↔ v ≤ va < v + k * page_size) as Hiff.
  { destruct (page_aligned_diff (page_of va) v) as [i Hi]; [apply page_of_aligned|done|].
    unfold page_size in *. lia. }
  destruct (decide (v ≤ va < _)); [rewrite decide_True by tauto|rewrite decide_False by tauto]; done.
Qed.

Lemma map_range_ok e v p perm k :
  page_aligned v → page_aligned p → 0 ≤ v → 0 ≤ p →
  v + k * page_size < U32 → p + k * page_size < U32 → perm_ok perm →
  map_Forall entry_ok e → map_Forall entry_ok (map_range e v p perm k).
Proof.
  intros Hv Hp Hv0 Hp0 Hvk Hpk Hperm He a x Hx.
  unfold map_range in Hx.
  assert (∀ i, i ∈ seqZ 0 k → entry_ok (v + i * page_size) (p + i * page_size, perm)) as Hin.
  { intros i Hi%elem_of_seqZ. unfold entry_ok; cbn. unfold is_u32, page_size in *.
    split_and!; try (apply page_aligned_add; [done|apply (page_aligned_mul i)]); try lia; done. }
  revert a x Hx. induction (seqZ 0 k) as [|i l IH]; intros a x Hx; simpl in Hx; [by eapply He|].
  rewrite lookup_insert in Hx. case_decide; simplify_eq; [apply Hin; by left|].
  eapply IH; [|done]. intros j Hj. apply Hin. by right.
Qed.

Definition map_rep_post s root tabs F e (v p perm n : Z) (r : option unit) s' : Prop :=
  ∃ k tabs', 0 ≤ k ≤ n ∧ (r = Some tt ↔ k = n) ∧
    pt_rep s' root tabs' F (map_range e v p perm k) ∧ quiet s s' ∧
    agree F (m_mem s) (m_mem s') ∧ (size (live s') ≤ size (live s) + Z.to_nat k)%nat ∧
    new_tables tabs tabs' v k ∧ (r = None → (capacity s ≤ size (live s'))%nat).

Lemma map_rep_spec root tabs F e virt phys size perm (Q : option unit → Machine → Prop) s :
  pt_rep s root tabs F e →
  page_aligned virt → page_aligned phys → page_aligned size →
  0 ≤ virt → 0 ≤ phys → 0 ≤ size →
  virt + size < U32 → phys + size < U32 → perm_ok perm →
  (∀ r s', map_rep_post s root tabs F e virt phys perm (size / page_size) r s' → Q r s') →
  wp (map (mkPageTable root) virt phys size perm) Q s.
Proof.
  intros [Hown Htr Hok] Hv Hp Hs Hv0 Hp0 Hs0 Hvs Hps Hperm HQ.
  eapply map_spec; try done; [apply Hperm|].
  intros r s' (k & tabs' & Hk & Hr & Hown' & Hq & Hag & _ & Hsz & Hnew & Hcap & Hmap).
  assert (k * page_size ≤ size).
  { unfold page_aligned, page_size in *. Z.div_mod_to_equations. nia. }
  apply HQ. exists k, tabs'. split; [done|]. split; [done|]. split_and!; [|done..].
  split; [done|by eapply mapped_translates|]. apply map_range_ok; try done; lia.
Qed.

(** ** unmap as deletion *)

(** The frame [unmap] gives back for an entry. *)
Definition entry_frees (free : bool) (x : Z * Z) : option Z :=
  if free && (Z.testbit x.2 4 && (Z.testbit x.2 1 || Z.testbit x.2 2 || Z.testbit x.2 3))
  then Some x.1 else None.

Fixpoint frees_of e (free : bool) (n : nat) (v : Z) : list Z :=
  match n with
  | O => []
  | S n => option_list (e !! v ≫= entry_frees free) ++ frees_of e free n (v + page_size)
  end.

Lemma unmap_frees_off w : unmap_frees false w = None.
Proof. unfold unmap_frees. by rewrite andb_false_r. Qed.

Lemma unmap_frees_entry va free x :
  entry_ok va x → unmap_frees free (entry_word x) = entry_frees free x.
Proof.
  intros (_ & _ & Hp & Hu & Hok). destruct x as [p perm]. unfold entry_word; simpl in *.
  destruct free; [by rewrite leaf_frees|]. apply unmap_frees_off.
Qed.

Lemma frees_translates m tabs e free n v :
  translates m tabs e → map_Forall entry_ok e → page_aligned v → 0 ≤ v →
  v + Z.of_nat n * page_size < U32 →
  frees m tabs free n v = frees_of e free n v.
Proof.
  intros Htr Hok. revert v. induction n as [|n IH]; intros v Hv Hv0 Hvn; [done|].
  cbn [frees frees_of]. unfold page_size in Hvn.
  rewrite IH by (try apply page_aligned_next; unfold page_size; (done || lia)).
  f_equal. f_equal. assert (is_u32 v) as Hu by (unfold is_u32; lia).
  specialize (Htr v Hu). rewrite page_of_idemp in Htr by done.
  destruct (e !! v) as [x|] eqn:Hx; simpl.
  - rewrite Htr. eapply unmap_frees_entry. by apply Hok.
  - by apply unmap_frees_invalid.
Qed.

Lemma elem_of_frees_of e free n v p :
  p ∈ frees_of e free n v ↔
  ∃ i x, (i < n)%nat ∧ e !! (v + Z.of_nat i * page_size) = Some x ∧ entry_frees free x = Some p.
Proof.
  revert v. induction n as [|n IH]; intros v; cbn [frees_of].
  { rewrite elem_of_nil. split; [done|]. intros (i & x & Hi & _). lia. }
  rewrite elem_of_app, IH, elem_of_option_list, bind_Some. split.
  - intros [(x & Hx & Hp)|(i & x & Hi & Hx & Hp)].
    + exists 0%nat, x. rewrite Z.add_0_r. split; [lia|done].
    + exists (S i), x. split; [lia|]. split; [|done]. rewrite <- Hx. f_equal. lia.
  - intros ([|i] & x & Hi & Hx & Hp).
    + left. exists x. by rewrite Z.add_0_r in Hx.
    + right. exists i, x. split; [lia|]. split; [|done]. rewrite <- Hx. f_equal. lia.
Qed.

(** No frame is given back twice. *)
Definition frees_inj e (free : bool) : Prop :=
  ∀ a b x y p, e !! a = Some x → e !! b = Some y →
    entry_frees free x = Some p → entry_frees free y = Some p → a = b.

Lemma frees_of_NoDup e free n v : frees_inj e free → NoDup (frees_of e free n v).
Proof.
  intros Hinj. revert v. induction n as [|n IH]; intros v; cbn [frees_of]; [constructor|].
  apply NoDup_app. split_and!; [|intros p Hp Hq|done].
  - destruct (_ ≫= _); cbn; [apply NoDup_singleton|constructor].
  - apply elem_of_option_list, bind_Some in Hp as (x & Hx & Hp).
    apply elem_of_frees_of in Hq as (i & y & _ & Hy & Hq).
    assert (v = v + page_size + Z.of_nat i * page_size) as Heq by by eapply Hinj.
    unfold page_size in Heq. lia.
Qed.

Lemma unmapped_word_bit w : Z.testbit (unmapped_word w) 0 = false.
Proof. unfold unmapped_word. by destruct (Z.testbit w 0) eqn:?. Qed.

Lemma unmapped_translates m tabs m' e v k :
  page_aligned v → translates m tabs e → unmapped m tabs m' v k →
  translates m' tabs (unmap_range e v k).
Proof.
  intros Hv Htr Hm va Hva. specialize (Htr va Hva). specialize (Hm va Hva).
  rewrite unmap_range_lookup, Hm. pose proof (page_of_range va) as Hr.
  assert (v ≤ page_of va < v + k * page_size ↔ v ≤ va < v + k * page_size) as Hiff.
  { destruct (page_aligned_diff (page_of va) v) as [i Hi]; [apply page_of_aligned|done|].
    unfold page_size in *. lia. }
  destruct (decide (v ≤ va < _)); [rewrite decide_True by tauto|rewrite decide_False by tauto].
  - apply unmapped_word_bit.
  - done.
Qed.

Lemma unmap_range_ok e v k : map_Forall entry_ok e → map_Forall entry_ok (unmap_range e v k).
Proof.
  intros He a x. rewrite unmap_range_lookup. case_decide; [done|]. by apply He.
Qed.

Lemma unmap_rep_spec root tabs F e v size free (Q : option unit → Machine → Prop) s :
  pt_rep s root tabs F e →
  page_aligned v → page_aligned size → 0 ≤ v → 0 ≤ size → v + size < U32 →
  frees_inj e free →
  let l := frees_of e free (Z.to_nat (size / page_size)) v in
  (∀ p, p ∈ l → p ∈ F) →
  (∀ s', pt_rep s' root tabs (F ∖ list_to_set l) (unmap_range e v (size / page_size)) →
     quiet s s' → agree (F ∖ list_to_set l) (m_mem s) (m_mem s') → Q (Some tt) s') →
  wp (unmap (mkPageTable root) v size free) Q s.
Proof.
  intros [Hown Htr Hok] Hv Hs Hv0 Hs0 Hvs Hinj l Hl HQ.
  assert (frees (m_mem s) tabs free (Z.to_nat (size / page_size)) v = l) as Hf.
  { apply frees_translates; try done.
    assert (0 ≤ size / page_size) by (apply Z.div_pos; unfold page_size; lia).
    rewrite Z2Nat.id by done. unfold page_aligned, page_size in *. Z.div_mod_to_equations. lia. }
  eapply unmap_spec; try done; rewrite Hf; [by apply frees_of_NoDup|done|].
  intros s' (Hown' & Hq & Hag & Hun). apply HQ; [|done..].
  split; [done|by eapply unmapped_translates|by apply unmap_range_ok].
Qed.

(** With nothing left the table has no leaves. *)
Lemma translates_empty m root tabs : pt_wf m root tabs → translates m tabs ∅ → no_leaves m tabs.
Proof.
  intros Hwf Htr i t j Hi Hj. destruct (pw_tab _ _ _ Hwf _ _ Hi) as (Hir & _ & _).
  set (va := i * 0x400000 + j * 0x1000).
  assert (is_u32 va) as Hva by (unfold is_u32, U32; lia).
  specialize (Htr va Hva). rewrite lookup_empty in Htr. unfold pt_lookup in Htr.
  assert (vpn1 (VA_from va) = i) as H1.
  { rewrite vpn1_eq by done. unfold va. Z.div_mod_to_equations. lia. }
  assert (vpn0 (VA_from va) = j) as H0.
  { rewrite vpn0_eq by done. unfold va. Z.div_mod_to_equations. lia. }
  by rewrite H1, H0, Hi in Htr.
Qed.

Lemma PageTable_new_rep (Q : PageTable → Machine → Prop) s :
  mach_ok s → (size (live s) < capacity s)%nat ∨ fails →
  (∀ r s', pt_rep s' r ∅ (live s) ∅ → quiet s s' → agree (live s) (m_mem s) (m_mem s') →
     Q (mkPageTable r) s') →
  wp PageTable_new Q s.
Proof.
  intros Hok Hc HQ. apply PageTable_new_spec; [done..|]. intros r s' Hown Hq Hag.
  apply HQ; [|done..]. split; [done| |done]. intros va Hva. by rewrite lookup_empty.
Qed.

Lemma PageTable_free_rep root tabs F (Q : unit → Machine → Prop) s :
  pt_rep s root tabs F ∅ →
  (∀ s', mach_ok s' → live s' = pt_tables tabs ∪ F → quiet s s' →
     agree F (m_mem s) (m_mem s') → Q tt s') →
  wp (PageTable_free (mkPageTable root)) Q s.
Proof.
  intros [Hown Htr Hok] HQ. eapply PageTable_free_spec; [done| |done].
  eapply translates_empty; [apply Hown|done].
Qed.

(** ** walk as lookup *)

(** The entry the code reads at the address [walk] returns. *)
Lemma walk_rep root tabs F e va (Q : option Z → Machine → Prop) s :
  pt_rep s root tabs F e → is_u32 va →
  (∀ r, match r with
        | Some a => in_ram a 4 ∧ a mod 4 = 0 ∧ ld32 (m_mem s) a = pt_lookup (m_mem s) tabs va
        | None => e !! page_of va = None
        end → Q r s) →
  wp (walk (mkPageTable root) va Walk) Q s.
Proof.
  intros [Hown Htr Hok] Hva HQ. pose proof (po_wf _ _ _ _ Hown) as Hwf.
  eapply walk_lookup_spec; [done..|]. apply HQ.
  destruct (tabs !! vpn1 (VA_from va)) as [t|] eqn:Ht; cbn.
  - destruct (pw_tab _ _ _ Hwf _ _ Ht) as (_ & Htok & _).
    destruct (frame_ok_word t _ Htok (vpn0_range va Hva)) as (? & ? & _).
    split_and!; [by apply in_data_ram|done|]. unfold pt_lookup. by rewrite Ht.
  - specialize (Htr va Hva). destruct (e !! page_of va) as [x|] eqn:Hx; [|done].
    unfold pt_lookup in Htr. rewrite Ht in Htr.
    destruct (Hok _ _ Hx) as (_ & _ & Hp & Hu & Hperm). exfalso.
    pose proof (leaf_v x.1 x.2 Hp Hu Hperm) as Hv.
    unfold entry_word in Htr. rewrite <- Htr in Hv. done.
Qed.

(** A translated page has a second-level table. *)
Lemma rep_table s root tabs F e va x :
  pt_rep s root tabs F e → is_u32 va → e !! page_of va = Some x →
  is_Some (tabs !! vpn1 (VA_from va)).
Proof.
  intros [_ Htr Hok] Hva Hx. specialize (Htr va Hva). rewrite Hx in Htr. unfold pt_lookup in Htr.
  destruct (tabs !! vpn1 (VA_from va)); [by eexists|]. exfalso.
  destruct (Hok _ _ Hx) as (_ & _ & Hp & Hu & Hperm).
  pose proof (leaf_v x.1 x.2 Hp Hu Hperm) as Hv. unfold entry_word in Htr.
  by rewrite <- Htr in Hv.
Qed.
End rep.
