(* ===== verification/Vm.v ===== *)
(** Kernel and user address spaces, [Kvm] and [Uvm] of
    src/kernel/src/virtmemory.rs, and the routines that copy between a user
    address space and the kernel. *)
From S2P Require Export PtMap.

(** [(lo..hi).step_by(step)]. *)
Definition step_by (lo hi step : Z) : list Z :=
  (λ i, lo + i * step) <$> seqZ 0 ((hi - lo + step - 1) / step).

(** ** Kernel address space *)

Section kvm.
Context {E : Env}.

Record Kvm := mkKvm { kvm_pagetable : PageTable }.

Definition KERNEL_STACK_PAGES : Z := 2.

(** [Kvm::init]; an early return drops the table built so far. *)
Definition Kvm_init : MM (option Kvm) :=
  let trampoline := trampoline in
  pagetable ← PageTable_default;
  let fail := PageTable_drop pagetable;; mret None in
  r ← map pagetable UART UART PAGESIZE (Z.lor PTE_R PTE_W);
  match r with None => fail | Some _ =>
    let end_text := etext in
    text_size ← sub32 end_text KERNEL_START;
    r ← map pagetable KERNEL_START KERNEL_START text_size (Z.lor PTE_X PTE_R);
    match r with None => fail | Some _ =>
      data_size ← sub32 RAMEND end_text;
      r ← map pagetable end_text end_text data_size (Z.lor PTE_R PTE_W);
      match r with None => fail | Some _ =>
        r ← map pagetable TRAMPOLINE trampoline PAGESIZE (Z.lor PTE_R PTE_X);
        match r with None => fail | Some _ => mret (Some (mkKvm pagetable)) end
      end
    end
  end.

(** [Kvm::alloc_kstack]. *)
Definition alloc_kstack (self : Kvm) (va : Z) : MM unit :=
  for_each (seqZ 0 KERNEL_STACK_PAGES) (λ i,
    page ← FrameAllocator_allocate PAGE_LAYOUT;
    kstack_page ← unwrap (fst <$> page);
    off ← mul32 i PAGESIZE;
    va ← add32 va off;
    r ← map (kvm_pagetable self) va kstack_page PAGESIZE (Z.lor PTE_R PTE_W);
    unwrap r).

(** [Kvm::start_kvm]; the two [sfence.vma] only order memory accesses. *)
Definition start_kvm (self : Kvm) : MM unit :=
  let ppn := shr32 (root (kvm_pagetable self)) 12 in
  let satp_v := usize_from_SATP (mkSATP 1 0 ppn) in
  write_csr satp satp_v.
End kvm.

(** ** User address spaces *)

Section uvm.
Context {E : Env}.

Record Uvm := mkUvm { uvm_begin : Z; uvm_size : Z; uvm_pagetable : PageTable }.

Definition set_size (n : Z) (u : Uvm) : Uvm := mkUvm (uvm_begin u) n (uvm_pagetable u).

(** [Uvm::new]. *)
Definition Uvm_new : MM (option Uvm) :=
  pagetable ← PageTable_default;
  mret (Some (mkUvm USER_START 0 pagetable)).

(** [Uvm::free]. *)
Definition Uvm_free (self : Uvm) : MM unit :=
  r ← unmap (uvm_pagetable self) TRAMPOLINE PAGESIZE false;
  unwrap r;;
  r ← unmap (uvm_pagetable self) TRAPFRAME PAGESIZE false;
  unwrap r;;
  if decide (0 < uvm_size self) then
    r ← unmap (uvm_pagetable self) (uvm_begin self) (uvm_size self) true;
    unwrap r
  else mret tt.

(** Dropping a [Uvm]: [Drop for Uvm], then the field's [Drop for PageTable]. *)
Definition Uvm_drop (self : Uvm) : MM unit :=
  Uvm_free self;; PageTable_drop (uvm_pagetable self).

(** [Uvm::get_satp]. *)
Definition get_satp (self : Uvm) : SATP :=
  let ppn := shr32 (root (uvm_pagetable self)) 12 in
  mkSATP 1 0 ppn.

(** [Uvm::end]. *)
Definition Uvm_end (self : Uvm) : MM Z := add32 (uvm_begin self) (uvm_size self).

(** The [while] loop of [Uvm::alloc]; the object is threaded through. *)
Fixpoint alloc_loop (fuel : nat) (self : Uvm) (size perm : Z) : MM (Uvm * option unit) :=
  if decide (uvm_size self < size) then
    match fuel with
    | O => out_of_fuel
    | S fuel =>
        if decide (perm = 0) then
          n ← add32 (uvm_size self) PAGESIZE;
          alloc_loop fuel (set_size n self) size perm
        else
          page ← LockedHeap_alloc PAGE_LAYOUT;
          if decide (page = 0) then mret (self, None)
          else
            e ← Uvm_end self;
            r ← map (uvm_pagetable self) e page PAGESIZE (Z.lor perm PTE_U);
            match r with
            | None => LockedHeap_dealloc page PAGE_LAYOUT;; mret (self, None)
            | Some _ =>
                n ← add32 (uvm_size self) PAGESIZE;
                alloc_loop fuel (set_size n self) size perm
            end
    end
  else mret (self, Some tt).

(** [Uvm::alloc]. *)
Definition Uvm_alloc (self : Uvm) (size perm : Z) : MM (Uvm * option unit) :=
  alloc_loop (Z.to_nat ((size - uvm_size self + PAGESIZE - 1) / PAGESIZE)) self size perm.

(** [Uvm::grow]. *)
Definition Uvm_grow (self : Uvm) (size perm : Z) : MM (Uvm * option unit) :=
  n ← add32 (uvm_size self) size;
  Uvm_alloc self n perm.

(** [Uvm::dealloc]. *)
Definition Uvm_dealloc (self : Uvm) (size : Z) : MM (Uvm * option unit) :=
  if decide (¬ is_multiple_of size PAGESIZE) then mret (self, None)
  else
    newend ← add32 USER_START size;
    n ← sub32 (uvm_size self) size;
    r ← unmap (uvm_pagetable self) newend n true;
    match r with
    | None => mret (self, None)
    | Some _ => mret (set_size size self, Some tt)
    end.

(** One iteration of the loop of [Uvm::clone]. *)
Definition clone_page (self vm : Uvm) (addr : Z) : MM unit :=
  o ← walk (uvm_pagetable self) addr Walk;
  pte_addr ← unwrap o;
  pte ← read32 pte_addr;
  let pte := Pte_from pte in
  if negb (pte_v pte) then mret tt
  else
    let from := pte_pa pte in
    frame ← FrameAllocator_allocate PAGE_LAYOUT;
    to ← unwrap (fst <$> frame);
    copy_nonoverlapping from to PAGESIZE;;
    r ← map (uvm_pagetable vm) addr to PAGESIZE (pte_perm pte);
    unwrap r.

(** [Clone for Uvm]. *)
Definition Uvm_clone (self : Uvm) : MM Uvm :=
  o ← Uvm_new;
  vm ← unwrap o;
  let vm := mkUvm (uvm_begin self) (uvm_size self) (uvm_pagetable vm) in
  e ← Uvm_end self;
  for_each (step_by USER_START e PAGESIZE) (clone_page self vm);;
  mret vm.

(** [Uvm::init_proc]; [trapframe] is the address the process's box points to. *)
Definition init_proc (self : Uvm) (trapframe : Z) : MM (option unit) :=
  let trampoline := trampoline in
  _ ←? map (uvm_pagetable self) TRAMPOLINE trampoline PAGESIZE (Z.lor PTE_R PTE_X);
  _ ←? map (uvm_pagetable self) TRAPFRAME trapframe PAGESIZE (Z.lor PTE_R PTE_W);
  mret (Some tt).

(** The loop of [Uvm::load] over [img.chunks(PAGESIZE)], the chunks given by
    their addresses. *)
Fixpoint load_loop (self : Uvm) (va : Z) (chunks : list Z) : MM (option unit) :=
  match chunks with
  | [] => mret (Some tt)
  | src_addr :: chunks =>
      pte_addr ←? walk (uvm_pagetable self) va Walk;
      pte ← read32 pte_addr;
      let pte := Pte_from pte in
      let dst_addr := pte_pa pte in
      write_bytes dst_addr 0 PAGESIZE;;
      copy_nonoverlapping src_addr dst_addr PAGESIZE;;
      va ← add32 va PAGESIZE;
      load_loop self va chunks
  end.

(** [Uvm::load]; a slice is its address and length. *)
Definition Uvm_load (self : Uvm) (va : Z) (img : Z * Z) : MM (option unit) :=
  if decide (¬ is_multiple_of va PAGESIZE) then mret None
  else load_loop self va (step_by img.1 (img.1 + img.2) PAGESIZE).

(** ** Copying across address spaces *)

(** [walkaddr]. *)
Definition walkaddr (pagetree : PageTable) (virt_a : Z) : MM (option Z) :=
  pte_addr ←? walk pagetree virt_a Walk;
  pte ← read32 pte_addr;
  let pte := Pte_from pte in
  if negb (pte_v pte) || negb (pte_r pte || pte_w pte || pte_x pte) then mret None
  else
    pa ← add32 (pte_pa pte) (virt_a mod PAGESIZE);
    mret (Some pa).

(** [copy_in::<usize>]. *)
Definition copy_in (uv : Uvm) (addr : Z) : MM (option Z) :=
  user_addr ←? walkaddr (uvm_pagetable uv) addr;
  val ← read32 user_addr;
  mret (Some val).

(** [copy_in_cont::<u8>]: one translation, then [len] bytes from there. *)
Fixpoint read_bytes (n : nat) (a : Z) : MM (list Z) :=
  match n with
  | O => mret []
  | S n => byte ← read8 a; bytes ← read_bytes n (a + 1); mret (byte :: bytes)
  end.

Definition copy_in_cont (uv : Uvm) (addr len : Z) : MM (option (list Z)) :=
  user_addr ←? walkaddr (uvm_pagetable uv) addr;
  bytes ← read_bytes (Z.to_nat len) user_addr;
  mret (Some bytes).

(** The loop of [copy_in_str], up to the terminating zero. *)
Fixpoint read_str (fuel : nat) (a : Z) : MM (list Z) :=
  match fuel with
  | O => out_of_fuel
  | S fuel =>
      byte ← read8 a;
      if decide (byte = 0) then mret []
      else bytes ← read_str fuel (a + 1); mret (byte :: bytes)
  end.

(** [copy_in_str]; [fuel] bounds the length of the string looked for. *)
Definition copy_in_str (fuel : nat) (uv : Uvm) (addr : Z) : MM (option (list Z)) :=
  user_addr ←? walkaddr (uvm_pagetable uv) addr;
  bytes ← read_str fuel user_addr;
  mret (from_utf8 bytes).

(** [copy_out::<u32>]. *)
Definition copy_out (uv : Uvm) (addr data : Z) : MM (option unit) :=
  user_addr ←? walkaddr (uvm_pagetable uv) addr;
  write32 user_addr data;;
  mret (Some tt).

(** [copy_out_cont::<u8>] and [copy_out_cont::<usize>]. *)
Fixpoint write_bytes_at (a : Z) (data : list Z) : MM unit :=
  match data with
  | [] => mret tt
  | b :: data => write8 a b;; write_bytes_at (a + 1) data
  end.
Fixpoint write_words_at (a : Z) (data : list Z) : MM unit :=
  match data with
  | [] => mret tt
  | w :: data => write32 a w;; write_words_at (a + 4) data
  end.

Definition copy_out_cont_u8 (uv : Uvm) (addr : Z) (data : list Z) : MM (option unit) :=
  user_addr ←? walkaddr (uvm_pagetable uv) addr;
  write_bytes_at user_addr data;;
  mret (Some tt).
Definition copy_out_cont_usize (uv : Uvm) (addr : Z) (data : list Z) : MM (option unit) :=
  user_addr ←? walkaddr (uvm_pagetable uv) addr;
  write_words_at user_addr data;;
  mret (Some tt).

(** The remainder by zero panics. *)
Definition _align_down (val alignment : Z) : MM Z :=
  if decide (alignment = 0) then panic_with PRemZero
  else
    let rem := val mod alignment in
    sub32 val rem.
Definition _align_up (val alignment : Z) : MM Z :=
  tmp ← add32 val alignment;
  tmp ← sub32 tmp 1;
  _align_down tmp alignment.
End uvm.
