(* ===== verification/Uart.v ===== *)
(** The console: src/kernel/src/uart.rs, the printing macros of
    src/kernel/src/main.rs and the formatting they use. *)
From Stdlib Require Import Ascii String.
From S2P Require Export Vm.

(** ** Text

    A string slice is the list of its bytes. *)
Definition str (s : string) : list Z := Z.of_N ∘ N_of_ascii <$> list_ascii_of_string s.

Definition newline : list Z := [10].

(** A digit below 16, as [{:x}] prints it. *)
Definition digit (d : Z) : Z := if decide (d < 10) then 48 + d else 87 + d.

(** The digits of a 32-bit number in a base from 2 to 16: at most 32 of them. *)
Fixpoint digits (fuel : nat) (base n : Z) (acc : list Z) : list Z :=
  match fuel with
  | O => acc
  | S fuel =>
      let acc := digit (n mod base) :: acc in
      if decide (n / base = 0) then acc else digits fuel base (n / base) acc
  end.

(** [{}], [{:x}], [{:08x}] and [{:b}] of a [usize]; [{}] of a [bool];
    [{:?}] of an [Option<usize>]. *)
Definition fmt_dec (n : Z) : list Z := digits 32 10 n [].
Definition fmt_hex (n : Z) : list Z := digits 32 16 n [].
Definition fmt_hex8 (n : Z) : list Z :=
  let l := fmt_hex n in replicate (8 - length l) 48 ++ l.
Definition fmt_bin (n : Z) : list Z := digits 32 2 n [].
Definition fmt_bool (b : bool) : list Z := str (if b then "true" else "false").
Definition fmt_option (o : option Z) : list Z :=
  match o with
  | Some n => str "Some(" ++ fmt_dec n ++ str ")"
  | None => str "None"
  end.

Section uart.
Context {E : Env}.

(** A byte written to the UART's data register. *)
Definition uart_write (b : Z) : MM unit := modify (λ s, set_uart (m_uart s ++ [b]) s).

(** [uart_print]. *)
Definition uart_print (message : list Z) : MM unit := for_each message uart_write.

(** [print!] and [println!]: the text is formatted into a heap string first. *)
Definition print (text : list Z) : MM unit := uart_print text.
Definition println (text : list Z) : MM unit := uart_print (text ++ newline).

(** [debug!] prints when the static [DEBUG] is set, and nothing sets it. *)
Definition DEBUG : bool := false.
Definition debug (text : list Z) : MM unit := if DEBUG then uart_print (text ++ newline) else mret tt.

(** The panic handler: it prints the message, which core formats, and loops. *)
Definition panic_handler (info : list Z) : MM unit :=
  print (str "Something went wrong. " ++ info ++ newline);;
  spin.

(** [UartWriter]: a buffer on the stack. *)
Record UartWriter := mkUartWriter { buf : list Z; pos : nat }.

Definition UartWriter_new : UartWriter := mkUartWriter (replicate 256 0) 0.

(** [flush]. *)
Definition flush (self : UartWriter) : MM unit :=
  bytes ← slice_to (buf self) (pos self);
  for_each bytes uart_write.

(** [write_str]: what does not fit is dropped. *)
Definition write_byte (self : UartWriter) (b : Z) : MM UartWriter :=
  if decide (pos self < length (buf self))%nat then
    buf ← set_index (buf self) (pos self) b;
    mret (mkUartWriter buf (S (pos self)))
  else mret self.
Fixpoint write_str (self : UartWriter) (s : list Z) : MM UartWriter :=
  match s with
  | [] => mret self
  | b :: s => self ← write_byte self b; write_str self s
  end.

(** [kprint!]: [write!] hands the writer one piece after the other. *)
Fixpoint write_fmt (self : UartWriter) (pieces : list (list Z)) : MM UartWriter :=
  match pieces with
  | [] => mret self
  | s :: pieces => self ← write_str self s; write_fmt self pieces
  end.
Definition kprint (pieces : list (list Z)) : MM unit :=
  w ← write_fmt UartWriter_new pieces;
  flush w.
(** [kprintln!]. *)
Definition kprintln (pieces : list (list Z)) : MM unit :=
  kprint pieces;;
  kprint [newline].
End uart.

(** ** Properties *)

Section properties.
Context {E : Env}.
Implicit Types (s : Machine).

Definition put_uart (l : list Z) s : Machine := set_uart (m_uart s ++ l) s.

Lemma uart_print_spec {fails : Prop} l (Q : unit → Machine → Prop) s :
  Q tt (put_uart l s) → wpo fails (for_each l uart_write) Q s.
Proof.
  revert s. induction l as [|b l IH]; intros s HQ.
  - apply wp_ret. unfold put_uart in HQ. rewrite app_nil_r in HQ. by destruct s.
  - cbn [for_each]. apply wp_bind, wp_modify, IH. revert HQ. unfold put_uart. cbn.
    by rewrite <- app_assoc.
Qed.

(** The buffer holds the first 256 bytes written. *)
Definition holds (w : UartWriter) (l : list Z) : Prop :=
  length (buf w) = 256%nat ∧ pos w = Nat.min 256 (length l) ∧
  take (pos w) (buf w) = take 256 l.

(** The [debug!] lines print nothing. *)
Lemma debug_off text : debug text = mret tt.
Proof. done. Qed.

(** The panic handler prints its message and never returns. *)
Lemma panic_handler_spins info s : panic_handler info s = Spin.
Proof.
  assert (wpo False (print (str "Something went wrong. " ++ info ++ newline)) (λ _ _, True) s) as H by by apply uart_print_spec.
  apply wp_unfold in H as ([] & s' & H & _). unfold panic_handler, mbind, M_bind. by rewrite H.
Qed.

Section writer.
Context {fails : Prop}.
Local Abbreviation wp := (wpo fails).

Lemma write_byte_spec w l b (Q : UartWriter → Machine → Prop) s :
  holds w l → (∀ w', holds w' (l ++ [b]) → Q w' s) → wp (write_byte w b) Q s.
Proof.
  intros (Hlen & Hpos & Htake) HQ. unfold write_byte, set_index. rewrite Hlen.
  destruct (decide (pos w < 256)%nat) as [Hlt|Hge]; apply wp_ret || apply wp_bind, wp_ret, wp_ret; apply HQ;
    unfold holds; cbn [buf pos]; rewrite length_app; cbn [length].
  - assert (pos w = length l) as Hl by lia. rewrite length_insert. split_and!; [done|lia|].
    rewrite (take_S_r _ _ b) by (apply list_lookup_insert_eq; lia).
    rewrite take_insert_ge, Htake by lia. rewrite !take_ge; [done|rewrite length_app; cbn; lia|lia].
  - split_and!; [done|lia|]. rewrite Htake, take_app_le; [done|lia].
Qed.

Lemma write_str_spec t w l (Q : UartWriter → Machine → Prop) s :
  holds w l → (∀ w', holds w' (l ++ t) → Q w' s) → wp (write_str w t) Q s.
Proof.
  revert w l. induction t as [|b t IH]; intros w l H HQ; cbn [write_str].
  { apply wp_ret, HQ. by rewrite app_nil_r. }
  apply wp_bind. eapply write_byte_spec; [exact H|]. intros w1 H1. eapply IH; [exact H1|].
  intros w2 H2. apply HQ. by rewrite <- app_assoc in H2.
Qed.

Lemma write_fmt_spec pieces w l (Q : UartWriter → Machine → Prop) s :
  holds w l → (∀ w', holds w' (l ++ concat pieces) → Q w' s) → wp (write_fmt w pieces) Q s.
Proof.
  revert w l. induction pieces as [|t pieces IH]; intros w l H HQ; cbn [write_fmt concat].
  { apply wp_ret, HQ. by rewrite app_nil_r. }
  apply wp_bind. eapply write_str_spec; [exact H|]. intros w1 H1. eapply IH; [exact H1|].
  intros w2 H2. apply HQ. by rewrite <- app_assoc in H2.
Qed.
End writer.

Lemma kprint_spec {fails : Prop} pieces (Q : unit → Machine → Prop) s :
  Q tt (put_uart (take 256 (concat pieces)) s) → wpo fails (kprint pieces) Q s.
Proof.
  intros HQ. unfold kprint. apply wp_bind. eapply (write_fmt_spec pieces UartWriter_new []); [done|].
  intros w (Hlen & Hpos & Ht). unfold flush, slice_to. rewrite decide_True by lia.
  apply wp_bind, wp_ret. rewrite Ht. by apply uart_print_spec.
Qed.

(** What the panic-free run of [kprintln!] leaves. *)
Lemma kprintln_run pieces s :
  kprintln pieces s = Done tt (put_uart (take 256 (concat pieces) ++ newline) s).
Proof.
  assert (wpo False (kprintln pieces) (λ _ s', s' = put_uart (take 256 (concat pieces) ++ newline) s) s) as H.
  { unfold kprintln. apply wp_bind, kprint_spec, kprint_spec. unfold put_uart; cbn. by rewrite <- app_assoc. }
  apply wp_unfold in H as ([] & s' & Hrun & ->). exact Hrun.
Qed.

(** C38. The trap-time console never overruns and never allocates: for any pieces of
    text, no index or slice of the buffer is out of range, [kprintln!] puts the first
    256 bytes of their concatenation and a newline on the UART, and it touches neither
    memory, nor the heap or its lock, nor the CPU's interrupt state. *)
Theorem kprintln_prints pieces s :
  wp (kprintln pieces) (λ _ s', s' = put_uart (take 256 (concat pieces) ++ newline) s) s.
Proof. apply wp_unfold. eexists tt, _. split; [apply kprintln_run|done]. Qed.
End properties.
