(* ===== verification/Trapframe.v ===== *)
(** The trap frame of src/kernel/src/process/trapframe.rs: a [repr(C)] record of
    36 words, kept in a page of its own. *)
From S2P Require Export Uart.

Inductive tf_field :=
  | tf_kernel_satp | tf_kernel_sp | tf_trap_handler | tf_epc | tf_hartid
  | tf_ra | tf_sp | tf_gp | tf_tp | tf_t0 | tf_t1 | tf_t2 | tf_s0 | tf_s1
  | tf_a0 | tf_a1 | tf_a2 | tf_a3 | tf_a4 | tf_a5 | tf_a6 | tf_a7
  | tf_s2 | tf_s3 | tf_s4 | tf_s5 | tf_s6 | tf_s7 | tf_s8 | tf_s9 | tf_s10 | tf_s11
  | tf_t3 | tf_t4 | tf_t5 | tf_t6.

#[export] Instance tf_field_eq_dec : EqDecision tf_field.
Proof. solve_decision. Defined.

(** The fields in declaration order. *)
Definition tf_fields : list tf_field :=
  [tf_kernel_satp; tf_kernel_sp; tf_trap_handler; tf_epc; tf_hartid;
   tf_ra; tf_sp; tf_gp; tf_tp; tf_t0; tf_t1; tf_t2; tf_s0; tf_s1;
   tf_a0; tf_a1; tf_a2; tf_a3; tf_a4; tf_a5; tf_a6; tf_a7;
   tf_s2; tf_s3; tf_s4; tf_s5; tf_s6; tf_s7; tf_s8; tf_s9; tf_s10; tf_s11;
   tf_t3; tf_t4; tf_t5; tf_t6].

(** [repr(C)]: every field is a word, so the offset is four times the position. *)
Definition tf_index (f : tf_field) : nat :=
  match list_find (λ g, g = f) tf_fields with Some (i, _) => i | None => 0%nat end.
Definition tf_offset (f : tf_field) : Z := 4 * Z.of_nat (tf_index f).

Definition TRAPFRAME_LAYOUT : Layout := mkLayout (4 * Z.of_nat (length tf_fields)) 4.

(** [Trapframe::default()], as the words it takes in memory. *)
Definition Trapframe_default : list Z := replicate 36 0.

Section trapframe.
Context {E : Env}.

(** Reading and writing a field of the frame at [t]. *)
Definition tf_get (t : Z) (f : tf_field) : MM Z := read32 (t + tf_offset f).
Definition tf_set (t : Z) (f : tf_field) (v : Z) : MM unit := write32 (t + tf_offset f) v.

(** Copying a whole frame out of and into memory. *)
Fixpoint tf_read_fields (t : Z) (l : list tf_field) : MM (list Z) :=
  match l with
  | [] => mret []
  | f :: l => v ← tf_get t f; vs ← tf_read_fields t l; mret (v :: vs)
  end.
Definition tf_write_all (t : Z) (vs : list Z) : MM unit := write_words_at t vs.

(** [Box::new_in(frame, &FRAME_ALLOCATOR)]; a failed allocation aborts. *)
Definition Box_new_in (vs : list Z) : MM Z :=
  p ← FrameAllocator_allocate TRAPFRAME_LAYOUT;
  match p with
  | None => panic_with PAllocError
  | Some (p, _) => tf_write_all p vs;; mret p
  end.
Definition Box_drop (p : Z) : MM unit := FrameAllocator_deallocate p TRAPFRAME_LAYOUT.

(** [( *trapframe).clone()]. *)
Definition Trapframe_clone (t : Z) : MM (list Z) := tf_read_fields t tf_fields.
End trapframe.

Lemma tf_fields_NoDup : NoDup tf_fields.
Proof. by apply (bool_decide_unpack _). Qed.

Lemma tf_offset_range f : 0 ≤ tf_offset f ∧ tf_offset f + 4 ≤ 144 ∧ tf_offset f mod 4 = 0.
Proof. by destruct f. Qed.

Lemma tf_index_lookup f : tf_fields !! tf_index f = Some f.
Proof. by destruct f. Qed.

Lemma tf_offset_inj f g : tf_offset f = tf_offset g → f = g.
Proof.
  unfold tf_offset. intros H. assert (tf_index f = tf_index g) as Hi by lia.
  pose proof (tf_index_lookup f) as Hf. rewrite Hi, tf_index_lookup in Hf. congruence.
Qed.
