(* ===== verification/VmSpec.v ===== *)
(** What the operations on user address spaces promise: a [Uvm] is a finite map
    from user pages to frames and permissions, every operation acts on that map,
    and the frames handed out by the heap are accounted for exactly. *)
From S2P Require Export Vm.

Section uvm.
Context {E : Env} {EL : EnvLaws E} {fails : Prop}.
Local Abbreviation wp := (wpo fails).
Implicit Types (s : Machine) (F : gset Z) (tabs : gmap Z Z) (pages hi : entries) (u : Uvm).

Abbreviation uroot u := (root (uvm_pagetable u)).

(** The frames a set of pages is backed by. *)
Definition frames_of pages : gset Z := map_img (fst <$> pages).

(** The top of the user part of the address space: the trapframe page. *)
Definition user_end u : Z := USER_START + uvm_size u.

(** [u] holds the user pages [pages] and, above them, [hi]: the trampoline and
    the trapframe once the process has been set up. *)
Record uvm_rep s u tabs F pages hi : Prop := {
  ur_pt : pt_rep s (uroot u) tabs (frames_of pages ∪ F) (pages ∪ hi);
  ur_disj : frames_of pages ## F;
  ur_begin : uvm_begin u = USER_START;
  ur_size : 0 ≤ uvm_size u ∧ page_aligned (uvm_size u) ∧ user_end u ≤ TRAPFRAME;
  ur_page a x : pages !! a = Some x →
    USER_START ≤ a < user_end u ∧ frame_ok x.1 ∧ user_perm x.2;
  ur_inj a b x y : pages !! a = Some x → pages !! b = Some y → x.1 = y.1 → a = b;
  ur_hi a x : hi !! a = Some x →
    (a = TRAMPOLINE ∨ a = TRAPFRAME) ∧ Z.testbit x.2 4 = false;
}.

Lemma elem_of_frames_pages pages p :
  p ∈ frames_of pages ↔ ∃ a x, pages !! a = Some x ∧ x.1 = p.
Proof.
  unfold frames_of. rewrite elem_of_map_img. setoid_rewrite lookup_fmap_Some. naive_solver.
Qed.

Lemma frames_of_insert pages a x :
  pages !! a = None → frames_of (<[a:=x]> pages) = {[x.1]} ∪ frames_of pages.
Proof.
  intros H. unfold frames_of. rewrite fmap_insert, map_img_insert_notin_L; [done|].
  by rewrite lookup_fmap, H.
Qed.

Lemma frames_of_empty : frames_of ∅ = ∅.
Proof. unfold frames_of. by rewrite fmap_empty, map_img_empty_L. Qed.

Lemma uvm_rep_ok s u tabs F pages hi : uvm_rep s u tabs F pages hi → mach_ok s.
Proof. intros [H _]. by eapply pt_rep_ok. Qed.

Lemma uvm_rep_aligned s u tabs F pages hi a x :
  uvm_rep s u tabs F pages hi → pages !! a = Some x → page_aligned a.
Proof.
  intros H Ha. destruct (ur_pt _ _ _ _ _ _ H) as [_ _ Hok].
  eapply (Hok a x). by apply lookup_union_Some_l.
Qed.

Lemma uvm_end_aligned s u tabs F pages hi :
  uvm_rep s u tabs F pages hi → page_aligned (user_end u) ∧ is_u32 (user_end u).
Proof.
  intros H. destruct (ur_size _ _ _ _ _ _ H) as (H0 & Ha & Hle).
  unfold user_end in *. split; [by apply page_aligned_add|].
  unfold is_u32, U32, TRAPFRAME, TRAMPOLINE, VIRT_END, PAGESIZE, USER_START in *. lia.
Qed.

(** Nothing is mapped at the current end. *)
Lemma uvm_end_free s u tabs F pages hi a :
  uvm_rep s u tabs F pages hi → user_end u ≤ a → pages !! a = None.
Proof.
  intros H Ha. destruct (pages !! a) as [x|] eqn:Hx; [|done].
  destruct (ur_page _ _ _ _ _ _ H _ _ Hx) as (Hr & _). lia.
Qed.

Lemma hi_low s u tabs F pages hi a :
  uvm_rep s u tabs F pages hi → a < TRAPFRAME → hi !! a = None.
Proof.
  intros H Ha. destruct (hi !! a) as [x|] eqn:Hx; [|done].
  destruct (ur_hi _ _ _ _ _ _ H _ _ Hx) as ([-> | ->] & _); [|lia].
  unfold TRAPFRAME, PAGESIZE in Ha. lia.
Qed.

(** A change of state that keeps the table keeps the address space. *)
Lemma uvm_rep_same_tables s s' u tabs F F' pages hi :
  uvm_rep s u tabs F pages hi → mach_ok s' →
  same_on (pt_pages (uroot u) tabs) (m_mem s) (m_mem s') →
  pt_pages (uroot u) tabs ## F' → frames_of pages ## F' →
  live s' = pt_pages (uroot u) tabs ∪ (frames_of pages ∪ F') →
  uvm_rep s' u tabs F' pages hi.
Proof.
  intros [Hpt ? ? ? ? ? ?] Hok Hag Hd Hd' Hl. split; try done.
  eapply pt_rep_same; try done.
  apply pt_rep_disj in Hpt. set_solver +Hpt Hd.
Qed.
Lemma uvm_rep_agree s s' u tabs F F' pages hi :
  uvm_rep s u tabs F pages hi → mach_ok s' →
  agree (pt_pages (uroot u) tabs) (m_mem s) (m_mem s') →
  pt_pages (uroot u) tabs ## F' → frames_of pages ## F' →
  live s' = pt_pages (uroot u) tabs ∪ (frames_of pages ∪ F') →
  uvm_rep s' u tabs F' pages hi.
Proof. intros Hu Hok Hag. eapply uvm_rep_same_tables; [exact Hu|exact Hok|by apply agree_same]. Qed.

Lemma uvm_rep_live s u tabs F pages hi :
  uvm_rep s u tabs F pages hi → live s = pt_pages (uroot u) tabs ∪ (frames_of pages ∪ F).
Proof. intros [Hpt _]. by eapply pt_rep_live. Qed.

Lemma uvm_rep_disj s u tabs F pages hi :
  uvm_rep s u tabs F pages hi → pt_pages (uroot u) tabs ## frames_of pages ∪ F.
Proof. intros [Hpt _]. by eapply pt_rep_disj. Qed.

(** ** new *)

Lemma Uvm_new_spec (Q : option Uvm → Machine → Prop) s :
  mach_ok s → (size (live s) < capacity s)%nat ∨ fails →
  (∀ u s', uvm_rep s' u ∅ (live s) ∅ ∅ → uvm_size u = 0 → quiet s s' →
     agree (live s) (m_mem s) (m_mem s') → Q (Some u) s') →
  wp Uvm_new Q s.
Proof.
  intros Hok Hc HQ. unfold Uvm_new. apply wp_bind, PageTable_new_rep; [done..|].
  intros r s' Hrep Hq Hag. apply wp_ret, HQ; try done. split; try done.
  rewrite frames_of_empty, map_union_empty. by rewrite union_empty_l_L.
Qed.

(** ** alloc and grow *)

Lemma set_size_root n u : uroot (set_size n u) = uroot u.
Proof. done. Qed.

Lemma agree_live s s' X : X ⊆ live s → agree (live s) (m_mem s) (m_mem s') →
  agree X (m_mem s) (m_mem s').
Proof. intros. by eapply agree_weaken. Qed.

(** Growing the size without a page, or with one page already mapped. *)
Lemma uvm_rep_grow s u tabs F pages hi n :
  uvm_rep s u tabs F pages hi → uvm_size u ≤ n → page_aligned n → USER_START + n ≤ TRAPFRAME →
  uvm_rep s (set_size n u) tabs F pages hi.
Proof.
  intros [] Hn Ha Hle. split; try done.
  - unfold user_end; cbn. split_and!; [lia|done..].
  - intros a x Hx. destruct (ur_page0 a x Hx) as (? & ? & ?). unfold user_end in *; cbn. split; [lia|done].
Qed.

(** A frame from the heap joins the frames the address space does not own. *)
Lemma alloc_frame_rep s u tabs F pages hi (Q : Z → Machine → Prop) :
  uvm_rep s u tabs F pages hi →
  (∀ r s', quiet s s' → agree (frames_of pages ∪ F) (m_mem s) (m_mem s') →
     (r = 0 ∧ uvm_rep s' u tabs F pages hi ∧ live s' = live s ∧ (capacity s ≤ size (live s))%nat) ∨
     (frame_ok r ∧ r ≠ 0 ∧ (r ∉ live s) ∧ live s' = {[r]} ∪ live s ∧
      uvm_rep s' u tabs ({[r]} ∪ F) pages hi) → Q r s') →
  wp (LockedHeap_alloc PAGE_LAYOUT) Q s.
Proof.
  intros Hu HQ. pose proof (uvm_rep_live _ _ _ _ _ _ Hu) as Hl.
  pose proof (uvm_rep_disj _ _ _ _ _ _ Hu) as Hd. pose proof (ur_disj _ _ _ _ _ _ Hu) as Hd'.
  apply LockedHeap_alloc_spec; [by eapply uvm_rep_ok|].
  intros r s' (Hok & Hq & Hag & Hr). apply HQ; [done|eapply agree_live; [|done]; set_solver +Hl|].
  assert (agree (pt_pages (uroot u) tabs) (m_mem s) (m_mem s')) as Hagp.
  { eapply agree_live; [|done]. set_solver +Hl. }
  destruct Hr as [(-> & Hl' & Hc)|(Hr & Hfresh & Hl')]; [left|right].
  - split_and!; try done. eapply uvm_rep_agree; try done; [set_solver +Hd|by rewrite Hl'].
  - split_and!; try done.
    { apply frame_ok_range in Hr. unfold RAMSTART in Hr. lia. }
    rewrite Hl in Hfresh, Hl'. eapply uvm_rep_agree; try done.
    + set_solver +Hd Hfresh.
    + set_solver +Hd' Hfresh.
    + rewrite Hl'. set_solver +.
Qed.

(** And leaves them again. *)
Lemma dealloc_frame_rep s u tabs F pages hi r (Q : unit → Machine → Prop) :
  uvm_rep s u tabs ({[r]} ∪ F) pages hi → r ∉ F →
  (∀ s', uvm_rep s' u tabs F pages hi → quiet s s' → live s' = live s ∖ {[r]} →
     agree (frames_of pages ∪ F) (m_mem s) (m_mem s') → Q tt s') →
  wp (LockedHeap_dealloc r PAGE_LAYOUT) Q s.
Proof.
  intros Hu HrF HQ. pose proof (uvm_rep_live _ _ _ _ _ _ Hu) as Hl.
  pose proof (uvm_rep_disj _ _ _ _ _ _ Hu) as Hd. pose proof (ur_disj _ _ _ _ _ _ Hu) as Hd'.
  apply LockedHeap_dealloc_spec; [by eapply uvm_rep_ok|rewrite Hl; set_solver +|].
  rewrite Hl. intros s' Hok Hq Hl' Hag. apply HQ; [|done|by rewrite Hl|].
  - eapply uvm_rep_agree; [done..| | | |].
    + eapply agree_weaken; [|exact Hag]. set_solver +Hd.
    + set_solver +Hd.
    + set_solver +Hd'.
    + rewrite Hl'. set_solver +Hd Hd' HrF.
  - eapply agree_weaken; [|exact Hag]. set_solver +Hd Hd' HrF.
Qed.

(** Mapping such a frame at a free user page. *)
Lemma map_page_rep s u tabs F pages hi r a perm n (Q : option unit → Machine → Prop) :
  uvm_rep s u tabs ({[r]} ∪ F) pages hi → r ∉ F → frame_ok r → user_perm perm →
  page_aligned a → USER_START ≤ a → pages !! a = None →
  uvm_size u ≤ n → page_aligned n → a < USER_START + n → USER_START + n ≤ TRAPFRAME →
  (∀ o s' tabs', quiet s s' → agree (frames_of pages ∪ ({[r]} ∪ F)) (m_mem s) (m_mem s') →
     (size (live s') ≤ size (live s) + 1)%nat →
     match o with
     | Some _ => uvm_rep s' (set_size n u) tabs' F (<[a := (r, perm)]> pages) hi
     | None => uvm_rep s' u tabs' ({[r]} ∪ F) pages hi ∧
         (capacity s ≤ size (live s') ≤ size (live s))%nat
     end → Q o s') →
  wp (map (uvm_pagetable u) a r PAGESIZE perm) Q s.
Proof.
  intros Hu HrF Hr Hperm Ha Ha0 Hpa Hn Hna Han Hend HQ.
  assert (page_aligned r ∧ is_u32 r ∧ 0 ≤ r ∧ r + page_size < U32) as (Hra & Hr32 & Hr0 & Hrb).
  { pose proof (frame_ok_u32 r Hr). destruct Hr as (? & ? & ?).
    unfold is_u32, U32, RAMEND, RAMSTART, RAMSIZE, page_size in *. split_and!; (done || lia). }
  assert (a + page_size < U32) as Hab.
  { unfold TRAPFRAME, TRAMPOLINE, VIRT_END, PAGESIZE, U32, page_size in *. lia. }
  assert (USER_START = 0x10000) as HUS by done.
  destruct (uvm_pagetable u) as [rt] eqn:Hrt.
  assert (uroot u = rt) as Hroot by (by rewrite Hrt).
  eapply map_rep_spec; [rewrite <- Hroot; apply Hu|done..|lia|lia|done|done|done|apply Hperm|].
  intros o s' (k & tabs' & Hk & Ho & Hrep & Hq & Hag & Hsz & _ & Hcap).
  change (PAGESIZE / page_size) with 1 in *.
  apply (HQ o s' tabs'); [done|done|lia|].
  destruct o as [[]|].
  - assert (k = 1) as -> by tauto. rewrite map_range_1 in Hrep.
    rewrite insert_union_l in Hrep. pose proof (ur_disj _ _ _ _ _ _ Hu) as Hd.
    assert (frames_of (<[a:=(r, perm)]> pages) = {[r]} ∪ frames_of pages) as Hf by (by apply frames_of_insert).
    destruct (uvm_rep_grow _ _ _ _ _ _ n Hu) as [_ _ ? ? Hpage Hinj Hhi]; try done.
    split; try done.
    + rewrite Hf. cbn [uvm_pagetable set_size]. rewrite Hrt. cbn [PageTable.root].
      by replace ({[r]} ∪ frames_of pages ∪ F) with (frames_of pages ∪ ({[r]} ∪ F)) by set_solver +.
    + rewrite Hf. set_solver +Hd HrF.
    + intros b x Hx. rewrite lookup_insert in Hx. case_decide; [|by apply Hpage].
      simplify_eq. unfold user_end; cbn. split_and!; try done; apply Hr || apply Hperm.
    + assert (∀ b x, pages !! b = Some x → x.1 ≠ r) as Hne.
      { intros b x Hx <-. assert (x.1 ∈ frames_of pages) by (apply elem_of_frames_pages; eauto).
        set_solver. }
      intros b c x y Hx Hy Hxy. rewrite lookup_insert in Hx. rewrite lookup_insert in Hy.
      repeat case_decide; simplify_eq; try done; cbn in *; [by edestruct Hne..|].
      by eapply Hinj.
  - assert (k = 0) as ->.
    { destruct (decide (k = 1)) as [->|]; [|lia]. by destruct Ho as [_ Ho]; discriminate Ho. }
    rewrite map_range_0, <- Hroot in Hrep. split; [|split; [auto|lia]]. destruct Hu. by split.
Qed.

(** [pages'] is [pages] with a page of permissions [perm] at every page address
    between [lo] and [up]. *)
Record grown pages pages' (lo up perm : Z) : Prop := {
  gr_sub : pages ⊆ pages';
  gr_new a : pages !! a = None → is_Some (pages' !! a) ↔ page_aligned a ∧ lo ≤ a < up;
  gr_perm a x : pages !! a = None → pages' !! a = Some x → x.2 = perm;
}.

Lemma grown_refl pages lo perm : grown pages pages lo lo perm.
Proof.
  split; [done| |naive_solver]. intros a ->. split; [by intros []|]. intros [_ ?]. lia.
Qed.

Lemma grown_cons pages pages' lo up perm r :
  (∀ a, lo ≤ a → pages !! a = None) → page_aligned lo →
  lo + page_size ≤ up →
  grown (<[lo := (r, perm)]> pages) pages' (lo + page_size) up perm →
  grown pages pages' lo up perm.
Proof.
  intros Hnone Hlo Hle [Hs Hn Hp].
  assert (pages' !! lo = Some (r, perm)) as Hlo'.
  { eapply lookup_weaken; [|done]. apply lookup_insert_eq. }
  split.
  - etrans; [|exact Hs]. apply insert_subseteq, Hnone. lia.
  - intros a Ha. destruct (decide (a = lo)) as [->|Hne].
    { rewrite Hlo'. split; [|by eauto]. intros _. unfold page_size in *. split; [done|lia]. }
    rewrite Hn by (by rewrite lookup_insert_ne). split; intros [Hal Hr]; (split; [done|]).
    + unfold page_size in *. lia.
    + destruct (page_aligned_diff a lo) as [i ->]; [done..|]. unfold page_size in *. nia.
  - intros a x Ha Hx. destruct (decide (a = lo)) as [->|Hne].
    { rewrite Hlo' in Hx. by simplify_eq. }
    eapply Hp; [|done]. by rewrite lookup_insert_ne.
Qed.

(** What [alloc] of [n] more pages promises. *)
Definition alloc_post_uvm s u F pages hi (n perm : Z) (ret : Uvm * option unit) s' : Prop :=
  let u' := ret.1 in
  ∃ tabs' pages', uvm_rep s' u' tabs' F pages' hi ∧ uroot u' = uroot u ∧
    quiet s s' ∧ agree (frames_of pages ∪ F) (m_mem s) (m_mem s') ∧
    grown pages pages' (user_end u) (user_end u') (Z.lor perm PTE_U) ∧
    Z.of_nat (size (live s')) ≤ Z.of_nat (size (live s)) + 2 * n ∧
    match ret.2 with
    | Some _ => uvm_size u' = uvm_size u + n * page_size
    | None => uvm_size u ≤ uvm_size u' < uvm_size u + n * page_size ∧
              (capacity s ≤ size (live s') + 1)%nat
    end.

(** The permissions [grow] is called with. *)
Definition rwx_perm (perm : Z) : Prop :=
  is_u32 perm ∧ Z.land perm 0xe = perm ∧ perm ≠ 0.

Lemma user_perm_rwx perm : rwx_perm perm → user_perm (Z.lor perm PTE_U).
Proof.
  intros (Hu & Hl & Hne). unfold PTE_U. split_and!.
  - split; [by apply is_u32_lor|]. rewrite Z.land_lor_distr_l. f_equal.
    rewrite <- Hl, <- Z.land_assoc. done.
  - by rewrite Z.lor_spec, orb_true_r.
  - rewrite !Z.lor_spec, !orb_false_r.
    assert (∀ i, 0 ≤ i → i ≠ 1 → i ≠ 2 → i ≠ 3 → Z.testbit perm i = false) as Hoff.
    { intros i Hi H1 H2 H3. rewrite <- Hl, Z.land_spec. apply andb_false_intro2.
      destruct (decide (4 ≤ i)); [by apply (testbit_high _ 4)|].
      by replace i with 0 by lia. }
    destruct (Z.testbit perm 1) eqn:B1, (Z.testbit perm 2) eqn:B2, (Z.testbit perm 3) eqn:B3;
      try done.
    exfalso. apply Hne, Z.bits_inj'. intros i Hi. rewrite Z.testbit_0_l.
    destruct (decide (i = 1)) as [->|]; [done|]. destruct (decide (i = 2)) as [->|]; [done|].
    destruct (decide (i = 3)) as [->|]; [done|]. by apply Hoff.
Qed.

(** One page mapped, then [n] more. *)
Lemma alloc_post_cons s s2 u tabs F pages hi r perm n ret s3 :
  uvm_rep s u tabs F pages hi → quiet s s2 → agree (frames_of pages ∪ F) (m_mem s) (m_mem s2) →
  Z.of_nat (base.size (live s2)) ≤ Z.of_nat (base.size (live s)) + 2 →
  alloc_post_uvm s2 (set_size (uvm_size u + page_size) u) F
    (<[user_end u := (r, Z.lor perm PTE_U)]> pages) hi (Z.of_nat n) perm ret s3 →
  alloc_post_uvm s u F pages hi (Z.of_nat (S n)) perm ret s3.
Proof.
  intros Hu Hq2 Hag2 Hsz2 (tabs3 & pages3 & Hu3 & Hrt & Hq3 & Hag3 & Hgr & Hsz3 & Hret).
  pose proof (uvm_end_aligned _ _ _ _ _ _ Hu) as [Hea _].
  exists tabs3, pages3. cbn [uvm_pagetable uvm_size set_size] in *.
  assert (user_end (set_size (uvm_size u + page_size) u) = user_end u + page_size) as Hnext.
  { unfold user_end; cbn. lia. }
  rewrite Hnext in Hgr. rewrite (qt_cap _ _ Hq2) in Hret. unfold page_size in *.
  split; [done|]. split; [done|]. split; [by trans s2|]. split; [|split; [|split]].
  - eapply agree_trans; [done|]. eapply agree_weaken; [|exact Hag3].
    rewrite frames_of_insert by by eapply uvm_end_free. set_solver +.
  - eapply grown_cons; [by intros; eapply uvm_end_free|done| |done].
    unfold user_end, page_size in *. destruct ret as [u' [[]|]]; cbn in *; lia.
  - lia.
  - destruct ret as [u' [[]|]]; cbn in *; lia.
Qed.

Lemma alloc_loop_spec n u tabs F pages hi size perm (Q : Uvm * option unit → Machine → Prop) s :
  uvm_rep s u tabs F pages hi → rwx_perm perm →
  size ≤ uvm_size u + Z.of_nat n * page_size →
  (uvm_size u + Z.of_nat n * page_size < size + page_size ∨ n = 0%nat) →
  user_end u + Z.of_nat n * page_size ≤ TRAPFRAME →
  (∀ ret s', alloc_post_uvm s u F pages hi (Z.of_nat n) perm ret s' → Q ret s') →
  wp (alloc_loop n u size perm) Q s.
Proof.
  intros Hu Hperm. revert s u tabs pages Q Hu.
  induction n as [|n IH]; intros s u tabs pages Q Hu Hle Hlt Hend HQ.
  { cbn [alloc_loop]. rewrite decide_False by lia. apply wp_ret, HQ.
    exists tabs, pages. cbn [fst snd]. split_and!; try done; try apply grown_refl; lia. }
  pose proof (uvm_end_aligned _ _ _ _ _ _ Hu) as [Hea Heu].
  destruct (ur_size _ _ _ _ _ _ Hu) as (Hs0 & Hsa & Hse).
  assert (USER_START = 0x10000) as HUS by done.
  assert (TRAPFRAME = 0xffffd000) as HTF by done.
  unfold page_size in Hle, Hlt, Hend. unfold user_end in Hse, Hend.
  cbn [alloc_loop]. rewrite decide_True by lia. rewrite decide_False by apply Hperm.
  apply wp_bind. eapply alloc_frame_rep; [done|]. intros r s1 Hq1 Hag1 [(-> & Hu1 & Hl1 & Hc1)|(Hr & Hr0 & Hfr & Hl1 & Hu1)].
  { rewrite decide_True by done. apply wp_ret, HQ. exists tabs, pages.
    cbn [fst snd]. split_and!; try done; try lia; try apply grown_refl; try (rewrite Hl1; lia).
    unfold page_size; lia. }
  rewrite decide_False by done.
  pose proof (uvm_rep_live _ _ _ _ _ _ Hu) as Hlive.
  unfold Uvm_end. apply wp_bind, wp_add32; [rewrite (ur_begin _ _ _ _ _ _ Hu); unfold U32; lia|].
  rewrite (ur_begin _ _ _ _ _ _ Hu). fold (user_end u).
  apply wp_bind. eapply (map_page_rep s1 u tabs F pages hi r _ _ (uvm_size u + page_size));
    try done; try (unfold page_size, user_end in *; lia).
  { rewrite Hlive in Hfr. set_solver +Hfr. }
  { by apply user_perm_rwx. }
  { eapply uvm_end_free; [done|lia]. }
  { by apply page_aligned_next. }
  assert (Z.of_nat (base.size (live s1)) ≤ Z.of_nat (base.size (live s)) + 1) as Hsz1.
  { rewrite Hl1. pose proof (size_add_le r (live s)). lia. }
  intros o s2 tabs2 Hq2 Hag2 Hsz2 Ho.
  assert (agree (frames_of pages ∪ F) (m_mem s) (m_mem s2)) as Hag12.
  { eapply agree_trans; [done|]. eapply agree_weaken; [|done]. set_solver +. }
  destruct o as [[]|].
  - apply wp_bind, wp_add32; [unfold PAGESIZE, U32; lia|].
    change PAGESIZE with page_size.
    eapply IH; [exact Ho|unfold page_size; cbn; lia..| |].
    { unfold user_end, page_size; cbn. lia. }
    intros ret s3 Hpost. apply HQ. eapply alloc_post_cons; [done| |done|..|done]; [by trans s1|lia].
  - apply wp_bind. destruct Ho as [Hu2 Hcap]. pose proof (uvm_rep_live _ _ _ _ _ _ Hu2) as Hlive2.
    eapply dealloc_frame_rep; [done|rewrite Hlive in Hfr; set_solver +Hfr|].
    intros s3 Hu3 Hq3 Hl3 Hag3. apply wp_ret, HQ. exists tabs2, pages. cbn [fst snd].
    split; [done|]. split; [done|]. split; [trans s1; [done|by trans s2]|]. split.
    { by eapply agree_trans. }
    split; [apply grown_refl|].
    assert (base.size (live s2) = base.size (live s3) + 1)%nat.
    { rewrite Hl3, size_difference, size_singleton by (rewrite Hlive2; set_solver +).
      assert (base.size (live s2) ≠ 0%nat); [|lia].
      intros ?%size_empty_inv. rewrite Hlive2 in *. set_solver. }
    rewrite (qt_cap _ _ Hq1) in Hcap. split_and!; (lia || unfold page_size; lia).
Qed.

(** Guard pages: the size grows, nothing is mapped. *)
Lemma alloc_loop_guard n u size (Q : Uvm * option unit → Machine → Prop) s :
  0 ≤ uvm_size u → size ≤ uvm_size u + Z.of_nat n * page_size →
  (uvm_size u + Z.of_nat n * page_size < size + page_size ∨ n = 0%nat) →
  uvm_size u + Z.of_nat n * page_size < U32 →
  Q (set_size (uvm_size u + Z.of_nat n * page_size) u, Some tt) s →
  wp (alloc_loop n u size 0) Q s.
Proof.
  unfold page_size. revert u. induction n as [|n IH]; intros u H0 Hle Hlt Hov HQ; cbn [alloc_loop].
  { rewrite decide_False by lia. apply wp_ret. rewrite Z.add_0_r in HQ. by destruct u. }
  rewrite decide_True, decide_True by (done || lia).
  apply wp_bind, wp_add32; [unfold PAGESIZE in *; lia|]. change PAGESIZE with 0x1000.
  apply IH; cbn; [lia..|].
  replace (uvm_size u + 0x1000 + Z.of_nat n * 0x1000)
    with (uvm_size u + Z.of_nat (S n) * 0x1000) by lia. done.
Qed.

(** How many pages [alloc] adds to reach [size]. *)
Definition pages_to u (size : Z) : Z := Z.max 0 ((size - uvm_size u + PAGESIZE - 1) / PAGESIZE).

Lemma pages_to_bounds u size :
  let n := Z.to_nat ((size - uvm_size u + PAGESIZE - 1) / PAGESIZE) in
  Z.of_nat n = pages_to u size ∧
  size ≤ uvm_size u + Z.of_nat n * page_size ∧
  (uvm_size u + Z.of_nat n * page_size < size + page_size ∨ n = 0%nat).
Proof.
  unfold pages_to, page_size, PAGESIZE. cbv zeta. change (4 * 1024) with 0x1000.
  Z.div_mod_to_equations. lia.
Qed.

Lemma pages_to_end s u tabs F pages hi size :
  uvm_rep s u tabs F pages hi → USER_START + size ≤ TRAPFRAME →
  user_end u + pages_to u size * page_size ≤ TRAPFRAME.
Proof.
  intros Hu Hend. destruct (ur_size _ _ _ _ _ _ Hu) as (Hs0 & Hsa & Hse).
  destruct (pages_to_bounds u size) as (Hn & Hle & Hlt). rewrite <- Hn in *.
  destruct Hlt as [Hlt| ->]; [|lia]. unfold user_end in *. unfold page_aligned in Hsa.
  assert (USER_START = 0x10 * page_size) as HUS by done. rewrite HUS in *.
  assert (TRAPFRAME = 0xffffd * page_size) as HTF by done. rewrite HTF in *.
  set (n := Z.to_nat _) in *. clearbody n. unfold page_size in *. Z.div_mod_to_equations. lia.
Qed.

Lemma Uvm_alloc_spec s u tabs F pages hi size perm (Q : Uvm * option unit → Machine → Prop) :
  uvm_rep s u tabs F pages hi → rwx_perm perm → USER_START + size ≤ TRAPFRAME →
  (∀ ret s', alloc_post_uvm s u F pages hi (pages_to u size) perm ret s' → Q ret s') →
  wp (Uvm_alloc u size perm) Q s.
Proof.
  intros Hu Hperm Hend HQ. destruct (pages_to_bounds u size) as (Hn & Hle & Hlt).
  eapply alloc_loop_spec; try done; rewrite Hn; [|done]. by eapply pages_to_end.
Qed.

Lemma Uvm_alloc_guard s u tabs F pages hi size (Q : Uvm * option unit → Machine → Prop) :
  uvm_rep s u tabs F pages hi → USER_START + size ≤ TRAPFRAME →
  (∀ u', u' = set_size (uvm_size u + pages_to u size * page_size) u →
     uvm_rep s u' tabs F pages hi → Q (u', Some tt) s) →
  wp (Uvm_alloc u size 0) Q s.
Proof.
  intros Hu Hend HQ. destruct (pages_to_bounds u size) as (Hn & Hle & Hlt).
  destruct (ur_size _ _ _ _ _ _ Hu) as (Hs0 & Hsa & Hse).
  pose proof (pages_to_end _ _ _ _ _ _ _ Hu Hend) as Hpe. unfold user_end in *.
  assert (TRAPFRAME < U32 ∧ 0 ≤ USER_START) as [HTF HUS] by done.
  apply alloc_loop_guard; try done; [rewrite Hn; lia|]. rewrite Hn. apply HQ; [done|].
  rewrite <- Hn in *. apply uvm_rep_grow; [done|unfold page_size; lia| |lia].
  apply page_aligned_add; [done|apply page_aligned_mul].
Qed.

(** [grow] by a multiple of the page size. *)
Lemma Uvm_grow_spec s u tabs F pages hi size perm (Q : Uvm * option unit → Machine → Prop) :
  uvm_rep s u tabs F pages hi → rwx_perm perm → 0 ≤ size → user_end u + size ≤ TRAPFRAME →
  (∀ ret s', alloc_post_uvm s u F pages hi ((size + PAGESIZE - 1) / PAGESIZE) perm ret s' →
     Q ret s') →
  wp (Uvm_grow u size perm) Q s.
Proof.
  intros Hu Hperm Hs Hend HQ. unfold user_end in Hend.
  assert (TRAPFRAME < U32 ∧ 0 ≤ USER_START) as [HTF HUS] by done.
  unfold Uvm_grow. apply wp_bind, wp_add32; [lia|].
  eapply Uvm_alloc_spec; try done; [lia|]. unfold pages_to.
  replace (uvm_size u + size - uvm_size u) with size by lia.
  rewrite Z.max_r by (apply Z.div_pos; unfold PAGESIZE; lia). done.
Qed.

Lemma Uvm_grow_guard s u tabs F pages hi size (Q : Uvm * option unit → Machine → Prop) :
  uvm_rep s u tabs F pages hi → page_aligned size → 0 ≤ size → user_end u + size ≤ TRAPFRAME →
  (∀ u', u' = set_size (uvm_size u + size) u → uvm_rep s u' tabs F pages hi → Q (u', Some tt) s) →
  wp (Uvm_grow u size 0) Q s.
Proof.
  intros Hu Ha Hs Hend HQ. unfold user_end in Hend.
  assert (TRAPFRAME < U32 ∧ 0 ≤ USER_START) as [HTF HUS] by done.
  unfold Uvm_grow. apply wp_bind, wp_add32; [lia|].
  eapply Uvm_alloc_guard; [done|lia|]. unfold pages_to.
  replace (uvm_size u + size - uvm_size u) with size by lia.
  assert (Z.max 0 ((size + PAGESIZE - 1) / PAGESIZE) * page_size = size) as ->; [|done].
  unfold page_aligned, page_size, PAGESIZE in *. Z.div_mod_to_equations. lia.
Qed.

(** ** dealloc, free and drop *)

Lemma entry_frees_Some free x p :
  entry_frees free x = Some p → p = x.1 ∧ free = true ∧ Z.testbit x.2 4 = true.
Proof.
  unfold entry_frees. destruct free, (Z.testbit x.2 4); simpl; try done.
  destruct (_ || _); [|done]. intros. by simplify_eq.
Qed.

Lemma entry_frees_user x : user_perm x.2 → entry_frees true x = Some x.1.
Proof. intros (_ & H4 & Hrwx). unfold entry_frees. by rewrite H4, Hrwx. Qed.

Lemma frees_of_false e n v : frees_of e false n v = [].
Proof.
  revert v. induction n as [|n IH]; intros v; cbn [frees_of]; [done|].
  rewrite IH. by destruct (e !! v).
Qed.

Lemma frees_inj_false e : frees_inj e false.
Proof. by intros a b x y p _ _ [_ [? _]]%entry_frees_Some. Qed.

Lemma uvm_frees_inj s u tabs F pages hi :
  uvm_rep s u tabs F pages hi → frees_inj (pages ∪ hi) true.
Proof.
  intros Hu a b x y p Hx Hy Hp Hp'.
  apply entry_frees_Some in Hp as (-> & _ & H4). apply entry_frees_Some in Hp' as (Heq & _ & H4').
  assert (∀ c z, (pages ∪ hi) !! c = Some z → Z.testbit z.2 4 = true → pages !! c = Some z) as Hlow.
  { intros c z [Hz|[_ Hz]]%lookup_union_Some_raw Hbit; [done|].
    apply (ur_hi _ _ _ _ _ _ Hu) in Hz as [_ Hz]. congruence. }
  eapply (ur_inj _ _ _ _ _ _ Hu); eauto.
Qed.

(** What is left of the user pages once [k] from [v] are gone, and which frames
    that gives back. *)
Lemma uvm_frees_range s u tabs F pages hi v n :
  uvm_rep s u tabs F pages hi → page_aligned v → v + Z.of_nat n * page_size ≤ TRAPFRAME →
  let l := frees_of (pages ∪ hi) true n v in
  (∀ p, p ∈ l → p ∈ frames_of pages) ∧
  (frames_of pages ∪ F) ∖ list_to_set l = frames_of (unmap_range pages v (Z.of_nat n)) ∪ F.
Proof.
  intros Hu Hv Hend l.
  assert (∀ p, p ∈ l ↔ ∃ a x, pages !! a = Some x ∧ x.1 = p ∧ v ≤ a < v + Z.of_nat n * page_size) as Hl.
  { intros p. unfold l. rewrite elem_of_frees_of. split.
    - intros (i & x & Hi & [Hx|[_ Hx]]%lookup_union_Some_raw & Hp).
      + exists (v + Z.of_nat i * page_size), x.
        apply entry_frees_Some in Hp as (-> & _). unfold page_size. split_and!; try done; lia.
      + apply entry_frees_Some in Hp as (_ & _ & H4).
        apply (ur_hi _ _ _ _ _ _ Hu) in Hx as [_ Hx]. congruence.
    - intros (a & x & Hx & Hp & Hr).
      assert (page_aligned a) as Ha by by eapply uvm_rep_aligned.
      destruct (page_aligned_diff a v Ha Hv) as [i ->]. unfold page_size in Hr.
      exists (Z.to_nat i), x. rewrite Z2Nat.id by lia. split_and!; [lia|by apply lookup_union_Some_l|].
      rewrite entry_frees_user; [congruence|]. by eapply (ur_page _ _ _ _ _ _ Hu). }
  assert (∀ p, p ∈ l → p ∈ frames_of pages) as Hsub.
  { intros p (a & x & Hx & <- & _)%Hl. apply elem_of_frames_pages. eauto. }
  split; [done|]. apply set_eq. intros p.
  rewrite elem_of_difference, !elem_of_union, elem_of_list_to_set, !elem_of_frames_pages.
  setoid_rewrite unmap_range_lookup. split.
  - intros [[(a & x & Hx & <-)|HF] Hn]; [left|by right]. exists a, x. split; [|done].
    rewrite decide_False; [done|]. intros Hr. apply Hn, Hl. eauto.
  - intros [(a & x & Hx & <-)|HF].
    + case_decide as Hr; [done|]. split; [left; eauto|]. intros (b & y & Hy & Hxy & Hr')%Hl.
      by assert (b = a) as -> by by eapply (ur_inj _ _ _ _ _ _ Hu).
    + split; [by right|]. intros Hp%Hsub. pose proof (ur_disj _ _ _ _ _ _ Hu). set_solver.
Qed.

Lemma unmap_range_union pages hi v k :
  (∀ a, v ≤ a < v + k * page_size → hi !! a = None) →
  unmap_range (pages ∪ hi) v k = unmap_range pages v k ∪ hi.
Proof.
  intros H. apply map_eq. intros a. rewrite unmap_range_lookup, !lookup_union, unmap_range_lookup.
  case_decide; [by rewrite H|done].
Qed.

(** Unmapping user pages gives back exactly their frames. *)
Lemma unmap_user_rep s u tabs F pages hi v size (Q : option unit → Machine → Prop) :
  uvm_rep s u tabs F pages hi → page_aligned v → page_aligned size → 0 ≤ v → 0 ≤ size →
  v + size ≤ TRAPFRAME →
  let pages' := unmap_range pages v (size / page_size) in
  (∀ s', pt_rep s' (uroot u) tabs (frames_of pages' ∪ F) (pages' ∪ hi) → quiet s s' →
     agree (frames_of pages' ∪ F) (m_mem s) (m_mem s') → Q (Some tt) s') →
  wp (unmap (uvm_pagetable u) v size true) Q s.
Proof.
  intros Hu Hv Hs Hv0 Hs0 Hend pages' HQ.
  assert (0 ≤ size / page_size) as Hn0 by (apply Z.div_pos; unfold page_size; lia).
  assert (size / page_size * page_size = size) as Hsz.
  { unfold page_aligned, page_size in *. Z.div_mod_to_equations. lia. }
  assert (TRAPFRAME < U32) as HTF by done.
  destruct (uvm_frees_range _ _ _ _ _ _ v (Z.to_nat (size / page_size)) Hu Hv) as [Hsub Heq].
  { rewrite Z2Nat.id by done. lia. }
  rewrite Z2Nat.id in Heq by done.
  destruct (uvm_pagetable u) as [rt] eqn:Hrt.
  assert (uroot u = rt) as Hroot by (by rewrite Hrt). cbn [PageTable.root] in HQ.
  eapply unmap_rep_spec; [rewrite <- Hroot; apply Hu|done..|lia|by eapply uvm_frees_inj| |].
  { intros p Hp%Hsub. set_solver +Hp. }
  intros s'. rewrite Heq, unmap_range_union.
  - intros. by apply HQ.
  - intros a Ha. eapply hi_low; [done|lia].
Qed.

Lemma Uvm_dealloc_spec s u tabs F pages hi size (Q : Uvm * option unit → Machine → Prop) :
  uvm_rep s u tabs F pages hi → page_aligned size → 0 ≤ size ≤ uvm_size u →
  let pages' := unmap_range pages (USER_START + size) ((uvm_size u - size) / page_size) in
  (∀ s', uvm_rep s' (set_size size u) tabs F pages' hi → quiet s s' →
     agree (frames_of pages' ∪ F) (m_mem s) (m_mem s') → Q (set_size size u, Some tt) s') →
  wp (Uvm_dealloc u size) Q s.
Proof.
  intros Hu Hs Hsz pages' HQ. destruct (ur_size _ _ _ _ _ _ Hu) as (Hs0 & Hsa & Hse).
  unfold user_end in Hse. assert (TRAPFRAME < U32 ∧ 0 ≤ USER_START) as [HTF HUS] by done.
  unfold Uvm_dealloc, is_multiple_of. rewrite decide_False by (intros Hne; by apply Hne).
  apply wp_bind, wp_add32; [lia|]. apply wp_bind, wp_sub32; [lia|]. apply wp_bind.
  assert (page_aligned (uvm_size u - size)) as Hda.
  { unfold page_aligned, page_size in *. Z.div_mod_to_equations. lia. }
  eapply unmap_user_rep; [done|by apply page_aligned_add|done|lia..|].
  fold pages'. intros s' Hrep Hq Hag. apply wp_ret, HQ; [|done..].
  assert (∀ a x, pages' !! a = Some x → pages !! a = Some x ∧ a < USER_START + size) as Hlow.
  { intros a x. unfold pages'. rewrite unmap_range_lookup. case_decide as Hr; [done|].
    intros Hx. split; [done|]. destruct (ur_page _ _ _ _ _ _ Hu _ _ Hx) as ([Hlo Hhi] & _).
    unfold user_end, page_aligned, page_size in *. Z.div_mod_to_equations. lia. }
  destruct Hu. split; try done.
  - intros p Hp Hq'. apply elem_of_frames_pages in Hp as (a & x & [Hx _]%Hlow & <-).
    assert (x.1 ∈ frames_of pages) by (apply elem_of_frames_pages; eauto). set_solver.
  - unfold user_end; cbn. split_and!; [lia|done|lia].
  - intros a x [Hx Hlt]%Hlow. destruct (ur_page0 a x Hx) as ([? _] & ? & ?). done.
  - intros a b x y [Hx _]%Hlow [Hy _]%Hlow. by eapply ur_inj0.
Qed.

(** Growing again is refused: the subtraction of the sizes overflows. *)
Lemma Uvm_dealloc_larger s u size :
  page_aligned size → uvm_size u < size → USER_START + size < U32 →
  Uvm_dealloc u size s = Panic POverflow.
Proof.
  intros Hs Hlt Hov. unfold Uvm_dealloc, is_multiple_of.
  rewrite decide_False by (intros Hne; by apply Hne).
  unfold add32, sub32, mbind, M_bind. by rewrite decide_True, decide_False by lia.
Qed.

Lemma unmap_all s u tabs F pages hi :
  uvm_rep s u tabs F pages hi → unmap_range pages USER_START (uvm_size u / page_size) = ∅.
Proof.
  intros Hu. destruct (ur_size _ _ _ _ _ _ Hu) as (Hs0 & Hsa & _).
  apply map_eq. intros a. rewrite unmap_range_lookup, lookup_empty. case_decide as Hr; [done|].
  destruct (pages !! a) as [x|] eqn:Hx; [|done].
  destruct (ur_page _ _ _ _ _ _ Hu _ _ Hx) as ([Hlo Hhi] & _).
  unfold user_end, page_aligned, page_size in *. Z.div_mod_to_equations. lia.
Qed.

(** One of the two special pages, unmapped without giving its frame back. *)
Lemma unmap_high_rep s rt tabs F e v (Q : option unit → Machine → Prop) :
  pt_rep s rt tabs F e → v = TRAMPOLINE ∨ v = TRAPFRAME →
  (∀ s', pt_rep s' rt tabs F (unmap_range e v 1) → quiet s s' →
     agree F (m_mem s) (m_mem s') → Q (Some tt) s') →
  wp (unmap (mkPageTable rt) v PAGESIZE false) Q s.
Proof.
  intros Hrep Hv HQ. eapply unmap_rep_spec; [done|by destruct Hv as [-> | ->]|done|
    by destruct Hv as [-> | ->]|done|by destruct Hv as [-> | ->]|apply frees_inj_false| |].
  - intros p. rewrite frees_of_false, elem_of_nil. done.
  - intros s'. rewrite frees_of_false. cbn [list_to_set]. rewrite difference_empty_L. apply HQ.
Qed.

Lemma unmap_high_pages s u tabs F pages hi :
  uvm_rep s u tabs F pages hi →
  unmap_range (unmap_range (pages ∪ hi) TRAMPOLINE 1) TRAPFRAME 1 = pages.
Proof.
  intros Hu. assert (TRAMPOLINE = TRAPFRAME + page_size) as HT by done.
  apply map_eq. intros a. rewrite !unmap_range_lookup, lookup_union, HT.
  destruct (pages !! a) as [x|] eqn:Hx.
  - destruct (ur_page _ _ _ _ _ _ Hu _ _ Hx) as ([_ Hlt] & _).
    destruct (ur_size _ _ _ _ _ _ Hu) as (_ & _ & Hle). unfold page_size.
    rewrite !decide_False by lia. by destruct (hi !! a).
  - destruct (hi !! a) as [x|] eqn:Hh; [|by repeat case_decide].
    destruct (ur_hi _ _ _ _ _ _ Hu _ _ Hh) as [[-> | ->] _].
    + rewrite HT. unfold page_size. rewrite decide_False, decide_True by lia. done.
    + rewrite decide_True by (unfold page_size; lia). done.
Qed.

Lemma Uvm_free_spec s u tabs F pages hi (Q : unit → Machine → Prop) :
  uvm_rep s u tabs F pages hi →
  (∀ s', pt_rep s' (uroot u) tabs F ∅ → quiet s s' → agree F (m_mem s) (m_mem s') → Q tt s') →
  wp (Uvm_free u) Q s.
Proof.
  intros Hu HQ. unfold Uvm_free. pose proof (unmap_high_pages _ _ _ _ _ _ Hu) as Hhigh.
  pose proof (ur_pt _ _ _ _ _ _ Hu) as Hrep0.
  destruct (uvm_pagetable u) as [rt] eqn:Hrt. cbn [PageTable.root] in *.
  apply wp_bind. eapply unmap_high_rep; [done|by left|]. intros s1 Hrep1 Hq1 Hag1.
  apply wp_bind, wp_ret, wp_bind. eapply unmap_high_rep; [done|by right|].
  intros s2 Hrep2 Hq2 Hag2. apply wp_bind, wp_ret. rewrite Hhigh in Hrep2.
  assert (uvm_rep s2 u tabs F pages ∅) as Hu2.
  { destruct Hu. split; try done. by rewrite Hrt, map_union_empty. }
  assert (agree F (m_mem s) (m_mem s2)) as Hag.
  { eapply agree_trans; (eapply agree_weaken; [|done]); set_solver +. }
  destruct (ur_size _ _ _ _ _ _ Hu) as (Hs0 & Hsa & Hse). unfold user_end in Hse.
  pose proof (unmap_all _ _ _ _ _ _ Hu2) as Hall. rewrite (ur_begin _ _ _ _ _ _ Hu2).
  case_decide as Hpos.
  - apply wp_bind. rewrite <- Hrt. eapply unmap_user_rep; [done|done|done|done|lia|lia|].
    rewrite Hall, frames_of_empty, map_union_empty, union_empty_l_L, Hrt.
    intros s3 Hrep3 Hq3 Hag3. apply wp_ret, HQ; [done|trans s1; [done|by trans s2]|].
    by eapply agree_trans.
  - assert (uvm_size u = 0) as Hz by lia. rewrite Hz in Hall. change (0 / page_size) with 0 in Hall.
    assert (pages = ∅) as ->.
    { rewrite <- Hall. apply map_eq. intros a. rewrite unmap_range_lookup. by case_decide; [lia|]. }
    rewrite frames_of_empty, union_empty_l_L in Hrep2.
    apply wp_ret, HQ; [done|by trans s1|done].
Qed.

(** Dropping an address space gives back every user frame and the root table;
    the second-level tables stay with the heap's clients for ever. *)
Lemma Uvm_drop_spec s u tabs F pages hi (Q : unit → Machine → Prop) :
  uvm_rep s u tabs F pages hi →
  (∀ s', mach_ok s' → live s' = pt_tables tabs ∪ F → quiet s s' →
     agree F (m_mem s) (m_mem s') → Q tt s') →
  wp (Uvm_drop u) Q s.
Proof.
  intros Hu HQ. unfold Uvm_drop. apply wp_bind. eapply Uvm_free_spec; [done|].
  intros s1 Hrep Hq Hag. destruct (uvm_pagetable u) as [rt]. cbn [PageTable.root] in Hrep.
  eapply PageTable_free_rep; [done|]. intros s2 Hok Hl Hq2 Hag2.
  apply HQ; [done|done|by trans s1|by eapply agree_trans].
Qed.

(** ** init_proc *)

(** The trampoline and the trapframe at [t]. *)
Definition high (t : Z) : entries :=
  <[TRAPFRAME := (t, Z.lor PTE_R PTE_W)]> {[TRAMPOLINE := (trampoline, Z.lor PTE_R PTE_X)]}.

Lemma trampoline_ok : page_aligned trampoline ∧ is_u32 trampoline ∧ trampoline + PAGESIZE < U32.
Proof.
  pose proof etext_aligned. pose proof text_after_start. pose proof etext_before_ekernel.
  pose proof ekernel_before_end. rewrite trampoline_last.
  unfold is_u32, U32, page_aligned, page_size, KERNEL_START, RAMEND, RAMSTART, RAMSIZE, PAGESIZE in *.
  split_and!; try lia. Z.div_mod_to_equations. lia.
Qed.

Lemma map_high_rep s rt tabs F e v p perm (Q : option unit → Machine → Prop) :
  pt_rep s rt tabs F e → v = TRAMPOLINE ∨ v = TRAPFRAME → perm_ok perm →
  page_aligned p → is_u32 p → p + PAGESIZE < U32 →
  (∀ o s' tabs', quiet s s' → agree F (m_mem s) (m_mem s') →
     (size (live s') ≤ size (live s) + 1)%nat →
     match o with
     | Some _ => pt_rep s' rt tabs' F (<[v := (p, perm)]> e)
     | None => pt_rep s' rt tabs' F e ∧ (capacity s ≤ size (live s'))%nat
     end → Q o s') →
  wp (map (mkPageTable rt) v p PAGESIZE perm) Q s.
Proof.
  intros Hrep Hv Hperm Hp Hu Hb HQ.
  eapply map_rep_spec; [done|by destruct Hv as [-> | ->]|done|done|by destruct Hv as [-> | ->]|
    apply Hu|done|by destruct Hv as [-> | ->]|done|done|].
  intros o s' (k & tabs' & Hk & Ho & Hrep' & Hq & Hag & Hsz & _ & Hcap).
  change (PAGESIZE / page_size) with 1 in *. apply (HQ o s' tabs'); [done|done|lia|].
  destruct o as [[]|].
  - assert (k = 1) as -> by tauto. by rewrite map_range_1 in Hrep'.
  - assert (k = 0) as ->.
    { destruct (decide (k = 1)) as [->|]; [|lia]. by destruct Ho as [_ Ho]; discriminate Ho. }
    split; [done|auto].
Qed.

Lemma init_proc_spec s u tabs F pages t (Q : option unit → Machine → Prop) :
  uvm_rep s u tabs F pages ∅ → frame_ok t →
  (∀ o s' tabs' hi, uvm_rep s' u tabs' F pages hi → quiet s s' →
     agree (frames_of pages ∪ F) (m_mem s) (m_mem s') →
     (size (live s') ≤ size (live s) + 2)%nat →
     match o with
     | Some _ => hi = high t
     | None => (capacity s ≤ size (live s'))%nat
     end → Q o s') →
  wp (init_proc u t) Q s.
Proof.
  intros Hu Ht HQ. destruct trampoline_ok as (Hta & Htu & Htb).
  assert (is_u32 t ∧ t + PAGESIZE < U32) as [Htu' Htb'].
  { pose proof (frame_ok_u32 t Ht). destruct Ht as (_ & _ & Hr). split; [done|].
    unfold U32, RAMEND, RAMSTART, RAMSIZE, page_size, PAGESIZE in *. lia. }
  destruct Hu as [Hrep Hd Hb Hs Hp Hi _]. rewrite map_union_empty in Hrep.
  assert (∀ s' tabs' hi, pt_rep s' (uroot u) tabs' (frames_of pages ∪ F) (pages ∪ hi) →
    (∀ a x, hi !! a = Some x → (a = TRAMPOLINE ∨ a = TRAPFRAME) ∧ Z.testbit x.2 4 = false) →
    uvm_rep s' u tabs' F pages hi) as Hback by (intros; by split).
  assert (∀ a, a = TRAMPOLINE ∨ a = TRAPFRAME → pages !! a = None) as Hnone.
  { intros a Ha. destruct (pages !! a) as [x|] eqn:Hx; [|done].
    destruct (Hp _ _ Hx) as ([_ Hlt] & _). destruct Hs as (_ & _ & Hle).
    assert (TRAPFRAME < TRAMPOLINE) by done. destruct Ha; subst; lia. }
  unfold init_proc. destruct (uvm_pagetable u) as [rt]. cbn [PageTable.root] in *.
  apply wp_bind. eapply map_high_rep; [done|by left|by split|done..|].
  intros o s1 tabs1 Hq1 Hag1 Hsz1 Ho. destruct o as [[]|]; cycle 1.
  { destruct Ho as [Hrep1 Hc]. apply wp_ret. eapply (HQ _ _ tabs1 ∅); try done; [|lia].
    apply Hback; [by rewrite map_union_empty|done]. }
  apply wp_bind. eapply map_high_rep; [done|by right|by split|apply Ht|done..|].
  intros o s2 tabs2 Hq2 Hag2 Hsz2 Ho2.
  assert (quiet s s2) by by trans s1.
  assert (agree (frames_of pages ∪ F) (m_mem s) (m_mem s2)) by by eapply agree_trans.
  destruct o as [[]|]; cycle 1.
  - destruct Ho2 as [Hrep2 Hc]. apply wp_ret.
    eapply (HQ _ _ tabs2 {[TRAMPOLINE := (trampoline, Z.lor PTE_R PTE_X)]}); try done; [|lia|].
    + apply Hback.
      * rewrite <- insert_empty, <- insert_union_r, map_union_empty; [done|]. apply Hnone. by left.
      * intros a x Hx%lookup_singleton_Some. destruct Hx as [<- <-]. by split; [left|].
    + by rewrite (qt_cap _ _ Hq1) in Hc.
  - apply wp_ret. eapply (HQ _ _ tabs2 (high t)); try done; [|lia].
    apply Hback.
    + unfold high. rewrite <- insert_empty, <- !insert_union_r, map_union_empty; [done|..]; apply Hnone; tauto.
    + intros a x Hx. unfold high in Hx.
      apply lookup_insert_Some in Hx as [[<- <-]|[_ Hx]]; [by split; [right|]|].
      apply lookup_singleton_Some in Hx as [<- <-]. by split; [left|].
Qed.
End uvm.
