(* ===== verification/UserMem.v ===== *)
(** Copies between a user address space and the kernel, program loading and
    [Uvm::clone], in terms of the bytes the user program sees. *)
From S2P Require Export VmSpec.

Section user_memory.
Context {E : Env} {EL : EnvLaws E} {fails : Prop}.
Local Abbreviation wp := (wpo fails).
Implicit Types (s : Machine) (F : gset Z) (tabs : gmap Z Z) (pages hi : entries) (u : Uvm).

Abbreviation uroot u := (root (uvm_pagetable u)).

(** ** Translation and copies *)

(** What [walkaddr] computes from the entries. *)
Definition translate (e : entries) (va : Z) : option Z :=
  match e !! page_of va with
  | Some (p, perm) =>
      if Z.testbit perm 1 || Z.testbit perm 2 || Z.testbit perm 3
      then Some (p + va mod page_size) else None
  | None => None
  end.

Lemma walkaddr_spec s rt tabs F e va (Q : option Z → Machine → Prop) :
  pt_rep s rt tabs F e → is_u32 va → Q (translate e va) s →
  wp (walkaddr (mkPageTable rt) va) Q s.
Proof.
  intros Hrep Hva HQ. unfold walkaddr. apply wp_bind. eapply walk_rep; [done..|].
  intros [a|] Hr.
  2: { apply wp_ret. unfold translate in HQ. by rewrite Hr in HQ. }
  destruct Hr as (Hram & Hal & Hw). apply wp_bind, wp_read32; [done..|]. rewrite Hw.
  destruct Hrep as [_ Htr Hok]. specialize (Htr va Hva). unfold translate in HQ.
  destruct (e !! page_of va) as [[p perm]|] eqn:Hx.
  2: { cbv zeta. rewrite pte_v_bit, Htr. by apply wp_ret. }
  destruct (Hok _ _ Hx) as (_ & _ & Hp & Hu & Hperm). cbn in Hp, Hu, Hperm.
  rewrite Htr. unfold entry_word; cbn [fst snd]. cbv zeta.
  destruct (leaf_decode p perm Hp Hu Hperm) as (q & _ & _ & ->).
  cbn [pte_v pte_r pte_w pte_x pte_pa negb orb].
  destruct (Z.testbit perm 1 || _ || _); cbn [negb]; [|by apply wp_ret].
  apply wp_bind, wp_add32; [|by apply wp_ret].
  unfold is_u32, U32, page_aligned, page_size, PAGESIZE in *. Z.div_mod_to_equations. lia.
Qed.

(** The bytes the user program sees. *)
Definition user_byte (m : mem) pages (va : Z) : option Z :=
  (λ x, ld8 m (x.1 + va mod page_size)) <$> pages !! page_of va.

Lemma translate_user s u tabs F pages hi va x :
  uvm_rep s u tabs F pages hi → pages !! page_of va = Some x →
  translate (pages ∪ hi) va = Some (x.1 + va mod page_size).
Proof.
  intros Hu Hx. unfold translate. rewrite (lookup_union_Some_l _ _ _ _ Hx).
  destruct (ur_page _ _ _ _ _ _ Hu _ _ Hx) as (_ & _ & _ & _ & Hrwx). destruct x. cbn in *.
  by rewrite Hrwx.
Qed.

(** A write confined to the frame of a user page changes what the program sees
    there and nothing else. *)
Lemma user_write s u tabs F pages hi a x m :
  uvm_rep s u tabs F pages hi → pages !! a = Some x →
  (∀ b, page_of b ≠ x.1 → ld8 m b = ld8 (m_mem s) b) →
  uvm_rep (set_mem m s) u tabs F pages hi ∧ quiet s (set_mem m s) ∧
  agree F (m_mem s) m ∧
  (∀ va, page_of va ≠ a → user_byte m pages va = user_byte (m_mem s) pages va).
Proof.
  intros Hu Hx Hm. destruct (ur_page _ _ _ _ _ _ Hu _ _ Hx) as (_ & Hfr & _).
  assert (x.1 ∈ frames_of pages) as Hin by (apply elem_of_frames_pages; eauto).
  pose proof (uvm_rep_live _ _ _ _ _ _ Hu) as Hl. pose proof (uvm_rep_disj _ _ _ _ _ _ Hu) as Hd.
  pose proof (ur_disj _ _ _ _ _ _ Hu) as Hd'.
  split_and!.
  - eapply uvm_rep_agree; [done| | | |done|done].
    + apply mach_ok_write_frame with x.1; [by eapply uvm_rep_ok| |done]. rewrite Hl. set_solver +Hin.
    + eapply agree_write; [done| |done]. set_solver +Hd Hin.
    + set_solver +Hd.
  - by apply quiet_set_mem.
  - eapply agree_write; [done| |done]. set_solver +Hd' Hin.
  - intros va Hva. unfold user_byte. destruct (pages !! page_of va) as [y|] eqn:Hy; [|done].
    cbn. f_equal. apply Hm. destruct (ur_page _ _ _ _ _ _ Hu _ _ Hy) as (_ & Hfy & _).
    rewrite page_of_add; [|apply Hfy|apply Z.mod_pos_bound; done].
    intros Heq. apply Hva. by eapply (ur_inj _ _ _ _ _ _ Hu).
Qed.
Lemma user_byte_in m pages va a x :
  pages !! a = Some x → page_of va = a →
  user_byte m pages va = Some (ld8 m (x.1 + (va - a))).
Proof.
  intros Hx Ha. unfold user_byte. rewrite Ha, Hx. cbn. do 2 f_equal. unfold page_of in Ha. lia.
Qed.

(** The access of [n] bytes at [va], inside the page [a]. *)
Definition in_page (a va n : Z) : Prop := page_aligned a ∧ a ≤ va ∧ va + n ≤ a + page_size.

Lemma in_page_of a va n : in_page a va n → 0 < n → page_of va = a.
Proof. intros (Ha & Hlo & Hhi) Hn. apply page_of_inside; [done|lia]. Qed.

Lemma in_page_mod a va n : in_page a va n → 0 < n → va mod page_size = va - a.
Proof. intros H Hn. pose proof (in_page_of a va n H Hn). unfold page_of in *. lia. Qed.

(** Writing [n] bytes inside a user page. *)
Lemma user_write_in s u tabs F pages hi a x m va n (f : Z → Z) :
  uvm_rep s u tabs F pages hi → pages !! a = Some x → in_page a va n →
  (∀ b, ld8 m b = if decide (x.1 + (va - a) ≤ b < x.1 + (va - a) + n)
                  then f (b - (x.1 + (va - a))) else ld8 (m_mem s) b) →
  uvm_rep (set_mem m s) u tabs F pages hi ∧ quiet s (set_mem m s) ∧ agree F (m_mem s) m ∧
  (∀ va', user_byte m pages va' =
     if decide (va ≤ va' < va + n) then Some (f (va' - va)) else user_byte (m_mem s) pages va').
Proof.
  intros Hu Hx (Ha & Hlo & Hhi) Hm.
  destruct (ur_page _ _ _ _ _ _ Hu _ _ Hx) as (_ & Hfr & _).
  destruct (user_write s u tabs F pages hi a x m Hu Hx) as (H1 & H2 & H3 & H4).
  { intros b Hb. rewrite Hm, decide_False; [done|]. intros Hr. apply Hb.
    apply page_of_inside; [apply Hfr|lia]. }
  split_and!; [done..|]. intros va'. destruct (decide (page_of va' = a)) as [Hp|Hp].
  - rewrite !(user_byte_in _ _ _ a x), Hm by done. pose proof (page_of_range va').
    destruct (decide (va ≤ va' < va + n)); [rewrite decide_True by lia|rewrite decide_False by lia];
      do 2 f_equal; lia.
  - rewrite H4 by done. rewrite decide_False; [done|]. intros Hr. apply Hp.
    apply page_of_inside; [done|lia].
Qed.

Lemma in_page_user s u tabs F pages hi a x va n :
  uvm_rep s u tabs F pages hi → pages !! a = Some x → in_page a va n → 0 < n →
  is_u32 va ∧ in_data (x.1 + (va - a)) n ∧ frame_ok x.1.
Proof.
  intros Hu Hx (Ha & Hlo & Hhi) Hn.
  destruct (ur_page _ _ _ _ _ _ Hu _ _ Hx) as ([Hr1 Hr2] & Hfr & _).
  destruct (ur_size _ _ _ _ _ _ Hu) as (_ & _ & Hle).
  split_and!; [|apply frame_ok_in_data; (done || lia)|done].
  assert (TRAPFRAME + page_size < U32 ∧ 0 ≤ USER_START) as [??] by done. unfold is_u32.
  unfold page_size in *. lia.
Qed.

Lemma walkaddr_user s u tabs F pages hi a x va n (Q : option Z → Machine → Prop) :
  uvm_rep s u tabs F pages hi → pages !! a = Some x → in_page a va n → 0 < n →
  Q (Some (x.1 + (va - a))) s →
  wp (walkaddr (uvm_pagetable u) va) Q s.
Proof.
  intros Hu Hx Hin Hn HQ. destruct (in_page_user _ _ _ _ _ _ _ _ _ _ Hu Hx Hin Hn) as (Hva & _ & _).
  rewrite <- (in_page_mod a va n) in HQ by done.
  rewrite <- (translate_user s u tabs F pages hi va x) in HQ by (by rewrite ?(in_page_of a va n)).
  pose proof (ur_pt _ _ _ _ _ _ Hu) as Hrep. destruct (uvm_pagetable u) as [rt].
  by eapply walkaddr_spec.
Qed.

(** Byte [i] of a little-endian word. *)
Definition word_byte (w i : Z) : Z := w / 256 ^ i mod 256.

Lemma ld8_st32 m a v b :
  ld8 (st32 m a v) b = if decide (a ≤ b < a + 4) then word_byte v (b - a) else ld8 m b.
Proof.
  unfold st32, word_byte. rewrite !ld8_st8.
  repeat case_decide; try lia; subst; try done.
  - by replace (a + 3 - a) with 3 by lia.
  - by replace (a + 2 - a) with 2 by lia.
  - by replace (a + 1 - a) with 1 by lia.
  - rewrite Z.sub_diag. simpl (256 ^ 0). by rewrite Z.div_1_r.
Qed.

(** The effect of a copy to the user: [f] at the [n] addresses from [va]. *)
Definition copied s u tabs F pages hi (va n : Z) (f : Z → Z) s' : Prop :=
  uvm_rep s' u tabs F pages hi ∧ quiet s s' ∧ agree F (m_mem s) (m_mem s') ∧
  live s' = live s ∧
  (∀ va', user_byte (m_mem s') pages va' =
     if decide (va ≤ va' < va + n) then Some (f (va' - va)) else user_byte (m_mem s) pages va').

Lemma copy_out_spec s u tabs F pages hi a x va data (Q : option unit → Machine → Prop) :
  uvm_rep s u tabs F pages hi → pages !! a = Some x → in_page a va 4 → va mod 4 = 0 →
  (∀ s', copied s u tabs F pages hi va 4 (word_byte data) s' → Q (Some tt) s') →
  wp (copy_out u va data) Q s.
Proof.
  intros Hu Hx Hin Hal HQ.
  destruct (in_page_user _ _ _ _ _ _ _ _ _ _ Hu Hx Hin) as (_ & Hram & Hfr); [done|].
  unfold copy_out. apply wp_bind. eapply walkaddr_user; [done..|].
  apply wp_bind, wp_write32; [done| |].
  { destruct Hin as (Ha & _). destruct Hfr as (Hp & _). unfold page_aligned, page_size in *.
    Z.div_mod_to_equations. lia. }
  apply wp_ret, HQ. destruct (user_write_in s u tabs F pages hi a x
    (st32 (m_mem s) (x.1 + (va - a)) data) va 4 (word_byte data)) as (? & ? & ? & ?); try done.
  intros b. apply ld8_st32.
Qed.

Lemma write_bytes_at_spec l pa (Q : unit → Machine → Prop) s :
  in_data pa (Z.of_nat (length l)) → Q tt (set_mem (store_list (m_mem s) pa l) s) →
  wp (write_bytes_at pa l) Q s.
Proof.
  unfold in_data. revert pa s. induction l as [|b l IH]; intros pa s Hram HQ; cbn [write_bytes_at].
  { apply wp_ret. by destruct s. }
  cbn [length] in Hram. apply wp_bind, wp_write8; [unfold in_data; lia|].
  apply IH; [lia|]. exact HQ.
Qed.

Lemma read_bytes_spec n pa (Q : list Z → Machine → Prop) s :
  in_ram pa (Z.of_nat n) → Q (load_list (m_mem s) pa n) s → wp (read_bytes n pa) Q s.
Proof.
  unfold in_ram. revert pa Q. induction n as [|n IH]; intros pa Q Hram HQ; cbn [read_bytes].
  { by apply wp_ret. }
  apply wp_bind, wp_read8; [unfold in_ram; lia|]. apply wp_bind, IH; [lia|]. apply wp_ret.
  by rewrite load_list_cons in HQ.
Qed.

Lemma copy_out_cont_u8_spec s u tabs F pages hi a x va data (Q : option unit → Machine → Prop) :
  uvm_rep s u tabs F pages hi → pages !! a = Some x → data ≠ [] →
  in_page a va (Z.of_nat (length data)) →
  (∀ s', copied s u tabs F pages hi va (Z.of_nat (length data))
           (λ i, data !!! Z.to_nat i mod 256) s' → Q (Some tt) s') →
  wp (copy_out_cont_u8 u va data) Q s.
Proof.
  intros Hu Hx Hne Hin HQ.
  assert (0 < Z.of_nat (length data)) as Hn by (destruct data; cbn; [done|lia]).
  destruct (in_page_user _ _ _ _ _ _ _ _ _ _ Hu Hx Hin Hn) as (_ & Hram & Hfr).
  unfold copy_out_cont_u8. apply wp_bind. eapply walkaddr_user; [done..|].
  apply wp_bind, write_bytes_at_spec; [done|]. apply wp_ret, HQ.
  destruct (user_write_in s u tabs F pages hi a x
    (store_list (m_mem s) (x.1 + (va - a)) data) va (Z.of_nat (length data))
    (λ i, data !!! Z.to_nat i mod 256)) as (? & ? & ? & ?); try done.
  intros b. rewrite ld8_store_list. set (p := x.1 + (va - a)).
  destruct (decide (p ≤ b < p + Z.of_nat (length data))) as [Hb|Hb].
  - destruct (lookup_lt_is_Some_2 data (Z.to_nat (b - p))) as [v Hv]; [lia|].
    rewrite Hv, (list_lookup_total_correct _ _ _ Hv), decide_True by lia. done.
  - destruct (decide (p ≤ b)); [by rewrite lookup_ge_None_2 by lia|].
    by destruct (data !! _).
Qed.

(** The bytes from the translation of [va] on, whatever is there. *)
Lemma copy_in_cont_spec s rt b0 sz tabs F e pa va len (Q : option (list Z) → Machine → Prop) :
  pt_rep s rt tabs F e → is_u32 va → translate e va = Some pa → 0 ≤ len → in_ram pa len →
  Q (Some (load_list (m_mem s) pa (Z.to_nat len))) s →
  wp (copy_in_cont (mkUvm b0 sz (mkPageTable rt)) va len) Q s.
Proof.
  intros Hrep Hva Htr Hlen Hram HQ. unfold copy_in_cont. cbn [uvm_pagetable].
  apply wp_bind. eapply walkaddr_spec; [done..|]. rewrite Htr.
  apply wp_bind, read_bytes_spec; [by rewrite Z2Nat.id|]. by apply wp_ret.
Qed.

Lemma copy_in_cont_user s u tabs F pages hi a x va len (Q : option (list Z) → Machine → Prop) :
  uvm_rep s u tabs F pages hi → pages !! a = Some x → 0 < len → in_page a va len →
  (∀ l, Z.of_nat (length l) = len →
     (∀ i, 0 ≤ i < len → l !! Z.to_nat i = user_byte (m_mem s) pages (va + i)) →
     Q (Some l) s) →
  wp (copy_in_cont u va len) Q s.
Proof.
  intros Hu Hx Hlen Hin HQ.
  destruct (in_page_user _ _ _ _ _ _ _ _ _ _ Hu Hx Hin Hlen) as (_ & Hram & _).
  unfold copy_in_cont. apply wp_bind. eapply walkaddr_user; [done..|].
  apply wp_bind, read_bytes_spec; [rewrite Z2Nat.id by lia; by apply in_data_ram|]. apply wp_ret, HQ.
  - rewrite length_load_list. lia.
  - intros i Hi. rewrite load_list_lookup, Z2Nat.id by lia.
    rewrite (user_byte_in _ _ _ a x); [do 2 f_equal; lia|done|].
    destruct Hin as (Ha & Hlo & Hhi). apply page_of_inside; [done|lia].
Qed.

Lemma word_byte_ld32 m a i : 0 ≤ i < 4 → word_byte (ld32 m a) i = ld8 m (a + i).
Proof.
  intros Hi. unfold word_byte, ld32.
  pose proof (ld8_range m a). pose proof (ld8_range m (a + 1)).
  pose proof (ld8_range m (a + 2)). pose proof (ld8_range m (a + 3)).
  assert (i = 0 ∨ i = 1 ∨ i = 2 ∨ i = 3) as [-> |[-> |[-> | ->]]] by lia; simpl (256 ^ _);
    rewrite ?Z.add_0_r; Z.div_mod_to_equations; lia.
Qed.

(** Its four bytes determine a word. *)
Lemma word_byte_inj v w :
  is_u32 v → is_u32 w → (∀ i, 0 ≤ i < 4 → word_byte v i = word_byte w i) → v = w.
Proof.
  unfold is_u32, U32, word_byte. intros Hv Hw H.
  pose proof (H 0 ltac:(lia)) as H0. pose proof (H 1 ltac:(lia)) as H1.
  pose proof (H 2 ltac:(lia)) as H2. pose proof (H 3 ltac:(lia)) as H3.
  simpl (256 ^ _) in *. clear H. Z.div_mod_to_equations. lia.
Qed.

Lemma copy_in_spec s u tabs F pages hi a x va (Q : option Z → Machine → Prop) :
  uvm_rep s u tabs F pages hi → pages !! a = Some x → in_page a va 4 → va mod 4 = 0 →
  (∀ w, is_u32 w →
     (∀ i, 0 ≤ i < 4 → user_byte (m_mem s) pages (va + i) = Some (word_byte w i)) →
     Q (Some w) s) →
  wp (copy_in u va) Q s.
Proof.
  intros Hu Hx Hin Hal HQ.
  destruct (in_page_user _ _ _ _ _ _ _ _ _ _ Hu Hx Hin) as (_ & Hram & Hfr); [done|].
  unfold copy_in. apply wp_bind. eapply walkaddr_user; [done..|].
  apply wp_bind, wp_read32; [by apply in_data_ram| |].
  { destruct Hin as (Ha & _). destruct Hfr as (Hp & _). unfold page_aligned, page_size in *.
    Z.div_mod_to_equations. lia. }
  apply wp_ret, HQ; [apply ld32_range|]. intros i Hi. rewrite word_byte_ld32 by done.
  rewrite (user_byte_in _ _ _ a x); [do 2 f_equal; lia|done|].
  destruct Hin as (Ha & Hlo & Hhi). apply page_of_inside; [done|lia].
Qed.

(** A zero-terminated string inside one page. *)
Lemma read_str_spec l fuel pa (Q : list Z → Machine → Prop) s :
  in_ram pa (Z.of_nat (length l) + 1) → (length l < fuel)%nat →
  load_list (m_mem s) pa (length l) = l → Forall (λ b, b ≠ 0) l →
  ld8 (m_mem s) (pa + Z.of_nat (length l)) = 0 →
  Q l s → wp (read_str fuel pa) Q s.
Proof.
  unfold in_ram. revert fuel pa Q. induction l as [|b l IH]; intros [|fuel] pa Q Hram Hf Hl Hnz Hz HQ;
    cbn [length] in *; try lia; cbn [read_str].
  { apply wp_bind, wp_read8; [unfold in_ram; lia|]. rewrite Z.add_0_r in Hz.
    rewrite decide_True by done. by apply wp_ret. }
  rewrite load_list_cons in Hl. injection Hl as Hb Hl. apply Forall_cons in Hnz as [Hb0 Hnz].
  apply wp_bind, wp_read8; [unfold in_ram; lia|]. rewrite Hb, decide_False by done.
  apply wp_bind, IH; [lia|lia|done|done| |by apply wp_ret].
  rewrite <- Hz. f_equal. lia.
Qed.

Lemma copy_in_str_spec s u tabs F pages hi a x va l fuel
    (Q : option (list Z) → Machine → Prop) :
  uvm_rep s u tabs F pages hi → pages !! a = Some x → in_page a va (Z.of_nat (length l) + 1) →
  (length l < fuel)%nat → Forall (λ b, b ≠ 0) l →
  (∀ i b, (l ++ [0]) !! i = Some b → user_byte (m_mem s) pages (va + Z.of_nat i) = Some b) →
  Q (from_utf8 l) s →
  wp (copy_in_str fuel u va) Q s.
Proof.
  intros Hu Hx Hin Hf Hnz Hl HQ.
  destruct (in_page_user _ _ _ _ _ _ _ _ _ _ Hu Hx Hin) as (_ & Hram & Hfr); [lia|].
  destruct Hin as (Ha & Hlo & Hhi).
  assert (∀ i b, (l ++ [0]) !! i = Some b →
    ld8 (m_mem s) (x.1 + (va - a) + Z.of_nat i) = b) as Hld.
  { intros i b Hi. pose proof (lookup_lt_Some _ _ _ Hi) as Hlt. rewrite length_app in Hlt.
    cbn in Hlt. apply Hl in Hi. rewrite (user_byte_in _ _ _ a x) in Hi; [|done|].
    - injection Hi as <-. f_equal. lia.
    - apply page_of_inside; [done|lia]. }
  unfold copy_in_str. apply wp_bind. eapply walkaddr_user; [done|done|by split|lia|].
  apply wp_bind, (read_str_spec l); [by apply in_data_ram|done| |done| |by apply wp_ret].
  - apply list_eq. intros i. destruct (decide (i < length l)%nat) as [Hi|Hi].
    + destruct (lookup_lt_is_Some_2 l i Hi) as [b Hb]. rewrite load_list_lookup by done.
      rewrite Hb. f_equal. apply Hld. by apply lookup_app_l_Some.
    + rewrite !lookup_ge_None_2; [done|lia|rewrite length_load_list; lia].
  - apply Hld. by rewrite lookup_app_r, Nat.sub_diag by lia.
Qed.
End user_memory.
