(* ===== verification/VmLoad.v ===== *)
(** Loading a program image into an address space and duplicating an address
    space: [Uvm::load] and [Clone for Uvm]. *)
From S2P Require Export UserMem.

Section load.
Context {E : Env} {EL : EnvLaws E} {fails : Prop}.
Local Abbreviation wp := (wpo fails).
Implicit Types (s : Machine) (F : gset Z) (tabs : gmap Z Z) (pages hi : entries) (u : Uvm).

Abbreviation uroot u := (root (uvm_pagetable u)).

(** [n] page addresses from [a]. *)
Definition page_list (a : Z) (n : nat) : list Z :=
  (λ i, a + i * page_size) <$> seqZ 0 (Z.of_nat n).

Lemma page_list_cons a n : page_list a (S n) = a :: page_list (a + page_size) n.
Proof.
  unfold page_list. rewrite Nat2Z.inj_succ, seqZ_cons by lia. cbn [fmap list_fmap].
  rewrite Z.add_0_r. f_equal. rewrite Z.pred_succ. apply list_eq. intros i.
  rewrite !list_lookup_fmap. destruct (decide (i < n)%nat).
  - rewrite !lookup_seqZ_lt by lia. cbn. f_equal. unfold page_size. lia.
  - rewrite !lookup_seqZ_ge by lia. done.
Qed.

Lemma step_by_pages lo up :
  step_by lo up PAGESIZE = page_list lo (Z.to_nat ((up - lo + PAGESIZE - 1) / PAGESIZE)).
Proof.
  unfold step_by, page_list. change PAGESIZE with page_size.
  destruct (decide (0 ≤ (up - lo + page_size - 1) / page_size)).
  - by rewrite Z2Nat.id.
  - replace (Z.to_nat _) with 0%nat by lia. by rewrite !seqZ_nil by lia.
Qed.

Lemma elem_of_page_list a n b :
  b ∈ page_list a n ↔ ∃ i, 0 ≤ i < Z.of_nat n ∧ b = a + i * page_size.
Proof.
  unfold page_list. rewrite list_elem_of_fmap. setoid_rewrite elem_of_seqZ. naive_solver lia.
Qed.

Lemma page_list_NoDup a n : NoDup (page_list a n).
Proof.
  unfold page_list. apply NoDup_fmap_2; [|apply NoDup_seqZ].
  intros i j. unfold page_size. lia.
Qed.

Lemma copied_trans s s1 s2 u tabs F pages hi va n k f g :
  0 ≤ n → 0 ≤ k → copied s u tabs F pages hi va n f s1 →
  copied s1 u tabs F pages hi (va + n) k g s2 →
  copied s u tabs F pages hi va (n + k) (λ i, if decide (i < n) then f i else g (i - n)) s2.
Proof.
  intros Hn Hk (Hu1 & Hq1 & Hag1 & Hl1 & Hb1) (Hu2 & Hq2 & Hag2 & Hl2 & Hb2).
  split_and!; [done|by trans s1|by eapply agree_trans|congruence|].
  intros va'. rewrite Hb2, Hb1. repeat case_decide; try lia; do 2 f_equal; lia.
Qed.

Lemma copied_ext s s' u tabs F pages hi va n f g :
  (∀ i, 0 ≤ i < n → f i = g i) →
  copied s u tabs F pages hi va n f s' → copied s u tabs F pages hi va n g s'.
Proof.
  intros Hfg (? & ? & ? & ? & Hb). split_and!; try done. intros va'. rewrite Hb.
  case_decide; [|done]. f_equal. apply Hfg. lia.
Qed.

Lemma copied_refl s u tabs F pages hi va f :
  uvm_rep s u tabs F pages hi → copied s u tabs F pages hi va 0 f s.
Proof. intros Hu. split_and!; try done. intros va'. by rewrite decide_False by lia. Qed.

Lemma outside_heap a : a < ekernel → ¬ heap_area a.
Proof. unfold heap_area. lia. Qed.

(** One chunk of the image. *)
Lemma load_page_spec s u tabs F pages hi va x src {A} (k : MM A) Q :
  uvm_rep s u tabs F pages hi → pages !! va = Some x → page_aligned va →
  RAMSTART ≤ src → src + page_size ≤ ekernel →
  (∀ s', copied s u tabs F pages hi va page_size (λ i, ld8 (m_mem s) (src + i)) s' → wp k Q s') →
  wp (write_bytes x.1 0 PAGESIZE;; copy_nonoverlapping src x.1 PAGESIZE;; k) Q s.
Proof.
  intros Hu Hx Hva Hsrc Hend HQ.
  destruct (ur_page _ _ _ _ _ _ Hu _ _ Hx) as (_ & Hfr & _).
  pose proof (frame_in_data _ Hfr) as Hram. destruct Hfr as (Hal & Hlo & Hhi).
  pose proof ekernel_before_end as Hek.
  apply wp_bind. change PAGESIZE with (1024 * 4). apply wp_zero_page; [done|].
  change (1024 * 4) with page_size.
  apply wp_bind, wp_copy_nonoverlapping; [unfold in_ram; lia|done|lia|].
  apply HQ. clear HQ. cbn [m_mem set_mem].
  set (m := store_list _ _ _).
  assert (∀ b, ld8 m b = if decide (x.1 + (va - va) ≤ b < x.1 + (va - va) + page_size)
    then ld8 (m_mem s) (src + (b - (x.1 + (va - va)))) else ld8 (m_mem s) b) as Hm.
  { intros b. unfold m. rewrite ld8_copy by done. rewrite Z.sub_diag, Z.add_0_r.
    case_decide as Hb; rewrite ld8_zero_page, decide_False by lia; done. }
  clearbody m.
  assert (in_page va va page_size) as Hin by (split; [done|lia]).
  destruct (user_write_in s u tabs F pages hi va x m va page_size
    (λ i, ld8 (m_mem s) (src + i)) Hu Hx Hin Hm) as (? & ? & ? & ?).
  split_and!; done.
Qed.

Lemma load_loop_spec n s u tabs F pages hi va src (Q : option unit → Machine → Prop) :
  uvm_rep s u tabs F pages hi → page_aligned va → 0 ≤ va →
  va + Z.of_nat n * page_size < U32 →
  (∀ i, 0 ≤ i < Z.of_nat n → is_Some (pages !! (va + i * page_size))) →
  RAMSTART ≤ src → src + Z.of_nat n * page_size ≤ ekernel →
  (∀ s', copied s u tabs F pages hi va (Z.of_nat n * page_size)
           (λ i, ld8 (m_mem s) (src + i)) s' → Q (Some tt) s') →
  wp (load_loop u va (page_list src n)) Q s.
Proof.
  revert s va src Q. induction n as [|n IH]; intros s va src Q Hu Hva Hva0 Hov Hp Hsrc Hend HQ.
  { apply wp_ret, HQ. by apply copied_refl. }
  rewrite page_list_cons. cbn [load_loop]. unfold page_size in Hov, Hend.
  destruct (Hp 0) as [x Hx]; [lia|]. rewrite Z.add_0_r in Hx.
  assert (is_u32 va) as Hvu by (unfold is_u32; lia).
  pose proof (ur_pt _ _ _ _ _ _ Hu) as Hrep. destruct (uvm_pagetable u) as [rt] eqn:Hrt.
  assert ((pages ∪ hi) !! page_of va = Some x) as Hx'.
  { rewrite page_of_idemp by done. by apply lookup_union_Some_l. }
  apply wp_bind. eapply walk_rep; [done..|]. intros [pa|] Hr; [|by rewrite Hx' in Hr].
  destruct Hr as (Hram & Hal & Hw). apply wp_bind, wp_read32; [done..|]. rewrite Hw.
  destruct Hrep as [_ Htr Hok]. specialize (Htr va Hvu). rewrite Hx' in Htr. rewrite Htr.
  destruct (Hok _ _ Hx') as (_ & _ & Hpa & Hpu & Hperm).
  unfold entry_word. cbv zeta. rewrite leaf_pa by done.
  eapply load_page_spec; [done..|unfold page_size; lia|].
  intros s1 Hc1. apply wp_bind, wp_add32; [unfold PAGESIZE; lia|]. change PAGESIZE with page_size.
  eapply IH; [apply Hc1|by apply page_aligned_next|unfold page_size; lia..| | |unfold page_size; lia|].
  { intros i Hi. replace (va + page_size + i * page_size) with (va + (i + 1) * page_size) by lia.
    apply Hp. lia. }
  { unfold page_size. lia. }
  intros s2 Hc2. apply HQ. rewrite Nat2Z.inj_succ, Z.mul_succ_l, Z.add_comm.
  eapply copied_ext; [|eapply copied_trans; [| |exact Hc1|exact Hc2]; unfold page_size; lia].
  intros i Hi. cbn. case_decide; [done|]. destruct Hc1 as (_ & _ & Hag & _).
  rewrite Hag; [f_equal; lia|]. right. apply outside_heap. unfold page_size in *. lia.
Qed.

(** [load] copies whole pages: the image, and after a partial last chunk
    whatever follows it in memory. *)
Lemma Uvm_load_spec s u tabs F pages hi va img (Q : option unit → Machine → Prop) :
  uvm_rep s u tabs F pages hi → page_aligned va → 0 ≤ va → 0 ≤ img.2 →
  let n := (img.2 + PAGESIZE - 1) / PAGESIZE in
  va + n * page_size < U32 →
  (∀ i, 0 ≤ i < n → is_Some (pages !! (va + i * page_size))) →
  RAMSTART ≤ img.1 → img.1 + n * page_size ≤ ekernel →
  (∀ s', copied s u tabs F pages hi va (n * page_size) (λ i, ld8 (m_mem s) (img.1 + i)) s' →
     Q (Some tt) s') →
  wp (Uvm_load u va img) Q s.
Proof.
  intros Hu Hva Hva0 Hlen n Hov Hp Hsrc Hend HQ. unfold Uvm_load, is_multiple_of.
  rewrite decide_False by (intros Hne; by apply Hne).
  rewrite step_by_pages. replace (img.1 + img.2 - img.1) with img.2 by lia. fold n.
  assert (0 ≤ n) by (apply Z.div_pos; unfold PAGESIZE; lia).
  eapply load_loop_spec; rewrite ?Z2Nat.id by done; done.
Qed.

Lemma Uvm_load_misaligned s u va img : va mod PAGESIZE ≠ 0 → Uvm_load u va img s = Done None s.
Proof. intros H. unfold Uvm_load, is_multiple_of. by rewrite decide_True. Qed.

(** ** clone *)

(** An address space goes on representing the same pages as long as the frames
    that were out stay out and unchanged. *)
Definition rest s u tabs pages : gset Z := live s ∖ (pt_pages (uroot u) tabs ∪ frames_of pages).

Lemma uvm_rep_keep s s' u tabs F pages hi :
  uvm_rep s u tabs F pages hi → mach_ok s' → agree (live s) (m_mem s) (m_mem s') →
  live s ⊆ live s' → uvm_rep s' u tabs (rest s' u tabs pages) pages hi.
Proof.
  intros Hu Hok Hag Hsub. unfold rest. pose proof (uvm_rep_live _ _ _ _ _ _ Hu) as Hl.
  eapply uvm_rep_agree; [done..| | | |].
  - eapply agree_weaken; [|exact Hag]. rewrite Hl. set_solver +.
  - set_solver +.
  - set_solver +.
  - apply set_eq. intros p. destruct (decide (p ∈ pt_pages (uroot u) tabs ∪ frames_of pages)).
    + split; [set_solver|]. intros _. apply Hsub. rewrite Hl. set_solver.
    + set_solver.
Qed.

(** Every page of the user range has a second-level table, so that [walk]
    finds an entry (perhaps an invalid one) for it. *)
Definition covered u tabs : Prop :=
  ∀ a, USER_START ≤ a < user_end u → is_Some (tabs !! vpn1 (VA_from a)).

(** The frames in use when a clone is complete, at most: its root, its pages, and a
    second-level table for each of them. *)
Definition clone_room s u : Z := Z.of_nat (size (live s)) + 1 + 2 * (uvm_size u / page_size).

(** The pages copied so far: all but those in [l]. *)
Record clone_inv s u pages (vm : Uvm) (l : list Z) s' pc : Prop := {
  ci_rep : ∃ tabs, uvm_rep s' vm tabs (live s) pc ∅;
  ci_quiet : quiet s s';
  ci_agree : agree (live s) (m_mem s) (m_mem s');
  ci_todo : NoDup l;
  ci_none a : a ∈ l → pc !! a = None;
  ci_some a y : pc !! a = Some y → ∃ x, pages !! a = Some x ∧ x.2 = y.2 ∧
    ∀ i, 0 ≤ i < page_size → ld8 (m_mem s') (y.1 + i) = ld8 (m_mem s) (x.1 + i);
  ci_done a x : pages !! a = Some x → a ∈ l ∨ is_Some (pc !! a);
  ci_room : Z.of_nat (size (live s') + 2 * length l) ≤ clone_room s u;
}.

Lemma clone_inv_keep s u tabs F pages hi vm l s' pc :
  uvm_rep s u tabs F pages hi → clone_inv s u pages vm l s' pc →
  live s ⊆ live s' ∧ uvm_rep s' u tabs (rest s' u tabs pages) pages hi.
Proof.
  intros Hu [[tabsc Hc] _ Hag _ _ _ _ _]. pose proof (uvm_rep_live _ _ _ _ _ _ Hc) as Hl.
  assert (live s ⊆ live s') by (rewrite Hl; set_solver +).
  split; [done|]. eapply uvm_rep_keep; [done|by eapply uvm_rep_ok|done|done].
Qed.

(** The entry the loop reads at a page of the user range. *)
Lemma clone_walk s u tabs F pages hi a {A} (k : Z → MM A) Q :
  uvm_rep s u tabs F pages hi → covered u tabs ∨ fails → page_aligned a → USER_START ≤ a < user_end u →
  (∀ w, match pages !! a with
        | Some x => w = entry_word x ∧ entry_ok a x
        | None => Z.testbit w 0 = false
        end → wp (k w) Q s) →
  wp (o ← walk (uvm_pagetable u) a Walk; pte_addr ← unwrap o; pte ← read32 pte_addr; k pte) Q s.
Proof.
  intros Hu Hcov Ha Hr Hk. destruct (ur_pt _ _ _ _ _ _ Hu) as [Hown Htr Hok].
  destruct (ur_size _ _ _ _ _ _ Hu) as (_ & _ & Hle).
  assert (is_u32 a) as Hau.
  { unfold is_u32, U32, user_end, TRAPFRAME, TRAMPOLINE, VIRT_END, PAGESIZE, USER_START in *. lia. }
  pose proof (hi_low _ _ _ _ _ _ a Hu ltac:(lia)) as Hhi.
  pose proof (po_wf _ _ _ _ Hown) as Hwf. destruct (tabs !! vpn1 (VA_from a)) as [t|] eqn:Ht; cycle 1.
  { destruct Hcov as [Hcov|Hf]; [by destruct (Hcov a Hr) as [t Ht']; simplify_eq|].
    destruct (uvm_pagetable u) as [rt]. cbn [PageTable.root] in *.
    apply wp_bind. eapply walk_lookup_spec; [done..|]. rewrite Ht. exact Hf. }
  destruct (pw_tab _ _ _ Hwf _ _ Ht) as (_ & Htok & _).
  destruct (frame_ok_word t _ Htok (vpn0_range a Hau)) as (Hram & Hal & _).
  destruct (uvm_pagetable u) as [rt]. cbn [PageTable.root] in *.
  apply wp_bind. eapply walk_lookup_spec; [done..|]. rewrite Ht. cbn.
  apply wp_bind, wp_ret, wp_bind, wp_read32; [by apply in_data_ram|done|]. apply Hk.
  specialize (Htr a Hau). rewrite page_of_idemp in Htr by done. unfold pt_lookup in Htr.
  rewrite Ht in Htr. destruct (pages !! a) as [x|] eqn:Hx.
  - assert ((pages ∪ hi) !! a = Some x) as Hx' by by apply lookup_union_Some_l.
    rewrite Hx' in Htr. split; [done|]. by apply Hok.
  - assert ((pages ∪ hi) !! a = None) as Hx' by by apply lookup_union_None.
    by rewrite Hx' in Htr.
Qed.

(** Copying a frame into a fresh one. *)
Lemma clone_copy s vm tabs F pages r p (Q : unit → Machine → Prop) :
  uvm_rep s vm tabs ({[r]} ∪ F) pages ∅ → r ∉ F → frame_ok r → frame_ok p → p ≠ r →
  (∀ s', uvm_rep s' vm tabs ({[r]} ∪ F) pages ∅ → quiet s s' → live s' = live s →
     agree (frames_of pages ∪ F) (m_mem s) (m_mem s') →
     (∀ i, 0 ≤ i < page_size → ld8 (m_mem s') (r + i) = ld8 (m_mem s) (p + i)) → Q tt s') →
  wp (copy_nonoverlapping p r PAGESIZE) Q s.
Proof.
  intros Hu HrF Hr Hp Hne HQ. pose proof (frame_in_data _ Hr). pose proof (frame_in_ram _ Hp).
  pose proof (uvm_rep_live _ _ _ _ _ _ Hu) as Hl.
  pose proof (uvm_rep_disj _ _ _ _ _ _ Hu) as Hd. pose proof (ur_disj _ _ _ _ _ _ Hu) as Hd'.
  change PAGESIZE with page_size. apply wp_copy_nonoverlapping; [done|done| |].
  { destruct Hr as [Hr _], Hp as [Hp _]. unfold page_aligned, page_size in *.
    Z.div_mod_to_equations. lia. }
  set (m := store_list _ _ _).
  assert (∀ b, ld8 m b = if decide (r ≤ b < r + page_size)
    then ld8 (m_mem s) (p + (b - r)) else ld8 (m_mem s) b) as Hm by (intros; by apply ld8_copy).
  clearbody m.
  assert (∀ b, page_of b ≠ r → ld8 m b = ld8 (m_mem s) b) as Hout.
  { intros b Hb. rewrite Hm, decide_False; [done|]. intros Hin. apply Hb.
    by apply page_of_inside; [apply Hr|]. }
  apply HQ; [|by apply quiet_set_mem|done| |].
  - eapply uvm_rep_agree; [done| | | |done|done].
    + apply mach_ok_write_frame with r; [by eapply uvm_rep_ok|rewrite Hl; set_solver +|done].
    + eapply agree_write; [exact Hr|set_solver +Hd|done].
    + set_solver +Hd.
  - eapply agree_write; [exact Hr|set_solver +Hd' HrF|done].
  - intros i Hi. cbn [m_mem set_mem]. rewrite Hm, decide_True by lia. f_equal. lia.
Qed.

(** The copy is in place: one page less to do. *)
Lemma clone_inv_cons s u tabs F pages hi vm a l s' s'' pc x r tabs2 :
  uvm_rep s u tabs F pages hi → clone_inv s u pages vm (a :: l) s' pc → pages !! a = Some x →
  uvm_rep s'' vm tabs2 (live s) (<[a := (r, x.2)]> pc) ∅ → quiet s' s'' →
  agree (frames_of pc ∪ live s) (m_mem s') (m_mem s'') →
  (∀ i, 0 ≤ i < page_size → ld8 (m_mem s'') (r + i) = ld8 (m_mem s) (x.1 + i)) →
  (size (live s'') ≤ size (live s') + 2)%nat →
  clone_inv s u pages vm l s'' (<[a := (r, x.2)]> pc).
Proof.
  intros Hu [[tabsc Hc] Hq Hag Hnd Hnone Hsome Hdone Hroom] Hx Hc2 Hq2 Hag2 Hcopy Hsz.
  apply NoDup_cons in Hnd as [Hal Hnd]. split.
  - by exists tabs2.
  - by trans s'.
  - eapply agree_trans; [done|]. eapply agree_weaken; [|exact Hag2]. set_solver +.
  - done.
  - intros b Hb. rewrite lookup_insert_ne by (intros ->; done). apply Hnone. by right.
  - intros b y Hy. apply lookup_insert_Some in Hy as [[<- <-]|[Hne Hy]].
    { exists x. cbn. split_and!; done. }
    destruct (Hsome _ _ Hy) as (z & Hz & Hperm & Hbytes). exists z. split_and!; [done..|].
    intros i Hi. rewrite <- Hbytes by done. apply Hag2. left.
    destruct (ur_page _ _ _ _ _ _ Hc _ _ Hy) as (_ & Hfr & _).
    rewrite page_of_add by (done || apply Hfr). apply elem_of_union_l, elem_of_frames_pages. eauto.
  - intros b z Hz. destruct (decide (a = b)) as [->|Hne]; [right; by rewrite lookup_insert_eq|].
    rewrite lookup_insert_ne by done. destruct (Hdone _ _ Hz) as [[->|Hb]%elem_of_cons|Hb]; [done|by left|by right].
  - cbn [length] in Hroom. lia.
Qed.

Lemma clone_inv_skip s u pages vm a l s' pc :
  clone_inv s u pages vm (a :: l) s' pc → pages !! a = None → clone_inv s u pages vm l s' pc.
Proof.
  intros [Hc Hq Hag Hnd Hnone Hsome Hdone Hroom] Hx. apply NoDup_cons in Hnd as [Hal Hnd].
  split; try done.
  - intros b Hb. apply Hnone. by right.
  - intros b z Hz. destruct (Hdone _ _ Hz) as [[->|Hb]%elem_of_cons|Hb]; [|by left|by right].
    by rewrite Hz in Hx.
  - cbn [length] in Hroom. lia.
Qed.

Lemma clone_page_spec s u tabs F pages hi vm a l s' pc (Q : unit → Machine → Prop) :
  uvm_rep s u tabs F pages hi → covered u tabs ∧ clone_room s u ≤ Z.of_nat (capacity s) ∨ fails →
  uvm_size vm = uvm_size u → clone_inv s u pages vm (a :: l) s' pc → page_aligned a → USER_START ≤ a < user_end u →
  (∀ s'' pc', clone_inv s u pages vm l s'' pc' → Q tt s'') →
  wp (clone_page u vm a) Q s'.
Proof.
  intros Hu Hcap0 Hvm Hinv Ha Hr HQ. pose proof Hinv as [[tabsc Hc] Hq Hag _ Hnone _ _ Hroom].
  destruct (clone_inv_keep _ _ _ _ _ _ _ _ _ _ Hu Hinv) as [Hsub Hup].
  unfold clone_page. eapply clone_walk; [exact Hup|by destruct Hcap0 as [[]|]; auto|done..|]. intros w Hw.
  destruct (pages !! a) as [x|] eqn:Hx; cycle 1.
  { cbv zeta. rewrite pte_v_bit, Hw. apply wp_ret. by eapply HQ, clone_inv_skip. }
  destruct Hw as (-> & _ & _ & Hpa & Hpu & Hperm). unfold entry_word. cbv zeta.
  rewrite pte_v_bit, leaf_v, leaf_pa, leaf_perm by done. cbn [negb].
  destruct (ur_page _ _ _ _ _ _ Hu _ _ Hx) as (_ & Hxf & Hxp).
  assert (x.1 ∈ live s) as Hxl.
  { rewrite (uvm_rep_live _ _ _ _ _ _ Hu). apply elem_of_union_r, elem_of_union_l, elem_of_frames_pages. eauto. }
  cbn [length] in Hroom. apply wp_bind, FrameAllocator_allocate_spec.
  eapply alloc_frame_rep; [exact Hc|]. intros r s1 Hq1 Hag1 [(-> & _ & _ & Hcap)|(Hrf & Hr0 & Hrn & Hl1 & Hc1)].
  { rewrite (qt_cap _ _ Hq) in Hcap. destruct Hcap0 as [[]|Hf]; [lia|]. by rewrite decide_True. }
  rewrite decide_False by done. apply wp_bind, (wp_unwrap _ r); [done|].
  assert (x.1 ≠ r) as Hxr by (intros <-; by apply Hrn, Hsub).
  apply wp_bind. eapply clone_copy; [exact Hc1|set_solver +Hrn Hsub|done..|].
  intros s2 Hc2 Hq2 Hl2 Hag2 Hcopy. destruct (ur_size _ _ _ _ _ _ Hc) as (_ & Hvs & Hve).
  assert (size (live s1) ≤ size (live s') + 1)%nat as Hsz by (rewrite Hl1; apply size_add_le).
  apply wp_bind. eapply (map_page_rep s2 vm _ _ _ _ r a x.2 (uvm_size vm)); [exact Hc2|set_solver +Hrn Hsub|done|done|done|lia| |lia|done| |done|].
  { apply Hnone. by left. }
  { rewrite Hvm. unfold user_end in Hr. lia. }
  intros o s3 tabs3 Hq3 Hag3 Hsz3 Ho. rewrite Hl2 in Hsz3. destruct o as [[]|]; cycle 1.
  { destruct Ho as [_ Hcap]. rewrite Hl2, (qt_cap _ _ Hq2), (qt_cap _ _ Hq1), (qt_cap _ _ Hq) in Hcap. destruct Hcap0 as [[]|]; [lia|done]. }
  assert (set_size (uvm_size vm) vm = vm) as Heta by by destruct vm. rewrite Heta in Ho.
  apply wp_ret. eapply HQ, clone_inv_cons; [exact Hu|exact Hinv|done|exact Ho|trans s1; [done|by trans s2]| | |lia].
  - eapply agree_trans; [exact Hag1|]. eapply agree_trans; [exact Hag2|].
    eapply agree_weaken; [|exact Hag3]. set_solver +.
  - intros i Hi. assert (page_of (r + i) = r) as Hpr by (apply page_of_add; [apply Hrf|done]).
    assert (page_of (x.1 + i) = x.1) as Hpx by (apply page_of_add; [apply Hxf|done]).
    rewrite Hag3 by (left; rewrite Hpr; set_solver +). rewrite Hcopy by done.
    rewrite Hag1 by (left; rewrite Hpx; set_solver +Hxl). apply Hag. left. by rewrite Hpx.
Qed.

(** What [clone] promises: a copy with the same pages, permissions and bytes in
    frames of its own, the original untouched. *)
Definition cloned s u tabs pages hi vm s' : Prop :=
  ∃ tabsc pc,
    uvm_rep s' vm tabsc (live s) pc ∅ ∧
    uvm_rep s' u tabs (rest s' u tabs pages) pages hi ∧
    uvm_begin vm = uvm_begin u ∧ uvm_size vm = uvm_size u ∧
    quiet s s' ∧ agree (live s) (m_mem s) (m_mem s') ∧
    (∀ a, snd <$> pc !! a = snd <$> pages !! a) ∧
    (∀ va, user_byte (m_mem s') pc va = user_byte (m_mem s) pages va) ∧
    Z.of_nat (size (live s')) ≤ clone_room s u.

Lemma clone_inv_nil s u tabs F pages hi vm s' pc :
  uvm_rep s u tabs F pages hi → uvm_begin vm = uvm_begin u → uvm_size vm = uvm_size u →
  clone_inv s u pages vm [] s' pc → cloned s u tabs pages hi vm s'.
Proof.
  intros Hu Hb Hs Hinv. destruct (clone_inv_keep _ _ _ _ _ _ _ _ _ _ Hu Hinv) as [Hsub Hup].
  destruct Hinv as [[tabsc Hc] Hq Hag _ _ Hsome Hdone Hroom].
  assert (∀ a, match pc !! a with
    | Some y => ∃ x, pages !! a = Some x ∧ x.2 = y.2 ∧
        ∀ i, 0 ≤ i < page_size → ld8 (m_mem s') (y.1 + i) = ld8 (m_mem s) (x.1 + i)
    | None => pages !! a = None end) as Hboth.
  { intros a. destruct (pc !! a) as [y|] eqn:Hy; [by apply Hsome|].
    destruct (pages !! a) as [x|] eqn:Hx; [|done].
    destruct (Hdone _ _ Hx) as [Hin|[y Hin]]; [by apply elem_of_nil in Hin|congruence]. }
  exists tabsc, pc. split_and!; try done.
  - intros a. specialize (Hboth a). destruct (pc !! a) as [y|]; [|by rewrite Hboth].
    destruct Hboth as (x & -> & Hp & _). cbn. by rewrite Hp.
  - intros va. unfold user_byte. specialize (Hboth (page_of va)).
    destruct (pc !! page_of va) as [y|]; [|by rewrite Hboth].
    destruct Hboth as (x & -> & _ & Hbytes). cbn. f_equal. apply Hbytes, Z.mod_pos_bound. done.
  - cbn [length] in Hroom. lia.
Qed.

(** The pages the loop visits. *)
Lemma clone_list s u tabs F pages hi :
  uvm_rep s u tabs F pages hi →
  step_by USER_START (user_end u) PAGESIZE = page_list USER_START (Z.to_nat (uvm_size u / page_size)) ∧
  ∀ a, a ∈ page_list USER_START (Z.to_nat (uvm_size u / page_size)) ↔
    page_aligned a ∧ USER_START ≤ a < user_end u.
Proof.
  intros Hu. destruct (ur_size _ _ _ _ _ _ Hu) as (Hs0 & Hsa & Hse).
  assert (0 ≤ uvm_size u / page_size) as Hn0 by (apply Z.div_pos; unfold page_size; lia).
  assert (page_aligned USER_START) as HUS by done. split.
  - rewrite step_by_pages. do 2 f_equal.
    unfold user_end, page_aligned, page_size, PAGESIZE in *. Z.div_mod_to_equations. lia.
  - intros a. rewrite elem_of_page_list, Z2Nat.id by done. unfold user_end. split.
    + intros (i & Hi & ->). split; [by apply page_aligned_add; [|apply page_aligned_mul]|].
      unfold page_aligned, page_size in *. Z.div_mod_to_equations. lia.
    + intros [Ha Hra]. destruct (page_aligned_diff a _ Ha HUS) as [i ->]. exists i.
      unfold page_aligned, page_size in *. Z.div_mod_to_equations. lia.
Qed.

(** Before the first iteration. *)
Lemma clone_inv_start s s1 u r tabs F pages hi :
  let vm := mkUvm (uvm_begin u) (uvm_size u) (mkPageTable r) in
  uvm_rep s u tabs F pages hi → pt_rep s1 r ∅ (live s) ∅ → quiet s s1 → agree (live s) (m_mem s) (m_mem s1) →
  clone_inv s u pages vm (page_list USER_START (Z.to_nat (uvm_size u / page_size))) s1 ∅.
Proof.
  intros vm Hu Hrep1 Hq1 Hag1. destruct (clone_list _ _ _ _ _ _ Hu) as [_ Hin].
  destruct (ur_size _ _ _ _ _ _ Hu) as (Hs0 & Hsa & Hse). pose proof (ur_begin _ _ _ _ _ _ Hu) as Hbeg.
  assert (0 ≤ uvm_size u / page_size) as Hn0 by (apply Z.div_pos; unfold page_size; lia).
  assert (uvm_rep s1 vm ∅ (live s) ∅ ∅) as Hc1.
  { split; try done. by rewrite frames_of_empty, map_union_empty, union_empty_l_L. }
  split; try done; [by exists ∅|apply page_list_NoDup| |].
  - intros a x Hx. left. apply Hin. split; [by eapply (uvm_rep_aligned _ _ _ _ _ _ _ _ Hu)|].
    by apply (ur_page _ _ _ _ _ _ Hu) in Hx as [? _].
  - rewrite (uvm_rep_live _ _ _ _ _ _ Hc1), frames_of_empty, union_empty_l_L.
    unfold clone_room, pt_pages, pt_tables. rewrite map_img_empty_L, union_empty_r_L.
    pose proof (size_add_le r (live s)). cbn [uvm_pagetable vm PageTable.root].
    unfold page_list. rewrite length_fmap, length_seqZ. lia.
Qed.

Lemma Uvm_clone_spec s u tabs F pages hi (Q : Uvm → Machine → Prop) :
  uvm_rep s u tabs F pages hi → covered u tabs ∧ clone_room s u ≤ Z.of_nat (capacity s) ∨ fails →
  (∀ vm s', cloned s u tabs pages hi vm s' → Q vm s') →
  wp (Uvm_clone u) Q s.
Proof.
  intros Hu Hroom HQ. destruct (ur_size _ _ _ _ _ _ Hu) as (Hs0 & Hsa & Hse).
  destruct (clone_list _ _ _ _ _ _ Hu) as [Hlist Hin].
  assert (0 ≤ uvm_size u / page_size) as Hn0 by (apply Z.div_pos; unfold page_size; lia).
  unfold Uvm_clone, Uvm_new. apply wp_bind, wp_bind, PageTable_new_rep.
  { by eapply uvm_rep_ok. }
  { unfold clone_room in Hroom. destruct Hroom as [[]|]; [left; lia|by right]. }
  intros r s1 Hrep1 Hq1 Hag1. apply wp_ret, wp_bind, wp_ret. cbn [uvm_pagetable].
  pose proof (clone_inv_start _ _ _ _ _ _ _ _ Hu Hrep1 Hq1 Hag1) as Hstart.
  set (vm := mkUvm (uvm_begin u) (uvm_size u) (mkPageTable r)) in *.
  assert (TRAPFRAME < U32) as HTF by done. pose proof (ur_begin _ _ _ _ _ _ Hu) as Hbeg.
  unfold Uvm_end. apply wp_bind, wp_add32; [rewrite Hbeg; unfold user_end in *; lia|].
  rewrite Hbeg. fold (user_end u). rewrite Hlist.
  apply wp_bind, (wp_for_each (λ l s', ∃ pc, clone_inv s u pages vm l s' pc ∧
    ∀ a, a ∈ l → page_aligned a ∧ USER_START ≤ a < user_end u)).
  - exists ∅. split; [done|]. intros a. apply Hin.
  - intros a l s' (pc & Hinv & Hl). destruct (Hl a) as [Ha Hr]; [by left|].
    eapply clone_page_spec; [done..|]. intros s'' pc' Hinv'. exists pc'. split; [done|].
    intros b Hb. apply Hl. by right.
  - intros s' (pc & Hinv & _). apply wp_ret, HQ. by eapply clone_inv_nil.
Qed.
End load.
