(* ===== verification/KvmSpec.v ===== *)
(** The kernel's own address space: what [Kvm::init], [Kvm::alloc_kstack] and
    [Kvm::start_kvm] set up. *)
From S2P Require Export VmLoad.

Section kvm.
Context {E : Env} {EL : EnvLaws E} {fails : Prop}.
Local Abbreviation wp := (wpo fails).
Implicit Types (s : Machine) (F : gset Z) (tabs : gmap Z Z) (e : entries).

(** The identity mappings of the UART, the kernel text (read and execute) and
    the rest of RAM (read and write), and the trampoline at the top. *)
Definition kernel_entries : entries :=
  map_range
    (map_range
      (map_range
        (map_range ∅ UART UART (Z.lor PTE_R PTE_W) 1)
        KERNEL_START KERNEL_START (Z.lor PTE_X PTE_R) ((etext - KERNEL_START) / page_size))
      etext etext (Z.lor PTE_R PTE_W) ((RAMEND - etext) / page_size))
    TRAMPOLINE trampoline (Z.lor PTE_R PTE_X) 1.

Lemma aligned_div a : page_aligned a → a / page_size * page_size = a.
Proof. unfold page_aligned, page_size. intros. Z.div_mod_to_equations. lia. Qed.

Lemma sub_aligned a b : page_aligned a → page_aligned b → page_aligned (a - b).
Proof. unfold page_aligned, page_size. intros. Z.div_mod_to_equations. lia. Qed.

Lemma kernel_entries_lookup a :
  page_aligned a →
  kernel_entries !! a =
    if decide (a = TRAMPOLINE) then Some (trampoline, Z.lor PTE_R PTE_X)
    else if decide (etext ≤ a < RAMEND) then Some (a, Z.lor PTE_R PTE_W)
    else if decide (KERNEL_START ≤ a < etext) then Some (a, Z.lor PTE_X PTE_R)
    else if decide (a = UART) then Some (UART, Z.lor PTE_R PTE_W)
    else None.
Proof.
  intros Ha. pose proof etext_aligned as Hea.
  assert (page_aligned RAMEND ∧ page_aligned KERNEL_START ∧ page_aligned TRAMPOLINE ∧ page_aligned UART)
    as (Hre & Hks & Htr & Hua) by done.
  unfold kernel_entries. rewrite !map_range_lookup by done.
  rewrite !aligned_div by by apply sub_aligned. rewrite lookup_empty.
  assert (∀ b, page_aligned b → b ≤ a < b + 1 * page_size ↔ a = b) as Hone.
  { intros b Hb. destruct (page_aligned_diff a b) as [i ->]; [done..|]. unfold page_size. lia. }
  pose proof (Hone _ Htr). pose proof (Hone _ Hua).
  repeat match goal with |- context [decide ?P] => destruct (decide P) end; try lia; f_equal; f_equal; lia.
Qed.

(** ** Counting second-level tables *)

Lemma size_img_le (tabs : gmap Z Z) : (size (map_img tabs : gset Z) ≤ size tabs)%nat.
Proof.
  induction tabs as [|i t tabs Hi IH] using map_ind; [by rewrite map_img_empty_L, size_empty|].
  rewrite map_img_insert_notin_L, map_size_insert_None by done.
  pose proof (size_add_le t (map_img tabs)). lia.
Qed.

(** The first-level slots the kernel uses: the UART's, sixteen for RAM, and the
    last, which holds the trampoline and the kernel stacks. *)
Definition kernel_slots : gset Z :=
  {[0x40; 0x3ff]} ∪ list_to_set (seqZ 0x200 16).

Definition kernel_tabs tabs : Prop := ∀ i, is_Some (tabs !! i) → i ∈ kernel_slots.

Lemma kernel_tabs_size tabs : kernel_tabs tabs → (size tabs ≤ 18)%nat.
Proof.
  intros H. rewrite <- size_dom. trans (size kernel_slots); [|by vm_compute].
  apply subseteq_size. intros i Hi. apply H. by apply elem_of_dom.
Qed.

(** A kernel table with at most 18 second-level tables. *)
Lemma kernel_live s rt tabs F e :
  pt_rep s rt tabs F e → kernel_tabs tabs → (size (live s) ≤ size F + 19)%nat.
Proof.
  intros Hrep Ht. rewrite (pt_rep_live _ _ _ _ _ Hrep). unfold pt_pages, pt_tables.
  pose proof (kernel_tabs_size _ Ht). pose proof (size_img_le tabs).
  rewrite <- union_assoc_L. pose proof (size_add_le rt (map_img tabs ∪ F)).
  assert (size (map_img tabs ∪ F : gset Z) ≤ size (map_img tabs : gset Z) + size F)%nat; [|lia].
  rewrite size_union_alt. pose proof (subseteq_size (F ∖ map_img tabs) F ltac:(set_solver +)). lia.
Qed.

(** Mapping a kernel region succeeds while there is room for its tables. *)
Lemma kernel_map s rt tabs F e v p size perm (Q : option unit → Machine → Prop) :
  pt_rep s rt tabs F e → kernel_tabs tabs → (base.size F + 19 < capacity s)%nat →
  page_aligned v → page_aligned p → page_aligned size → 0 ≤ v → 0 ≤ p → 0 ≤ size →
  v + size < U32 → p + size < U32 → perm_ok perm →
  (∀ j, 0 ≤ j < size / page_size → vpn1 (VA_from (v + j * page_size)) ∈ kernel_slots) →
  (∀ s' tabs', pt_rep s' rt tabs' F (map_range e v p perm (size / page_size)) →
     kernel_tabs tabs' → quiet s s' → agree F (m_mem s) (m_mem s') → Q (Some tt) s') →
  wp (map (mkPageTable rt) v p size perm) Q s.
Proof.
  intros Hrep Ht Hcap Hv Hp Hs Hv0 Hp0 Hs0 Hvs Hps Hperm Hslot HQ.
  eapply map_rep_spec; [done..|].
  intros r s' (k & tabs' & Hk & Hr & Hrep' & Hq & Hag & _ & Hnew & Hfail).
  assert (kernel_tabs tabs') as Ht'.
  { intros i Hi. destruct (Hnew i Hi) as [Hi'|(j & Hj & ->)]; [by apply Ht|]. apply Hslot. lia. }
  destruct r as [[]|].
  - assert (k = size / page_size) as -> by tauto. by eapply HQ.
  - specialize (Hfail eq_refl). pose proof (kernel_live _ _ _ _ _ Hrep' Ht'). lia.
Qed.

Lemma slot_ram a : RAMSTART ≤ a < RAMEND → vpn1 (VA_from a) ∈ kernel_slots.
Proof.
  intros Ha. unfold RAMEND, RAMSIZE, RAMSTART in Ha. rewrite vpn1_eq by (unfold is_u32, U32; lia).
  unfold kernel_slots. rewrite elem_of_union, elem_of_list_to_set, elem_of_seqZ. right.
  Z.div_mod_to_equations. lia.
Qed.

Lemma slot_top a : 0xffc00000 ≤ a < U32 → vpn1 (VA_from a) ∈ kernel_slots.
Proof.
  intros Ha. unfold U32 in Ha. rewrite vpn1_eq by (unfold is_u32, U32; lia).
  assert (a / 0x400000 = 0x3ff) as -> by (Z.div_mod_to_equations; lia).
  unfold kernel_slots. set_solver +.
Qed.

(** ** Kvm::init *)

Lemma Kvm_init_spec (Q : option Kvm → Machine → Prop) s :
  mach_ok s → (size (live s) + 19 < capacity s)%nat →
  (∀ rt tabs s', pt_rep s' rt tabs (live s) kernel_entries → kernel_tabs tabs → quiet s s' →
     agree (live s) (m_mem s) (m_mem s') → Q (Some (mkKvm (mkPageTable rt))) s') →
  wp Kvm_init Q s.
Proof.
  intros Hok Hcap HQ. pose proof etext_aligned as Hea. pose proof text_after_start as Hts.
  pose proof etext_before_ekernel as Hte. pose proof ekernel_before_end as Hke.
  destruct trampoline_ok as (Hta & [Htu _] & Htb).
  assert (RAMSTART = KERNEL_START ∧ RAMEND < U32 ∧ 0 ≤ KERNEL_START) as (Hrs & Hrl & Hk0) by done.
  assert (page_aligned RAMEND ∧ page_aligned KERNEL_START) as [Hra Hka] by done.
  pose proof (sub_aligned _ _ Hea Hka) as Hn1. pose proof (sub_aligned _ _ Hra Hea) as Hn2.
  unfold Kvm_init. apply wp_bind, PageTable_new_rep; [done|left; lia|].
  intros rt s1 Hrep1 Hq1 Hag1. cbv zeta.
  assert (∀ s', quiet s1 s' → (base.size (live s) + 19 < capacity s')%nat) as Hroom.
  { intros s' Hq'. by rewrite (qt_cap _ _ Hq'), (qt_cap _ _ Hq1). }
  assert (kernel_tabs ∅) as Ht1 by (intros i [? Hi]; by rewrite lookup_empty in Hi).
  apply wp_bind. eapply kernel_map; [exact Hrep1|done|by apply Hroom|done..| |].
  { intros j Hj. change (PAGESIZE / page_size) with 1 in Hj. assert (j = 0) as -> by lia. by vm_compute. }
  intros s2 tabs2 Hrep2 Ht2 Hq2 Hag2. apply wp_bind, wp_sub32; [lia|].
  apply wp_bind. eapply kernel_map; try done; [by apply Hroom|lia..| |].
  { intros j Hj. apply slot_ram. pose proof (aligned_div _ Hn1). unfold page_size in *. lia. }
  intros s3 tabs3 Hrep3 Ht3 Hq3 Hag3. apply wp_bind, wp_sub32; [lia|].
  assert (quiet s1 s3) as Hq13 by by trans s2.
  apply wp_bind. eapply kernel_map; try done; [by apply Hroom|lia..| |].
  { intros j Hj. apply slot_ram. pose proof (aligned_div _ Hn2). unfold page_size in *. lia. }
  intros s4 tabs4 Hrep4 Ht4 Hq4 Hag4. assert (quiet s1 s4) as Hq14 by by trans s3.
  apply wp_bind. eapply kernel_map; try done; [by apply Hroom|lia..| |].
  { intros j Hj. change (PAGESIZE / page_size) with 1 in Hj. assert (j = 0) as -> by lia.
    by apply slot_top. }
  intros s5 tabs5 Hrep5 Ht5 Hq5 Hag5. apply wp_ret. eapply HQ; [exact Hrep5|done| |].
  - trans s1; [done|]. by trans s4.
  - do 3 (eapply agree_trans; [done|]). by eapply agree_trans.
Qed.

(** ** Kvm::alloc_kstack *)

(** One page of a kernel stack. *)
Definition kstack_page (self : Kvm) (va i : Z) : MM unit :=
  page ← FrameAllocator_allocate PAGE_LAYOUT;
  kstack_page ← unwrap (fst <$> page);
  off ← mul32 i PAGESIZE;
  va ← add32 va off;
  r ← map (kvm_pagetable self) va kstack_page PAGESIZE (Z.lor PTE_R PTE_W);
  unwrap r.

Lemma kstack_page_spec s rt tabs F e va i (Q : unit → Machine → Prop) :
  pt_rep s rt tabs F e → kernel_tabs tabs → (size F + 20 < capacity s)%nat →
  0 ≤ i < 2 → page_aligned va → 0xffc00000 ≤ va → va + i * page_size < TRAMPOLINE →
  (∀ s' tabs' p, frame_ok p → p ∉ live s →
     pt_rep s' rt tabs' ({[p]} ∪ F) (<[va + i * page_size := (p, Z.lor PTE_R PTE_W)]> e) →
     kernel_tabs tabs' → quiet s s' → agree F (m_mem s) (m_mem s') → Q tt s') →
  wp (kstack_page (mkKvm (mkPageTable rt)) va i) Q s.
Proof.
  intros Hrep Ht Hcap Hi Hva Hlo Hhi HQ. unfold kstack_page. cbn [kvm_pagetable].
  pose proof (pt_rep_live _ _ _ _ _ Hrep) as Hl. pose proof (pt_rep_disj _ _ _ _ _ Hrep) as Hd.
  pose proof (kernel_live _ _ _ _ _ Hrep Ht) as Hsz.
  assert (TRAMPOLINE + page_size < U32 ∧ 0 < page_size) as [HT Hps] by done.
  apply wp_bind, FrameAllocator_allocate_spec, LockedHeap_alloc_spec; [by eapply pt_rep_ok|].
  intros p s1 (Hok1 & Hq1 & Hag1 & [(_ & _ & Hc)|(Hp & Hpn & Hl1)]); [lia|].
  rewrite decide_False by (apply frame_ok_range in Hp; unfold RAMSTART in Hp; lia).
  apply wp_bind, (wp_unwrap _ p); [done|]. change PAGESIZE with page_size.
  unfold mul32. rewrite decide_True by (unfold page_size, U32; lia).
  apply wp_bind, wp_ret, wp_bind, wp_add32; [lia|].
  assert (pt_rep s1 rt tabs ({[p]} ∪ F) e) as Hrep1.
  { rewrite Hl in Hpn, Hl1. eapply pt_rep_agree; [done|done| | |].
    - eapply agree_weaken; [|exact Hag1]. rewrite Hl. set_solver +.
    - set_solver +Hd Hpn.
    - rewrite Hl1. set_solver +. }
  pose proof (frame_ok_u32 p Hp). pose proof Hp as (Hpa & Hp1 & Hp2).
  assert (page_aligned (va + i * page_size)) as Hvai by (by apply page_aligned_add; [|apply page_aligned_mul]).
  apply wp_bind. eapply kernel_map; [exact Hrep1|done| |done|done|done|unfold page_size; lia|..].
  { rewrite (qt_cap _ _ Hq1). pose proof (size_add_le p F). lia. }
  { apply (is_u32_nonneg p). done. }
  { done. }
  { lia. }
  { assert (RAMEND < U32) by done. lia. }
  { done. }
  { intros j Hj. change (page_size / page_size) with 1 in Hj. assert (j = 0) as -> by lia.
    apply slot_top. unfold page_size in *. lia. }
  intros s2 tabs2 Hrep2 Ht2 Hq2 Hag2. change (page_size / page_size) with 1 in Hrep2.
  rewrite map_range_1 in Hrep2. apply wp_ret. eapply HQ; [exact Hp|done|exact Hrep2|done|by trans s1|].
  eapply agree_trans; (eapply agree_weaken; [|done]); rewrite ?Hl; set_solver +.
Qed.

(** The two pages of a kernel stack, in fresh frames; the page below stays as it
    was, unmapped for the addresses [KSTACK!] gives. *)
Lemma alloc_kstack_spec s rt tabs F e va (Q : unit → Machine → Prop) :
  pt_rep s rt tabs F e → kernel_tabs tabs → (size F + 21 < capacity s)%nat →
  page_aligned va → 0xffc00000 ≤ va → va + 2 * page_size ≤ TRAMPOLINE →
  (∀ s' tabs' p0 p1, frame_ok p0 → frame_ok p1 → p0 ∉ live s → p1 ∉ {[p0]} ∪ F →
     pt_rep s' rt tabs' ({[p1]} ∪ ({[p0]} ∪ F))
       (<[va + page_size := (p1, Z.lor PTE_R PTE_W)]> (<[va := (p0, Z.lor PTE_R PTE_W)]> e)) →
     kernel_tabs tabs' → quiet s s' → agree F (m_mem s) (m_mem s') → Q tt s') →
  wp (alloc_kstack (mkKvm (mkPageTable rt)) va) Q s.
Proof.
  intros Hrep Ht Hcap Hva Hlo Hhi HQ. unfold alloc_kstack.
  change (seqZ 0 KERNEL_STACK_PAGES) with [0; 1]. cbn [for_each]. unfold page_size in Hhi.
  apply wp_bind. eapply kstack_page_spec; [done|done|lia|lia|done|done|unfold page_size; lia|].
  intros s1 tabs1 p0 Hp0 Hn0 Hrep1 Ht1 Hq1 Hag1.
  rewrite Z.mul_0_l, Z.add_0_r in Hrep1.
  assert (p0 ∉ F) as Hn0F by (rewrite (pt_rep_live _ _ _ _ _ Hrep) in Hn0; set_solver +Hn0).
  apply wp_bind. eapply kstack_page_spec; [exact Hrep1|done| |lia|done|done|unfold page_size; lia|].
  { rewrite (qt_cap _ _ Hq1). pose proof (size_add_le p0 F). lia. }
  intros s2 tabs2 p1 Hp1 Hn1 Hrep2 Ht2 Hq2 Hag2. rewrite Z.mul_1_l in Hrep2.
  apply wp_ret. eapply (HQ s2 tabs2 p0 p1); try done.
  - rewrite (pt_rep_live _ _ _ _ _ Hrep1) in Hn1. set_solver +Hn1.
  - by trans s1.
  - eapply agree_trans; [done|]. eapply agree_weaken; [|done]. set_solver +.
Qed.

Lemma start_kvm_spec self (Q : unit → Machine → Prop) s :
  Q tt (set_csr (csr_set (m_csr s) satp
    (usize_from_SATP (mkSATP 1 0 (shr32 (root (kvm_pagetable self)) 12)))) s) →
  wp (start_kvm self) Q s.
Proof. done. Qed.
End kvm.
