(* ===== verification/Sv32.v ===== *)
(** Address translation as an Sv32 hart performs it (RISC-V privileged
    architecture, "Virtual Address Translation Process"), used as the abstract
    specification the page tables of [PtMap] are checked against. *)
From S2P Require Export KvmSpec.

(** The two page-table entries of a walk, without the accessed and dirty bits
    (which the hart sets by itself or the firmware emulates). *)
Definition sv32_leaf (w : Z) : bool := Z.testbit w 1 || Z.testbit w 3.
Definition sv32_valid (w : Z) : bool :=
  Z.testbit w 0 && negb (negb (Z.testbit w 1) && Z.testbit w 2).

(** The physical address and the leaf entry for a virtual address, or a page
    fault.  Bare mode translates nothing, so it has no leaf entry. *)
Definition sv32_walk (m : mem) (satp va : Z) : option (Z * Z) :=
  if Z.testbit satp 31 then
    let a := (satp mod 2 ^ 22) * 2 ^ 12 in
    let pte1 := ld32 m (a + va / 2 ^ 22 * 4) in
    if negb (sv32_valid pte1) then None
    else if sv32_leaf pte1 then
      if decide ((pte1 / 2 ^ 10) mod 2 ^ 10 = 0)
      then Some (pte1 / 2 ^ 20 * 2 ^ 22 + va mod 2 ^ 22, pte1) else None
    else
      let pte0 := ld32 m (pte1 / 2 ^ 10 * 2 ^ 12 + (va / 2 ^ 12) mod 2 ^ 10 * 4) in
      if negb (sv32_valid pte0) then None
      else if sv32_leaf pte0
      then Some (pte0 / 2 ^ 10 * 2 ^ 12 + va mod 2 ^ 12, pte0) else None
  else Some (va, 0xf).

(** An access is a load, a store or a fetch, from user or supervisor mode;
    [sum] is sstatus.SUM (MXR is off throughout). *)
Inductive access := Load | Store | Fetch.

Definition sv32_access (m : mem) (satp : Z) (user sum : bool) (k : access) (va : Z) : option Z :=
  match sv32_walk m satp va with
  | None => None
  | Some (pa, pte) =>
      let ok_kind := match k with
                     | Load => Z.testbit pte 1
                     | Store => Z.testbit pte 2
                     | Fetch => Z.testbit pte 3
                     end in
      let ok_mode := if negb (Z.testbit satp 31) then true
                     else if user then Z.testbit pte 4
                     else negb (Z.testbit pte 4) ||
                          (sum && match k with Fetch => false | _ => true end) in
      if ok_kind && ok_mode then Some pa else None
  end.

Section sv32.
Context {E : Env} {EL : EnvLaws E}.
Implicit Types (s : Machine) (F : gset Z) (tabs : gmap Z Z) (e : entries).

(** The satp value the kernel computes for the table at [rt]. *)
Definition satp_of (rt : Z) : Z := usize_from_SATP (mkSATP 1 0 (shr32 rt 12)).

Lemma satp_of_eq q : 0 ≤ q < 2 ^ 20 → satp_of (Z.shiftl q 12) = Z.lor (2 ^ 31) q.
Proof.
  intros Hq. unfold satp_of, usize_from_SATP. cbn [satp_mode satp_asid satp_ppn].
  unfold shr32. by rewrite Z.shiftr_shiftl_l by done.
Qed.

Lemma satp_bits q : 0 ≤ q < 2 ^ 20 →
  Z.testbit (Z.lor (2 ^ 31) q) 31 = true ∧ Z.lor (2 ^ 31) q mod 2 ^ 22 = q.
Proof.
  intros Hq. split; [by rewrite Z.lor_spec|].
  rewrite <- Z.land_ones, Z.land_lor_distr_l by done.
  rewrite (Z.land_ones q), Z.mod_small by (done || (simpl in *; lia)). done.
Qed.

Lemma pte_word_div q f : 0 ≤ q < 2 ^ 20 → 0 ≤ f < 2 ^ 10 → pte_word q f / 2 ^ 10 = q.
Proof.
  intros Hq Hf. unfold pte_word. rewrite <- Z.shiftr_div_pow2, Z.shiftr_lor by done.
  rewrite (Z.shiftr_div_pow2 f) by done. rewrite (Z.div_small f) by done.
  by rewrite Z.lor_0_r, Z.shiftr_shiftl_l by done.
Qed.

Lemma pte_word_bit q f i : 0 ≤ i < 10 → Z.testbit (pte_word q f) i = Z.testbit f i.
Proof.
  intros Hi. unfold pte_word. rewrite Z.lor_spec, Z.shiftl_spec by lia.
  by rewrite Z.testbit_neg_r by lia.
Qed.

(** A first-level entry is a pointer to its table. *)
Lemma sv32_pointer t : frame_ok t →
  sv32_valid (table_word t) = true ∧ sv32_leaf (table_word t) = false ∧
  table_word t / 2 ^ 10 * 2 ^ 12 = t.
Proof.
  intros Ht. destruct (frame_quot t Ht) as (q & Hq & ->). rewrite table_word_eq by done.
  unfold sv32_valid, sv32_leaf. rewrite !pte_word_bit by done. split_and!; [done..|].
  by rewrite pte_word_div, Z.shiftl_mul_pow2.
Qed.

Lemma sv32_leaf_word p perm : page_aligned p → is_u32 p → perm_ok perm →
  sv32_valid (leaf_word p perm) = negb (negb (Z.testbit perm 1) && Z.testbit perm 2) ∧
  sv32_leaf (leaf_word p perm) = Z.testbit perm 1 || Z.testbit perm 3 ∧
  leaf_word p perm / 2 ^ 10 * 2 ^ 12 = p.
Proof.
  intros Hp Hu Hperm. destruct (page_aligned_quot p Hp Hu) as (q & Hq & ->).
  pose proof (perm_ok_range perm Hperm) as Hr.
  assert (0 ≤ Z.lor 1 perm < 2 ^ 10) as Hf by (apply lor_range; simpl in *; lia).
  rewrite leaf_word_eq by done. unfold sv32_valid, sv32_leaf.
  rewrite !pte_word_bit, !Z.lor_spec by done. split_and!; [done..|].
  by rewrite pte_word_div, Z.shiftl_mul_pow2.
Qed.

(** The hart's walk reads the same map as the code. *)
Lemma sv32_walk_rep s rt tabs F e va :
  pt_rep s rt tabs F e → is_u32 va →
  sv32_walk (m_mem s) (satp_of rt) va =
    match e !! page_of va with
    | Some (p, perm) =>
        if Z.testbit perm 1 || (negb (Z.testbit perm 2) && Z.testbit perm 3)
        then Some (p + va mod page_size, leaf_word p perm) else None
    | None => None
    end.
Proof.
  intros [Hown Htr Hok] Hva. pose proof (po_wf _ _ _ _ Hown) as Hwf.
  destruct (frame_quot rt (pw_root _ _ _ Hwf)) as (q & Hq & Hrt).
  destruct (satp_bits q Hq) as [Hb31 Hmod].
  unfold sv32_walk. rewrite Hrt, satp_of_eq, Hb31, Hmod, <- Z.shiftl_mul_pow2, <- Hrt by done.
  change (2 ^ 22) with 0x400000. rewrite <- vpn1_eq by done.
  change ((va / 2 ^ 12) mod 2 ^ 10) with ((va / 0x1000) mod 0x400). rewrite <- vpn0_eq by done.
  rewrite !(Z.mul_comm _ 4). fold (ptr_add rt (vpn1 (VA_from va))).
  pose proof (vpn1_range va Hva) as H1. specialize (Htr va Hva). unfold pt_lookup in Htr.
  destruct (tabs !! vpn1 (VA_from va)) as [t|] eqn:Ht; cycle 1.
  { unfold sv32_valid. rewrite (pw_none _ _ _ Hwf) by done. cbn [andb negb].
    destruct (e !! page_of va) as [[p perm]|] eqn:Hx; [|done]. exfalso.
    destruct (Hok _ _ Hx) as (_ & _ & Hp & Hu & Hperm).
    pose proof (leaf_v p perm Hp Hu Hperm) as Hv. unfold entry_word in Htr; cbn in Htr.
    rewrite <- Htr in Hv. done. }
  destruct (pw_tab _ _ _ Hwf _ _ Ht) as (_ & Htok & ->).
  destruct (sv32_pointer t Htok) as (-> & -> & ->). cbn [negb]. fold (ptr_add t (vpn0 (VA_from va))).
  destruct (e !! page_of va) as [[p perm]|] eqn:Hx.
  - destruct (Hok _ _ Hx) as (_ & _ & Hp & Hu & Hperm). cbn in Hp, Hu, Hperm.
    rewrite Htr. unfold entry_word; cbn [fst snd].
    destruct (sv32_leaf_word p perm Hp Hu Hperm) as (-> & -> & ->). change (2 ^ 12) with page_size.
    by destruct (Z.testbit perm 1), (Z.testbit perm 2), (Z.testbit perm 3).
  - unfold sv32_valid. by rewrite Htr.
Qed.

Lemma leaf_word_bit p perm i : page_aligned p → is_u32 p → perm_ok perm → 1 ≤ i < 10 →
  Z.testbit (leaf_word p perm) i = Z.testbit perm i.
Proof.
  intros Hp Hu Hperm Hi. destruct (page_aligned_quot p Hp Hu) as (q & Hq & ->).
  rewrite leaf_word_eq, pte_word_bit, Z.lor_spec by (done || lia).
  rewrite (testbit_high 1 1) by (done || lia). done.
Qed.

(** What permission an access needs. *)
Definition access_bit (k : access) : Z := match k with Load => 1 | Store => 2 | Fetch => 3 end.

(** Accesses through a table, by the entry of the page. *)
Lemma sv32_access_some s rt tabs F e user sum k va p perm :
  pt_rep s rt tabs F e → is_u32 va → e !! page_of va = Some (p, perm) →
  Z.testbit perm 1 = true ∨ (Z.testbit perm 2 = false ∧ Z.testbit perm 3 = true) →
  sv32_access (m_mem s) (satp_of rt) user sum k va =
    if Z.testbit perm (access_bit k) &&
       (if user then Z.testbit perm 4
        else negb (Z.testbit perm 4) || (sum && match k with Fetch => false | _ => true end))
    then Some (p + va mod page_size) else None.
Proof.
  intros Hrep Hva Hx Hperm. unfold sv32_access.
  rewrite (sv32_walk_rep s rt tabs F e va Hrep Hva), Hx.
  destruct (pr_ok _ _ _ _ _ Hrep _ _ Hx) as (_ & _ & Hp & Hu & Hok). cbn in Hp, Hu, Hok.
  assert (Z.testbit perm 1 || (negb (Z.testbit perm 2) && Z.testbit perm 3) = true) as ->.
  { destruct Hperm as [-> |[-> ->]]; [done|apply orb_true_r]. }
  pose proof (pt_rep_wf _ _ _ _ _ Hrep) as Hwf.
  destruct (frame_quot rt (pw_root _ _ _ Hwf)) as (q & Hq & ->).
  rewrite satp_of_eq by done. destruct (satp_bits q Hq) as [-> _]. cbn [negb].
  rewrite !(leaf_word_bit p perm) by (done || lia). by destruct k, user.
Qed.

Lemma sv32_access_none s rt tabs F e user sum k va :
  pt_rep s rt tabs F e → is_u32 va → e !! page_of va = None →
  sv32_access (m_mem s) (satp_of rt) user sum k va = None.
Proof.
  intros Hrep Hva Hx. unfold sv32_access.
  by rewrite (sv32_walk_rep s rt tabs F e va Hrep Hva), Hx.
Qed.
End sv32.
