(* ===== verification/PtProps.v ===== *)
(** Properties of [PageTable] and of the kernel's address space. *)
From S2P Require Import SimpleEnv.
From S2P Require Export Sv32.

Section properties.
Context {E : Env} {EL : EnvLaws E}.
Implicit Types (s : Machine) (F : gset Z) (tabs : gmap Z Z) (e : entries).

(** C6. The page table is what an Sv32 hart reads: with satp as [get_satp] and
    [start_kvm] compute it, the hart's two-level walk of the table in memory finds,
    for every 32-bit address, exactly the frame and permission bits the table
    represents, and faults where it represents none (or a write-only page, which
    Sv32 reserves). *)
Theorem sv32_reads_table s rt tabs F e va :
  pt_rep s rt tabs F e → is_u32 va →
  sv32_walk (m_mem s) (satp_of rt) va =
    match e !! page_of va with
    | Some (p, perm) =>
        if Z.testbit perm 1 || (negb (Z.testbit perm 2) && Z.testbit perm 3)
        then Some (p + va mod page_size, leaf_word p perm) else None
    | None => None
    end.
Proof. apply sv32_walk_rep. Qed.

(** C23. [map] is insertion: it maps the first [k] pages of the range, to
    consecutive frames with the given permissions, and leaves every other
    translation alone; it reports success exactly when [k] is all of them, and fails
    only when the heap is exhausted.  Memory outside the table is untouched. *)
Theorem map_inserts s rt tabs F e virt phys size perm :
  pt_rep s rt tabs F e →
  page_aligned virt → page_aligned phys → page_aligned size →
  0 ≤ virt → 0 ≤ phys → 0 ≤ size → virt + size < U32 → phys + size < U32 → perm_ok perm →
  wp (map (mkPageTable rt) virt phys size perm) (λ r s', ∃ k tabs',
    0 ≤ k ≤ size / page_size ∧ (r = Some tt ↔ k = size / page_size) ∧
    pt_rep s' rt tabs' F (map_range e virt phys perm k) ∧
    agree F (m_mem s) (m_mem s') ∧ same_cpu s s' ∧
    (r = None → (capacity s ≤ base.size (live s'))%nat)) s.
Proof.
  intros. eapply map_rep_spec; [done..|].
  intros r s' (k & tabs' & Hk & Hr & Hrep & [] & Hag & _ & _ & Hc). by exists k, tabs'.
Qed.

(** [map] refuses what it cannot represent: a physical address, then a virtual address, then a size that is not a multiple of the page
    size panics with its own message, and a range past the top of the address space
    with the overflow check. *)
Lemma map_checks pt virt phys size perm s :
  (phys mod PAGESIZE ≠ 0 → map pt virt phys size perm s = Panic PUnalignedFrame) ∧
  (phys mod PAGESIZE = 0 → virt mod PAGESIZE ≠ 0 →
     map pt virt phys size perm s = Panic PUnalignedPage) ∧
  (phys mod PAGESIZE = 0 → virt mod PAGESIZE = 0 → size mod PAGESIZE ≠ 0 →
     map pt virt phys size perm s = Panic PNotWholePages) ∧
  (phys mod PAGESIZE = 0 → virt mod PAGESIZE = 0 → size mod PAGESIZE = 0 →
     U32 ≤ virt + size → map pt virt phys size perm s = Panic POverflow).
Proof.
  unfold map, is_multiple_of. split_and!; intros.
  - by rewrite decide_True.
  - by rewrite decide_False, decide_True by tauto.
  - by do 2 rewrite decide_False by tauto; rewrite decide_True by tauto.
  - do 3 rewrite decide_False by tauto. unfold add32, mbind, M_bind.
    by rewrite decide_False by lia.
Qed.

(** C24. [unmap] is deletion: afterwards no page of the range is translated and
    every other translation is as before; with [free] set, exactly the frames of the
    user leaves of the range go back to the heap, each once, and no other frame. *)
Theorem unmap_deletes s rt tabs F e virt size free :
  pt_rep s rt tabs F e →
  page_aligned virt → page_aligned size → 0 ≤ virt → 0 ≤ size → virt + size < U32 →
  frees_inj e free →
  (∀ p, p ∈ frees_of e free (Z.to_nat (size / page_size)) virt → p ∈ F) →
  wp (unmap (mkPageTable rt) virt size free) (λ r s',
    r = Some tt ∧ ∃ gone : gset Z,
    (∀ p, p ∈ gone ↔ ∃ a x, e !! a = Some x ∧ virt ≤ a < virt + size ∧
                      entry_frees free x = Some p) ∧
    live s' = live s ∖ gone ∧
    pt_rep s' rt tabs (F ∖ gone) (unmap_range e virt (size / page_size)) ∧
    agree (F ∖ gone) (m_mem s) (m_mem s')) s.
Proof.
  intros Hrep Hv Hs Hv0 Hs0 Hov Hinj Hl.
  eapply unmap_rep_spec; [done..|]. intros s' Hrep' Hq Hag. split; [done|].
  exists (list_to_set (frees_of e free (Z.to_nat (size / page_size)) virt)).
  assert (0 ≤ size / page_size) by (apply Z.div_pos; unfold page_size; lia).
  pose proof (aligned_div size Hs) as Hsz.
  split; [|split; [|done]].
  - intros p. rewrite elem_of_list_to_set, elem_of_frees_of. split.
    + intros (i & x & Hi & Hx & Hp). exists (virt + Z.of_nat i * page_size), x.
      split_and!; try done; unfold page_size in *; lia.
    + intros (a & x & Hx & Hr & Hp). destruct (pr_ok _ _ _ _ _ Hrep _ _ Hx) as (Ha & _).
      destruct (page_aligned_diff a virt Ha Hv) as [i ->]. exists (Z.to_nat i), x.
      unfold page_size in *. rewrite Z2Nat.id by lia. split; [lia|done].
  - rewrite (pt_rep_live _ _ _ _ _ Hrep'), (pt_rep_live _ _ _ _ _ Hrep).
    pose proof (pt_rep_disj _ _ _ _ _ Hrep) as Hd.
    assert ((list_to_set (frees_of e free (Z.to_nat (size / page_size)) virt) : gset Z) ⊆ F) as Hsub.
    { intros p. rewrite elem_of_list_to_set. apply Hl. }
    set_solver +Hd Hsub.
Qed.

(** C26. [walkaddr] agrees with the hart: whenever some access at [va], from user
    or from supervisor mode, would be translated to a physical address, [walkaddr]
    returns that address, and it changes nothing. *)
Theorem walkaddr_agrees s rt tabs F e va :
  pt_rep s rt tabs F e → is_u32 va →
  wp (walkaddr (mkPageTable rt) va) (λ r s', s' = s ∧
    ∀ k user sum pa, sv32_access (m_mem s) (satp_of rt) user sum k va = Some pa → r = Some pa) s.
Proof.
  intros Hrep Hva. eapply walkaddr_spec; [done..|]. split; [done|]. intros k user sum pa.
  unfold sv32_access. rewrite (sv32_walk_rep s rt tabs F e va Hrep Hva). unfold translate.
  destruct (e !! page_of va) as [[p perm]|]; [|done].
  destruct (Z.testbit perm 1) eqn:H1, (Z.testbit perm 2) eqn:H2, (Z.testbit perm 3) eqn:H3;
    cbn [orb andb negb]; try done; by case_match; intros; simplify_eq.
Qed.

(** Out of memory is not reported: when the heap has no page left,
    [PageTable::new] clears a page through the null pointer before it looks at the
    pointer, a write outside RAM. *)
Theorem new_out_of_memory s :
  wp (LockedHeap_alloc PAGE_LAYOUT) (λ r _, r = 0) s → PageTable_new s = Fault.
Proof. apply PageTable_new_oom. Qed.

(** Freeing a table whose pages are all unmapped returns the root page to
    the heap but none of the second-level tables: they stay handed out. *)
Theorem free_leaks_tables s rt tabs F :
  pt_rep s rt tabs F ∅ →
  wp (PageTable_free (mkPageTable rt)) (λ _ s',
    mach_ok s' ∧ live s' = live s ∖ {[rt]} ∧ pt_tables tabs ⊆ live s' ∧
    agree F (m_mem s) (m_mem s')) s.
Proof.
  intros Hrep. eapply PageTable_free_rep; [done|]. intros s' Hok Hl Hq Hag.
  assert (rt ∉ pt_tables tabs) as Hr.
  { intros [i Hi]%elem_of_map_img. by eapply (pw_root_fresh _ _ _ (pt_rep_wf _ _ _ _ _ Hrep)) in Hi. }
  pose proof (pt_rep_disj _ _ _ _ _ Hrep) as Hd. rewrite (pt_rep_live _ _ _ _ _ Hrep), Hl.
  unfold pt_pages in *. split_and!; [done| |set_solver +|done]. set_solver +Hr Hd.
Qed.

(** Mapping a fresh range and unmapping it again gives the table's old
    meaning back, keeps every frame handed out, and adds only second-level tables. *)
Theorem map_unmap_roundtrip s rt tabs F e virt phys size perm :
  pt_rep s rt tabs F e →
  page_aligned virt → page_aligned phys → page_aligned size →
  0 ≤ virt → 0 ≤ phys → 0 ≤ size → virt + size < U32 → phys + size < U32 → perm_ok perm →
  (∀ a, virt ≤ a < virt + size → e !! a = None) →
  wp (map (mkPageTable rt) virt phys size perm;; unmap (mkPageTable rt) virt size false)
    (λ r s', r = Some tt ∧ live s ⊆ live s' ∧ ∃ tabs', pt_rep s' rt tabs' F e) s.
Proof.
  intros Hrep Hv Hp Hs Hv0 Hp0 Hs0 Hov Hov' Hperm Hnone.
  apply wp_bind. eapply map_spec; [apply Hrep|done..|apply Hperm|].
  intros r s1 (k & tabs1 & Hk & _ & Hown1 & _ & _ & Hsub & _ & _ & _ & Hmap).
  assert (0 ≤ size / page_size) by (apply Z.div_pos; unfold page_size; lia).
  pose proof (aligned_div size Hs) as Hsz.
  assert (pt_rep s1 rt tabs1 F (map_range e virt phys perm k)) as Hrep1.
  { destruct Hrep as [_ Htr Hok]. split; [done|by eapply mapped_translates|].
    apply map_range_ok; try done; unfold page_size in *; nia. }
  eapply unmap_rep_spec; [exact Hrep1|done..|apply frees_inj_false| |].
  { intros p. rewrite frees_of_false, elem_of_nil. done. }
  intros s2. rewrite frees_of_false. cbn [list_to_set]. rewrite difference_empty_L.
  intros Hrep2 _ _. split; [done|]. split.
  - rewrite (pt_rep_live _ _ _ _ _ Hrep2), (pt_rep_live _ _ _ _ _ Hrep). unfold pt_pages, pt_tables.
    assert (map_img tabs ⊆ (map_img tabs1 : gset Z)) as Himg.
    { intros t [i Hi]%elem_of_map_img. apply elem_of_map_img. exists i. by eapply lookup_weaken. }
    set_solver +Himg.
  - exists tabs1. replace e with (unmap_range (map_range e virt phys perm k) virt (size / page_size)); [done|].
    apply map_eq. intros a. rewrite unmap_range_lookup, Hsz.
    case_decide as Hr; [by rewrite Hnone|]. destruct (decide (page_aligned a)) as [Ha|Ha].
    + rewrite map_range_lookup, decide_False by (done || (unfold page_size in *; nia)). done.
    + destruct (map_range e virt phys perm k !! a) eqn:Hx.
      * destruct (pr_ok _ _ _ _ _ Hrep1 _ _ Hx) as (Ha' & _). done.
      * destruct (e !! a) eqn:Hx'; [|done]. by destruct (pr_ok _ _ _ _ _ Hrep _ _ Hx') as (Ha' & _).
Qed.
End properties.

(** ** Witnesses, on the example machine *)

#[local] Existing Instance simple_env.
#[local] Existing Instance simple_laws.

(** A fresh, empty table. *)
Lemma boot_table (Q : PageTable → Machine → Prop) :
  (∀ rt s, pt_rep s rt ∅ ∅ ∅ → (capacity s = capacity boot_machine) →
     Q (mkPageTable rt) s) → wp PageTable_new Q boot_machine.
Proof.
  intros HQ. apply PageTable_new_rep; [apply boot_ok|left; by apply Nat.leb_le|].
  intros rt s Hrep Hq _. apply HQ; [done|by apply qt_cap].
Qed.

Lemma sv32_reads_table_witness :
  wp PageTable_new (λ pt s, sv32_walk (m_mem s) (satp_of (root pt)) 0x10000 = None) boot_machine.
Proof.
  apply boot_table. intros rt s Hrep _.
  etrans; [apply (sv32_reads_table s rt ∅ ∅ ∅ 0x10000 Hrep); by split|]. by rewrite lookup_empty.
Defined.

Lemma map_inserts_witness :
  wp (pt ← PageTable_new; r ← map pt 0x400000 0x80300000 0x3000 6; mret (pt, r))
    (λ ptr s, ∃ k tabs, 0 ≤ k ≤ 3 ∧ (ptr.2 = Some tt ↔ k = 3) ∧
       pt_rep s (root ptr.1) tabs ∅ (map_range ∅ 0x400000 0x80300000 6 k)) boot_machine.
Proof.
  apply wp_bind, boot_table. intros rt s Hrep _. apply wp_bind.
  eapply wp_mono; [apply (map_inserts s rt ∅ ∅ ∅ 0x400000 0x80300000 0x3000 6 Hrep); done|].
  intros r s' (k & tabs & Hk & Hr & Hrep' & _). apply wp_ret. by exists k, tabs.
Defined.

(** A table that maps one page at [USER_START], for the user to read and write, to a
    frame of the heap. *)
Definition one_page_table : M Machine (PageTable * Z) :=
  p ← LockedHeap_alloc PAGE_LAYOUT; pt ← PageTable_new;
  map pt 0x10000 p 0x1000 22;; mret (pt, p).

Lemma one_page_table_spec (Q : PageTable * Z → Machine → Prop) :
  (∀ rt p tabs s, pt_rep s rt tabs {[p]} {[0x10000 := (p, 22)]} → page_aligned p →
     Q (mkPageTable rt, p) s) → wp one_page_table Q boot_machine.
Proof.
  intros HQ. assert (live boot_machine = ∅ ∧ (100 < capacity boot_machine)%nat) as [Hl0 Hcap]
    by (split; [done|by apply Nat.leb_le]).
  apply wp_bind, LockedHeap_alloc_spec; [apply boot_ok|]. intros p m (Hok & Hq & _ & Hr).
  destruct Hr as [(_ & _ & Hc)|(_ & Hp & Hl)]; [rewrite Hl0, size_empty in Hc; lia|].
  rewrite Hl0, union_empty_r_L in Hl. pose proof (qt_cap _ _ Hq) as Hcm.
  assert (p ∈ live m) as Hpl by (rewrite Hl; by apply elem_of_singleton).
  destruct (live_frame_ok _ _ Hok Hpl) as (Hpa & Hpr).
  apply wp_bind, PageTable_new_rep; [done|left; rewrite Hl, size_singleton; lia|].
  intros rt s Hrep Hq1 _. rewrite Hl in Hrep. apply wp_bind.
  assert (0x80000000 ≤ ekernel ∧ RAMEND < U32) as [Hek Hre] by by vm_compute.
  assert (size (live s) ≤ 2)%nat as Hs.
  { rewrite (pt_rep_live _ _ _ _ _ Hrep). unfold pt_pages, pt_tables. rewrite map_img_empty_L, union_empty_r_L.
    pose proof (size_add_le rt {[p]}) as Hle. by rewrite size_singleton in Hle. }
  unfold page_size in Hpr.
  eapply map_rep_spec; [exact Hrep|done|exact Hpa|done|done|lia|done|done|lia|by vm_compute|].
  change (0x1000 / page_size) with 1.
  intros r s' (k & tabs & Hk & Hret & Hrep' & Hq2 & _ & Hsz & _ & Hnone).
  assert (k = 1) as ->.
  { destruct r as [[]|]; [by apply Hret|]. specialize (Hnone eq_refl).
    rewrite (qt_cap _ _ Hq1) in Hnone. lia. }
  apply wp_ret, (HQ _ _ tabs); [|done]. replace {[0x10000 := (p, 22)]} with (map_range ∅ 0x10000 p 22 1); [done|].
  unfold map_range. change (seqZ 0 1) with [0]. cbn [foldr]. by rewrite !Z.mul_0_l, !Z.add_0_r.
Qed.

Lemma unmap_deletes_witness :
  wp (r ← one_page_table; unmap r.1 0x10000 0x1000 true;; mret r) (λ r s, (r.2 ∉ live s) ∧
    ∃ tabs, pt_rep s (root r.1) tabs ∅ ∅) boot_machine.
Proof.
  apply wp_bind, one_page_table_spec. intros rt p tabs s Hrep Hp. apply wp_bind.
  set (e := {[0x10000 := (p, 22)]}) in *.
  assert (∀ a x, e !! a = Some x → a = 0x10000 ∧ x = (p, 22)) as He by by intros a x [<- <-]%lookup_singleton_Some.
  eapply wp_mono.
  { apply (unmap_deletes s rt tabs {[p]} e 0x10000 0x1000 true Hrep); try done.
    - intros a b x y q Hx Hy _ _. by destruct (He _ _ Hx) as [-> _], (He _ _ Hy) as [-> _].
    - intros q (i & x & _ & Hx & Hq)%elem_of_frees_of. destruct (He _ _ Hx) as [_ ->].
      injection Hq as <-. by apply elem_of_singleton. }
  intros r s' (_ & gone & Hgone & Hl & Hrep' & _). apply wp_ret.
  assert (p ∈ gone) as Hpg by (apply Hgone; by exists 0x10000, (p, 22)).
  split; [rewrite Hl; set_solver +Hpg|]. exists tabs.
  replace ({[p]} ∖ gone) with (∅ : gset Z) in Hrep' by set_solver +Hpg.
  replace (unmap_range e 0x10000 (0x1000 / page_size)) with (∅ : entries) in Hrep'; [done|].
  apply map_eq. intros a. rewrite lookup_empty, unmap_range_lookup. case_decide as Ha; [done|].
  destruct (e !! a) eqn:Hx; [|done]. destruct (He _ _ Hx) as [-> _]. by destruct Ha.
Defined.

Lemma walkaddr_agrees_witness :
  wp (r ← one_page_table; pa ← walkaddr r.1 0x10004; mret (r, pa)) (λ r s, let p := r.1.2 in
    sv32_access (m_mem s) (satp_of (root r.1.1)) true false Load 0x10004 = Some (p + 4) ∧
    r.2 = Some (p + 4)) boot_machine.
Proof.
  apply wp_bind, one_page_table_spec. intros rt p tabs s Hrep Hp.
  assert (sv32_access (m_mem s) (satp_of rt) true false Load 0x10004 = Some (p + 4)) as Hacc.
  { by rewrite (sv32_access_some s rt tabs _ _ _ _ _ 0x10004 p 22 Hrep) by (by split || by left || done). }
  apply wp_bind. eapply wp_mono; [apply (walkaddr_agrees s rt tabs _ _ 0x10004 Hrep); by split|].
  intros r s' (-> & Hwalk). apply wp_ret. split; [exact Hacc|by eapply Hwalk].
Defined.

Lemma new_out_of_memory_witness :
  let s := set_heap (mkSheap s_ekernel s_ekernel [] ∅ : heap_t) boot_machine in
  PageTable_new s = Fault.
Proof. apply new_out_of_memory. by vm_compute. Defined.

Lemma free_leaks_tables_witness :
  wp (pt ← PageTable_new; PageTable_free pt) (λ _ s, mach_ok s) boot_machine.
Proof.
  apply wp_bind, boot_table. intros rt s Hrep _.
  eapply wp_mono; [apply (free_leaks_tables s rt ∅ ∅ Hrep)|]. by intros _ s' [? _].
Defined.

Lemma map_unmap_roundtrip_witness :
  wp (pt ← PageTable_new;
      map pt 0x400000 0x80300000 0x3000 6;; unmap pt 0x400000 0x3000 false)
    (λ r s, r = Some tt) boot_machine.
Proof.
  apply wp_bind, boot_table. intros rt s Hrep _.
  eapply wp_mono;
    [by apply (map_unmap_roundtrip s rt ∅ ∅ ∅ 0x400000 0x80300000 0x3000 6 Hrep)|].
  by intros r s' [-> _].
Defined.
