(* ===== verification/UvmProps.v ===== *)
(** Properties of user address spaces and of the copies in and out of them. *)
From S2P Require Import SimpleEnv.
From S2P Require Export PtProps.

Section properties.
Context {E : Env} {EL : EnvLaws E}.
Implicit Types (s : Machine) (F : gset Z) (tabs : gmap Z Z) (pages hi : entries) (u : Uvm).

(** C34. [alloc] grows the address space at its end and nowhere else: on success
    every page between the old and the new end is backed by a frame of its own with
    the permissions asked for and user access; when memory runs out it reports the
    error, keeps the pages it could map and leaks nothing; in both cases the old
    pages, their contents and all other frames are as before. *)
Theorem alloc_grows s u tabs F pages hi size perm :
  uvm_rep s u tabs F pages hi → rwx_perm perm → USER_START + size ≤ TRAPFRAME →
  wp (Uvm_alloc u size perm) (λ ret s', ∃ tabs' pages',
    uvm_rep s' ret.1 tabs' F pages' hi ∧
    grown pages pages' (user_end u) (user_end ret.1) (Z.lor perm PTE_U) ∧
    agree (frames_of pages ∪ F) (m_mem s) (m_mem s') ∧ same_cpu s s' ∧
    match ret.2 with
    | Some _ => size ≤ uvm_size ret.1 ∧ uvm_size ret.1 = uvm_size u + pages_to u size * page_size
    | None => uvm_size ret.1 < uvm_size u + pages_to u size * page_size ∧
              (capacity s ≤ base.size (live s') + 1)%nat
    end) s.
Proof.
  intros Hu Hp Hend. eapply Uvm_alloc_spec; [done..|].
  intros [u' o] s' (tabs' & pages' & Hu' & _ & [] & Hag & Hg & _ & Ho). exists tabs', pages'.
  split_and!; try done. cbn in *. destruct o; [|lia].
  destruct (pages_to_bounds u size) as (Hn & Hle & _). rewrite Hn in Hle. lia.
Qed.

(** Shrinking undoes growing: after a successful [alloc], [dealloc] to the old
    size gives back exactly the frames the growth took (second-level tables apart)
    and the address space is the one before, contents included. *)
Theorem alloc_dealloc_roundtrip s u tabs F pages hi size perm :
  uvm_rep s u tabs F pages hi → rwx_perm perm → USER_START + size ≤ TRAPFRAME →
  wp (r ← Uvm_alloc u size perm;
      match r.2 with
      | Some _ => r' ← Uvm_dealloc r.1 (uvm_size u); mret (Some r')
      | None => mret None
      end)
    (λ o s', ∀ r, o = Some r →
       r = (u, Some tt) ∧ (∃ tabs', uvm_rep s' u tabs' F pages hi) ∧
       agree (frames_of pages ∪ F) (m_mem s) (m_mem s')) s.
Proof.
  intros Hu Hp Hend. apply wp_bind. eapply Uvm_alloc_spec; [done..|].
  intros [u' o] s1 (tabs1 & pages1 & Hu1 & Hrt & _ & Hag1 & Hg & _ & Ho). cbn [fst snd] in *.
  destruct (ur_size _ _ _ _ _ _ Hu) as (Hs0 & Hsa & Hse).
  destruct o as [[]|]; [|by apply wp_ret].
  assert (0 ≤ pages_to u size) as Hn by (unfold pages_to; lia).
  apply wp_bind. eapply Uvm_dealloc_spec; [exact Hu1|done|unfold page_size in *; lia|].
  assert (set_size (uvm_size u) u' = u) as ->.
  { pose proof (ur_begin _ _ _ _ _ _ Hu). pose proof (ur_begin _ _ _ _ _ _ Hu1).
    destruct u as [b n [rt]], u' as [b' n' [rt']]. cbn in *. by subst. }
  assert (unmap_range pages1 (USER_START + uvm_size u) ((uvm_size u' - uvm_size u) / page_size) = pages) as ->.
  { rewrite Ho. replace (uvm_size u + pages_to u size * page_size - uvm_size u)
      with (pages_to u size * page_size) by lia. rewrite Z.div_mul by done.
    fold (user_end u). apply map_eq. intros a. rewrite unmap_range_lookup.
    destruct (pages !! a) as [x|] eqn:Hx.
    - destruct (ur_page _ _ _ _ _ _ Hu _ _ Hx) as ([_ Hlt] & _). rewrite decide_False by lia.
      eapply lookup_weaken; [done|apply Hg].
    - case_decide as Hr; [done|]. destruct (pages1 !! a) as [x|] eqn:Hx1; [|done].
      destruct (gr_new _ _ _ _ _ Hg a Hx) as [Hnew _]. rewrite Hx1 in Hnew.
      destruct Hnew as [_ Hr']; [done|]. unfold user_end in *. lia. }
  intros s2 Hu2 _ Hag2. apply wp_ret. intros r [= <-]. split; [done|].
  split; [by exists tabs1|by eapply agree_trans].
Qed.

(** C37. Dropping an address space gives every user frame and the root table back
    to the heap and touches nothing else; the trampoline page and the trapframe are
    not freed with it, and the second-level tables are lost to the heap. *)
Theorem drop_returns_frames s u tabs F pages hi :
  uvm_rep s u tabs F pages hi →
  wp (Uvm_drop u) (λ _ s', mach_ok s' ∧ live s' = pt_tables tabs ∪ F ∧
    live s' = live s ∖ ({[root (uvm_pagetable u)]} ∪ frames_of pages) ∧
    agree F (m_mem s) (m_mem s') ∧ same_cpu s s') s.
Proof.
  intros Hu. eapply Uvm_drop_spec; [done|]. intros s' Hok Hl [] Hag.
  split_and!; try done. pose proof (ur_disj _ _ _ _ _ _ Hu) as Hd.
  pose proof (uvm_rep_disj _ _ _ _ _ _ Hu) as Hd'.
  assert (root (uvm_pagetable u) ∉ pt_tables tabs) as Hr.
  { intros [i Hi]%elem_of_map_img.
    by eapply (pw_root_fresh _ _ _ (pt_rep_wf _ _ _ _ _ (ur_pt _ _ _ _ _ _ Hu))) in Hi. }
  rewrite Hl, (uvm_rep_live _ _ _ _ _ _ Hu). unfold pt_pages in *. set_solver +Hd Hd' Hr.
Qed.

(** [clone] gives the child the parent's memory and isolates the two: the
    child has the same pages, permissions and bytes, and when the child then writes
    its memory, the child sees the write and the parent's bytes are unchanged. *)
Theorem clone_isolated s u tabs F pages hi a x va data :
  uvm_rep s u tabs F pages hi → covered u tabs →
  Z.of_nat (size (live s)) + 1 + 2 * (uvm_size u / page_size) ≤ Z.of_nat (capacity s) →
  pages !! a = Some x → in_page a va 4 → va mod 4 = 0 →
  wp (vm ← Uvm_clone u; r ← copy_out vm va data; mret (vm, r)) (λ vr s',
    vr.2 = Some tt ∧ ∃ tabsc pc,
    uvm_rep s' vr.1 tabsc (live s) pc ∅ ∧ (∀ b, snd <$> pc !! b = snd <$> pages !! b) ∧
    (∀ b, user_byte (m_mem s') pages b = user_byte (m_mem s) pages b) ∧
    (∀ b, user_byte (m_mem s') pc b =
       if decide (va ≤ b < va + 4) then Some (word_byte data (b - va))
       else user_byte (m_mem s) pages b)) s.
Proof.
  intros Hu Hcov Hroom Hx Hin Hal. apply wp_bind. eapply Uvm_clone_spec; [done|by left|].
  intros vm s1 (tabsc & pc & Hc & Hup & _ & _ & _ & Hag1 & Hperm & Hbytes & _).
  assert (∃ y, pc !! a = Some y) as [y Hy].
  { specialize (Hperm a). rewrite Hx in Hperm. destruct (pc !! a); [eauto|done]. }
  apply wp_bind. eapply copy_out_spec; [exact Hc|exact Hy|done..|].
  intros s2 (Hc2 & _ & Hag2 & _ & Hb2). apply wp_ret. split; [done|].
  exists tabsc, pc. split_and!; [done|done| |].
  - intros b. unfold user_byte. destruct (pages !! page_of b) as [z|] eqn:Hz; [|done].
    cbn. f_equal. destruct (ur_page _ _ _ _ _ _ Hu _ _ Hz) as (_ & Hfz & _).
    assert (page_of (z.1 + b mod page_size) ∈ live s) as Hlv.
    { rewrite page_of_add; [|apply Hfz|by apply Z.mod_pos_bound].
      rewrite (uvm_rep_live _ _ _ _ _ _ Hu). apply elem_of_union_r, elem_of_union_l, elem_of_frames_pages. eauto. }
    rewrite Hag2, Hag1 by (by left). done.
  - intros b. rewrite Hb2. by rewrite Hbytes.
Qed.

(** C35. [load] puts the image at [va]: afterwards the program sees, byte for byte,
    the image from [va] on (and, up to the end of the last page, whatever follows
    the image in kernel memory), and no other byte of its memory has changed. *)
Theorem load_image s u tabs F pages hi va img :
  uvm_rep s u tabs F pages hi → page_aligned va → 0 ≤ va → 0 ≤ img.2 →
  let n := (img.2 + PAGESIZE - 1) / PAGESIZE in
  va + n * page_size < U32 →
  (∀ i, 0 ≤ i < n → is_Some (pages !! (va + i * page_size))) →
  RAMSTART ≤ img.1 → img.1 + n * page_size ≤ ekernel →
  wp (Uvm_load u va img) (λ r s', r = Some tt ∧ uvm_rep s' u tabs F pages hi ∧
    agree F (m_mem s) (m_mem s') ∧
    (∀ i, 0 ≤ i < img.2 → user_byte (m_mem s') pages (va + i) = Some (ld8 (m_mem s) (img.1 + i))) ∧
    (∀ i, img.2 ≤ i < n * page_size →
       user_byte (m_mem s') pages (va + i) = Some (ld8 (m_mem s) (img.1 + i))) ∧
    (∀ b, b < va ∨ va + n * page_size ≤ b →
       user_byte (m_mem s') pages b = user_byte (m_mem s) pages b)) s.
Proof.
  intros Hu Hva Hva0 Hlen n Hov Hp Hsrc Hend. eapply Uvm_load_spec; [done..|].
  fold n. intros s' (Hu' & _ & Hag & _ & Hb).
  assert (img.2 ≤ n * page_size) as Hn.
  { unfold n, PAGESIZE, page_size. Z.div_mod_to_equations. lia. }
  split_and!; try done; intros i Hi; rewrite Hb.
  - rewrite decide_True by lia. do 2 f_equal. lia.
  - rewrite decide_True by lia. do 2 f_equal. lia.
  - by rewrite decide_False by lia.
Qed.

(** C36. A word copied out is the word copied in: [copy_out] of a 32-bit value to an
    aligned user address followed by [copy_in] returns it, and the copy changes
    those four bytes of the program's memory and nothing else. *)
Theorem copy_out_copy_in s u tabs F pages hi a x va data :
  uvm_rep s u tabs F pages hi → pages !! a = Some x → in_page a va 4 → va mod 4 = 0 →
  is_u32 data →
  wp (copy_out u va data;; copy_in u va) (λ r s',
    r = Some data ∧ uvm_rep s' u tabs F pages hi ∧ agree F (m_mem s) (m_mem s') ∧
    (∀ b, b < va ∨ va + 4 ≤ b →
       user_byte (m_mem s') pages b = user_byte (m_mem s) pages b)) s.
Proof.
  intros Hu Hx Hin Hal Hd. apply wp_bind. eapply copy_out_spec; [done..|].
  intros s1 (Hu1 & _ & Hag & _ & Hb). eapply copy_in_spec; [done..|].
  intros w Hw Hbytes. split_and!; [|done|done|].
  - f_equal. apply word_byte_inj; [done..|]. intros i Hi. apply (inj Some).
    rewrite <- Hbytes, Hb, decide_True by lia. do 2 f_equal. lia.
  - intros b Hb'. by rewrite Hb, decide_False by lia.
Qed.

(** The same for a run of bytes inside one user page: [copy_in_cont] reads
    back what [copy_out_cont] wrote. *)
Theorem copy_out_cont_copy_in_cont s u tabs F pages hi a x va data :
  uvm_rep s u tabs F pages hi → pages !! a = Some x → data ≠ [] →
  in_page a va (Z.of_nat (length data)) → Forall (λ b, 0 ≤ b < 256) data →
  wp (copy_out_cont_u8 u va data;; copy_in_cont u va (Z.of_nat (length data))) (λ r s',
    r = Some data ∧ uvm_rep s' u tabs F pages hi ∧
    (∀ b, b < va ∨ va + Z.of_nat (length data) ≤ b →
       user_byte (m_mem s') pages b = user_byte (m_mem s) pages b)) s.
Proof.
  intros Hu Hx Hne Hin Hbs. apply wp_bind. eapply copy_out_cont_u8_spec; [done..|].
  intros s1 (Hu1 & _ & Hag & _ & Hb).
  assert (0 < Z.of_nat (length data)) by (destruct data; cbn; [done|lia]).
  eapply copy_in_cont_user; [done..|]. intros l Hlen Hl. split_and!; [|done|].
  - f_equal. apply list_eq. intros i. destruct (decide (i < length data)%nat) as [Hi|Hi].
    + rewrite <- (Nat2Z.id i), Hl, Hb, decide_True by lia.
      rewrite Nat2Z.id. replace (va + Z.of_nat i - va) with (Z.of_nat i) by lia. rewrite Nat2Z.id.
      destruct (lookup_lt_is_Some_2 data i Hi) as [v Hv].
      rewrite Hv, (list_lookup_total_correct _ _ _ Hv). f_equal. apply Z.mod_small.
      by eapply (Forall_lookup_1 _ _ _ _ Hbs).
    + rewrite !lookup_ge_None_2 by lia. done.
  - intros b Hb'. by rewrite Hb, decide_False by lia.
Qed.

(** [copy_in_str] reads a zero-terminated user string inside one page and
    returns exactly its bytes when they are well-formed UTF-8 and an error
    otherwise; any bound on the search longer than the string gives this result. *)
Theorem copy_in_str_reads s u tabs F pages hi a x va l fuel :
  uvm_rep s u tabs F pages hi → pages !! a = Some x → in_page a va (Z.of_nat (length l) + 1) →
  (length l < fuel)%nat → Forall (λ b, b ≠ 0) l →
  (∀ i b, (l ++ [0]) !! i = Some b → user_byte (m_mem s) pages (va + Z.of_nat i) = Some b) →
  wp (copy_in_str fuel u va) (λ r s', s' = s ∧ r = if utf8_valid l then Some l else None) s.
Proof. intros. eapply copy_in_str_spec; [done..|]. done. Qed.
End properties.

(** ** Witnesses, on the example machine *)

(** The first page of an empty address space. *)
Lemma first_page_spec {E : Env} {EL : EnvLaws E} (s : Machine) u F (Q : Uvm * option unit → Machine → Prop) :
  uvm_rep s u ∅ F ∅ ∅ → uvm_size u = 0 → (size (live s) + 3 < capacity s)%nat →
  (∀ u' s' tabs x, uvm_rep s' u' tabs F {[USER_START := x]} ∅ → uvm_size u' = 0x1000 → covered u' tabs →
     quiet s s' → agree F (m_mem s) (m_mem s') → (size (live s') ≤ size (live s) + 2)%nat →
     Q (u', Some tt) s') →
  wp (Uvm_alloc u 0x1000 6) Q s.
Proof.
  intros Hu1 Hsz Hroom HQ. eapply Uvm_alloc_spec; [exact Hu1|by split|by vm_compute|].
  assert (pages_to u 0x1000 = 1) as -> by (unfold pages_to; by rewrite Hsz).
  intros [u' o] s2 (tabs & pages & Hu2 & _ & Hq2 & Hag2 & Hg & Hl2 & Ho). cbn [fst snd] in *.
  destruct o as [[]|]; [|destruct Ho as [_ Ho]; lia].
  assert (user_end u = 0x10000 ∧ user_end u' = 0x11000) as [He He'].
  { unfold user_end, page_size, USER_START in *. lia. }
  rewrite He, He' in Hg. destruct (gr_new _ _ _ _ _ Hg 0x10000) as [_ [x Hx]]; [done|by split|].
  assert (pages = {[USER_START := x]}) as ->.
  { apply map_eq. intros a. destruct (decide (a = USER_START)) as [->|Hne].
    { by rewrite lookup_singleton_eq. }
    rewrite lookup_singleton_ne by done. destruct (pages !! a) as [y|] eqn:Hy; [|done].
    destruct (gr_new _ _ _ _ _ Hg a) as [[Ha Hr] _]; [done|by eexists|].
    exfalso. apply Hne. unfold page_aligned, page_size, USER_START in *. Z.div_mod_to_equations. lia. }
  apply (HQ u' s2 tabs x Hu2); [by rewrite Ho, Hsz| |done| |lia].
  - intros a Ha. rewrite He' in Ha. change USER_START with 0x10000 in Ha.
    eapply (rep_table _ _ _ _ _ _ x (ur_pt _ _ _ _ _ _ Hu2)); [unfold is_u32, U32; lia|].
    rewrite map_union_empty, (page_of_inside USER_START);
      [by rewrite lookup_singleton_eq|done|unfold page_size, USER_START; lia].
  - eapply agree_weaken; [|exact Hag2]. set_solver +.
Qed.

#[local] Existing Instance simple_env.
#[local] Existing Instance simple_laws.

(** A new address space with one page of user memory. *)
Definition one_page : MM Uvm :=
  o ← Uvm_new;
  u ← unwrap o;
  r ← Uvm_alloc u 0x1000 6;
  unwrap r.2;;
  mret r.1.

Lemma one_page_spec (Q : Uvm → Machine → Prop) :
  (∀ u s tabs x, uvm_rep s u tabs ∅ {[USER_START := x]} ∅ → uvm_size u = 0x1000 →
     covered u tabs → capacity s = capacity boot_machine → (size (live s) ≤ 3)%nat → Q u s) →
  wp one_page Q boot_machine.
Proof.
  intros HQ. unfold one_page. apply wp_bind, Uvm_new_spec; [apply boot_ok|left; by apply Nat.leb_le|].
  change (live boot_machine) with (∅ : gset Z). intros u s1 Hu1 Hsz Hq1 _. apply wp_bind, wp_ret.
  assert (size (live s1) = 1)%nat as Hl1.
  { rewrite (uvm_rep_live _ _ _ _ _ _ Hu1), frames_of_empty. unfold pt_pages, pt_tables.
    by rewrite map_img_empty_L, !union_empty_r_L, size_singleton. }
  assert (4 < capacity boot_machine)%nat by by apply Nat.leb_le.
  apply wp_bind. eapply first_page_spec; [exact Hu1|done|rewrite (qt_cap _ _ Hq1); lia|].
  intros u' s2 tabs x Hu2 Hsz2 Hcov Hq2 _ Hl2. apply wp_bind, wp_ret, wp_ret.
  apply (HQ u' s2 tabs x); [done..| |lia]. rewrite (qt_cap _ _ Hq2). by apply qt_cap.
Qed.

Lemma one_page_in : in_page USER_START 0x10010 4.
Proof. by split; [|unfold USER_START, page_size; lia]. Qed.

Lemma alloc_grows_witness :
  wp (u ← one_page; Uvm_alloc u 0x3000 6) (λ ret s,
    ret.2 = Some tt → 0x3000 ≤ uvm_size ret.1) boot_machine.
Proof.
  apply wp_bind, one_page_spec. intros u s tabs x Hu Hsz _ _ _.
  eapply wp_mono; [apply (alloc_grows s u tabs ∅ _ ∅ 0x3000 6 Hu); [by split|by vm_compute]|].
  intros ret s' (_ & _ & _ & _ & _ & _ & Ho) Hr. rewrite Hr in Ho. apply Ho.
Defined.

Lemma alloc_dealloc_roundtrip_witness :
  wp (u ← one_page; r ← Uvm_alloc u 0x3000 6;
      match r.2 with
      | Some _ => r' ← Uvm_dealloc r.1 (uvm_size u); mret (u, Some r')
      | None => mret (u, None)
      end)
    (λ ur s, ∀ r, ur.2 = Some r → r = (ur.1, Some tt)) boot_machine.
Proof.
  apply wp_bind, one_page_spec. intros u s tabs x Hu Hsz _ _ _.
  pose proof (alloc_dealloc_roundtrip s u tabs ∅ _ ∅ 0x3000 6 Hu ltac:(by split) ltac:(by vm_compute)) as H.
  revert H. unfold wp, mbind, M_bind. destruct (Uvm_alloc u 0x3000 6 s) as [[u' [[]|]] s'| | | |]; try done.
  cbn. destruct (Uvm_dealloc u' (uvm_size u) s') as [r' s''| | | |]; try done.
  cbn. intros H r [= <-]. by apply H.
Defined.

Lemma drop_returns_frames_witness :
  wp (u ← one_page; Uvm_drop u) (λ _ s, mach_ok s) boot_machine.
Proof.
  apply wp_bind, one_page_spec. intros u s tabs x Hu Hsz _ _ _.
  eapply wp_mono; [apply (drop_returns_frames s u tabs ∅ _ ∅ Hu)|]. by intros _ s' [? _].
Defined.

Lemma clone_isolated_witness :
  wp (u ← one_page; vm ← Uvm_clone u; r ← copy_out vm 0x10010 42; mret (vm, r))
    (λ vr s, vr.2 = Some tt) boot_machine.
Proof.
  apply wp_bind, one_page_spec. intros u s tabs x Hu Hsz Hcov Hcap Hl.
  eapply wp_mono; [apply (clone_isolated s u tabs ∅ _ ∅ USER_START x 0x10010 42 Hu Hcov)|].
  - rewrite Hsz, Hcap. change (0x1000 / page_size) with 1.
    assert (6 ≤ capacity boot_machine)%nat by by apply Nat.leb_le. lia.
  - by rewrite lookup_singleton_eq.
  - apply one_page_in.
  - done.
  - by intros r s' [? _].
Defined.

Lemma load_image_witness :
  wp (u ← one_page; Uvm_load u USER_START (0x80230000, 0x800)) (λ r s, r = Some tt) boot_machine.
Proof.
  apply wp_bind, one_page_spec. intros u s tabs x Hu Hsz Hcov Hcap Hl.
  clear Hcap Hl. eapply wp_mono;
    [apply (load_image s u tabs ∅ _ ∅ USER_START (0x80230000, 0x800) Hu); try done|].
  - intros i [Hi0 Hi]. change (i < 1) in Hi. assert (i = 0) as -> by lia. rewrite lookup_singleton_eq. by eexists.
  - by intros r s' [? _].
Defined.

Lemma copy_out_copy_in_witness :
  wp (u ← one_page; copy_out u 0x10010 42;; copy_in u 0x10010) (λ r s, r = Some 42) boot_machine.
Proof.
  apply wp_bind, one_page_spec. intros u s tabs x Hu Hsz Hcov Hcap Hl.
  eapply wp_mono; [apply (copy_out_copy_in s u tabs ∅ _ ∅ USER_START x 0x10010 42 Hu)|].
  - by rewrite lookup_singleton_eq.
  - apply one_page_in.
  - done.
  - by split.
  - by intros r s' [? _].
Defined.

Lemma copy_out_cont_copy_in_cont_witness :
  wp (u ← one_page; copy_out_cont_u8 u 0x10010 [104; 105];; copy_in_cont u 0x10010 2)
    (λ r s, r = Some [104; 105]) boot_machine.
Proof.
  apply wp_bind, one_page_spec. intros u s tabs x Hu Hsz Hcov Hcap Hl.
  eapply wp_mono; [apply (copy_out_cont_copy_in_cont s u tabs ∅ _ ∅ USER_START x 0x10010 [104; 105] Hu)|].
  - by rewrite lookup_singleton_eq.
  - done.
  - by split; [|unfold USER_START, page_size; cbn; lia].
  - repeat constructor; lia.
  - by intros r s' [? _].
Defined.

Lemma copy_in_str_reads_witness :
  wp (u ← one_page; copy_out_cont_u8 u 0x10010 [104; 105; 0];; copy_in_str 10 u 0x10010)
    (λ r s, r = Some [104; 105]) boot_machine.
Proof.
  apply wp_bind, one_page_spec. intros u s tabs x Hu Hsz Hcov Hcap Hl.
  clear Hcap Hl. assert (({[USER_START := x]} : entries) !! USER_START = Some x) as Hx by by rewrite lookup_singleton_eq.
  assert (in_page USER_START 0x10010 3) as Hin by by split; [|unfold USER_START, page_size; lia].
  apply wp_bind. eapply copy_out_cont_u8_spec; [exact Hu|exact Hx|done|done|].
  intros s1 (Hu1 & _ & _ & _ & Hb).
  eapply wp_mono; [apply (copy_in_str_reads s1 u tabs ∅ _ ∅ USER_START x 0x10010 [104; 105] 10 Hu1 Hx)|].
  - done.
  - cbn; lia.
  - repeat constructor; lia.
  - intros i b Hi. rewrite Hb. cbn [length]. destruct i as [|[|[|i]]]; [..|done];
      rewrite decide_True by (cbn; lia); cbn in Hi; by simplify_eq.
  - by intros r s' [_ ->].
Defined.
