(* ===== verification/KernelProps.v ===== *)
(** Properties of the kernel's address space, and what it shares with the user address
    spaces at their top. *)
From S2P Require Import SimpleEnv.
From S2P Require Export UvmProps.

Section properties.
Context {E : Env} {EL : EnvLaws E}.
Implicit Types (s : Machine) (F : gset Z) (tabs : gmap Z Z) (pages hi : entries) (u : Uvm).

(** Building the kernel address space and switching to it, as [main] does. *)
Definition boot_kvm : MM (option Kvm) :=
  kvm ←? Kvm_init;
  start_kvm kvm;;
  mret (Some kvm).

(** The kernel translation of an address: identity on the UART page and on RAM,
    the trampoline at the top, nothing else. *)
Definition kernel_pa (va : Z) : option Z :=
  if decide (TRAMPOLINE ≤ va < TRAMPOLINE + PAGESIZE) then Some (trampoline + (va - TRAMPOLINE))
  else if decide (UART ≤ va < UART + PAGESIZE ∨ KERNEL_START ≤ va < RAMEND) then Some va
  else None.

Definition kernel_may (k : access) (va : Z) : bool :=
  match k with
  | Load => true
  | Store => bool_decide (UART ≤ va < UART + PAGESIZE ∨ etext ≤ va < RAMEND)
  | Fetch => bool_decide (KERNEL_START ≤ va < etext ∨ TRAMPOLINE ≤ va)
  end.

Lemma page_of_bounds va lo up :
  page_aligned lo → page_aligned up → lo ≤ page_of va < up ↔ lo ≤ va < up.
Proof.
  intros Hlo Hup. pose proof (page_of_range va).
  destruct (page_aligned_diff (page_of va) lo) as [i Hi]; [apply page_of_aligned|done|].
  pose proof (page_of_lt_iff va up Hup). unfold page_size in *. lia.
Qed.

Lemma kernel_access s rt tabs F e k sum va :
  pt_rep s rt tabs F e → e !! page_of va = kernel_entries !! page_of va → is_u32 va →
  sv32_access (m_mem s) (satp_of rt) false sum k va =
    if kernel_may k va then kernel_pa va else None.
Proof.
  intros Hrep He Hva. pose proof etext_aligned as Hea. pose proof text_after_start as Hts.
  pose proof etext_before_ekernel. pose proof ekernel_before_end.
  assert (page_aligned RAMEND ∧ page_aligned KERNEL_START ∧ page_aligned TRAMPOLINE ∧ page_aligned UART)
    as (Hre & Hks & Htr & Hua) by done.
  pose proof (kernel_entries_lookup (page_of va) (page_of_aligned va)) as Hl. rewrite <- He in Hl.
  pose proof (page_of_bounds va etext RAMEND Hea Hre) as B1.
  pose proof (page_of_bounds va KERNEL_START etext Hks Hea) as B2.
  pose proof (page_of_eq_iff va TRAMPOLINE Htr) as B3.
  pose proof (page_of_eq_iff va UART Hua) as B4.
  assert (va mod page_size = va - page_of va) as Hoff by (unfold page_of; lia).
  assert (PAGESIZE = page_size ∧ TRAMPOLINE + 2 * page_size = U32 ∧ RAMEND < TRAMPOLINE ∧ UART + page_size < KERNEL_START)
    as (HPS & HT & HRT & HUK) by done.
  unfold kernel_pa. rewrite HPS. unfold is_u32 in Hva.
  destruct (decide (page_of va = TRAMPOLINE)) as [HtT|HtT];
    [|destruct (decide (etext ≤ page_of va < RAMEND)) as [HtD|HtD];
      [|destruct (decide (KERNEL_START ≤ page_of va < etext)) as [HtX|HtX];
        [|destruct (decide (page_of va = UART)) as [HtU|HtU]]]];
    [rewrite (sv32_access_some _ _ _ _ _ _ _ _ _ _ _ Hrep Hva Hl) by by left..|
     rewrite (sv32_access_none _ _ _ _ _ _ _ _ _ Hrep Hva Hl)];
    unfold kernel_may; rewrite ?HPS; (destruct k; cbn [access_bit];
      repeat match goal with |- context [Z.testbit ?a ?b] =>
        let r := eval vm_compute in (Z.testbit a b) in change (Z.testbit a b) with r end;
      cbn [andb orb negb]; repeat first [case_bool_decide | case_decide];
      first [done | lia | f_equal; lia | exfalso; lia]).
Qed.

(** C21. The kernel runs identity-mapped with write-xor-execute: after [Kvm::init]
    and [start_kvm] every supervisor access through satp goes to its own address on
    the UART page and in RAM and to the trampoline's frame at the top, and faults
    elsewhere; the text can be fetched but not written, the rest of RAM and the UART
    written but not fetched; user mode can reach none of it.  Setting it up takes at
    most 19 frames. *)
Theorem kvm_identity s :
  mach_ok s → (size (live s) + 19 < capacity s)%nat →
  wp boot_kvm (λ r s', (∃ k, r = Some k) ∧
    (size (live s') ≤ size (live s) + 19)%nat ∧
    (∀ k sum va, is_u32 va →
       sv32_access (m_mem s') (m_csr s' satp) false sum k va =
         if kernel_may k va then kernel_pa va else None) ∧
    (∀ k sum va, is_u32 va → sv32_access (m_mem s') (m_csr s' satp) true sum k va = None)) s.
Proof.
  intros Hok Hroom. unfold boot_kvm. apply wp_bind, Kvm_init_spec; [done..|].
  intros rt tabs s1 Hrep Ht Hq Hag. apply wp_bind, start_kvm_spec, wp_ret.
  change (usize_from_SATP (mkSATP 1 0 (shr32 _ 12))) with (satp_of rt).
  cbn [m_mem m_csr set_csr]. rewrite csr_set_eq. split; [by eexists|]. split_and!.
  - change (live (set_csr _ s1)) with (live s1). pose proof (kernel_live _ _ _ _ _ Hrep Ht). lia.
  - intros k sum va Hva. by eapply kernel_access.
  - intros k sum va Hva. pose proof (kernel_entries_lookup (page_of va) (page_of_aligned va)) as Hl.
    repeat case_decide;
      [rewrite (sv32_access_some _ _ _ _ _ _ _ _ _ _ _ Hrep Hva Hl) by by left..|
       by rewrite (sv32_access_none _ _ _ _ _ _ _ _ _ Hrep Hva Hl)];
      (by rewrite andb_false_r).
Qed.

(** The pages above a program, through the kernel's table and through the process's. *)
Lemma high_translations s rk tabsk Fk e u tabs F pages t va :
  pt_rep s rk tabsk Fk e → e !! TRAMPOLINE = kernel_entries !! TRAMPOLINE →
  uvm_rep s u tabs F pages (high t) → TRAPFRAME ≤ va < TRAMPOLINE + PAGESIZE →
  (TRAMPOLINE ≤ va → ∀ sum,
     sv32_access (m_mem s) (satp_of rk) false sum Fetch va = Some (trampoline + (va - TRAMPOLINE)) ∧
     sv32_access (m_mem s) (usize_from_SATP (get_satp u)) false sum Fetch va =
       Some (trampoline + (va - TRAMPOLINE))) ∧
  (va < TRAMPOLINE → ∀ sum k, k ≠ Fetch →
     sv32_access (m_mem s) (usize_from_SATP (get_satp u)) false sum k va =
       Some (t + (va - TRAPFRAME))) ∧
  (∀ sum k, sv32_access (m_mem s) (usize_from_SATP (get_satp u)) true sum k va = None).
Proof.
  intros Hk He Hu Hva. change (usize_from_SATP (get_satp u)) with (satp_of (root (uvm_pagetable u))).
  assert (TRAPFRAME + page_size = TRAMPOLINE ∧ PAGESIZE = page_size ∧ TRAMPOLINE + 2 * page_size = U32 ∧ 0 ≤ TRAPFRAME)
    as (HT & HP & HU & HF) by done.
  assert (page_aligned TRAMPOLINE ∧ page_aligned TRAPFRAME) as [Hta Htf] by done.
  assert (is_u32 va) as Hvu by (unfold is_u32, page_size in *; lia).
  pose proof (ur_pt _ _ _ _ _ _ Hu) as Hrep.
  assert (∀ a x, high t !! a = Some x → (pages ∪ high t) !! a = Some x) as Hhigh.
  { intros a x Hx. apply lookup_union_Some_raw. right. split; [|done].
    eapply uvm_end_free; [done|]. destruct (ur_hi _ _ _ _ _ _ Hu _ _ Hx) as [[-> | ->] _];
    destruct (ur_size _ _ _ _ _ _ Hu) as (_ & _ & Hle); unfold page_size in *; lia. }
  destruct (decide (TRAMPOLINE ≤ va)) as [Hhi|Hlo].
  - assert (page_of va = TRAMPOLINE) as Hp by (apply page_of_inside; [done|lia]).
    assert (va mod page_size = va - TRAMPOLINE) as Hoff by (unfold page_of in Hp; lia).
    assert ((pages ∪ high t) !! page_of va = Some (trampoline, Z.lor PTE_R PTE_X)) as Hx.
    { rewrite Hp. by apply Hhigh. }
    split_and!; [|lia|].
    + intros _ sum. rewrite (kernel_access _ _ _ _ _ _ _ _ Hk) by (by rewrite ?Hp). unfold kernel_may, kernel_pa.
      rewrite bool_decide_eq_true_2, decide_True by lia. split; [done|].
      rewrite (sv32_access_some _ _ _ _ _ _ _ _ _ _ _ Hrep Hvu Hx) by by left.
      rewrite Hoff. done.
    + intros sum k. rewrite (sv32_access_some _ _ _ _ _ _ _ _ _ _ _ Hrep Hvu Hx) by by left.
      by rewrite andb_false_r.
  - assert (page_of va = TRAPFRAME) as Hp by (apply page_of_inside; [done|lia]).
    assert (va mod page_size = va - TRAPFRAME) as Hoff by (unfold page_of in Hp; lia).
    assert ((pages ∪ high t) !! page_of va = Some (t, Z.lor PTE_R PTE_W)) as Hx.
    { rewrite Hp. by apply Hhigh. }
    split_and!; [lia| |].
    + intros _ sum k Hk'. rewrite (sv32_access_some _ _ _ _ _ _ _ _ _ _ _ Hrep Hvu Hx) by by left.
      rewrite Hoff. by destruct k.
    + intros sum k. rewrite (sv32_access_some _ _ _ _ _ _ _ _ _ _ _ Hrep Hvu Hx) by by left.
      by rewrite andb_false_r.
Qed.
End properties.

(** ** Witnesses, on the example machine *)

#[local] Existing Instance simple_env.
#[local] Existing Instance simple_laws.

Lemma kvm_identity_witness :
  wp boot_kvm (λ r s, ∃ k, r = Some k) boot_machine.
Proof.
  eapply wp_mono; [apply (kvm_identity boot_machine boot_ok); by apply Nat.leb_le|].
  by intros r s [? _].
Defined.
