(* ===== verification/Asm.v ===== *)
(** The assembly of the kernel: the context switch (src/kernel/src/process.rs),
    the kernel trap vector (src/kernel/src/trap.rs) and the trampoline
    (src/kernel/src/trap/trampoline.rs), as instruction lists with the semantics
    of the RV32 instructions they use.  Loads and stores go through address
    translation under the hart's satp. *)
From S2P Require Export Trapframe KernelProps.

(** ** Instructions *)

Inductive reg :=
  | zero | ra | sp | gp | tp
  | t0 | t1 | t2 | t3 | t4 | t5 | t6
  | s0 | s1 | s2 | s3 | s4 | s5 | s6 | s7 | s8 | s9 | s10 | s11
  | a0 | a1 | a2 | a3 | a4 | a5 | a6 | a7.

#[export] Instance reg_eq_dec : EqDecision reg.
Proof. solve_decision. Defined.

(** [Jalr r link] jumps to the address in [r] and leaves [link], the address of the
    next instruction, in [ra]; [Call f link] and [J f] jump to a symbol. *)
Inductive instr :=
  | Sw (src : reg) (off : Z) (base : reg)
  | Lw (dst : reg) (off : Z) (base : reg)
  | Li (dst : reg) (imm : Z)
  | Addi (dst src : reg) (imm : Z)
  | Csrw (c : csr_name) (src : reg)
  | Csrr (dst : reg) (c : csr_name)
  | Sfence_vma
  | Jalr (r : reg) (link : Z)
  | Call (f link : Z)
  | J (f : Z)
  | Ret
  | Sret.

Section hart.
Context {E : Env}.

(** A hart: its registers, its program counter, whether it is in user mode, and
    the machine around it. *)
Record Hart := mkHart {
  h_regs : reg → Z;
  h_pc : Z;
  h_user : bool;
  h_m : Machine;
}.

Definition rget (h : Hart) (r : reg) : Z := if decide (r = zero) then 0 else h_regs h r.
Definition rset (r : reg) (v : Z) (h : Hart) : Hart :=
  mkHart (λ r', if decide (r' = r) then v else h_regs h r') (h_pc h) (h_user h) (h_m h).
Definition set_m (m : Machine) (h : Hart) : Hart := mkHart (h_regs h) (h_pc h) (h_user h) m.
Definition set_pc (pc : Z) (h : Hart) : Hart := mkHart (h_regs h) pc (h_user h) (h_m h).

Definition SUM (h : Hart) : bool := Z.testbit (m_csr (h_m h) sstatus) 18.

(** The physical address of a word access, if it is translated, aligned and in RAM. *)
Definition word_pa (h : Hart) (k : access) (va : Z) : option Z :=
  match sv32_access (m_mem (h_m h)) (m_csr (h_m h) satp) (h_user h) (SUM h) k va with
  | Some pa => if decide (in_ram pa 4 ∧ pa mod 4 = 0) then Some pa else None
  | None => None
  end.

(** [sret]: back to the mode and the interrupt state saved in sstatus. *)
Definition sret_sstatus (w : Z) : Z :=
  let spie := Z.testbit w 5 in
  let w := Z.land w (not32 (Z.lor SSTATUS_SPP (Z.lor SSTATUS_SPIE SSTATUS_SIE))) in
  Z.lor w (Z.lor SSTATUS_SPIE (if spie then SSTATUS_SIE else 0)).

Definition exec (i : instr) (h : Hart) : option Hart :=
  match i with
  | Sw src off base =>
      match word_pa h Store (wrap32 (rget h base + off)) with
      | Some pa => Some (set_m (set_mem (st32 (m_mem (h_m h)) pa (rget h src)) (h_m h)) h)
      | None => None
      end
  | Lw dst off base =>
      match word_pa h Load (wrap32 (rget h base + off)) with
      | Some pa => Some (rset dst (ld32 (m_mem (h_m h)) pa) h)
      | None => None
      end
  | Li dst imm => Some (rset dst imm h)
  | Addi dst src imm => Some (rset dst (wrap32 (rget h src + imm)) h)
  | Csrw c src => Some (set_m (set_csr (csr_set (m_csr (h_m h)) c (rget h src)) (h_m h)) h)
  | Csrr dst c => Some (rset dst (m_csr (h_m h) c) h)
  | Sfence_vma => Some h
  | Jalr r link => Some (set_pc (rget h r) (rset ra link h))
  | Call f link => Some (set_pc f (rset ra link h))
  | J f => Some (set_pc f h)
  | Ret => Some (set_pc (rget h ra) h)
  | Sret =>
      let w := m_csr (h_m h) sstatus in
      Some (mkHart (h_regs h) (m_csr (h_m h) sepc) (negb (Z.testbit w 8))
        (set_csr (csr_set (m_csr (h_m h)) sstatus (sret_sstatus w)) (h_m h)))
  end.

Fixpoint run (code : list instr) (h : Hart) : option Hart :=
  match code with
  | [] => Some h
  | i :: code => match exec i h with Some h => run code h | None => None end
  end.
End hart.

(** ** The code *)

(** [_entry], where the hart starts: the boot stack, and [main]; [park] is where [main]
    would return to. *)
Definition entry_code (stack_ptr main park : Z) : list instr := [Li sp stack_ptr; Call main park].
Definition park_code (park : Z) : list instr := [J park].

(** [switch(from, to)]: [a0] and [a1] point to the two contexts. *)
Definition switch_code : list instr :=
  [Sw ra 0 a0; Sw sp 4 a0; Sw s0 8 a0; Sw s1 12 a0; Sw s2 16 a0; Sw s3 20 a0; Sw s4 24 a0;
   Sw s5 28 a0; Sw s6 32 a0; Sw s7 36 a0; Sw s8 40 a0; Sw s9 44 a0; Sw s10 48 a0; Sw s11 52 a0;
   Lw ra 0 a1; Lw sp 4 a1; Lw s0 8 a1; Lw s1 12 a1; Lw s2 16 a1; Lw s3 20 a1; Lw s4 24 a1;
   Lw s5 28 a1; Lw s6 32 a1; Lw s7 36 a1; Lw s8 40 a1; Lw s9 44 a1; Lw s10 48 a1; Lw s11 52 a1;
   Ret].

(** [kernelvec]: the registers a call may clobber go to the interrupted stack.
    [kerneltrap] and [link] are code addresses. *)
Definition kernelvec_save : list instr :=
  [Addi sp sp (-128);
   Sw ra 0 sp; Sw gp 8 sp; Sw tp 12 sp; Sw t0 16 sp; Sw t1 20 sp; Sw t2 24 sp;
   Sw a0 36 sp; Sw a1 40 sp; Sw a2 44 sp; Sw a3 48 sp; Sw a4 52 sp; Sw a5 56 sp; Sw a6 60 sp;
   Sw a7 64 sp; Sw t3 108 sp; Sw t4 112 sp; Sw t5 116 sp; Sw t6 120 sp].
Definition kernelvec_restore : list instr :=
  [Lw ra 0 sp; Lw gp 8 sp; Lw t0 16 sp; Lw t1 20 sp; Lw t2 24 sp;
   Lw a0 36 sp; Lw a1 40 sp; Lw a2 44 sp; Lw a3 48 sp; Lw a4 52 sp; Lw a5 56 sp; Lw a6 60 sp;
   Lw a7 64 sp; Lw t3 108 sp; Lw t4 112 sp; Lw t5 116 sp; Lw t6 120 sp;
   Addi sp sp 128;
   Sret].
Definition kernelvec_call (kerneltrap link : Z) : list instr :=
  kernelvec_save ++ [Call kerneltrap link].

(** [uservec], up to the call of [usertrap]; [link] is where that returns to. *)
Definition uservec_code (link : Z) : list instr :=
  [Csrw sscratch a0; Li a0 TRAPFRAME;
   Sw ra 20 a0; Sw sp 24 a0; Sw gp 28 a0; Sw tp 32 a0; Sw t0 36 a0; Sw t1 40 a0; Sw t2 44 a0;
   Sw s0 48 a0; Sw s1 52 a0; Sw a1 60 a0; Sw a2 64 a0; Sw a3 68 a0; Sw a4 72 a0; Sw a5 76 a0;
   Sw a6 80 a0; Sw a7 84 a0; Sw s2 88 a0; Sw s3 92 a0; Sw s4 96 a0; Sw s5 100 a0; Sw s6 104 a0;
   Sw s7 108 a0; Sw s8 112 a0; Sw s9 116 a0; Sw s10 120 a0; Sw s11 124 a0; Sw t3 128 a0;
   Sw t4 132 a0; Sw t5 136 a0; Sw t6 140 a0;
   Csrr t0 sscratch; Sw t0 56 a0;
   Lw sp 4 a0; Lw tp 16 a0; Lw t0 8 a0; Lw t1 0 a0;
   Sfence_vma; Csrw satp t1; Sfence_vma;
   Jalr t0 link].

(** [userret(satp)]. *)
Definition userret_code : list instr :=
  [Sfence_vma; Csrw satp a0; Sfence_vma; Li a0 TRAPFRAME;
   Lw ra 20 a0; Lw sp 24 a0; Lw gp 28 a0; Lw tp 32 a0; Lw t0 36 a0; Lw t1 40 a0; Lw t2 44 a0;
   Lw s0 48 a0; Lw s1 52 a0; Lw a1 60 a0; Lw a2 64 a0; Lw a3 68 a0; Lw a4 72 a0; Lw a5 76 a0;
   Lw a6 80 a0; Lw a7 84 a0; Lw s2 88 a0; Lw s3 92 a0; Lw s4 96 a0; Lw s5 100 a0; Lw s6 104 a0;
   Lw s7 108 a0; Lw s8 112 a0; Lw s9 116 a0; Lw s10 120 a0; Lw s11 124 a0; Lw t3 128 a0;
   Lw t4 132 a0; Lw t5 136 a0; Lw t6 140 a0;
   Lw a0 56 a0;
   Sret].
