(* ===== verification/AsmSpec.v ===== *)
(** What the assembly routines do: every register a routine saves is found again,
    in the frame the Rust code reads, and nothing else changes. *)
From S2P Require Export Asm.

(** ** Runs of stores and loads *)

(** Words stored at offsets from a base. *)
Fixpoint put_words (m : mem) (b : Z) (l : list (Z * Z)) : mem :=
  match l with
  | [] => m
  | (o, v) :: l => put_words (st32 m (b + o) v) b l
  end.

(** Offsets of distinct words. *)
Definition word_offsets (l : list Z) : Prop := NoDup l ∧ Forall (λ o, o mod 4 = 0) l.

Lemma word_apart o o' : o mod 4 = 0 → o' mod 4 = 0 → o ≠ o' → o + 4 ≤ o' ∨ o' + 4 ≤ o.
Proof. intros. Z.div_mod_to_equations. lia. Qed.

Lemma put_words_other m b l o :
  o mod 4 = 0 → Forall (λ x, x mod 4 = 0) l.*1 → o ∉ l.*1 →
  ld32 (put_words m b l) (b + o) = ld32 m (b + o).
Proof.
  revert m. induction l as [|[o' v] l IH]; intros m Ho Hal Hin; [done|].
  cbn [put_words fmap list_fmap fst] in *. apply Forall_cons in Hal as [Ho' Hal].
  apply not_elem_of_cons in Hin as [Hne Hin].
  rewrite IH by done. apply ld32_st32_other.
  destruct (word_apart o o' Ho Ho' Hne); lia.
Qed.

Lemma put_words_in m b l o v :
  word_offsets l.*1 → (o, v) ∈ l → is_u32 v → ld32 (put_words m b l) (b + o) = v.
Proof.
  revert m. induction l as [|[o' v'] l IH]; intros m [Hnd Hal] Hin Hv; [by apply elem_of_nil in Hin|].
  cbn [put_words fmap list_fmap fst] in *. apply NoDup_cons in Hnd as [Hno Hnd].
  apply Forall_cons in Hal as [Ho' Hal].
  apply elem_of_cons in Hin as [[= <- <-]|Hin].
  - rewrite put_words_other by done. by apply ld32_st32_same.
  - by apply IH.
Qed.

Lemma put_words_outside m b l a :
  (∀ o, o ∈ l.*1 → a < b + o ∨ b + o + 4 ≤ a) → ld8 (put_words m b l) a = ld8 m a.
Proof.
  revert m. induction l as [|[o v] l IH]; intros m Ha; [done|]. cbn [put_words fmap list_fmap fst] in *.
  rewrite IH by (intros o' Ho'; apply Ha; by right). apply ld8_st32_other. apply Ha. by left.
Qed.

Section spec.
Context {E : Env} {EL : EnvLaws E}.
Implicit Types (h : Hart).

(** [n] bytes of virtual memory at [v] mapped to [p], which word accesses from
    supervisor mode may read and write. *)
Definition window h (v p n : Z) : Prop :=
  ∀ k o, k ≠ Fetch → 0 ≤ o → o + 4 ≤ n → o mod 4 = 0 →
    word_pa h k (v + o) = Some (p + o).

(** The stores of the registers [l] (register and offset) from the base [b]. *)
Definition stores (b : reg) (l : list (reg * Z)) : list instr := (λ x, Sw x.1 x.2 b) <$> l.
Definition loads (b : reg) (l : list (reg * Z)) : list instr := (λ x, Lw x.1 x.2 b) <$> l.

(** The machine with other memory. *)
Definition with_mem (m : mem) h : Hart := set_m (set_mem m (h_m h)) h.

(** A window that no write to the [n] bytes at [p] closes. *)
Definition stable_window h (v p n : Z) : Prop :=
  ∀ m, (∀ a, a < p ∨ p + n ≤ a → ld8 m a = ld8 (m_mem (h_m h)) a) → window (with_mem m h) v p n.

Lemma with_mem_same h : with_mem (m_mem (h_m h)) h = h.
Proof. by destruct h as [? ? ? []]. Qed.

Lemma stable_window_now h v p n : stable_window h v p n → window h v p n.
Proof. intros H. rewrite <- (with_mem_same h). by apply H. Qed.

Definition field_offsets (n : Z) (l : list Z) : Prop :=
  Forall (λ o, 0 ≤ o ∧ o + 4 ≤ n ∧ o mod 4 = 0) l.

Lemma run_stores l rest b v p n h :
  stable_window h v p n → rget h b = v → is_u32 v → v + n ≤ U32 → field_offsets n l.*2 →
  run (stores b l ++ rest) h =
    run rest (with_mem (put_words (m_mem (h_m h)) p ((λ x, (x.2, rget h x.1)) <$> l)) h).
Proof.
  intros Hw Hb Hv Hov Hl. revert h Hw Hb. induction l as [|[r o] l IH]; intros h Hw Hb.
  { cbn. by rewrite with_mem_same. }
  cbn [stores fmap list_fmap app fst snd run exec put_words] in *.
  apply Forall_cons in Hl as [(Ho1 & Ho2 & Ho3) Hl].
  rewrite Hb. replace (wrap32 (v + o)) with (v + o).
  2: { symmetry. apply wrap32_small. unfold is_u32 in *. lia. }
  rewrite (stable_window_now _ _ _ _ Hw) by done.
  set (h' := set_m _ h). fold (stores b l). rewrite (IH Hl h'); [done| |done].
  intros m Hm. apply Hw. intros a Ha. rewrite Hm by done. apply ld8_st32_other. lia.
Qed.

(** Loads: each register gets the word at its offset. *)
Fixpoint loaded (l : list (reg * Z)) (p : Z) h : Hart :=
  match l with
  | [] => h
  | x :: l => loaded l p (rset x.1 (ld32 (m_mem (h_m h)) (p + x.2)) h)
  end.

Lemma run_loads l rest b v p n h :
  window h v p n → rget h b = v → b ≠ zero → is_u32 v → v + n ≤ U32 →
  field_offsets n l.*2 → b ∉ l.*1 →
  run (loads b l ++ rest) h =
    run rest (loaded l p h).
Proof.
  intros Hw Hb Hbz Hv Hov Hl Hnb. revert h Hw Hb. induction l as [|[r o] l IH]; intros h Hw Hb.
  { done. }
  cbn [loads fmap list_fmap app fst snd run exec loaded] in *.
  apply Forall_cons in Hl as [(Ho1 & Ho2 & Ho3) Hl]. apply not_elem_of_cons in Hnb as [Hbr Hnb].
  rewrite Hb. replace (wrap32 (v + o)) with (v + o).
  2: { symmetry. apply wrap32_small. unfold is_u32 in *. lia. }
  rewrite Hw by done. fold (loads b l). rewrite IH; try done.
  unfold rget, rset. cbn. rewrite decide_False by done. rewrite decide_False by done.
  unfold rget in Hb. by rewrite decide_False in Hb by done.
Qed.

Lemma loaded_regs l p h r :
  NoDup l.*1 → zero ∉ l.*1 →
  h_m (loaded l p h) = h_m h ∧ h_user (loaded l p h) = h_user h ∧
  h_pc (loaded l p h) = h_pc h ∧
  (∀ o, (r, o) ∈ l → rget (loaded l p h) r = ld32 (m_mem (h_m h)) (p + o)) ∧
  (r ∉ l.*1 → rget (loaded l p h) r = rget h r).
Proof.
  revert h. induction l as [|[r' o'] l IH]; intros h Hnd Hz; cbn [foldl].
  { split_and!; try done. intros o Ho. by apply elem_of_nil in Ho. }
  cbn [fmap list_fmap fst] in *. apply NoDup_cons in Hnd as [Hn Hnd].
  apply not_elem_of_cons in Hz as [Hz1 Hz2].
  change (loaded ((r', o') :: l) p h) with (loaded l p (rset r' (ld32 (m_mem (h_m h)) (p + o')) h)).
  destruct (IH (rset r' (ld32 (m_mem (h_m h)) (p + o')) h) Hnd Hz2) as (H1 & H2 & H3 & H4 & H5).
  split_and!; [done..| |].
  - intros o [[= <- <-]|Ho]%elem_of_cons; [|by apply H4].
    rewrite H5 by done. unfold rget, rset. cbn. rewrite decide_False, decide_True by done. done.
  - intros [Hr Hrl]%not_elem_of_cons. rewrite H5 by done. unfold rget, rset. cbn.
    case_decide; [done|]. by rewrite decide_False.
Qed.

(** ** Windows through a page table *)

(** Bytes that can be written without touching the page table at [rt] or the
    heap's own memory. *)
Definition writable s (rt : Z) tabs (p n : Z) : Prop :=
  ∀ a, p ≤ a < p + n → (page_of a ∉ pt_pages rt tabs) ∧ (page_of a ∈ live s ∨ ¬ heap_area a).

Lemma rep_write s rt tabs F e p n m :
  pt_rep s rt tabs F e → writable s rt tabs p n →
  (∀ a, a < p ∨ p + n ≤ a → ld8 m a = ld8 (m_mem s) a) → pt_rep (set_mem m s) rt tabs F e.
Proof.
  intros [Hown Htr Hok] Hw Hm. pose proof Hown as [Hmok Hwf Hd Hl].
  assert (∀ a, page_of a ∈ pt_pages rt tabs → ld8 m a = ld8 (m_mem s) a) as Hpt.
  { intros a Ha. apply Hm. destruct (decide (a < p)); [by left|right].
    destruct (decide (p + n ≤ a)); [done|]. exfalso. by apply (Hw a); [lia|]. }
  assert (mach_ok (set_mem m s)) as Hmok'.
  { apply mach_ok_write; [done|]. intros a Ha Hnl. apply Hm.
    destruct (decide (a < p)); [by left|right]. destruct (decide (p + n ≤ a)); [done|].
    exfalso. destruct (Hw a) as [_ [?|?]]; [lia|done|done]. }
  split; [split|..]; try done.
  - eapply pt_wf_ext; [|done]. intros a Ha. apply Hpt. rewrite Ha. apply elem_of_pt_pages. by left.
  - intros va Hva. specialize (Htr va Hva). cbn [m_mem set_mem].
    rewrite (pt_lookup_ext (m_mem s) m rt); [done|done|done|].
    intros t a Ht Ha. apply Hpt. rewrite Ha. unfold pt_pages. set_solver +Ht.
Qed.

(** Supervisor mode with the table at [rt] installed. *)
Definition in_kernel h (rt : Z) : Prop := h_user h = false ∧ m_csr (h_m h) satp = satp_of rt.

(** One page of a table, readable and writable from supervisor mode. *)
Lemma entry_window h rt tabs F e v p perm :
  pt_rep (h_m h) rt tabs F e → in_kernel h rt → e !! v = Some (p, perm) →
  Z.testbit perm 1 = true → Z.testbit perm 2 = true → Z.testbit perm 4 = false →
  p ∈ F → frame_ok p → stable_window h v p page_size.
Proof.
  intros Hrep [Hus Hsatp] Hx H1 H2 H4 HpF Hp m Hm k o Hk Ho1 Ho2 Ho3.
  destruct (pr_ok _ _ _ _ _ Hrep _ _ Hx) as (Hva & Hvu & _ & Hpu & Hperm).
  pose proof (pt_rep_disj _ _ _ _ _ Hrep) as Hd. pose proof (pt_rep_live _ _ _ _ _ Hrep) as Hl.
  assert (pt_rep (set_mem m (h_m h)) rt tabs F e) as Hrep'.
  { eapply rep_write; [exact Hrep| |exact Hm]. intros a Ha.
    rewrite (page_of_inside p a) by (done || apply Hp). rewrite Hl. set_solver +Hd HpF. }
  assert (page_of (v + o) = v) as Hpage by (apply page_of_add; [done|lia]).
  assert (is_u32 (v + o)) as Hvo.
  { unfold is_u32, U32, page_aligned, page_size in *. Z.div_mod_to_equations. lia. }
  assert ((v + o) mod page_size = o) as Hoff by (unfold page_of in Hpage; lia).
  unfold word_pa, with_mem, SUM. cbn [h_m h_user set_m m_csr set_mem m_mem]. rewrite Hus, Hsatp.
  assert (e !! page_of (v + o) = Some (p, perm)) as Hx' by by rewrite Hpage.
  change m with (m_mem (set_mem m (h_m h))).
  rewrite (sv32_access_some _ _ _ _ _ _ _ _ _ _ _ Hrep' Hvo Hx') by by left.
  rewrite H4, Hoff.
  assert (Z.testbit perm (access_bit k) = true) as -> by (by destruct k). cbn [negb orb andb].
  rewrite decide_True; [done|]. split; [apply frame_ok_in_ram; (done || lia)|].
  destruct Hp as [Hp _]. unfold page_aligned, page_size in *. Z.div_mod_to_equations. lia.
Qed.

(** Kernel memory, through the kernel's own table. *)
Lemma kernel_window h rk tabs F p n :
  pt_rep (h_m h) rk tabs F kernel_entries → in_kernel h rk → writable (h_m h) rk tabs p n →
  etext ≤ p → p + n ≤ RAMEND → p mod 4 = 0 → stable_window h p p n.
Proof.
  intros Hrep [Hus Hsatp] Hw Hlo Hhi Hal m Hm k o Hk Ho1 Ho2 Ho3.
  pose proof text_after_start as Hts.
  assert (RAMEND < TRAMPOLINE ∧ TRAMPOLINE < U32 ∧ 0 ≤ KERNEL_START ∧ RAMSTART = KERNEL_START) as (HR & HT & HK & HRS) by done.
  pose proof (rep_write _ _ _ _ _ _ _ _ Hrep Hw Hm) as Hrep'.
  unfold word_pa, with_mem, SUM. cbn [h_m h_user set_m m_csr set_mem m_mem]. rewrite Hus, Hsatp.
  change m with (m_mem (set_mem m (h_m h))).
  rewrite (kernel_access _ _ _ _ _ _ _ _ Hrep') by (done || (unfold is_u32; lia)).
  assert (kernel_may k (p + o) = true) as ->.
  { destruct k; [done| |done]. apply bool_decide_eq_true_2. lia. }
  unfold kernel_pa. rewrite decide_False by lia. rewrite decide_True by lia.
  rewrite decide_True; [done|]. split; [unfold in_ram; lia|]. Z.div_mod_to_equations. lia.
Qed.

End spec.

(** ** The context switch *)

(** The registers of a [Context], in the order of its fields. *)
Definition context_regs : list (reg * Z) :=
  [(ra, 0); (sp, 4); (s0, 8); (s1, 12); (s2, 16); (s3, 20); (s4, 24); (s5, 28); (s6, 32);
   (s7, 36); (s8, 40); (s9, 44); (s10, 48); (s11, 52)].

Lemma switch_code_eq : switch_code = stores a0 context_regs ++ loads a1 context_regs ++ [Ret].
Proof. done. Qed.

Section routines.
Context {E : Env} {EL : EnvLaws E}.
Implicit Types (h : Hart).

Lemma fst_stores h (l : list (reg * Z)) : ((λ x, (x.2, rget h x.1)) <$> l).*1 = l.*2.
Proof. rewrite <- list_fmap_compose. by apply list_fmap_ext. Qed.

(** A context record in kernel memory. *)
Definition context_at h (rk : Z) tabs (p : Z) : Prop :=
  writable (h_m h) rk tabs p 56 ∧ etext ≤ p ∧ p + 56 ≤ RAMEND ∧ p mod 4 = 0.

Lemma context_offsets : word_offsets context_regs.*2 ∧ field_offsets 56 context_regs.*2 ∧
  NoDup context_regs.*1.
Proof.
  unfold word_offsets, field_offsets. by apply (bool_decide_unpack _).
Qed.

Lemma put_words_bounds m b l n a :
  field_offsets n l.*1 → a < b ∨ b + n ≤ a → ld8 (put_words m b l) a = ld8 m a.
Proof.
  intros Hl Ha. apply put_words_outside. intros o Ho.
  unfold field_offsets in Hl. rewrite Forall_forall in Hl. destruct (Hl o Ho) as (? & ? & _). lia.
Qed.

(** What [switch] does to a hart: the old values of the saved registers are in the
    context at [from], their new ones come from the context at [to]. *)
Definition switched h (from to : Z) h' : Prop :=
  (∀ r o, (r, o) ∈ context_regs →
     ld32 (m_mem (h_m h')) (from + o) = rget h r ∧
     rget h' r = ld32 (m_mem (h_m h)) (to + o)) ∧
  h_pc h' = ld32 (m_mem (h_m h)) to ∧
  (∀ r, r ∉ context_regs.*1 → rget h' r = rget h r) ∧
  (∃ m, h_m h' = set_mem m (h_m h) ∧
     ∀ a, a < from ∨ from + 56 ≤ a → ld8 m a = ld8 (m_mem (h_m h)) a) ∧
  h_user h' = h_user h.

Lemma run_switch h rk tabs F from to :
  pt_rep (h_m h) rk tabs F kernel_entries → in_kernel h rk →
  rget h a0 = from → rget h a1 = to → context_at h rk tabs from → context_at h rk tabs to →
  from + 56 ≤ to ∨ to + 56 ≤ from → (∀ r, is_u32 (rget h r)) →
  ∃ h', run switch_code h = Some h' ∧ switched h from to h'.
Proof.
  intros Hrep Hk Ha0 Ha1 (Hw & Hlo & Hhi & Hal) (Hw' & Hlo' & Hhi' & Hal') Hdis Hregs.
  pose proof text_after_start as Hts. assert (RAMEND < U32 ∧ 0 ≤ KERNEL_START) as [HR HK] by done.
  destruct context_offsets as (Hoff & Hfld & Hnd).
  rewrite switch_code_eq.
  rewrite (run_stores _ _ _ from from 56);
    [|by eapply kernel_window|exact Ha0|unfold is_u32; lia|lia|exact Hfld].
  set (m := put_words _ _ _).
  assert (∀ a, a < from ∨ from + 56 ≤ a → ld8 m a = ld8 (m_mem (h_m h)) a) as Hm.
  { intros a Ha. apply put_words_bounds with 56; [by rewrite fst_stores|done]. }
  assert (pt_rep (set_mem m (h_m h)) rk tabs F kernel_entries) as Hrep'.
  { eapply rep_write; [exact Hrep|exact Hw|exact Hm]. }
  assert (window (with_mem m h) to to 56) as Hwin.
  { apply stable_window_now. eapply kernel_window; done. }
  rewrite (run_loads _ _ _ to to 56); [|exact Hwin|exact Ha1|done|unfold is_u32; lia|lia|exact Hfld|].
  2: { by apply (bool_decide_unpack _). }
  assert (zero ∉ context_regs.*1) as Hz by by apply (bool_decide_unpack _).
  set (h' := loaded _ _ _).
  assert (h_m h' = set_mem m (h_m h)) as Hm' by apply (loaded_regs context_regs to (with_mem m h) ra Hnd Hz).
  assert (h_user h' = h_user h) as Hu' by apply (loaded_regs context_regs to (with_mem m h) ra Hnd Hz).
  assert (∀ a, ld32 m (to + a) = ld32 (m_mem (h_m h)) (to + a) ∨ ¬ (0 ≤ a ∧ a + 4 ≤ 56)) as Hto.
  { intros a. destruct (decide (0 ≤ a ∧ a + 4 ≤ 56)); [left|by right].
    apply ld32_ext. intros b Hb. apply Hm. lia. }
  assert (∀ r o, (r, o) ∈ context_regs → rget h' r = ld32 (m_mem (h_m h)) (to + o)) as Hld.
  { intros r o Ho. destruct (loaded_regs context_regs to (with_mem m h) r Hnd Hz) as (_ & _ & _ & Hr & _).
    unfold h'. rewrite (Hr o Ho). destruct (Hto o) as [Heq|Hne]; [exact Heq|].
    exfalso. apply Hne. unfold field_offsets in Hfld. rewrite Forall_forall in Hfld.
    assert (o ∈ context_regs.*2) as Hin by (apply list_elem_of_fmap; by exists (r, o)).
    destruct (Hfld o Hin) as (? & ? & _). lia. }
  eexists. split; [reflexivity|]. unfold switched. cbn [h_m h_pc h_user set_pc]. split_and!.
  - intros r o Ho. split; [|by apply Hld]. rewrite Hm'. cbn [m_mem set_mem]. unfold m.
    apply put_words_in; [by rewrite fst_stores| |apply Hregs].
    apply list_elem_of_fmap. by exists (r, o).
  - change (rget h' ra = ld32 (m_mem (h_m h)) to). rewrite (Hld ra 0); [by rewrite Z.add_0_r|].
    by left.
  - intros r Hr. change (rget h' r = rget h r).
    destruct (loaded_regs context_regs to (with_mem m h) r Hnd Hz) as (_ & _ & _ & _ & Hr').
    unfold h'. by rewrite (Hr' Hr).
  - by exists m.
  - done.
Qed.

(** ** The entry *)

(** [_entry] hands the hart to [main] on the boot stack; if [main] returned, the hart
    would stay in [park]. *)
Lemma run_entry stack_ptr main park h :
  ∃ h', run (entry_code stack_ptr main park) h = Some h' ∧ h_pc h' = main ∧ rget h' sp = stack_ptr ∧
    rget h' ra = park ∧ h_m h' = h_m h ∧
    ∃ h2, run (park_code park) (set_pc (rget h' ra) h') = Some h2 ∧ h2 = set_pc park h'.
Proof. eexists. split; [reflexivity|]. split_and!; [done..|]. by eexists. Qed.

(** ** The trampoline *)

(** The user registers and the fields [uservec] keeps them in; [a0] is saved last,
    through sscratch. *)
Definition saved_regs : list (reg * Z) :=
  [(ra, 20); (sp, 24); (gp, 28); (tp, 32); (t0, 36); (t1, 40); (t2, 44); (s0, 48); (s1, 52);
   (a1, 60); (a2, 64); (a3, 68); (a4, 72); (a5, 76); (a6, 80); (a7, 84); (s2, 88); (s3, 92);
   (s4, 96); (s5, 100); (s6, 104); (s7, 108); (s8, 112); (s9, 116); (s10, 120); (s11, 124);
   (t3, 128); (t4, 132); (t5, 136); (t6, 140)].

Lemma uservec_code_eq link : uservec_code link =
  [Csrw sscratch a0; Li a0 TRAPFRAME] ++ stores a0 saved_regs ++
  [Csrr t0 sscratch] ++ stores a0 [(t0, 56)] ++
  loads a0 [(sp, 4); (tp, 16); (t0, 8); (t1, 0)] ++
  [Sfence_vma; Csrw satp t1; Sfence_vma; Jalr t0 link].
Proof. done. Qed.

Lemma userret_code_eq : userret_code =
  [Sfence_vma; Csrw satp a0; Sfence_vma; Li a0 TRAPFRAME] ++
  loads a0 saved_regs ++ [Lw a0 56 a0; Sret].
Proof. done. Qed.

Lemma saved_offsets : word_offsets saved_regs.*2 ∧ field_offsets page_size saved_regs.*2 ∧
  NoDup saved_regs.*1 ∧ (zero ∉ saved_regs.*1) ∧ (a0 ∉ saved_regs.*1).
Proof.
  unfold word_offsets, field_offsets. by apply (bool_decide_unpack _).
Qed.

(** A process trapping or returning: its address space with the trap frame's page. *)
Record process_space h u tabs F pages (t : Z) : Prop := {
  ps_rep : uvm_rep (h_m h) u tabs F pages (high t);
  ps_frame : t ∈ F;
  ps_ok : frame_ok t;
}.

Lemma trapframe_window h u tabs F pages t :
  process_space h u tabs F pages t → in_kernel h (root (uvm_pagetable u)) →
  stable_window h TRAPFRAME t page_size.
Proof.
  intros [Hu HtF Ht] Hk.
  eapply (entry_window h _ tabs _ _ TRAPFRAME t (Z.lor PTE_R PTE_W));
    [apply Hu|done| |done|done|done|set_solver +HtF|done].
  apply lookup_union_Some_raw. right. split; [|unfold high; by rewrite lookup_insert_eq].
  eapply uvm_end_free; [exact Hu|]. by apply (ur_size _ _ _ _ _ _ Hu).
Qed.

(** Windows depend on memory, satp, sstatus and the mode only. *)
Lemma window_ext h h' v p n :
  m_mem (h_m h') = m_mem (h_m h) → m_csr (h_m h') satp = m_csr (h_m h) satp →
  m_csr (h_m h') sstatus = m_csr (h_m h) sstatus → h_user h' = h_user h →
  window h v p n → window h' v p n.
Proof.
  intros H1 H2 H3 H4 Hw k o Hk Ho1 Ho2 Ho3. rewrite <- (Hw k o) by done.
  unfold word_pa, SUM. by rewrite H1, H2, H3, H4.
Qed.

Lemma stable_window_ext h h' v p n :
  (∀ a, a < p ∨ p + n ≤ a → ld8 (m_mem (h_m h')) a = ld8 (m_mem (h_m h)) a) →
  m_csr (h_m h') satp = m_csr (h_m h) satp →
  m_csr (h_m h') sstatus = m_csr (h_m h) sstatus → h_user h' = h_user h →
  stable_window h v p n → stable_window h' v p n.
Proof.
  intros H1 H2 H3 H4 Hw m Hm. eapply (window_ext (with_mem m h)); try done.
  apply Hw. intros a Ha. by rewrite Hm, H1.
Qed.

Lemma uvm_rep_csr f s u tabs F pages hi :
  uvm_rep s u tabs F pages hi → f (Named sstatus) = m_csr s sstatus →
  uvm_rep (set_csr f s) u tabs F pages hi.
Proof.
  intros Hu Hf. pose proof (uvm_rep_disj _ _ _ _ _ _ Hu) as Hd.
  eapply uvm_rep_agree; [exact Hu| |done| |apply Hu|exact (uvm_rep_live _ _ _ _ _ _ Hu)].
  - apply mach_ok_csr; [by eapply uvm_rep_ok|done].
  - set_solver +Hd.
Qed.

(** Writing a frame the address space does not use. *)
Lemma uvm_rep_frame s u tabs F pages hi p m :
  uvm_rep s u tabs F pages hi → p ∈ F → frame_ok p →
  (∀ a, page_of a ≠ p → ld8 m a = ld8 (m_mem s) a) → uvm_rep (set_mem m s) u tabs F pages hi.
Proof.
  intros Hu HpF Hp Hm. pose proof (uvm_rep_disj _ _ _ _ _ _ Hu) as Hd.
  pose proof (uvm_rep_live _ _ _ _ _ _ Hu) as Hl.
  eapply uvm_rep_agree; [exact Hu| | | |apply Hu|done].
  - apply mach_ok_write_frame with p; [by eapply uvm_rep_ok|rewrite Hl; set_solver +HpF|done].
  - eapply agree_write; [exact Hp|set_solver +Hd HpF|done].
  - set_solver +Hd.
Qed.

(** The whole of [uservec]: every user register is in its field of the trap frame,
    the kernel's stack, hart id, page table and handler are taken from it. *)
Definition trapped h (t link : Z) h' : Prop :=
  (∀ r o, (r, o) ∈ (a0, 56) :: saved_regs → ld32 (m_mem (h_m h')) (t + o) = rget h r) ∧
  (∀ o, o ∈ [0; 4; 8; 12; 16] → ld32 (m_mem (h_m h')) (t + o) = ld32 (m_mem (h_m h)) (t + o)) ∧
  rget h' sp = ld32 (m_mem (h_m h)) (t + 4) ∧ rget h' tp = ld32 (m_mem (h_m h)) (t + 16) ∧
  rget h' ra = link ∧ h_pc h' = ld32 (m_mem (h_m h)) (t + 8) ∧
  m_csr (h_m h') satp = ld32 (m_mem (h_m h)) (t + 0) ∧ h_user h' = h_user h ∧
  (∀ c : csr_name, c ≠ satp → c ≠ sscratch → m_csr (h_m h') c = m_csr (h_m h) c) ∧
  (∀ a, page_of a ≠ t → ld8 (m_mem (h_m h')) a = ld8 (m_mem (h_m h)) a).

(** The memory [uservec] leaves. *)
Definition saved_mem h (t : Z) : mem :=
  put_words (put_words (m_mem (h_m h)) t ((λ x, (x.2, rget h x.1)) <$> saved_regs)) t
    [(56, rget h a0)].

Lemma saved_mem_spec h t :
  (∀ r, is_u32 (rget h r)) → page_aligned t →
  (∀ r o, (r, o) ∈ (a0, 56) :: saved_regs → ld32 (saved_mem h t) (t + o) = rget h r) ∧
  (∀ o, o ∈ [0; 4; 8; 12; 16] → ld32 (saved_mem h t) (t + o) = ld32 (m_mem (h_m h)) (t + o)) ∧
  (∀ a, a < t ∨ t + page_size ≤ a → ld8 (saved_mem h t) a = ld8 (m_mem (h_m h)) a).
Proof.
  intros Hregs Hta. destruct saved_offsets as ([Hoff Hal] & Hfld & _). unfold saved_mem.
  assert (∀ o, o ∈ saved_regs.*2 → o ≠ 56) as H56.
  { intros o Ho ->. revert Ho. by apply (bool_decide_unpack _). }
  assert (∀ o, o ∈ saved_regs.*2 → o mod 4 = 0) as H4 by (by apply Forall_forall).
  split_and!.
  - intros r o [[= -> ->]|Ho]%elem_of_cons.
    { apply put_words_in; [by split; [apply NoDup_singleton|repeat constructor]|by left|apply Hregs]. }
    assert (o ∈ saved_regs.*2) as Hin by (apply list_elem_of_fmap; by exists (r, o)).
    rewrite put_words_other; [|by apply H4|by repeat constructor|].
    + apply put_words_in; [by rewrite fst_stores| |apply Hregs].
      apply list_elem_of_fmap. by exists (r, o).
    + cbn. intros ->%list_elem_of_singleton. by apply (H56 56).
  - intros o Ho. assert ((o ∉ saved_regs.*2) ∧ o ≠ 56 ∧ o mod 4 = 0) as (H1 & H2 & H3).
    { revert o Ho. apply Forall_forall. by apply (bool_decide_unpack _). }
    etrans; apply put_words_other; rewrite ?fst_stores; try done; [by repeat constructor|].
    cbn. by intros ?%list_elem_of_singleton.
  - intros a Ha. etrans; apply put_words_bounds with page_size; rewrite ?fst_stores; try done.
    unfold field_offsets. by apply (bool_decide_unpack _).
Qed.

Lemma run_uservec h u tabs F pages t link :
  process_space h u tabs F pages t → in_kernel h (root (uvm_pagetable u)) →
  (∀ r, is_u32 (rget h r)) →
  ∃ h', run (uservec_code link) h = Some h' ∧ trapped h t link h' ∧
    process_space h' u tabs F pages t.
Proof.
  intros Hps Hk Hregs. pose proof (trapframe_window _ _ _ _ _ _ Hps Hk) as Hw0.
  destruct Hps as [Hu HtF Ht]. destruct (saved_mem_spec h t Hregs (proj1 Ht)) as (Hs1 & Hs2 & Hs3).
  destruct saved_offsets as (Hoff & Hfld & _).
  assert (is_u32 TRAPFRAME ∧ TRAPFRAME + page_size ≤ U32) as [HTu HTo] by done.
  rewrite uservec_code_eq. cbn [app run exec].
  set (f := csr_set (m_csr (h_m h)) sscratch (rget h a0)).
  set (h2 := rset a0 TRAPFRAME (set_m (set_csr f (h_m h)) h)).
  rewrite (run_stores _ _ _ TRAPFRAME t page_size); [|eapply stable_window_ext; [..|exact Hw0]; done|done..].
  set (m1 := put_words _ t _).
  assert (m1 = put_words (m_mem (h_m h)) t ((λ x, (x.2, rget h x.1)) <$> saved_regs)) as Hm1.
  { reflexivity. }
  cbn [app run exec].
  set (h4 := rset t0 _ _).
  assert (rget h4 t0 = rget h a0) as Ht0 by done.
  assert (∀ a, a < t ∨ t + page_size ≤ a → ld8 m1 a = ld8 (m_mem (h_m h)) a) as Hm1out.
  { intros a Ha. rewrite Hm1. apply put_words_bounds with page_size; [by rewrite fst_stores|done]. }
  assert (stable_window h4 TRAPFRAME t page_size) as Hw4.
  { eapply stable_window_ext; [..|exact Hw0]; done. }
  rewrite (run_stores [(t0, 56)] _ a0 TRAPFRAME t page_size h4); [|done..|unfold field_offsets; by apply (bool_decide_unpack _)].
  change (put_words (m_mem (h_m h4)) t _) with (put_words m1 t [(56, rget h a0)]).
  rewrite Hm1. fold (saved_mem h t).
  set (h5 := with_mem (saved_mem h t) h4).
  assert (window h5 TRAPFRAME t page_size) as Hw5.
  { apply stable_window_now. eapply stable_window_ext; [..|exact Hw0]; done. }
  rewrite (run_loads [(sp, 4); (tp, 16); (t0, 8); (t1, 0)] _ a0 TRAPFRAME t page_size h5);
    [|done..|unfold field_offsets; by apply (bool_decide_unpack _)|by apply (bool_decide_unpack _)].
  cbn [app run exec loaded fst snd]. eexists. split; [reflexivity|].
  assert (∀ o, o ∈ [0; 4; 8; 12; 16] →
    ld32 (saved_mem h t) (t + o) = ld32 (m_mem (h_m h)) (t + o)) as Hkeep by done.
  assert (∀ a, page_of a ≠ t → ld8 (saved_mem h t) a = ld8 (m_mem (h_m h)) a) as Hpage.
  { intros a Ha. apply Hs3. destruct (decide (a < t)); [by left|right].
    destruct (decide (t + page_size ≤ a)); [done|]. exfalso. apply Ha, page_of_inside; [apply Ht|lia]. }
  split.
  - unfold trapped. split_and!; try done; try (apply Hkeep; set_solver +).
    intros c Hc1 Hc2. cbn. unfold csr_set. rewrite decide_False by done. unfold f.
    by rewrite csr_set_ne.
  - split; [|done|done].
    change (uvm_rep (set_csr (csr_set f satp (ld32 (saved_mem h t) (t + 0)))
      (set_mem (saved_mem h t) (h_m h))) u tabs F pages (high t)).
    apply uvm_rep_csr; [|done]. by eapply uvm_rep_frame.
Qed.

(** The whole of [userret]: every user register comes from its field, the process's
    page table is installed, and [sret] goes where sepc and sstatus say. *)
Definition returned h (rt t : Z) h' : Prop :=
  (∀ r o, (r, o) ∈ (a0, 56) :: saved_regs → rget h' r = ld32 (m_mem (h_m h)) (t + o)) ∧
  h_pc h' = m_csr (h_m h) sepc ∧ h_user h' = negb (Z.testbit (m_csr (h_m h) sstatus) 8) ∧
  m_csr (h_m h') satp = satp_of rt ∧
  m_csr (h_m h') sstatus = sret_sstatus (m_csr (h_m h) sstatus) ∧
  m_mem (h_m h') = m_mem (h_m h) ∧
  (∀ c : csr_name, c ≠ satp → c ≠ sstatus → m_csr (h_m h') c = m_csr (h_m h) c).

Lemma run_userret h u tabs F pages t :
  process_space h u tabs F pages t → h_user h = false →
  rget h a0 = usize_from_SATP (get_satp u) →
  ∃ h', run userret_code h = Some h' ∧ returned h (root (uvm_pagetable u)) t h'.
Proof.
  intros Hps Hus Ha0. change (usize_from_SATP (get_satp u)) with (satp_of (root (uvm_pagetable u))) in Ha0.
  destruct saved_offsets as (Hoff & Hfld & Hnd & Hz & Hna).
  assert (is_u32 TRAPFRAME ∧ TRAPFRAME + page_size ≤ U32) as [HTu HTo] by done.
  rewrite userret_code_eq. cbn [app run exec]. rewrite Ha0.
  set (g := csr_set (m_csr (h_m h)) satp (satp_of (root (uvm_pagetable u)))).
  set (h2 := rset a0 TRAPFRAME (set_m (set_csr g (h_m h)) h)).
  assert (window h2 TRAPFRAME t page_size) as Hw.
  { apply stable_window_now. eapply trapframe_window; [|by split].
    destruct Hps as [Hu HtF Ht]. split; [by apply uvm_rep_csr|done|done]. }
  rewrite (run_loads _ _ a0 TRAPFRAME t page_size h2); [|done..].
  set (h3 := loaded saved_regs t h2).
  assert (∀ r o, (r, o) ∈ saved_regs → rget h3 r = ld32 (m_mem (h_m h)) (t + o)) as Hld.
  { intros r o Ho. by apply (loaded_regs saved_regs t h2 r Hnd Hz). }
  assert (h_m h3 = h_m h2) as Hm3 by apply (loaded_regs saved_regs t h2 a0 Hnd Hz).
  assert (h_user h3 = h_user h2) as Hu3 by apply (loaded_regs saved_regs t h2 a0 Hnd Hz).
  assert (rget h3 a0 = TRAPFRAME) as Ha3 by by apply (loaded_regs saved_regs t h2 a0 Hnd Hz).
  clearbody h3. cbn [run exec]. rewrite Ha3.
  assert (window h3 TRAPFRAME t page_size) as Hw3.
  { eapply window_ext; [..|exact Hw]; by rewrite ?Hm3, ?Hu3. }
  change (wrap32 (TRAPFRAME + 56)) with (TRAPFRAME + 56). rewrite Hw3 by done.
  eexists. split; [reflexivity|]. unfold returned. cbn [h_regs h_pc h_user h_m rset m_csr m_mem set_csr].
  rewrite Hm3. split_and!; try done.
  2: { intros c Hc1 Hc2. rewrite csr_set_ne by done. cbn [h2 set_m h_m rset m_csr set_csr]. unfold g. by rewrite csr_set_ne. }
  intros r o [[= -> ->]|Ho]%elem_of_cons; [done|]. rewrite <- (Hld r o Ho).
  unfold rget; cbn. case_decide; [done|]. rewrite decide_False; [done|]. intros ->.
  apply Hna, list_elem_of_fmap. by exists (a0, o).
Qed.

(** ** The kernel trap vector *)

Definition kv_restored : list (reg * Z) :=
  [(ra, 0); (gp, 8); (t0, 16); (t1, 20); (t2, 24); (a0, 36); (a1, 40); (a2, 44); (a3, 48);
   (a4, 52); (a5, 56); (a6, 60); (a7, 64); (t3, 108); (t4, 112); (t5, 116); (t6, 120)].
Definition kv_saved : list (reg * Z) :=
  [(ra, 0); (gp, 8); (tp, 12); (t0, 16); (t1, 20); (t2, 24); (a0, 36); (a1, 40); (a2, 44);
   (a3, 48); (a4, 52); (a5, 56); (a6, 60); (a7, 64); (t3, 108); (t4, 112); (t5, 116); (t6, 120)].

Lemma kernelvec_save_eq : kernelvec_save = Addi sp sp (-128) :: stores sp kv_saved.
Proof. done. Qed.
Lemma kernelvec_restore_eq :
  kernelvec_restore = loads sp kv_restored ++ [Addi sp sp 128; Sret].
Proof. done. Qed.

Lemma kv_offsets : word_offsets kv_saved.*2 ∧ field_offsets 128 kv_saved.*2 ∧
  field_offsets 128 kv_restored.*2 ∧ NoDup kv_restored.*1 ∧ (zero ∉ kv_restored.*1) ∧
  (sp ∉ kv_restored.*1) ∧ (sp ∉ kv_saved.*1) ∧ Forall (λ x, x ∈ kv_saved) kv_restored.
Proof. unfold word_offsets, field_offsets. by apply (bool_decide_unpack _). Qed.

(** The frame [kernelvec] pushes below the interrupted stack pointer [v + 128]. *)
Lemma run_kernelvec_call h v p f link :
  stable_window h v p 128 → rget h sp = v + 128 → 0 ≤ v → v + 128 < U32 →
  (∀ r, is_u32 (rget h r)) →
  ∃ h', run (kernelvec_call f link) h = Some h' ∧ h_pc h' = f ∧ rget h' ra = link ∧
    rget h' sp = v ∧ (∀ r, r ≠ sp → r ≠ ra → rget h' r = rget h r) ∧
    (∀ r o, (r, o) ∈ kv_saved → ld32 (m_mem (h_m h')) (p + o) = rget h r) ∧
    (∀ a, a < p ∨ p + 128 ≤ a → ld8 (m_mem (h_m h')) a = ld8 (m_mem (h_m h)) a) ∧
    m_csr (h_m h') = m_csr (h_m h) ∧ h_user h' = h_user h.
Proof.
  intros Hw Hsp Hv Hov Hregs. destruct kv_offsets as (Hoff & Hfld & _ & _ & _ & _ & Hns & _).
  unfold kernelvec_call. rewrite kernelvec_save_eq. cbn [app run exec]. rewrite Hsp.
  replace (wrap32 (v + 128 + -128)) with v.
  2: { symmetry. replace (v + 128 + -128) with v by lia. apply wrap32_small. unfold is_u32, U32 in *. lia. }
  set (h1 := rset sp v h). assert (is_u32 v) as Hvu by (unfold is_u32; lia).
  rewrite (run_stores _ _ _ v p 128);
    [|eapply stable_window_ext; [..|exact Hw]; done|done|done|lia|done].
  cbn [run exec]. eexists. split; [reflexivity|].
  assert ((λ x : reg * Z, (x.2, rget h1 x.1)) <$> kv_saved = (λ x, (x.2, rget h x.1)) <$> kv_saved) as ->.
  { reflexivity. }
  cbn [h_pc h_m h_user set_pc rset with_mem set_m m_mem m_csr set_mem].
  split; [done|]. split; [done|]. split; [done|]. split.
  { intros r Hr1 Hr2. unfold rget. cbn. case_decide; [done|]. by rewrite !decide_False. }
  split.
  { intros r o Ho. apply put_words_in; [by rewrite fst_stores| |apply Hregs].
    apply list_elem_of_fmap. by exists (r, o). }
  split; [|done]. intros a Ha. apply put_words_bounds with 128; [by rewrite fst_stores|done].
Qed.

Lemma run_kernelvec_restore h v p :
  window h v p 128 → rget h sp = v → 0 ≤ v → v + 128 < U32 →
  ∃ h', run kernelvec_restore h = Some h' ∧ rget h' sp = v + 128 ∧
    (∀ r o, (r, o) ∈ kv_restored → rget h' r = ld32 (m_mem (h_m h)) (p + o)) ∧
    (∀ r, r ≠ sp → r ∉ kv_restored.*1 → rget h' r = rget h r) ∧
    h_pc h' = m_csr (h_m h) sepc ∧ m_mem (h_m h') = m_mem (h_m h) ∧
    h_user h' = negb (Z.testbit (m_csr (h_m h) sstatus) 8) ∧
    m_csr (h_m h') sstatus = sret_sstatus (m_csr (h_m h) sstatus).
Proof.
  intros Hw Hsp Hv Hov. destruct kv_offsets as (_ & _ & Hfld & Hnd & Hz & Hnsp & _ & _).
  assert (is_u32 v) as Hvu by (unfold is_u32; lia).
  rewrite kernelvec_restore_eq. rewrite (run_loads _ _ sp v p 128 h); [|done|done|done|done|lia|done|done].
  set (h3 := loaded kv_restored p h).
  assert (h_m h3 = h_m h) as Hm3 by apply (loaded_regs kv_restored p h sp Hnd Hz).
  assert (rget h3 sp = v) as Hs3.
  { rewrite <- Hsp. by apply (loaded_regs kv_restored p h sp Hnd Hz). }
  assert (∀ r o, (r, o) ∈ kv_restored → rget h3 r = ld32 (m_mem (h_m h)) (p + o)) as Hld.
  { intros r o Ho. by apply (loaded_regs kv_restored p h r Hnd Hz). }
  assert (∀ r, r ∉ kv_restored.*1 → rget h3 r = rget h r) as Hkeep.
  { intros r Hr. by apply (loaded_regs kv_restored p h r Hnd Hz). }
  clearbody h3. cbn [run exec]. rewrite Hs3.
  replace (wrap32 (v + 128)) with (v + 128) by (symmetry; apply wrap32_small; unfold is_u32; lia).
  eexists. split; [reflexivity|]. cbn [h_pc h_m h_user rset m_mem m_csr set_csr].
  rewrite Hm3, csr_set_eq. split; [done|]. split.
  { intros r o Ho. rewrite <- (Hld r o Ho). unfold rget; cbn. case_decide; [done|].
    rewrite decide_False; [done|]. intros ->. apply Hnsp, list_elem_of_fmap. by exists (sp, o). }
  split; [|done]. intros r Hr1 Hr2. rewrite <- (Hkeep r Hr2). unfold rget; cbn.
  case_decide; [done|]. by rewrite decide_False.
Qed.
End routines.
