(* ===== verification/AsmProps.v ===== *)
(** Properties of the assembly: what a thread, an interrupted kernel routine and a
    user process find in their registers when they run again. *)
From S2P Require Import SimpleEnv.
From S2P Require Export AsmSpec.

Section properties.
Context {E : Env} {EL : EnvLaws E}.
Implicit Types (h : Hart).

(** Two contexts in kernel memory, and a hart about to switch from one to the other. *)
Record switching h (rk : Z) tabs F (from to : Z) : Prop := {
  sw_rep : pt_rep (h_m h) rk tabs F kernel_entries;
  sw_mode : in_kernel h rk;
  sw_from : rget h a0 = from ∧ context_at h rk tabs from;
  sw_to : rget h a1 = to ∧ context_at h rk tabs to;
  sw_apart : from + 56 ≤ to ∨ to + 56 ≤ from;
  sw_regs : ∀ r, is_u32 (rget h r);
}.

Lemma switching_run h rk tabs F from to :
  switching h rk tabs F from to → ∃ h', run switch_code h = Some h' ∧ switched h from to h'.
Proof. intros [? ? [? ?] [? ?] ? ?]. by eapply run_switch. Qed.

(** C19. A context switch is transparent to the thread that made it: [switch] from
    [ca] to [cb] continues with the registers the record at [cb] holds; whatever the
    kernel does next, if it leaves the record at [ca] alone and later switches back to
    it, the first thread continues after its call with its stack pointer, its return
    address and every callee-saved register as it left them. *)
Theorem switch_resumes h rk tabs F ca cb :
  switching h rk tabs F ca cb →
  ∃ h1, run switch_code h = Some h1 ∧ switched h ca cb h1 ∧
    ∀ h2 tabs' F', switching h2 rk tabs' F' cb ca →
      (∀ a, ca ≤ a < ca + 56 → ld8 (m_mem (h_m h2)) a = ld8 (m_mem (h_m h1)) a) →
      ∃ h3, run switch_code h2 = Some h3 ∧ h_pc h3 = rget h ra ∧
        ∀ r, r ∈ context_regs.*1 → rget h3 r = rget h r.
Proof.
  intros Hsw. destruct (switching_run _ _ _ _ _ _ Hsw) as (h1 & Hrun1 & Hs1).
  exists h1. split_and!; [done..|]. intros h2 tabs' F' Hsw2 Hkeep.
  destruct (switching_run _ _ _ _ _ _ Hsw2) as (h3 & Hrun3 & Hs3).
  exists h3. split; [done|]. destruct Hs1 as (Hs1 & _), Hs3 as (Hs3 & Hpc & _).
  assert (∀ r o, (r, o) ∈ context_regs → ld32 (m_mem (h_m h2)) (ca + o) = rget h r) as Hld.
  { intros r o Ho. destruct (Hs1 r o Ho) as [<- _]. apply ld32_ext. intros b Hb. apply Hkeep.
    destruct context_offsets as (_ & Hfld & _). unfold field_offsets in Hfld.
    rewrite Forall_forall in Hfld. destruct (Hfld o) as (? & ? & _); [|lia].
    apply list_elem_of_fmap. by exists (r, o). }
  split.
  - rewrite Hpc. rewrite <- (Hld ra 0) by by left. by rewrite Z.add_0_r.
  - intros r Hr. apply list_elem_of_fmap in Hr as ([r' o] & -> & Ho). cbn [fst].
    destruct (Hs3 r' o Ho) as [_ ->]. by apply Hld.
Qed.

(** The fields of the user registers in the trap frame at [t] are the same. *)
Definition same_user_fields (t : Z) (m m' : mem) : Prop :=
  ∀ r o, (r, o) ∈ (a0, 56) :: saved_regs → ld32 m' (t + o) = ld32 m (t + o).

Lemma user_regs_all r : r ≠ zero → ∃ o, (r, o) ∈ (a0, 56) :: saved_regs.
Proof.
  intros Hr. assert (r ∈ ((a0, 56) :: saved_regs).*1) as Hin.
  { revert Hr. destruct r; try done; intros _; by apply (bool_decide_unpack _). }
  apply list_elem_of_fmap in Hin as ([r' o] & -> & Ho). by exists o.
Qed.

(** C16. A trap is transparent to the user program: [uservec], entered from user mode
    with the process's page table, saves the user registers in the trap frame and
    enters the handler, on the kernel stack and page table that the frame names; and
    once the kernel has run, if the frame's register fields are as [uservec] left them,
    [userret] gives all 32 registers back their values, resumes at sepc and reinstalls
    the process's page table. *)
Theorem user_registers_survive h u tabs F pages t link :
  process_space h u tabs F pages t → in_kernel h (root (uvm_pagetable u)) →
  (∀ r, is_u32 (rget h r)) →
  ∃ h1, run (uservec_code link) h = Some h1 ∧ trapped h t link h1 ∧
    process_space h1 u tabs F pages t ∧
    ∀ h2 u' tabs' F' pages', process_space h2 u' tabs' F' pages' t → h_user h2 = false →
      rget h2 a0 = usize_from_SATP (get_satp u') →
      same_user_fields t (m_mem (h_m h1)) (m_mem (h_m h2)) →
      ∃ h3, run userret_code h2 = Some h3 ∧ (∀ r, rget h3 r = rget h r) ∧
        h_pc h3 = m_csr (h_m h2) sepc ∧ m_csr (h_m h3) satp = usize_from_SATP (get_satp u') ∧
        h_user h3 = negb (Z.testbit (m_csr (h_m h2) sstatus) 8).
Proof.
  intros Hps Hk Hregs. destruct (run_uservec h u tabs F pages t link Hps Hk Hregs) as (h1 & Hrun & Htr & Hps1).
  exists h1. split_and!; [done..|]. intros h2 u' tabs' F' pages' Hps2 Hus Ha0 Hsame.
  destruct (run_userret h2 u' tabs' F' pages' t Hps2 Hus Ha0) as (h3 & Hrun3 & Hr & Hpc & Hu & Hsatp & _).
  exists h3. split_and!; [done| |done..]. intros r. destruct (decide (r = zero)) as [->|Hz].
  { unfold rget. by rewrite !decide_True. }
  destruct (user_regs_all r Hz) as [o Ho]. rewrite (Hr r o Ho), (Hsame r o Ho). by apply Htr.
Qed.

(** C20. An interrupt in the kernel is transparent to the code it interrupts:
    [kernelvec] calls [kerneltrap] with the frame of 128 bytes below the interrupted
    stack pointer; if the handler leaves that frame alone and, as the calling
    convention has it, returns with the stack pointer, the thread pointer and the
    callee-saved registers it was given, then every register is back at its value when
    [sret] resumes at sepc. *)
Theorem kernelvec_restores h v p f link :
  stable_window h v p 128 → rget h sp = v + 128 → 0 ≤ v → v + 128 < U32 →
  (∀ r, is_u32 (rget h r)) →
  ∃ h1, run (kernelvec_call f link) h = Some h1 ∧ h_pc h1 = f ∧ rget h1 ra = link ∧
    (∀ a, a < p ∨ p + 128 ≤ a → ld8 (m_mem (h_m h1)) a = ld8 (m_mem (h_m h)) a) ∧
    m_csr (h_m h1) = m_csr (h_m h) ∧ h_user h1 = h_user h ∧
    ∀ h2, window h2 v p 128 →
      (∀ a, p ≤ a < p + 128 → ld8 (m_mem (h_m h2)) a = ld8 (m_mem (h_m h1)) a) →
      (∀ r, r ∉ kv_restored.*1 → rget h2 r = rget h1 r) →
      ∃ h3, run kernelvec_restore h2 = Some h3 ∧ (∀ r, rget h3 r = rget h r) ∧
        h_pc h3 = m_csr (h_m h2) sepc ∧ m_mem (h_m h3) = m_mem (h_m h2).
Proof.
  intros Hw Hsp Hv Hov Hregs.
  destruct (run_kernelvec_call h v p f link Hw Hsp Hv Hov Hregs)
    as (h1 & Hrun & Hpc & Hra & Hsp1 & Hother & Hsaved & Hout & Hcsr & Hus).
  exists h1. split_and!; [done..|]. intros h2 Hw2 Hframe Habi.
  destruct kv_offsets as (_ & _ & Hfld & _ & _ & Hnsp & _ & Hsub).
  assert (rget h2 sp = v) as Hsp2 by by rewrite Habi.
  destruct (run_kernelvec_restore h2 v p Hw2 Hsp2 Hv Hov)
    as (h3 & Hrun3 & Hsp3 & Hback & Hkeep & Hpc3 & Hmem & _).
  exists h3. split_and!; [done| |done..]. intros r.
  destruct (decide (r = sp)) as [->|Hrs]; [by rewrite Hsp3|].
  destruct (decide (r ∈ kv_restored.*1)) as [Hin|Hnin].
  - apply list_elem_of_fmap in Hin as ([r' o] & -> & Ho). cbn [fst].
    rewrite (Hback r' o Ho). unfold field_offsets in Hfld. rewrite Forall_forall in Hsub. rewrite Forall_forall in Hfld.
    rewrite <- (Hsaved r' o) by by apply Hsub. apply ld32_ext. intros b Hb. apply Hframe.
    destruct (Hfld o) as (? & ? & _); [|lia]. apply list_elem_of_fmap. by exists (r', o).
  - rewrite Hkeep, Habi by done. apply Hother; [done|]. intros ->. apply Hnin.
    by apply (bool_decide_unpack _).
Qed.
End properties.

(** ** Witnesses, on the example machine *)

#[local] Existing Instance simple_env.
#[local] Existing Instance simple_laws.

(** Kernel data outside the heap, at [etext + off]. *)
Definition example_data (off : Z) : Z := 0x80230000 + off.

Lemma example_data_writable s rt tabs F e p n :
  pt_rep s rt tabs F e → 0x80220000 ≤ p → p + n ≤ 0x80240000 → writable s rt tabs p n.
Proof.
  intros Hrep H1 H2 a Ha. assert (¬ heap_area a) as Hna.
  { change (¬ (0x80240000 ≤ a < RAMEND)). lia. }
  split; [|by right]. intros Hin. apply Hna. eapply frame_ok_heap_area; [|done].
  eapply live_frame_ok; [by eapply pt_rep_ok|]. rewrite (pt_rep_live _ _ _ _ _ Hrep). set_solver +Hin.
Qed.

Lemma pt_rep_csr f s rt tabs F e :
  pt_rep s rt tabs F e → f (Named sstatus) = m_csr s sstatus → pt_rep (set_csr f s) rt tabs F e.
Proof.
  intros Hrep Hf. eapply pt_rep_agree; [exact Hrep| |done| |exact (pt_rep_live _ _ _ _ _ Hrep)].
  - apply mach_ok_csr; [by eapply pt_rep_ok|done].
  - exact (pt_rep_disj _ _ _ _ _ Hrep).
Qed.

(** A hart in the booted kernel, with the given registers. *)
Definition example_hart (regs : reg → Z) (s : Machine) : Hart := mkHart regs 0 false s.

Lemma example_boot (Q : option Kvm → Machine → Prop) :
  (∀ rk tabs F s, pt_rep s rk tabs F kernel_entries → m_csr s satp = satp_of rk →
     Q (Some (mkKvm (mkPageTable rk))) s) → wp boot_kvm Q boot_machine.
Proof.
  intros HQ. unfold boot_kvm. apply wp_bind, Kvm_init_spec; [apply boot_ok|by apply Nat.leb_le|].
  intros rk tabs s Hrep _ _ _. apply wp_bind, start_kvm_spec, wp_ret.
  eapply HQ; [by apply pt_rep_csr|]. cbn. by rewrite csr_set_eq.
Qed.

(** The registers of the example: [a0] and [a1] at two contexts, the stack pointer in
    the kernel's data. *)
Definition example_regs (r : reg) : Z :=
  match r with
  | a0 => example_data 0 | a1 => example_data 256 | sp => example_data 1024 | s3 => 42 | _ => 7
  end.

Lemma example_regs_u32 r : is_u32 (example_regs r).
Proof. by destruct r. Qed.

Lemma example_context h rk tabs F off :
  pt_rep (h_m h) rk tabs F kernel_entries → 0 ≤ off ≤ 1024 → off mod 4 = 0 →
  context_at h rk tabs (example_data off).
Proof.
  intros Hrep Hoff Hal. unfold context_at, example_data.
  assert (etext = 0x80220000 ∧ 0x80240000 ≤ RAMEND) as [-> HR] by done. split_and!; [|lia..|].
  - eapply example_data_writable; [exact Hrep|lia..].
  - Z.div_mod_to_equations. lia.
Qed.

Lemma switch_resumes_witness :
  wp boot_kvm (λ _ s, ∃ h1 h3, run switch_code (example_hart example_regs s) = Some h1 ∧
    run switch_code (rset a0 (example_data 256) (rset a1 (example_data 0) h1)) = Some h3 ∧
    rget h3 s3 = 42 ∧ h_pc h3 = 7) boot_machine.
Proof.
  apply example_boot. intros rk tabs F s Hrep Hsatp.
  destruct (switch_resumes (example_hart example_regs s) rk tabs F (example_data 0) (example_data 256))
    as (h1 & Hrun & Hs & Hback).
  { split; [done|done|split; [done|]; by eapply example_context..|by left|].
    intros r. unfold rget. case_decide; [done|]. apply example_regs_u32. }
  destruct Hs as (Hregs & _ & Hother & (m & Hm & Hout) & Hus).
  assert (pt_rep (h_m h1) rk tabs F kernel_entries) as Hrep1.
  { rewrite Hm. eapply rep_write; [exact Hrep| |exact Hout]. by eapply example_data_writable. }
  destruct (Hback (rset a0 (example_data 256) (rset a1 (example_data 0) h1)) tabs F)
    as (h3 & Hrun3 & Hpc & Hr3).
  - split; [exact Hrep1|split; [exact Hus|change (m_csr (h_m h1) satp = satp_of rk); by rewrite Hm]|..|by right|].
    + split; [done|]. by eapply (example_context (rset a0 _ (rset a1 _ h1))).
    + split; [done|]. by eapply (example_context (rset a0 _ (rset a1 _ h1))).
    + intros r. unfold rget, rset. cbn. repeat (case_decide; [done|]).
      assert (is_u32 (rget h1 r)) as Hu.
      { destruct (decide (r ∈ context_regs.*1)) as [Hin|Hnin].
        - apply list_elem_of_fmap in Hin as ([r' o] & -> & Ho). cbn [fst].
          destruct (Hregs r' o Ho) as [_ ->]. apply ld32_range.
        - rewrite Hother by done. unfold rget. case_decide; [done|]. apply example_regs_u32. }
      unfold rget in Hu. by rewrite decide_False in Hu.
  - done.
  - exists h1, h3. split_and!; [done..| |done]. rewrite Hr3; [done|]. by apply (bool_decide_unpack _).
Defined.

Lemma kernelvec_restores_witness :
  wp boot_kvm (λ _ s, ∃ h1 h3, run (kernelvec_call 0x80200100 0x80200200) (example_hart example_regs s) = Some h1 ∧
    h_pc h1 = 0x80200100 ∧ run kernelvec_restore h1 = Some h3 ∧ rget h3 s3 = 42 ∧
    rget h3 sp = example_data 1024) boot_machine.
Proof.
  apply example_boot. intros rk tabs F s Hrep Hsatp.
  set (h := example_hart example_regs s).
  assert (stable_window h (example_data 896) (example_data 896) 128) as Hw.
  { eapply kernel_window; [exact Hrep|done|by eapply example_data_writable|done..]. }
  destruct (kernelvec_restores h (example_data 896) (example_data 896) 0x80200100 0x80200200)
    as (h1 & Hrun & Hpc & _ & Hout & Hcsr & Hus & Hback); [exact Hw|done..| |].
  { intros r. unfold rget. case_decide; [done|]. apply example_regs_u32. }
  destruct (Hback h1) as (h3 & Hrun3 & Hregs & _); [|done|done|].
  - eapply (window_ext (with_mem (m_mem (h_m h1)) h)); [done|by rewrite Hcsr..|done|].
    by apply Hw.
  - exists h1, h3. split_and!; [done..| |]; by rewrite Hregs.
Defined.

(** A process's address space, installed. *)
Definition user_space : MM (option (Uvm * Z)) :=
  u ←? Uvm_new;
  t ← LockedHeap_alloc PAGE_LAYOUT;
  _ ←? init_proc u t;
  write_csr satp (usize_from_SATP (get_satp u));;
  mret (Some (u, t)).

Lemma user_space_spec (Q : option (Uvm * Z) → Machine → Prop) :
  (∀ u t tabs F s, uvm_rep s u tabs F ∅ (high t) → t ∈ F → frame_ok t →
     m_csr s satp = usize_from_SATP (get_satp u) → Q (Some (u, t)) s) →
  (∀ s, Q None s) →
  wp user_space Q boot_machine.
Proof.
  intros HQ HN. unfold user_space. apply wp_bind, Uvm_new_spec; [apply boot_ok|left; by apply Nat.leb_le|].
  intros u s2 Hu2 Hsz Hq2 Hag2. apply wp_bind. eapply alloc_frame_rep; [exact Hu2|].
  intros t s3 Hq3 Hag3 [(_ & _ & Hl3 & Hc)|(Ht & _ & _ & Hl3 & Hu3)].
  { rewrite (qt_cap _ _ Hq2), (uvm_rep_live _ _ _ _ _ _ Hu2), frames_of_empty in Hc.
    unfold pt_pages, pt_tables in Hc.
    rewrite map_img_empty_L, union_empty_r_L, union_empty_l_L in Hc.
    pose proof (size_add_le (root (uvm_pagetable u)) (live boot_machine)).
    assert (base.size (live boot_machine) = 0%nat) as Hl0 by done.
    assert (2 ≤ capacity boot_machine)%nat by by apply Nat.leb_le. lia. }
  apply wp_bind. eapply init_proc_spec; [exact Hu3|done|].
  intros o s4 tabs hi Hu4 Hq4 Hag4 _ Ho. destruct o as [[]|]; [|by apply wp_ret]. subst hi.
  apply wp_bind, wp_write_csr, wp_ret. eapply HQ; [by apply uvm_rep_csr|set_solver +|done|].
  cbn. by rewrite csr_set_eq.
Qed.

Lemma user_registers_survive_witness :
  wp user_space (λ o s, ∀ u t, o = Some (u, t) → ∃ h1 h3,
    run (uservec_code 0x80200300) (example_hart example_regs s) = Some h1 ∧
    run userret_code (rset a0 (usize_from_SATP (get_satp u)) h1) = Some h3 ∧
    rget h3 s3 = 42 ∧ rget h3 a0 = example_data 0) boot_machine.
Proof.
  apply user_space_spec; [|done]. intros u t tabs F s Hu HtF Ht Hsatp u' t' [= <- <-].
  set (h := example_hart example_regs s).
  destruct (user_registers_survive h u tabs F ∅ t 0x80200300) as (h1 & Hrun & Htr & Hps & Hback).
  - by split.
  - by split.
  - intros r. unfold rget. case_decide; [done|]. apply example_regs_u32.
  - destruct Hps as [Hu1 HtF1 Ht1].
    destruct (Hback (rset a0 (usize_from_SATP (get_satp u)) h1) u tabs F ∅)
      as (h3 & Hrun3 & Hregs & _); [by split|by apply Htr|done|done|].
    exists h1, h3. split_and!; [done..| |]; by rewrite Hregs.
Defined.
