(* ===== verification/Process.v ===== *)
(** Processes: the data of src/kernel/src/process.rs, the placement of kernel
    stacks, and the creation and recycling of a process. *)
From S2P Require Export Trapframe.

Inductive ProcState := Unused | Used | Sleeping | Runnable | Running | Zombie | Delete.

#[export] Instance ProcState_eq_dec : EqDecision ProcState.
Proof. solve_decision. Defined.

(** [ProcState::default()]. *)
Definition ProcState_default : ProcState := Unused.

(** The [KSTACK!] macro, with the overflow checks of its arithmetic. *)
Definition KSTACK {S} (n : Z) : M S Z :=
  a ← add32 n 1;
  b ← mul32 a PAGESIZE;
  c ← add32 KERNEL_STACK_PAGES 1;
  d ← mul32 b c;
  e ← sub32 TRAMPOLINE d;
  add32 e PAGESIZE.

Section process.
Context {E : Env}.

(** [trapframe] is the address the box points to; [lock] is the mutex's state. *)
Record Process := mkProcess {
  p_id : Z;
  p_pid : option Z;
  p_state : ProcState;
  p_kstack : Z;
  p_parent : option Z;
  p_pagetable : Uvm;
  p_context : Context;
  p_xstatus : Z;
  p_sleep_channel : option Z;
  p_trapframe : Z;
  p_lock : lock_t;
  p_quants : Z;
}.

(** Assignments to single fields. *)
Definition set_pid (v : option Z) (p : Process) : Process :=
  mkProcess (p_id p) v (p_state p) (p_kstack p) (p_parent p) (p_pagetable p) (p_context p)
    (p_xstatus p) (p_sleep_channel p) (p_trapframe p) (p_lock p) (p_quants p).
Definition set_state (v : ProcState) (p : Process) : Process :=
  mkProcess (p_id p) (p_pid p) v (p_kstack p) (p_parent p) (p_pagetable p) (p_context p)
    (p_xstatus p) (p_sleep_channel p) (p_trapframe p) (p_lock p) (p_quants p).
Definition set_parent (v : option Z) (p : Process) : Process :=
  mkProcess (p_id p) (p_pid p) (p_state p) (p_kstack p) v (p_pagetable p) (p_context p)
    (p_xstatus p) (p_sleep_channel p) (p_trapframe p) (p_lock p) (p_quants p).
Definition set_pagetable (v : Uvm) (p : Process) : Process :=
  mkProcess (p_id p) (p_pid p) (p_state p) (p_kstack p) (p_parent p) v (p_context p)
    (p_xstatus p) (p_sleep_channel p) (p_trapframe p) (p_lock p) (p_quants p).
Definition set_context (v : Context) (p : Process) : Process :=
  mkProcess (p_id p) (p_pid p) (p_state p) (p_kstack p) (p_parent p) (p_pagetable p) v
    (p_xstatus p) (p_sleep_channel p) (p_trapframe p) (p_lock p) (p_quants p).
Definition set_xstatus (v : Z) (p : Process) : Process :=
  mkProcess (p_id p) (p_pid p) (p_state p) (p_kstack p) (p_parent p) (p_pagetable p) (p_context p)
    v (p_sleep_channel p) (p_trapframe p) (p_lock p) (p_quants p).
Definition set_channel (v : option Z) (p : Process) : Process :=
  mkProcess (p_id p) (p_pid p) (p_state p) (p_kstack p) (p_parent p) (p_pagetable p) (p_context p)
    (p_xstatus p) v (p_trapframe p) (p_lock p) (p_quants p).
Definition set_trapframe (v : Z) (p : Process) : Process :=
  mkProcess (p_id p) (p_pid p) (p_state p) (p_kstack p) (p_parent p) (p_pagetable p) (p_context p)
    (p_xstatus p) (p_sleep_channel p) v (p_lock p) (p_quants p).
Definition set_lock (v : lock_t) (p : Process) : Process :=
  mkProcess (p_id p) (p_pid p) (p_state p) (p_kstack p) (p_parent p) (p_pagetable p) (p_context p)
    (p_xstatus p) (p_sleep_channel p) (p_trapframe p) v (p_quants p).
Definition set_quants (v : Z) (p : Process) : Process :=
  mkProcess (p_id p) (p_pid p) (p_state p) (p_kstack p) (p_parent p) (p_pagetable p) (p_context p)
    (p_xstatus p) (p_sleep_channel p) (p_trapframe p) (p_lock p) v.

(** [Process::new]. *)
Definition Process_new (n : Z) : MM (option Process) :=
  kstack ← KSTACK n;
  pagetable ←? Uvm_new;
  trapframe ← Box_new_in Trapframe_default;
  mret (Some (mkProcess n None ProcState_default kstack None pagetable Context_zero 0 None
    trapframe IntMutex_new 0)).

(** Assigning an address space or a trap frame drops the old one, after the new one
    has been made. *)
Definition assign_pagetable (v : Uvm) (self : Process) : MM Process :=
  Uvm_drop (p_pagetable self);; mret (set_pagetable v self).
Definition assign_trapframe (v : Z) (self : Process) : MM Process :=
  Box_drop (p_trapframe self);; mret (set_trapframe v self).

(** [Process::free]; the object is threaded through, also on the error path. *)
Definition Process_free (self : Process) : MM (Process * option unit) :=
  let self := set_parent None (set_state Unused (set_pid None self)) in
  r ← Uvm_new;
  match r with
  | None => mret (self, None)
  | Some pagetable =>
      self ← assign_pagetable pagetable self;
      let self := set_channel None (set_xstatus 0 (set_context Context_zero self)) in
      trapframe ← Box_new_in Trapframe_default;
      self ← assign_trapframe trapframe self;
      mret (self, Some tt)
  end.
End process.
