(* ===== verification/Kernel.v ===== *)
(** The kernel object of src/kernel/src/kernel.rs: the process table under the
    [KERNEL] lock, and the operations on it. *)
From Stdlib Require Import (notations) String.
From S2P Require Export Process.

(** ** State *)

Section kernel.
Context {E : Env}.

Record Kernel := mkKernel {
  k_kvm : option Kvm;
  process_table : list Process;
  k_pid : Z;
}.

(** [Kernel::default()]. *)
Definition Kernel_default : Kernel := mkKernel None [] 0.

(** The machine and the static [KERNEL]: a [Once] that holds an [IntMutex<Kernel>].
    A reference to a process is its index in the table. *)
Record Sys := mkSys {
  s_mach : Machine;
  s_kernel : Kernel;
  s_klock : lock_t;
  s_once : bool;
}.

Definition set_mach (m : Machine) (s : Sys) : Sys := mkSys m (s_kernel s) (s_klock s) (s_once s).
Definition set_kernel (k : Kernel) (s : Sys) : Sys := mkSys (s_mach s) k (s_klock s) (s_once s).
Definition set_klock (l : lock_t) (s : Sys) : Sys := mkSys (s_mach s) (s_kernel s) l (s_once s).
Definition set_table (t : list Process) (k : Kernel) : Kernel := mkKernel (k_kvm k) t (k_pid k).
Definition set_kvm (v : option Kvm) (k : Kernel) : Kernel := mkKernel v (process_table k) (k_pid k).
Definition set_kpid (n : Z) (k : Kernel) : Kernel := mkKernel (k_kvm k) (process_table k) n.

Abbreviation KM := (M Sys).

(** Code that works on the machine only. *)
Definition lift {A} (m : MM A) : KM A := λ s,
  match m (s_mach s) with
  | Done a m' => Done a (set_mach m' s)
  | Panic p => Panic p
  | Fault => Fault
  | Spin => Spin
  | OutOfFuel => OutOfFuel
  end.

Definition kernel_modify (f : Kernel → Kernel) : KM unit :=
  modify (λ s, set_kernel (f (s_kernel s)) s).

(** Through a reference: reading a process, and updating it in place. *)
Definition proc (i : nat) : KM Process :=
  t ← gets (λ s, process_table (s_kernel s));
  match t !! i with Some p => mret p | None => fault end.
Definition update (i : nat) (f : Process → Process) : KM unit :=
  p ← proc i;
  kernel_modify (λ k, set_table (<[i := f p]> (process_table k)) k).
(** Running machine code on a process. *)
Definition update_with {A} (i : nat) (f : Process → MM (Process * A)) : KM A :=
  p ← proc i;
  r ← lift (f p);
  update i (λ _, r.1);;
  mret r.2.

(** [p.lock.lock_manual()] and [p.lock.unlock_manual()]. *)
Definition lock_proc (i : nat) : KM unit :=
  p ← proc i;
  l ← lift (lock_manual (p_lock p));
  update i (set_lock l).
Definition unlock_proc (i : nat) : KM unit :=
  p ← proc i;
  l ← lift (unlock_manual (p_lock p));
  update i (set_lock l).

(** [KERNEL.get().unwrap().lock()], and the drop of the guard. *)
Definition KERNEL_lock : KM unit :=
  once ← gets s_once;
  if once : bool then
    l ← gets s_klock;
    l ← lift (IntMutex_lock l);
    modify (set_klock l)
  else panic_with PUnwrap.
Definition KERNEL_unlock : KM unit :=
  l ← gets s_klock;
  l ← lift (IntMutexGuard_drop l);
  modify (set_klock l).

(** The indices of the table, in order. *)
Definition indices : KM (list nat) :=
  gets (λ s, seq 0 (length (process_table (s_kernel s)))).

(** Assignments that drop the old value. *)
Definition put_pagetable (i : nat) (v : Uvm) : KM unit :=
  update_with i (λ p, p ← assign_pagetable v p; mret (p, tt)).
Definition put_trapframe (i : nat) (v : Z) : KM unit :=
  update_with i (λ p, p ← assign_trapframe v p; mret (p, tt)).

(** ** Operations *)

(** [Kernel::init]. *)
Definition Kernel_init : KM (option unit) :=
  kvm ←? lift Kvm_init;
  kernel_modify (set_kvm (Some kvm));;
  mret (Some tt).

(** [Kernel::initproc]. *)
Definition initproc (n : Z) : KM (option unit) :=
  nproc ← gets (λ s, Z.of_nat (length (process_table (s_kernel s))));
  o ← gets (λ s, k_kvm (s_kernel s));
  match o with
  | None => mret None
  | Some kvm =>
      last ← add32 nproc n;
      for_each_try (seqZ nproc (last - nproc)) (λ i,
        proc ←? lift (Process_new i);
        va ← KSTACK i;
        lift (alloc_kstack kvm va);;
        lift (print (str "kstack: 0x" ++ fmt_hex (p_kstack proc) ++ newline));;
        kernel_modify (λ k, set_table (process_table k ++ [proc]) k);;
        mret (Some tt))
  end.

(** The body of [Kernel::allocproc] for the free entry it found. *)
Definition claim (i : nat) : KM unit :=
  pid ← gets (λ s, k_pid (s_kernel s));
  update i (set_pid (Some pid));;
  n ← add32 pid 1;
  kernel_modify (set_kpid n);;
  update i (set_state Used);;
  trapframe ← lift (Box_new_in Trapframe_default);
  put_trapframe i trapframe;;
  lock_proc i;;
  p ← proc i;
  size ← mul32 KERNEL_STACK_PAGES PAGESIZE;
  top ← add32 (p_kstack p) size;
  update i (set_context (mkContext forkret_addr top 0 0 0 0 0 0 0 0 0 0 0 0)).

(** [Kernel::allocproc]. *)
Fixpoint allocproc_loop (l : list nat) : KM (option nat) :=
  match l with
  | [] => mret None
  | i :: l =>
      p ← proc i;
      if decide (p_state p = Unused) then claim i;; mret (Some i) else allocproc_loop l
  end.
Definition allocproc : KM (option nat) := l ← indices; allocproc_loop l.

(** [Kernel::wakeup]. *)
Definition wakeup (channel : option Z) : KM unit :=
  l ← indices;
  for_each l (λ i,
    lock_proc i;;
    p ← proc i;
    (if decide (p_state p = Sleeping ∧ p_sleep_channel p = channel)
     then update i (set_state Runnable) else mret tt);;
    unlock_proc i).

(** [Kernel::reparent]. *)
Fixpoint reparent_loop (l : list nat) (pid : option Z) (any_child : bool) : KM bool :=
  match l with
  | [] => mret any_child
  | i :: l =>
      p ← proc i;
      if decide (p_parent p = pid) then
        update i (set_parent (Some 0));;
        reparent_loop l pid true
      else reparent_loop l pid any_child
  end.
Definition reparent (pid : option Z) : KM unit :=
  l ← indices;
  any_child ← reparent_loop l pid false;
  if any_child : bool then wakeup (Some 0) else mret tt.
End kernel.
Abbreviation KM := (M Sys).
