(* ===== verification/Sched.v ===== *)
(** Scheduling and the life of a process: [yeld], [kfork], [kexec], [kexit],
    [kwait], [sleep], [sched], [scheduler], [forkret] and [prepare_return] of
    src/kernel/src/process.rs.

    A function that calls [switch] is cut there: [f_enter] runs up to the switch and
    hands over the locals that live across it, [f_leave] is what runs when the
    context is switched back to. *)
From Stdlib Require Import (notations) String.
From S2P Require Export Kernel.

(** ** Strings *)

(** [str::trim_end], on the reversed bytes: the White_Space characters in UTF-8. *)
Fixpoint trim_rev (l : list Z) : list Z :=
  match l with
  | b :: l1 =>
      if decide (9 ≤ b ≤ 13 ∨ b = 32) then trim_rev l1
      else match l1 with
      | b1 :: l2 =>
          if decide (b1 = 0xc2 ∧ (b = 0x85 ∨ b = 0xa0)) then trim_rev l2
          else match l2 with
          | b2 :: l3 =>
              if decide ((b2 = 0xe1 ∧ b1 = 0x9a ∧ b = 0x80) ∨
                         (b2 = 0xe2 ∧ b1 = 0x80 ∧
                          (0x80 ≤ b ≤ 0x8a ∨ b = 0xa8 ∨ b = 0xa9 ∨ b = 0xaf)) ∨
                         (b2 = 0xe2 ∧ b1 = 0x81 ∧ b = 0x9f) ∨
                         (b2 = 0xe3 ∧ b1 = 0x80 ∧ b = 0x80))
              then trim_rev l3 else l
          | [] => l
          end
      | [] => l
      end
  | [] => []
  end.
Definition trim_end (l : list Z) : list Z := rev (trim_rev (rev l)).

(** A stable sort of indices by a key, [sort_by_key]. *)
Fixpoint insert_by (key : nat → Z) (x : nat) (l : list nat) : list nat :=
  match l with
  | [] => [x]
  | y :: l' => if decide (key x ≤ key y) then x :: l else y :: insert_by key x l'
  end.
Fixpoint sort_by_key (key : nat → Z) (l : list nat) : list nat :=
  match l with
  | [] => []
  | x :: l => insert_by key x (sort_by_key key l)
  end.

Section sched.
Context {E : Env}.

(** ** sched *)

Definition set_prev_state (b : bool) : KM unit := lift (modify_cpu (set_prev b)).
Definition set_current (c : option nat) : KM unit :=
  lift (modify_cpu (λ cpu,
    mkCpu c (context cpu) (interrupt_off_stack cpu) (interrupt_prev_state cpu))).
Definition get_current : KM (option nat) := gets (λ s, current (m_cpu (s_mach s))).

(** [sched] up to [switch]; the local is the saved interrupt state. *)
Definition sched_enter : KM bool :=
  on ← lift interrupt_read;
  if on : bool then panic_with PSchedInterrupts
  else
    n ← gets (λ s, interrupt_off_stack (m_cpu (s_mach s)));
    if decide (n ≠ 1) then panic_with PSchedLocks
    else
      cur ← get_current;
      match cur with
      | None => fault
      | Some c =>
          p ← proc c;
          if decide (p_state p = Running) then panic_with PSchedRunning
          else gets (λ s, interrupt_prev_state (m_cpu (s_mach s)))
      end.
Definition sched_leave (prev : bool) : KM unit := set_prev_state prev.

(** [switch(from, to)] writes the registers [regs] of the hart to the context of a
    process, or to the CPU's; what is loaded from the other one is the thread that
    runs next. *)
Definition save_context (i : nat) (regs : Context) : KM unit := update i (set_context regs).
Definition save_cpu_context (regs : Context) : KM unit :=
  lift (modify_cpu (λ cpu,
    mkCpu (current cpu) regs (interrupt_off_stack cpu) (interrupt_prev_state cpu))).

(** ** yeld and sleep *)

Definition print_interrupt : KM unit :=
  b ← lift interrupt_read;
  lift (println (str "interrupt: " ++ fmt_bool b)).
Definition print_locks : KM unit :=
  n ← gets (λ s, interrupt_off_stack (m_cpu (s_mach s)));
  lift (println (str "sched locks " ++ fmt_dec n)).

Definition yeld_enter (i : nat) : KM bool :=
  print_interrupt;;
  print_locks;;
  lock_proc i;;
  print_interrupt;;
  print_locks;;
  update i (set_state Runnable);;
  sched_enter.
Definition yeld_leave (i : nat) (prev : bool) : KM unit :=
  sched_leave prev;;
  unlock_proc i.

Definition sleep_enter (i : nat) (channel : option Z) : KM bool :=
  lock_proc i;;
  update i (set_channel channel);;
  update i (set_state Sleeping);;
  sched_enter.
Definition sleep_leave (i : nat) (prev : bool) : KM unit :=
  sched_leave prev;;
  update i (set_channel None);;
  unlock_proc i.

(** ** kfork *)

(** What [kfork] does with the entry [c] that [allocproc] found; the address space
    is dropped when it cannot be set up. *)
Definition fork_child (i c : nat) : KM (option Z) :=
  self ← proc i;
  frame ← lift (Trapframe_clone (p_trapframe self));
  trapframe ← lift (Box_new_in frame);
  put_trapframe c trapframe;;
  uvm ← lift (Uvm_clone (p_pagetable self));
  child ← proc c;
  r ← lift (init_proc uvm (p_trapframe child));
  match r with
  | None => lift (Uvm_drop uvm);; mret None
  | Some _ =>
      put_pagetable c uvm;;
      lift (tf_set (p_trapframe child) tf_a0 0);;
      pid ← unwrap (p_pid child);
      lift (tf_set (p_trapframe self) tf_a0 pid);;
      unlock_proc c;;
      update c (set_parent (p_pid self));;
      lock_proc c;;
      update c (set_state Runnable);;
      unlock_proc c;;
      mret (p_pid child)
  end.

Definition kfork (i : nat) : KM (option Z) :=
  KERNEL_lock;;
  o ← allocproc;
  r ← (match o with None => mret None | Some c => fork_child i c end);
  KERNEL_unlock;;
  mret r.

(** ** kexec *)

Definition exec_image (path : list Z) : MM (Z * Z) :=
  let name := trim_end path in
  if decide (name = str "init") then mret INIT
  else if decide (name = str "prime") then mret PRIME
  else panic_with PUnknownProgram.

(** The new address space: image, guard page and stack.  It is threaded through,
    so that it can be dropped on an error. *)
Definition exec_space (pagetree : Uvm) (trapframe : Z) (img : Z * Z) : MM (Uvm * option unit) :=
  r ← init_proc pagetree trapframe;
  match r with None => mret (pagetree, None) | Some _ =>
    r ← Uvm_alloc pagetree img.2 (Z.lor (Z.lor PTE_R PTE_W) PTE_X);
    let pagetree := r.1 in
    match r.2 with None => mret (pagetree, None) | Some _ =>
      r ← Uvm_load pagetree USER_START img;
      match r with None => mret (pagetree, None) | Some _ =>
        r ← Uvm_grow pagetree PAGESIZE 0;
        let pagetree := r.1 in
        unwrap r.2;;
        r ← Uvm_grow pagetree PAGESIZE (Z.lor PTE_W PTE_R);
        let pagetree := r.1 in
        unwrap r.2;;
        mret (pagetree, Some tt)
      end
    end
  end.

(** The loop that copies the arguments onto the stack. *)
Fixpoint push_args (pagetree : Uvm) (stack_base sp : Z) (argv : list (list Z))
    (ustack : list Z) : MM (option (Z * list Z)) :=
  match argv with
  | [] => mret (Some (sp, ustack))
  | arg :: argv =>
      sp ← sub32 sp (Z.of_nat (length arg));
      let sp := Z.land sp (not32 7) in
      if decide (sp < stack_base) then mret None
      else
        _ ←? copy_out_cont_u8 pagetree sp arg;
        push_args pagetree stack_base sp argv (ustack ++ [sp])
  end.

(** The stack of the new program: the arguments, then their addresses. *)
Definition exec_stack (pagetree : Uvm) (argv : list (list Z)) : MM (option Z) :=
  sp ← Uvm_end pagetree;
  stack_base ← sub32 sp PAGESIZE;
  r ←? push_args pagetree stack_base sp argv [];
  let ustack := r.2 ++ [0] in
  size ← mul32 (Z.of_nat (length ustack)) 4;
  sp ← sub32 r.1 size;
  if decide (sp < stack_base) then mret None
  else
    _ ←? copy_out_cont_usize pagetree sp ustack;
    mret (Some sp).

(** The whole construction; the address space is dropped on an error. *)
Definition exec_build (trapframe : Z) (img : Z * Z) (argv : list (list Z)) : MM (option (Uvm * Z)) :=
  pagetree ←? Uvm_new;
  r ← exec_space pagetree trapframe img;
  let pagetree := r.1 in
  match r.2 with
  | None => Uvm_drop pagetree;; mret None
  | Some _ =>
      r ← exec_stack pagetree argv;
      match r with
      | None => Uvm_drop pagetree;; mret None
      | Some sp => mret (Some (pagetree, sp))
      end
  end.

Definition kexec (i : nat) (path : list Z) (argv : list (list Z)) : KM (option unit) :=
  img ← lift (exec_image path);
  self ← proc i;
  let trapframe := p_trapframe self in
  r ←? lift (exec_build trapframe img argv);
  lift (tf_set trapframe tf_a0 (Z.of_nat (length argv)));;
  lift (tf_set trapframe tf_a1 r.2);;
  put_pagetable i r.1;;
  lift (tf_set trapframe tf_sp r.2);;
  lift (tf_set trapframe tf_epc USER_START);;
  mret (Some tt).

(** ** kexit *)

Definition kexit_enter (i : nat) (xstatus : Z) : KM bool :=
  self ← proc i;
  if decide (p_pid self = Some 0) then panic_with PInitExit
  else
    guard ← lift (IntMutex_lock IntMutex_new);
    KERNEL_lock;;
    self ← proc i;
    reparent (p_pid self);;
    KERNEL_unlock;;
    KERNEL_lock;;
    self ← proc i;
    wakeup (p_parent self);;
    KERNEL_unlock;;
    lock_proc i;;
    update i (set_xstatus xstatus);;
    update i (set_state Zombie);;
    lift (IntMutexGuard_drop guard);;
    sched_enter.
Definition kexit_leave {A} (prev : bool) : KM A :=
  sched_leave prev;;
  panic_with PCordyceps.

(** ** kwait *)

(** What the scan of the table found. *)
Record kids := mkKids { has_kids : bool; zombie_pid : option Z; zombie_xstatus : Z }.

(** Reaping the zombie [j]. *)
Definition reap (j : nat) : KM kids :=
  p ← proc j;
  r ← update_with j Process_free;
  unwrap r;;
  unlock_proc j;;
  mret (mkKids true (p_pid p) (p_xstatus p)).

Fixpoint scan (l : list nat) (parent_pid : option Z) (has_kids : bool) : KM kids :=
  match l with
  | [] => mret (mkKids has_kids None 0)
  | j :: l =>
      p ← proc j;
      if decide (p_parent p = parent_pid) then
        lock_proc j;;
        p ← proc j;
        if decide (p_state p = Zombie) then reap j
        else
          unlock_proc j;;
          scan l parent_pid true
      else scan l parent_pid has_kids
  end.

(** [iter_mut().find(|proc| proc.pid == pid)]. *)
Fixpoint find_pid (l : list nat) (pid : option Z) : KM (option nat) :=
  match l with
  | [] => mret None
  | j :: l => p ← proc j; if decide (p_pid p = pid) then mret (Some j) else find_pid l pid
  end.

(** Publishing that the process sleeps on its children. *)
Definition publish_sleep (parent_pid : option Z) : KM unit :=
  l ← indices;
  o ← find_pid l parent_pid;
  parent ← unwrap o;
  lock_proc parent;;
  update parent (set_channel parent_pid);;
  update parent (set_state Sleeping).

(** One iteration of the loop of [kwait]: its part under the kernel's lock, which ends
    with a reaped child, in the sleep or with no child at all ... *)
Inductive wait_scan := ScanReaped (pid xstatus : Z) | ScanSleep (prev : bool) | ScanNone.

Definition kwait_scan (i : nat) : KM wait_scan :=
  self ← proc i;
  let parent_pid := p_pid self in
  KERNEL_lock;;
  l ← indices;
  k ← scan l parent_pid false;
  (if decide (zombie_pid k = None ∧ has_kids k = true)
   then publish_sleep parent_pid else mret tt);;
  KERNEL_unlock;;
  match zombie_pid k with
  | Some pid => mret (ScanReaped pid (zombie_xstatus k))
  | None =>
      if has_kids k then
        prev ← sched_enter;
        mret (ScanSleep prev)
      else mret ScanNone
  end.

(** ... and its end: the result, or the sleep. *)
Inductive wait_next := WaitDone (ret : Z) | WaitSleep (prev : bool).

Definition store_status (i : nat) (status_addr xstatus : Z) : KM unit :=
  if decide (status_addr ≠ 0) then
    self ← proc i;
    r ← lift (copy_out (p_pagetable self) status_addr xstatus);
    unwrap r
  else mret tt.
Definition no_kids : list Z := str "no kids".
Definition kwait_end (i : nat) (status_addr : Z) (k : wait_scan) : KM wait_next :=
  match k with
  | ScanReaped pid xstatus => store_status i status_addr xstatus;; mret (WaitDone pid)
  | ScanSleep prev => mret (WaitSleep prev)
  | ScanNone => lift (println no_kids);; mret (WaitDone (-1))
  end.
Definition kwait_iter (i : nat) (status_addr : Z) : KM wait_next :=
  k ← kwait_scan i;
  kwait_end i status_addr k.
(** After the sleep, up to the next iteration. *)
Definition kwait_leave (i : nat) (prev : bool) : KM unit :=
  sched_leave prev;;
  update i (set_channel None);;
  unlock_proc i.

(** ** scheduler *)

(** The loop over the sorted table, which keeps the lock of the process it finds. *)
Fixpoint pick_loop (order : list nat) : KM (option nat) :=
  match order with
  | [] => mret None
  | i :: order =>
      lock_proc i;;
      p ← proc i;
      if decide (p_state p = Runnable) then
        update i (set_state Running);;
        mret (Some i)
      else
        unlock_proc i;;
        pick_loop order
  end.

Definition quants_of (t : list Process) (i : nat) : Z :=
  match t !! i with Some p => p_quants p | None => 0 end.

(** One iteration: interrupts are let in, then the table is searched. *)
Definition scheduler_open : KM unit :=
  lift (print (str "scheduler: "));;
  lift interrupt_on.
Definition scheduler_pick : KM (option nat) :=
  lift interrupt_off;;
  KERNEL_lock;;
  l ← indices;
  t ← gets (λ s, process_table (s_kernel s));
  let order := sort_by_key (quants_of t) l in
  found ← pick_loop order;
  KERNEL_unlock;;
  mret found.
(** Found: up to the switch to the process, and after the switch back. *)
Definition scheduler_dispatch (i : nat) : KM unit :=
  p ← proc i;
  q ← add32 (p_quants p) 1;
  update i (set_quants q);;
  set_current (Some i);;
  lift (println (str "switching to process " ++ fmt_option (p_pid p))).
Definition scheduler_return (i : nat) : KM unit :=
  set_current None;;
  unlock_proc i.
(** Not found: interrupts are let in and the hart waits for one. *)
Definition scheduler_idle : KM unit :=
  lift (println (str "no processes found"));;
  lift interrupt_on.

(** ** Returning to user space *)

Definition prepare_return (i : nat) : KM unit :=
  p ← proc i;
  lift (
    interrupt_off;;
    uservec_off ← sub32 uservec_addr trampoline;
    stvec_v ← add32 TRAMPOLINE uservec_off;
    write_csr stvec stvec_v;;
    kernel_satp ← read_csr satp;
    tf_set (p_trapframe p) tf_kernel_satp kernel_satp;;
    size ← mul32 KERNEL_STACK_PAGES PAGESIZE;
    kernel_sp ← add32 (p_kstack p) size;
    tf_set (p_trapframe p) tf_kernel_sp kernel_sp;;
    tf_set (p_trapframe p) tf_trap_handler usertrap_addr;;
    tf_set (p_trapframe p) tf_hartid 0;;
    w ← read_csr sstatus;
    write_csr sstatus (Z.lor (Z.land w (not32 SSTATUS_SPP)) SSTATUS_SPIE);;
    epc ← tf_get (p_trapframe p) tf_epc;
    write_csr sepc epc).

(** [forkret]: the address it jumps to and the argument it passes. *)
Definition forkret : KM (Z * Z) :=
  cur ← get_current;
  match cur with
  | None => fault
  | Some i =>
      unlock_proc i;;
      prepare_return i;;
      p ← proc i;
      let satp_v := usize_from_SATP (get_satp (p_pagetable p)) in
      userret_off ← sub32 userret_addr trampoline;
      trampoline_userret ← add32 TRAMPOLINE userret_off;
      mret (trampoline_userret, satp_v)
  end.
End sched.
