(* ===== verification/Trap.v ===== *)
(** System calls (src/kernel/src/kernel/syscall.rs and its modules) and the trap
    handlers of src/kernel/src/trap.rs, cut at the context switch like the code they
    call. *)
From Stdlib Require Import (notations) String.
From S2P Require Export Sched.

(** ** System calls *)

Definition SYS_FORK : Z := 1.
Definition SYS_EXIT : Z := 2.
Definition SYS_WAIT : Z := 3.
Definition SYS_PIPE : Z := 4.
Definition SYS_READ : Z := 5.
Definition SYS_KILL : Z := 6.
Definition SYS_EXEC : Z := 7.
Definition SYS_FSTAT : Z := 8.
Definition SYS_CHDIR : Z := 9.
Definition SYS_DUP : Z := 10.
Definition SYS_GETPID : Z := 11.
Definition SYS_SBRK : Z := 12.
Definition SYS_PAUSE : Z := 13.
Definition SYS_UPTIME : Z := 14.
Definition SYS_OPEN : Z := 15.
Definition SYS_WRITE : Z := 16.
Definition SYS_MKNOD : Z := 17.
Definition SYS_UNLINK : Z := 18.
Definition SYS_LINK : Z := 19.
Definition SYS_MKDIR : Z := 20.
Definition SYS_CLOSE : Z := 21.

(** Where a system call is when an interrupt comes, with its locals: it prints the rest of
    a text and will return [ret]; it reads the argument vector of [exec] at [argv_addr];
    it is about to call [kexec]; it is at the head of the loop of [kwait]; it has reaped a
    child there. *)
Inductive cont :=
  | InPrint (text : list Z) (ret : Z)
  | InArgs (path : list Z) (argv : list (list Z)) (argv_addr : Z)
  | InExec (path : list Z) (argv : list (list Z))
  | InWait (status_addr : Z)
  | InReaped (status_addr pid xstatus : Z).

(** Where a piece of a system call ends: the call returns, or goes on with interrupts on,
    or switches away with the locals that its rest needs. *)
Inductive sys_next :=
  | SysDone
  | SysMore (k : cont)
  | SysWait (status_addr : Z) (prev : bool)
  | SysExit (prev : bool).

Section syscall.
Context {E : Env}.

Definition sys_write (i : nat) : KM unit :=
  p ← proc i;
  lift (
    fd ← tf_get (p_trapframe p) tf_a0;
    addr ← tf_get (p_trapframe p) tf_a1;
    size ← tf_get (p_trapframe p) tf_a2;
    if decide (fd ≠ 1) then panic_with PWriteFd
    else
      o ← copy_in_cont (p_pagetable p) addr size;
      bytes ← unwrap o;
      msg ← unwrap (from_utf8 bytes);
      uart_print msg;;
      tf_set (p_trapframe p) tf_a0 0).

Definition sys_fork (i : nat) : KM unit :=
  o ← kfork i;
  unwrap o;;
  mret tt.

(** The loop that reads the argument vector, up to its null. *)
Fixpoint read_argv (n fuel : nat) (uvm : Uvm) (argv_addr : Z) : MM (list (list Z)) :=
  match n with
  | O => out_of_fuel
  | S n =>
      o ← copy_in uvm argv_addr;
      arg_addr ← unwrap o;
      if decide (arg_addr = 0) then mret []
      else
        o ← copy_in_str fuel uvm arg_addr;
        arg_str ← unwrap o;
        argv_addr ← add32 argv_addr 4;
        argv ← read_argv n fuel uvm argv_addr;
        mret (arg_str :: argv)
  end.

(** [fuel] bounds the length of the strings and of the vector. *)
Definition sys_exec (fuel : nat) (i : nat) : KM unit :=
  p ← proc i;
  path_addr ← lift (tf_get (p_trapframe p) tf_a0);
  argv_addr ← lift (tf_get (p_trapframe p) tf_a1);
  o ← lift (copy_in_str fuel (p_pagetable p) path_addr);
  path ← unwrap o;
  argv ← lift (read_argv fuel fuel (p_pagetable p) argv_addr);
  r ← kexec i path argv;
  unwrap r.

(** [kwait] from the head of its loop, and the result [sys_wait] stores; [-1] and the
    pids are 32-bit words. *)
Definition sys_return (i : nat) (ret : Z) : KM sys_next :=
  p ← proc i;
  lift (tf_set (p_trapframe p) tf_a0 (wrap32 ret));;
  mret SysDone.
Definition sys_wait_loop (i : nat) (status_addr : Z) : KM sys_next :=
  r ← kwait_iter i status_addr;
  match r with
  | WaitSleep prev => mret (SysWait status_addr prev)
  | WaitDone ret => sys_return i ret
  end.
Definition sys_wait_enter (i : nat) : KM sys_next :=
  p ← proc i;
  status_addr ← lift (tf_get (p_trapframe p) tf_a0);
  sys_wait_loop i status_addr.

Definition sys_exit_enter (i : nat) : KM sys_next :=
  p ← proc i;
  xstatus ← lift (tf_get (p_trapframe p) tf_a0);
  prev ← kexit_enter i xstatus;
  mret (SysExit prev).

(** [syscall]. *)
Definition syscall (fuel : nat) (i : nat) : KM sys_next :=
  p ← proc i;
  sys_num ← lift (tf_get (p_trapframe p) tf_a7);
  if decide (sys_num = SYS_WRITE) then sys_write i;; mret SysDone
  else if decide (sys_num = SYS_FORK) then sys_fork i;; mret SysDone
  else if decide (sys_num = SYS_EXEC) then sys_exec fuel i;; mret SysDone
  else if decide (sys_num = SYS_WAIT) then sys_wait_enter i
  else if decide (sys_num = SYS_EXIT) then sys_exit_enter i
  else panic_with PUnimplementedSyscall.

(** ** System calls in pieces

    Interrupts are on inside a system call.  It is cut where one can be let in: between
    two bytes that it prints, between two arguments, before [kexec], and on both sides of
    the lock of [kwait]; [fork] and [exit] hold a guard from end to end.  Without an
    interrupt the pieces are the system call ([syscall_in_pieces] in SyscallRun.v). *)

Definition sys_write_enter (i : nat) : KM sys_next :=
  p ← proc i;
  fd ← lift (tf_get (p_trapframe p) tf_a0);
  addr ← lift (tf_get (p_trapframe p) tf_a1);
  size ← lift (tf_get (p_trapframe p) tf_a2);
  if decide (fd ≠ 1) then panic_with PWriteFd
  else
    o ← lift (copy_in_cont (p_pagetable p) addr size);
    bytes ← unwrap o;
    msg ← unwrap (from_utf8 bytes);
    mret (SysMore (InPrint msg 0)).

Definition sys_exec_enter (fuel : nat) (i : nat) : KM sys_next :=
  p ← proc i;
  path_addr ← lift (tf_get (p_trapframe p) tf_a0);
  argv_addr ← lift (tf_get (p_trapframe p) tf_a1);
  o ← lift (copy_in_str fuel (p_pagetable p) path_addr);
  path ← unwrap o;
  mret (SysMore (InArgs path [] argv_addr)).

(** One turn of the loop that reads the vector. *)
Definition sys_exec_arg (fuel : nat) (i : nat) (path : list Z) (argv : list (list Z)) (argv_addr : Z) : KM sys_next :=
  p ← proc i;
  o ← lift (copy_in (p_pagetable p) argv_addr);
  arg_addr ← unwrap o;
  if decide (arg_addr = 0) then mret (SysMore (InExec path argv))
  else
    o ← lift (copy_in_str fuel (p_pagetable p) arg_addr);
    arg_str ← unwrap o;
    argv_addr ← add32 argv_addr 4;
    mret (SysMore (InArgs path (argv ++ [arg_str]) argv_addr)).

(** Up to the first place where an interrupt is let in. *)
Definition syscall_enter (fuel : nat) (i : nat) : KM sys_next :=
  p ← proc i;
  sys_num ← lift (tf_get (p_trapframe p) tf_a7);
  if decide (sys_num = SYS_WRITE) then sys_write_enter i
  else if decide (sys_num = SYS_FORK) then sys_fork i;; mret SysDone
  else if decide (sys_num = SYS_EXEC) then sys_exec_enter fuel i
  else if decide (sys_num = SYS_WAIT) then
    p ← proc i;
    status_addr ← lift (tf_get (p_trapframe p) tf_a0);
    mret (SysMore (InWait status_addr))
  else if decide (sys_num = SYS_EXIT) then sys_exit_enter i
  else panic_with PUnimplementedSyscall.

(** From there to the next one. *)
Definition syscall_more (fuel : nat) (i : nat) (k : cont) : KM sys_next :=
  match k with
  | InPrint [] ret => sys_return i ret
  | InPrint (b :: text) ret => lift (uart_write b);; mret (SysMore (InPrint text ret))
  | InArgs path argv argv_addr => sys_exec_arg fuel i path argv argv_addr
  | InExec path argv => r ← kexec i path argv; unwrap r;; mret SysDone
  | InWait status_addr =>
      r ← kwait_scan i;
      mret (match r with
            | ScanReaped pid xstatus => SysMore (InReaped status_addr pid xstatus)
            | ScanSleep prev => SysWait status_addr prev
            | ScanNone => SysMore (InPrint (no_kids ++ newline) (-1))
            end)
  | InReaped status_addr pid xstatus => store_status i status_addr xstatus;; sys_return i pid
  end.
End syscall.

(** ** Traps *)

Definition SIE_SEIE : Z := Z.shiftl 1 9.
Definition SIE_STIE : Z := Z.shiftl 1 5.

(** Where the entry of [usertrap] ends: at the system call, with interrupts on, or
    in the switch of [yeld]. *)
Inductive trap_next := TrapSyscall | TrapYield (prev : bool).
(** Where the entry of [kerneltrap] ends: it returns, or it is in [yeld]. *)
Inductive ktrap_next := KtrapDone (sepc_v sstatus_v : Z) | KtrapYield (i : nat) (sepc_v sstatus_v : Z) (prev : bool).

Section trap.
Context {E : Env}.

Definition init_trap : MM unit :=
  write_csr stvec kernelvec_addr;;
  w ← read_csr sie;
  write_csr sie (Z.lor (Z.lor w SIE_SEIE) SIE_STIE).

(** Asking for the next timer interrupt. *)
Definition timer_delta : Z := 1000000.

(** [usertrap], up to the call of [syscall] or to the switch. *)
Definition usertrap_enter : KM (nat * trap_next) :=
  sepc_v ← lift (read_csr sepc);
  sstatus_v ← lift (read_csr sstatus);
  scause_v ← lift (read_csr scause);
  cur ← get_current;
  match cur with
  | None => panic_with PNullCurrent
  | Some i =>
      if decide (Z.land sstatus_v SSTATUS_SPP ≠ 0) then panic_with PTrapMode
      else
        on ← lift interrupt_read;
        if on : bool then panic_with PTrapInterrupts
        else
          lift (write_csr stvec kernelvec_addr);;
          p ← proc i;
          lift (tf_set (p_trapframe p) tf_epc sepc_v);;
          if decide (scause_v = 8) then
            epc ← lift (tf_get (p_trapframe p) tf_epc);
            epc ← add32 epc 4;
            lift (tf_set (p_trapframe p) tf_epc epc);;
            lift interrupt_on;;
            mret (i, TrapSyscall)
          else if decide (scause_v = 0x80000005) then
            time_v ← lift (read_csr time);
            next ← add32 time_v timer_delta;
            lift (print (str "user>time: 0x" ++ fmt_hex time_v ++ str ", next timer on: 0x"
                         ++ fmt_hex next ++ newline));;
            lift (write_csr Stimecmp next);;
            prev ← yeld_enter i;
            mret (i, TrapYield prev)
          else panic_with PTrapCause
  end.
(** The end of [usertrap]: the satp of the process, for [userret]. *)
Definition usertrap_leave (i : nat) : KM Z :=
  prepare_return i;;
  p ← proc i;
  mret (usize_from_SATP (get_satp (p_pagetable p))).

(** [kerneltrap], up to its end or to the switch. *)
Definition kerneltrap_enter : KM ktrap_next :=
  sepc_v ← lift (read_csr sepc);
  sstatus_v ← lift (read_csr sstatus);
  scause_v ← lift (read_csr scause);
  stval_v ← lift (read_csr stval);
  if decide (Z.land sstatus_v SSTATUS_SPP = 0) then panic_with PTrapMode
  else
    on ← lift interrupt_read;
    if on : bool then panic_with PTrapInterrupts
    else
      cur ← get_current;
      pid ← (match cur with
             | None => mret None
             | Some i => p ← proc i; mret (p_pid p)
             end);
      lift (kprintln [str ">TRAP "; fmt_option pid; str " sepc=0x"; fmt_hex8 sepc_v;
                      str " sstatus=0b"; fmt_bin sstatus_v; str " scause=0x"; fmt_hex scause_v;
                      str " stval=0x"; fmt_hex stval_v]);;
      if decide (scause_v = 0x80000005) then
        time_v ← lift (read_csr time);
        next ← add32 time_v timer_delta;
        lift (kprintln [str ">time: 0x"; fmt_hex time_v; str ", next timer on: 0x"; fmt_hex next]);;
        lift (write_csr Stimecmp next);;
        match cur with
        | None => mret (KtrapDone sepc_v sstatus_v)
        | Some i =>
            lift (kprintln [str "yelding"]);;
            prev ← yeld_enter i;
            mret (KtrapYield i sepc_v sstatus_v prev)
        end
      else panic_with PTrapCause.
Definition kerneltrap_leave (sepc_v sstatus_v : Z) : KM unit :=
  lift (write_csr sepc sepc_v);;
  lift (write_csr sstatus sstatus_v).
End trap.
