(* ===== verification/Calm.v ===== *)
(** Which outcomes the control flow of the kernel must never have, a program logic
    for that, and the machine operations that leave the interrupt state, the disable
    stack and the locks as they find them. *)
From S2P Require Export Trap.

(** ** The program logic *)

(** The panics that a broken scheduling or locking discipline would raise. *)
Definition discipline_panic (p : panic) : bool :=
  match p with
  | PPopEmpty | PSchedInterrupts | PSchedLocks | PSchedRunning | PCordyceps
  | PNullCurrent | PTrapMode | PTrapInterrupts => true
  | _ => false
  end.

(** An outcome that keeps the discipline: the hart does not spin on a lock it holds
    itself, and no discipline panic is raised. *)
Definition disciplined {S A} (o : outcome S A) : Prop :=
  match o with
  | Panic p => discipline_panic p = false
  | Spin => False
  | _ => True
  end.

(** [wpd m Q s]: the outcome is disciplined, and if [m] returns then [Q] holds. *)
Definition wpd {S A} (m : M S A) (Q : A → S → Prop) (s : S) : Prop :=
  match m s with Done a s' => Q a s' | o => disciplined o end.

Section wpd.
Context {S A B : Type}.
Implicit Types (s : S).

Lemma wpd_disciplined (m : M S A) Q s : wpd m Q s → disciplined (m s).
Proof. unfold wpd. by destruct (m s). Qed.
Lemma wpd_done (m : M S A) (Q : A → S → Prop) s a s' : wpd m Q s → m s = Done a s' → Q a s'.
Proof. unfold wpd. by intros ? H; rewrite H in *. Qed.
Lemma wpd_ret (a : A) (Q : A → S → Prop) s : Q a s → wpd (mret a) Q s.
Proof. done. Qed.
Lemma wpd_bind (m : M S A) (f : A → M S B) Q s :
  wpd m (λ a, wpd (f a) Q) s → wpd (m ≫= f) Q s.
Proof. unfold wpd, mbind, M_bind. by destruct (m s). Qed.
Lemma wpd_mono (m : M S A) (Q R : A → S → Prop) s :
  wpd m Q s → (∀ a s', Q a s' → R a s') → wpd m R s.
Proof. unfold wpd. destruct (m s); naive_solver. Qed.
Lemma wpd_gets (f : S → A) (Q : A → S → Prop) s : Q (f s) s → wpd (gets f) Q s.
Proof. done. Qed.
Lemma wpd_modify (f : S → S) (Q : unit → S → Prop) s : Q tt (f s) → wpd (modify f) Q s.
Proof. done. Qed.
Lemma wpd_panic p (Q : A → S → Prop) s : discipline_panic p = false → wpd (panic_with p) Q s.
Proof. done. Qed.
Lemma wpd_fault (Q : A → S → Prop) s : wpd fault Q s.
Proof. done. Qed.
Lemma wpd_unwrap (o : option A) (Q : A → S → Prop) s :
  (∀ a, o = Some a → Q a s) → wpd (unwrap o) Q s.
Proof. destruct o; intros H; [by apply H|done]. Qed.
End wpd.

Section wpd_checked.
Context {S : Type}.
Lemma wpd_add32 a b (Q : Z → S → Prop) s : Q (a + b) s → wpd (add32 a b) Q s.
Proof. intros. unfold add32. by case_decide. Qed.
Lemma wpd_sub32 a b (Q : Z → S → Prop) s : Q (a - b) s → wpd (sub32 a b) Q s.
Proof. intros. unfold sub32. by case_decide. Qed.
Lemma wpd_mul32 a b (Q : Z → S → Prop) s : Q (a * b) s → wpd (mul32 a b) Q s.
Proof. intros. unfold mul32. by case_decide. Qed.
End wpd_checked.

Lemma wpd_for_each_try {St A} (I : nat → St → Prop) (l : list A) (body : A → M St (option unit))
    (Q : option unit → St → Prop) (s : St) :
  (∀ k x s, I k s → wpd (body x) (λ o s', match o with Some _ => I (S k) s' | None => True end) s) →
  I 0%nat s →
  (∀ o s', match o with Some _ => I (length l) s' | None => True end → Q o s') →
  wpd (for_each_try l body) Q s.
Proof.
  intros Hbody HI HQ.
  assert (∀ l' k s, (k + length l' = length l)%nat → I k s → wpd (for_each_try l' body) Q s) as Hloop;
    [|by apply (Hloop l 0%nat)].
  clear HI s. induction l' as [|x l' IH]; intros k s Hlen HI; cbn [for_each_try].
  { apply wpd_ret, HQ. cbn in Hlen. by rewrite Nat.add_0_r in Hlen; subst. }
  apply wpd_bind. eapply wpd_mono; [by apply Hbody|]. intros [[]|] s' HI'.
  - apply (IH (S k)); [cbn in Hlen; lia|done].
  - by apply wpd_ret, HQ.
Qed.

Lemma wpd_KSTACK {St} i (Q : Z → St → Prop) (s : St) : (∀ v, Q v s) → wpd (KSTACK i) Q s.
Proof.
  intros HQ. unfold KSTACK.
  apply wpd_bind, wpd_add32, wpd_bind, wpd_mul32, wpd_bind, wpd_add32, wpd_bind, wpd_mul32, wpd_bind, wpd_sub32, wpd_add32.
  apply HQ.
Qed.

Create HintDb calm.

Section calm.
Context {E : Env} {EL : EnvLaws E}.
Implicit Types (s : Machine).

(** ** The interrupt state *)

(** The disable stack is [d] deep, and [pv] is the interrupt state it will restore,
    or, when it is empty, the interrupt state. *)
Record at_depth s (d : Z) (pv : bool) : Prop := {
  ad_stack : stack s = d;
  ad_nonneg : 0 ≤ d;
  ad_sie : sie_on s = if decide (d = 0) then pv else false;
  ad_prev : d ≠ 0 → prev s = pv;
}.
Definition heap_free s : Prop := lock_held (m_heap_lock s) = false.

(** What the running hart is. *)
Definition same_thread s s' : Prop := current (m_cpu s') = current (m_cpu s).

#[global] Instance same_thread_preorder : PreOrder same_thread.
Proof. split; [done|]. unfold same_thread. congruence. Qed.

Lemma wpd_interrupt_read (Q : bool → Machine → Prop) s : Q (sie_on s) s → wpd interrupt_read Q s.
Proof.
  intros HQ. pose proof (interrupt_read_spec (fails:=False) (λ b s', Q b s') s HQ) as H.
  unfold wpd, wp in *. by destruct (interrupt_read s).
Qed.

Lemma wpd_push (Q : unit → Machine → Prop) s d pv :
  at_depth s d pv →
  (∀ s', at_depth s' (d + 1) pv → same_thread s s' → m_heap_lock s' = m_heap_lock s → Q tt s') →
  wpd push_interrupt_off Q s.
Proof.
  intros [Hst Hd Hs Hp] HQ. unfold push_interrupt_off. apply wpd_bind, wpd_interrupt_read.
  assert (∀ w, Z.testbit (Z.land w (not32 trap_SSTATUS_SIE)) 1 = false) as Hoff.
  { intros w. rewrite Z.land_spec. apply andb_false_r. }
  unfold interrupt_off. apply wpd_bind, wpd_bind, wpd_gets, wpd_modify, wpd_bind, wpd_gets.
  cbn [m_cpu set_csr]. unfold modify_cpu. unfold stack in Hst. rewrite Hst in *.
  set (s1 := set_csr _ s).
  assert (sie_on s1 = false) as Hs1.
  { unfold sie_on, s1. cbn [m_csr set_csr]. by rewrite csr_set_eq. }
  assert (m_cpu s1 = m_cpu s ∧ m_heap_lock s1 = m_heap_lock s) as [Hc1 Hl1] by done.
  clearbody s1. apply wpd_bind. unfold same_thread in HQ.
  destruct (decide (d = 0)) as [->|Hne].
  - apply wpd_modify, wpd_bind, wpd_add32, wpd_modify, HQ; [|cbn; by rewrite Hc1|done].
    split; [done|lia|done|]. intros _. exact Hs.
  - apply wpd_ret, wpd_bind, wpd_add32, wpd_modify, HQ; [|cbn; by rewrite Hc1|done].
    split; [done|lia| |].
    { rewrite decide_False by lia. exact Hs1. }
    intros _. rewrite <- Hp by done. unfold prev; cbn. by rewrite Hc1.
Qed.

Lemma wpd_pop (Q : unit → Machine → Prop) s d pv :
  at_depth s d pv → 0 < d →
  (∀ s', at_depth s' (d - 1) pv → same_thread s s' → m_heap_lock s' = m_heap_lock s → Q tt s') →
  wpd pop_interrupt_off Q s.
Proof.
  intros [Hst Hd Hs Hp] Hpos HQ. unfold pop_interrupt_off, modify_cpu. unfold stack, prev in *.
  apply wpd_bind, wpd_gets. rewrite Hst, Hp by lia. rewrite decide_False in Hs by lia.
  rewrite decide_False by lia. unfold sub32. rewrite decide_True by lia.
  apply wpd_bind, wpd_ret, wpd_bind, wpd_modify.
  set (s1 := set_cpu _ s).
  destruct (decide (d - 1 = 0 ∧ pv = true)) as [[Hd1 ->]|Hn].
  - unfold interrupt_on. apply wpd_bind, wpd_gets, wpd_modify, HQ; try done.
    split; [done|lia| |intros ?; by apply Hp; lia]. unfold sie_on. cbn [m_csr set_csr].
    rewrite csr_set_eq, decide_True, Z.lor_spec by done. apply orb_true_r.
  - apply wpd_ret, HQ; try done. split; [done|lia| |intros ?; by apply Hp; lia].
    change (sie_on s1) with (sie_on s). rewrite Hs. case_decide; [|done].
    destruct pv; [|done]. exfalso. by apply Hn.
Qed.

(** ** Calm operations *)

(** Disciplined, and back at the depth and with the current process it found. *)
Definition Calm {A} (m : MM A) : Prop :=
  ∀ s d pv, at_depth s d pv → heap_free s →
    wpd m (λ _ s', at_depth s' d pv ∧ heap_free s' ∧ same_thread s s') s.

Lemma calm_ret {A} (a : A) : Calm (mret a).
Proof. by intros s d pv H Hl. Qed.
Lemma calm_bind {A B} (m : MM A) (f : A → MM B) :
  Calm m → (∀ a, Calm (f a)) → Calm (m ≫= f).
Proof.
  intros Hm Hf s d pv H Hl. apply wpd_bind. eapply wpd_mono; [by apply Hm|].
  intros a s1 (H1 & Hl1 & Ht1). eapply wpd_mono; [by apply Hf|].
  intros b s2 (H2 & Hl2 & Ht2). split_and!; [done..|]. by trans s1.
Qed.
Lemma calm_panic {A} p : discipline_panic p = false → Calm (panic_with p : MM A).
Proof. by intros Hp s d pv H Hl. Qed.
Lemma calm_fault {A} : Calm (fault : MM A).
Proof. by intros s d pv H Hl. Qed.
Lemma calm_out_of_fuel {A} : Calm (out_of_fuel : MM A).
Proof. by intros s d pv H Hl. Qed.
Lemma calm_gets {A} (f : Machine → A) : Calm (gets f).
Proof. by intros s d pv H Hl. Qed.
Lemma calm_get : Calm get.
Proof. by intros s d pv H Hl. Qed.
Lemma calm_unwrap {A} (o : option A) : Calm (unwrap o).
Proof. destruct o; [apply calm_ret|by apply calm_panic]. Qed.
Lemma calm_add32 a b : Calm (add32 a b).
Proof. unfold add32. case_decide; [apply calm_ret|by apply calm_panic]. Qed.
Lemma calm_sub32 a b : Calm (sub32 a b).
Proof. unfold sub32. case_decide; [apply calm_ret|by apply calm_panic]. Qed.
Lemma calm_mul32 a b : Calm (mul32 a b).
Proof. unfold mul32. case_decide; [apply calm_ret|by apply calm_panic]. Qed.

(** A change that spares the CPU record, sstatus and the heap's lock. *)
Lemma calm_modify (f : Machine → Machine) :
  (∀ s, m_cpu (f s) = m_cpu s ∧ m_csr (f s) sstatus = m_csr s sstatus ∧
        m_heap_lock (f s) = m_heap_lock s) →
  Calm (modify f).
Proof.
  intros Hf s d pv [H1 H2 H3 H4] H5. destruct (Hf s) as (Hc & Hs & Hl). apply wpd_modify.
  unfold same_thread, heap_free. rewrite Hl. split_and!; [|done|by rewrite Hc].
  split; unfold stack, sie_on, prev in *; by rewrite ?Hc, ?Hs, ?Hl.
Qed.

Lemma calm_write_csr (c : csr_name) v : c ≠ sstatus → Calm (write_csr c v).
Proof. intros Hc. apply calm_modify. intros s. cbn. by rewrite csr_set_ne. Qed.

Lemma calm_for_each {A} (l : list A) (body : A → MM unit) :
  (∀ x, Calm (body x)) → Calm (for_each l body).
Proof.
  intros H. induction l as [|x l IH]; [apply calm_ret|]. by apply calm_bind; [|intros _].
Qed.


(** A critical section on the heap's lock: [body] sees it taken and works on the heap
    and on memory. *)
Lemma calm_critical {A} (body : MM A) :
  (∀ s, wpd body (λ _ s', m_cpu s' = m_cpu s ∧ m_csr s' = m_csr s) s) →
  Calm (l ← gets m_heap_lock;
        guard ← IntMutex_lock l;
        modify (set_heap_lock guard);;
        r ← body;
        guard ← gets m_heap_lock;
        l ← IntMutexGuard_drop guard;
        modify (set_heap_lock l);;
        mret r).
Proof.
  intros Hbody s d pv H Hl. apply wpd_bind, wpd_gets. unfold IntMutex_lock.
  apply wpd_bind, wpd_bind. eapply wpd_push; [done|]. intros s1 H1 Ht1 _.
  unfold spin_lock. destruct (lock_acquire_free _ Hl) as (g & -> & Hg).
  apply wpd_ret, wpd_bind, wpd_modify, wpd_bind.
  eapply wpd_mono; [apply Hbody|]. intros r s2 [Hc Hs]. cbn [m_cpu m_csr set_heap_lock] in Hc, Hs.
  apply wpd_bind, wpd_gets. unfold IntMutexGuard_drop. apply wpd_bind, wpd_bind.
  destruct H1 as [K1 K2 K3 K4]. eapply (wpd_pop _ s2 (d + 1) pv).
  - split; unfold stack, sie_on, prev in *; by rewrite ?Hc, ?Hs.
  - pose proof (ad_nonneg _ _ _ H). lia.
  - intros s3 H3 Ht3 _. apply wpd_ret, wpd_bind, wpd_modify, wpd_ret.
    rewrite Z.add_simpl_r in H3. split_and!.
    + destruct H3. by split.
    + apply lock_release_free.
    + unfold same_thread in *. cbn. rewrite Ht3, Hc, Ht1. done.
Qed.
End calm.

#[export] Hint Resolve calm_ret calm_fault calm_out_of_fuel calm_gets calm_get calm_unwrap
  calm_add32 calm_sub32 calm_mul32 : calm.
#[export] Hint Extern 1 (Calm (panic_with _)) => apply calm_panic; reflexivity : calm.
#[export] Hint Extern 1 (Calm (write_csr _ _)) => apply calm_write_csr; discriminate : calm.
#[export] Hint Extern 1 (Calm (modify _)) => apply calm_modify; intros; split_and!; reflexivity : calm.

(** Works through straight-line code and its branches. *)
Ltac calm_step :=
  cbv zeta beta;
  lazymatch goal with
  | |- Calm (mbind _ _) => apply calm_bind; [|intros ?]
  | |- Calm (for_each _ _) => apply calm_for_each; intros ?
  | |- Calm (match ?x with _ => _ end) => destruct x
  | |- Calm _ => solve [auto with calm]
  end.
Ltac calm := repeat calm_step.

(** ** The operations of the machine *)

Section operations.
Context {E : Env} {EL : EnvLaws E}.

Lemma calm_read_csr c : Calm (read_csr c).
Proof. unfold read_csr. calm. Qed.
Lemma calm_read8 a : Calm (read8 a).
Proof. unfold read8. calm. Qed.
(** A store that may fault. *)
Lemma calm_store (P : Machine → Prop) `{!∀ s, Decision (P s)} (f : Machine → mem) :
  Calm (λ s, if decide (P s) then Done tt (set_mem (f s) s) else Fault).
Proof. intros s d pv [] Hl. unfold wpd. destruct (decide (P s)); [|done]. split_and!; [by split|done..]. Qed.
Lemma calm_write8 a v : Calm (write8 a v).
Proof. apply (calm_store (λ s, storable s a 1)). Qed.
Lemma calm_read32 a : Calm (read32 a).
Proof. unfold read32. calm. Qed.
Lemma calm_write32 a v : Calm (write32 a v).
Proof. apply (calm_store (λ s, storable s a 4 ∧ a mod 4 = 0)). Qed.
Lemma calm_write_bytes a v n : Calm (write_bytes a v n).
Proof. apply (calm_store (λ s, storable s a n)). Qed.
Lemma calm_copy_nonoverlapping a b n : Calm (copy_nonoverlapping a b n).
Proof. apply (calm_store (λ s, in_ram a n ∧ storable s b n ∧ (a + n ≤ b ∨ b + n ≤ a))). Qed.
#[local] Hint Resolve calm_read_csr calm_read8 calm_write8 calm_read32 calm_write32
  calm_write_bytes calm_copy_nonoverlapping : calm.

(** The three critical sections of the allocator, brought to the shape of
    [calm_critical]. *)
Ltac critical_ext := intros; unfold mbind, M_bind, get, gets, modify, mret, M_ret;
  repeat match goal with
  | |- context [match ?x with _ => _ end] => destruct x; try reflexivity
  | u : unit |- _ => destruct u; try reflexivity
  end.

Lemma calm_ext {A} (m m' : MM A) : (∀ s, m s = m' s) → Calm m' → Calm m.
Proof. intros He Hm s d pv H Hl. unfold wpd. rewrite He. by apply Hm. Qed.

Lemma calm_LockedHeap_alloc layout : Calm (LockedHeap_alloc layout).
Proof.
  unfold LockedHeap_alloc. eapply calm_ext; [|eapply (calm_bind _ (λ r, mret (default 0 r)))].
  2: { apply (calm_critical (s ← get; let '(r, h, m) := heap_alloc (m_heap s) (m_mem s) layout in
         modify (λ s, set_heap h (set_mem m s));; mret r)). intros s. apply wpd_bind, wpd_gets.
       destruct (heap_alloc _ _ _) as [[? ?] ?]. by apply wpd_bind, wpd_modify, wpd_ret. }
  - critical_ext.
  - intros r. calm.
Qed.
Lemma calm_LockedHeap_dealloc p layout : Calm (LockedHeap_dealloc p layout).
Proof.
  unfold LockedHeap_dealloc. apply calm_bind; [calm|intros q].
  eapply calm_ext; [|apply (calm_critical (s ← get; let '(h, m) := heap_dealloc (m_heap s) (m_mem s) q layout in
         modify (λ s, set_heap h (set_mem m s))))].
  - critical_ext.
  - intros s. apply wpd_bind, wpd_gets. destruct (heap_dealloc _ _ _ _) as [? ?]. by apply wpd_modify.
Qed.
Lemma calm_HEAP_ALLOCATOR_init start size : Calm (HEAP_ALLOCATOR_init start size).
Proof.
  unfold HEAP_ALLOCATOR_init. eapply calm_ext; [|apply (calm_critical (s ← get; let '(h, m) := heap_init (m_heap s) (m_mem s) start size in
         modify (λ s, set_heap h (set_mem m s))))].
  - critical_ext.
  - intros s. apply wpd_bind, wpd_gets. destruct (heap_init _ _ _ _) as [? ?]. by apply wpd_modify.
Qed.
#[local] Hint Resolve calm_LockedHeap_alloc calm_LockedHeap_dealloc calm_HEAP_ALLOCATOR_init : calm.

Lemma calm_FrameAllocator_allocate layout : Calm (FrameAllocator_allocate layout).
Proof. unfold FrameAllocator_allocate. calm. Qed.
Lemma calm_FrameAllocator_deallocate p layout : Calm (FrameAllocator_deallocate p layout).
Proof. unfold FrameAllocator_deallocate. calm. Qed.
#[local] Hint Resolve calm_FrameAllocator_allocate calm_FrameAllocator_deallocate : calm.

(** Page tables. *)
Lemma calm_walk t va w : Calm (walk t va w).
Proof. unfold walk. calm. Qed.
#[local] Hint Resolve calm_walk : calm.
Lemma calm_map_loop n t va pa e perm : Calm (map_loop n t va pa e perm).
Proof. revert va pa. induction n; intros; cbn [map_loop]; calm. Qed.
#[local] Hint Resolve calm_map_loop : calm.
Lemma calm_map t va pa n perm : Calm (map t va pa n perm).
Proof. unfold map. calm. Qed.
Lemma calm_unmap_page t va free : Calm (unmap_page t va free).
Proof. unfold unmap_page. calm. Qed.
#[local] Hint Resolve calm_map calm_unmap_page : calm.
Lemma calm_unmap_loop n t va free : Calm (unmap_loop n t va free).
Proof. revert va. induction n; intros; cbn [unmap_loop]; calm. Qed.
#[local] Hint Resolve calm_unmap_loop : calm.
Lemma calm_unmap t va n free : Calm (unmap t va n free).
Proof. unfold unmap. calm. Qed.
Lemma calm_PageTable_new : Calm PageTable_new.
Proof. unfold PageTable_new. calm. Qed.
Lemma calm_free_req n rt : Calm (free_req n rt).
Proof. revert rt. induction n; intros; cbn [free_req]; calm. Qed.
#[local] Hint Resolve calm_unmap calm_PageTable_new calm_free_req : calm.
Lemma calm_PageTable_default : Calm PageTable_default.
Proof. apply calm_PageTable_new. Qed.
Lemma calm_PageTable_free t : Calm (PageTable_free t).
Proof. unfold PageTable_free. calm. Qed.
Lemma calm_PageTable_drop t : Calm (PageTable_drop t).
Proof. apply calm_PageTable_free. Qed.
#[local] Hint Resolve calm_PageTable_drop calm_PageTable_default : calm.

(** Address spaces. *)
Lemma calm_Kvm_init : Calm Kvm_init.
Proof. unfold Kvm_init. calm. Qed.
Lemma calm_alloc_kstack k va : Calm (alloc_kstack k va).
Proof. unfold alloc_kstack. calm. Qed.
Lemma calm_start_kvm k : Calm (start_kvm k).
Proof. unfold start_kvm. calm. Qed.
Lemma calm_Uvm_new : Calm Uvm_new.
Proof. unfold Uvm_new. calm. Qed.
Lemma calm_Uvm_free u : Calm (Uvm_free u).
Proof. unfold Uvm_free. calm. Qed.
#[local] Hint Resolve calm_Uvm_new calm_Uvm_free : calm.
Lemma calm_Uvm_drop u : Calm (Uvm_drop u).
Proof. unfold Uvm_drop. calm. Qed.
Lemma calm_Uvm_end u : Calm (Uvm_end u).
Proof. unfold Uvm_end. calm. Qed.
#[local] Hint Resolve calm_Uvm_drop calm_Uvm_end : calm.
Lemma calm_alloc_loop n u size perm : Calm (alloc_loop n u size perm).
Proof. revert u. induction n; intros; cbn [alloc_loop]; calm. Qed.
#[local] Hint Resolve calm_alloc_loop : calm.
Lemma calm_Uvm_alloc u size perm : Calm (Uvm_alloc u size perm).
Proof. unfold Uvm_alloc. calm. Qed.
#[local] Hint Resolve calm_Uvm_alloc : calm.
Lemma calm_Uvm_grow u size perm : Calm (Uvm_grow u size perm).
Proof. unfold Uvm_grow. calm. Qed.
Lemma calm_clone_page u v a : Calm (clone_page u v a).
Proof. unfold clone_page. calm. Qed.
#[local] Hint Resolve calm_clone_page : calm.
Lemma calm_Uvm_clone u : Calm (Uvm_clone u).
Proof. unfold Uvm_clone. calm. Qed.
Lemma calm_init_proc u t : Calm (init_proc u t).
Proof. unfold init_proc. calm. Qed.
Lemma calm_load_loop u va l : Calm (load_loop u va l).
Proof. revert va. induction l; intros; cbn [load_loop]; calm. Qed.
#[local] Hint Resolve calm_load_loop : calm.
Lemma calm_Uvm_load u va img : Calm (Uvm_load u va img).
Proof. unfold Uvm_load. calm. Qed.

(** Copies. *)
Lemma calm_walkaddr t va : Calm (walkaddr t va).
Proof. unfold walkaddr. calm. Qed.
#[local] Hint Resolve calm_walkaddr : calm.
Lemma calm_copy_in u a : Calm (copy_in u a).
Proof. unfold copy_in. calm. Qed.
Lemma calm_read_bytes n a : Calm (read_bytes n a).
Proof. revert a. induction n; intros; cbn [read_bytes]; calm. Qed.
Lemma calm_read_str n a : Calm (read_str n a).
Proof. revert a. induction n; intros; cbn [read_str]; calm. Qed.
Lemma calm_write_bytes_at a l : Calm (write_bytes_at a l).
Proof. revert a. induction l; intros; cbn [write_bytes_at]; calm. Qed.
Lemma calm_write_words_at a l : Calm (write_words_at a l).
Proof. revert a. induction l; intros; cbn [write_words_at]; calm. Qed.
#[local] Hint Resolve calm_read_bytes calm_read_str calm_write_bytes_at calm_write_words_at : calm.
Lemma calm_copy_in_cont u a n : Calm (copy_in_cont u a n).
Proof. unfold copy_in_cont. calm. Qed.
Lemma calm_copy_in_str n u a : Calm (copy_in_str n u a).
Proof. unfold copy_in_str. calm. Qed.
Lemma calm_copy_out u a v : Calm (copy_out u a v).
Proof. unfold copy_out. calm. Qed.
Lemma calm_copy_out_cont_u8 u a l : Calm (copy_out_cont_u8 u a l).
Proof. unfold copy_out_cont_u8. calm. Qed.
Lemma calm_copy_out_cont_usize u a l : Calm (copy_out_cont_usize u a l).
Proof. unfold copy_out_cont_usize. calm. Qed.

(** Console and trap frames. *)
Lemma calm_uart_write b : Calm (uart_write b).
Proof. unfold uart_write. calm. Qed.
Lemma calm_uart_print l : Calm (uart_print l).
Proof. unfold uart_print, uart_write. calm. Qed.
Lemma calm_kprintln l : Calm (kprintln l).
Proof. intros s d pv [] Hl. unfold wpd. rewrite kprintln_run. split_and!; [by split|done..]. Qed.
Lemma calm_tf_get t f : Calm (tf_get t f).
Proof. unfold tf_get. calm. Qed.
Lemma calm_tf_set t f v : Calm (tf_set t f v).
Proof. unfold tf_set. calm. Qed.
#[local] Hint Resolve calm_tf_get calm_tf_set : calm.
Lemma calm_Box_new_in l : Calm (Box_new_in l).
Proof. unfold Box_new_in, tf_write_all. calm. Qed.
Lemma calm_Box_drop p : Calm (Box_drop p).
Proof. unfold Box_drop. calm. Qed.
Lemma calm_Trapframe_clone t : Calm (Trapframe_clone t).
Proof. unfold Trapframe_clone. induction tf_fields; cbn [tf_read_fields]; calm. Qed.
Lemma calm_init_trap : Calm init_trap.
Proof. unfold init_trap. calm. Qed.
End operations.

#[export] Hint Resolve calm_read_csr calm_read8 calm_write8 calm_read32 calm_write32
  calm_write_bytes calm_copy_nonoverlapping calm_LockedHeap_alloc calm_LockedHeap_dealloc
  calm_HEAP_ALLOCATOR_init calm_FrameAllocator_allocate calm_FrameAllocator_deallocate
  calm_walk calm_map calm_unmap calm_PageTable_new calm_PageTable_free calm_Kvm_init
  calm_alloc_kstack calm_start_kvm calm_Uvm_new calm_Uvm_drop calm_Uvm_end calm_Uvm_alloc
  calm_Uvm_grow calm_Uvm_clone calm_init_proc calm_Uvm_load calm_copy_in calm_copy_in_cont
  calm_copy_in_str calm_copy_out calm_copy_out_cont_u8 calm_copy_out_cont_usize
  calm_uart_print calm_kprintln calm_tf_get calm_tf_set calm_Box_new_in calm_Box_drop
  calm_Trapframe_clone calm_init_trap : calm.
#[export] Hint Extern 1 (Calm (print _)) => apply calm_uart_print : calm.
#[export] Hint Extern 1 (Calm (println _)) => apply calm_uart_print : calm.

(** The kernel's own machine code. *)
Section kernel_operations.
Context {E : Env} {EL : EnvLaws E}.

Lemma calm_KSTACK n : Calm (KSTACK n).
Proof. unfold KSTACK. calm. Qed.
#[local] Hint Resolve calm_KSTACK : calm.
Lemma calm_Process_new n : Calm (Process_new n).
Proof. unfold Process_new. calm. Qed.
Lemma calm_exec_image path : Calm (exec_image path).
Proof. unfold exec_image. calm. Qed.
Lemma calm_exec_space u t img : Calm (exec_space u t img).
Proof. unfold exec_space. calm. Qed.
Lemma calm_push_args u base sp argv acc : Calm (push_args u base sp argv acc).
Proof. revert sp acc. induction argv; intros; cbn [push_args]; calm. Qed.
#[local] Hint Resolve calm_exec_space calm_push_args : calm.
Lemma calm_exec_stack u argv : Calm (exec_stack u argv).
Proof. unfold exec_stack. calm. Qed.
#[local] Hint Resolve calm_exec_stack : calm.
Lemma calm_exec_build t img argv : Calm (exec_build t img argv).
Proof. unfold exec_build. calm. Qed.
Lemma calm_read_argv n fuel u a : Calm (read_argv n fuel u a).
Proof. revert a. induction n; intros; cbn [read_argv]; calm. Qed.
End kernel_operations.
#[export] Hint Resolve calm_KSTACK calm_Process_new calm_exec_image calm_exec_build
  calm_read_argv : calm.
