(* ===== verification/System.v ===== *)
(** The running system: [main] of src/kernel/src/main.rs, and the steps between
    which control changes hands: the scheduler, the processes in user mode, the traps
    and the switches.  A step is a stretch of kernel code that runs with interrupts
    off, or between two places where an interrupt is let in. *)
From Stdlib Require Import (notations) String.
From S2P Require Export Trap Asm.

Section system.
Context {E : Env}.

(** ** Boot *)

(** [KERNEL.call_once(|| IntMutex::new(Kernel::default()))]. *)
Definition KERNEL_call_once : KM unit :=
  once ← gets s_once;
  if once : bool then mret tt
  else modify (λ s, mkSys (s_mach s) Kernel_default IntMutex_new true).

(** [main], up to the call of [scheduler]. *)
Definition main_boot : KM unit :=
  size ← sub32 RAMEND ekernel;
  lift (HEAP_ALLOCATOR_init ekernel size);;
  lift init_trap;;
  KERNEL_call_once;;
  KERNEL_lock;;
  r ← Kernel_init;
  unwrap r;;
  r ← initproc 4;
  unwrap r;;
  o ← gets (λ s, k_kvm (s_kernel s));
  kvm ← unwrap o;
  lift (start_kvm kvm);;
  o ← allocproc;
  user_p0 ← unwrap o;
  unlock_proc user_p0;;
  r ← kexec user_p0 (str "init") [str "10"];
  unwrap r;;
  update user_p0 (set_state Runnable);;
  KERNEL_unlock.

(** ** Threads *)

(** Where the hart is, between two steps. *)
Inductive running :=
  | RunLoop                      (** the scheduler, at the head of its loop or in [wfi] *)
  | RunWindow                    (** the scheduler, between [interrupt_on] and [interrupt_off] *)
  | RunSwitch (i : nat)          (** in [switch], to the thread of process [i] *)
  | RunUser (i : nat)            (** process [i], in user mode *)
  | RunTrap                      (** at the entry of [usertrap] *)
  | RunSyscall (i : nat)         (** in [usertrap], before the call of [syscall] *)
  | RunInside (i : nat) (k : cont)   (** inside [syscall] *)
  | RunReturn (i : nat)          (** in [usertrap], before the call of [prepare_return] *)
  | RunKtrap (back : running).   (** at the entry of [kerneltrap], which interrupted [back] *)

(** What a suspended thread does when it is switched to: it returns from [switch] in
    [sched], whose local is the interrupt state, and then in the caller named. *)
Inductive resume :=
  | ResYield (prev : bool)
  | ResKernel (prev : bool) (sepc_v sstatus_v : Z) (back : running)
  | ResWait (status_addr : Z) (prev : bool)
  | ResExit (prev : bool).

(** How a step ends. *)
Inductive next := Goto (r : running) | Switch (i : nat) (r : resume).

(** [sret]: the interrupt state and the mode come from sstatus. *)
Definition sret : KM unit :=
  w ← lift (read_csr sstatus);
  lift (write_csr sstatus (sret_sstatus w)).

(** What follows a piece of a system call of process [i]. *)
Definition after_syscall (i : nat) (r : sys_next) : next :=
  match r with
  | SysDone => Goto (RunReturn i)
  | SysMore k => Goto (RunInside i k)
  | SysWait status_addr prev => Switch i (ResWait status_addr prev)
  | SysExit prev => Switch i (ResExit prev)
  end.

(** A thread that is switched to: a new one starts in [forkret], its context's [ra];
    another one goes on where it was suspended. *)
Definition resume_thread (threads : gmap nat resume) (i : nat) : KM next :=
  p ← proc i;
  if decide (ctx_ra (p_context p) = forkret_addr) then
    forkret;;
    sret;;
    mret (Goto (RunUser i))
  else
    match threads !! i with
    | None => fault
    | Some (ResYield prev) =>
        yeld_leave i prev;;
        usertrap_leave i;;
        sret;;
        mret (Goto (RunUser i))
    | Some (ResKernel prev sepc_v sstatus_v back) =>
        yeld_leave i prev;;
        kerneltrap_leave sepc_v sstatus_v;;
        sret;;
        mret (Goto back)
    | Some (ResWait status_addr prev) =>
        kwait_leave i prev;;
        mret (Goto (RunInside i (InWait status_addr)))
    | Some (ResExit prev) => kexit_leave prev
    end.

(** The kernel code of a step.  [regs] is what [switch] saves for the scheduler, and
    [fuel] bounds the strings a system call reads. *)
Definition code (fuel : nat) (regs : Context) (threads : gmap nat resume) (r : running) : KM next :=
  match r with
  | RunLoop => scheduler_open;; mret (Goto RunWindow)
  | RunWindow =>
      found ← scheduler_pick;
      match found with
      | None => scheduler_idle;; mret (Goto RunLoop)
      | Some i => scheduler_dispatch i;; save_cpu_context regs;; mret (Goto (RunSwitch i))
      end
  | RunSwitch i => resume_thread threads i
  | RunUser i => fault
  | RunTrap =>
      r ← usertrap_enter;
      mret (match r.2 with
            | TrapSyscall => Goto (RunSyscall r.1)
            | TrapYield prev => Switch r.1 (ResYield prev)
            end)
  | RunSyscall i => r ← syscall_enter fuel i; mret (after_syscall i r)
  | RunInside i k => r ← syscall_more fuel i k; mret (after_syscall i r)
  | RunReturn i => usertrap_leave i;; sret;; mret (Goto (RunUser i))
  | RunKtrap back =>
      r ← kerneltrap_enter;
      match r with
      | KtrapDone sepc_v sstatus_v =>
          kerneltrap_leave sepc_v sstatus_v;; sret;; mret (Goto back)
      | KtrapYield i sepc_v sstatus_v prev => mret (Switch i (ResKernel prev sepc_v sstatus_v back))
      end
  end.

(** ** Hardware *)

(** A trap: sstatus remembers the interrupt state and the mode it was taken from, and
    interrupts are off. *)
Definition trap_sstatus (user : bool) (w : Z) : Z :=
  let sie := Z.testbit w 1 in
  let w := Z.land w (not32 (Z.lor SSTATUS_SPP (Z.lor SSTATUS_SPIE SSTATUS_SIE))) in
  Z.lor w (Z.lor (if sie then SSTATUS_SPIE else 0) (if user then 0 else SSTATUS_SPP)).

Record trap_info := mkTrapInfo { ti_pc : Z; ti_cause : Z; ti_val : Z; ti_time : Z }.

Definition trap_entry (user : bool) (t : trap_info) (s : Machine) : Machine :=
  set_csr (csr_set (csr_set (csr_set (csr_set (csr_set (m_csr s)
    sstatus (trap_sstatus user (m_csr s sstatus))) sepc (ti_pc t)) scause (ti_cause t))
    stval (ti_val t)) time (ti_time t)) s.

(** The places where the kernel runs with interrupts on. *)
Definition interruptible (r : running) : bool :=
  match r with RunLoop | RunWindow | RunSyscall _ | RunInside _ _ | RunReturn _ => true | _ => false end.

(** ** Steps *)

Record Config := mkConfig { c_sys : Sys; c_threads : gmap nat resume; c_run : running }.

Inductive step : Config → Config → Prop :=
  (** Kernel code that keeps the hart. *)
  | step_goto fuel regs s s' th r r' :
      code fuel regs th r s = Done (Goto r') s' →
      step (mkConfig s th r) (mkConfig s' th r')
  (** Kernel code that ends in a switch: the registers, with a return address inside
      [sched], go to the process's context, and the scheduler goes on. *)
  | step_switch fuel regs s s1 s2 th r i res out :
      code fuel regs th r s = Done (Switch i res) s1 →
      ctx_ra out ≠ forkret_addr →
      (save_context i out;; scheduler_return i) s1 = Done tt s2 →
      step (mkConfig s th r) (mkConfig s2 (<[i := res]> th) RunLoop)
  (** A process runs in user mode, which may change any memory, and traps. *)
  | step_user s th i m t :
      step (mkConfig s th (RunUser i))
        (mkConfig (set_mach (trap_entry true t (set_mem m (s_mach s))) s) th RunTrap)
  (** An interrupt is taken in the kernel. *)
  | step_interrupt s th r t :
      interruptible r = true → sie_on (s_mach s) = true →
      step (mkConfig s th r)
        (mkConfig (set_mach (trap_entry false t (s_mach s)) s) th (RunKtrap r)).

(** The power-on state: the statics have their initial values and interrupts are off. *)
Definition power_on (s : Sys) : Prop :=
  s_once s = false ∧ m_cpu (s_mach s) = Cpu_new ∧ m_heap (s_mach s) = LockedHeap_new.1 ∧
  m_heap_lock (s_mach s) = LockedHeap_new.2 ∧ sie_on (s_mach s) = false.

(** The configuration [main] hands over to the scheduler. *)
Definition boot_config (s : Sys) : Config := mkConfig s ∅ RunLoop.

(** What the system can reach: [main] has run from power-on up to the scheduler, and
    then any number of steps. *)
Definition reachable (c : Config) : Prop := ∃ s s',
  power_on s ∧ main_boot s = Done tt s' ∧ rtc step (boot_config s') c.
End system.
