(* ===== verification/Abs.v ===== *)
(** An abstract machine of processes: what fork, exit, wait, yield and the scheduler
    promise, without memory, locks or interrupts; and its invariants. *)
From S2P Require Export Process.

Record aproc := mkAproc {
  a_pid : option Z;
  a_state : ProcState;
  a_parent : option Z;
  a_chan : option Z;
}.

(** The table, the next pid, and the process that has the hart. *)
Record astate := mkAstate { a_procs : list aproc; a_next : Z; a_run : option nat }.

Definition a_set_state (st : ProcState) (p : aproc) : aproc :=
  mkAproc (a_pid p) st (a_parent p) (a_chan p).
Definition a_set_chan (ch : option Z) (p : aproc) : aproc :=
  mkAproc (a_pid p) (a_state p) (a_parent p) ch.
Definition a_set_parent (q : option Z) (p : aproc) : aproc :=
  mkAproc (a_pid p) (a_state p) q (a_chan p).

(** Waking the sleepers on a channel. *)
Definition a_wakeup (ch : option Z) (p : aproc) : aproc :=
  if decide (a_state p = Sleeping ∧ a_chan p = ch) then a_set_state Runnable p else p.
(** Handing the children of [pid] to init. *)
Definition a_reparent (pid : option Z) (p : aproc) : aproc :=
  if decide (a_parent p = pid) then a_set_parent (Some 0) p else p.
Definition a_any_child (ps : list aproc) (pid : option Z) : bool :=
  existsb (λ p, bool_decide (a_parent p = pid)) ps.
Definition a_give_up (pid : option Z) (ps : list aproc) : list aproc :=
  let ps' := a_reparent pid <$> ps in
  if a_any_child ps pid then a_wakeup (Some 0) <$> ps' else ps'.

Definition a_child (pid : option Z) (q : aproc) : Prop := a_parent q = pid.

Inductive astep : astate → astate → Prop :=
  | a_dispatch ps n i p :
      ps !! i = Some p → a_state p = Runnable →
      astep (mkAstate ps n None) (mkAstate (<[i := a_set_state Running p]> ps) n (Some i))
  | a_yield ps n i p :
      ps !! i = Some p →
      astep (mkAstate ps n (Some i)) (mkAstate (<[i := a_set_state Runnable p]> ps) n None)
  | a_fork ps n i p j q :
      ps !! i = Some p → ps !! j = Some q → a_state q = Unused →
      astep (mkAstate ps n (Some i))
        (mkAstate (<[j := mkAproc (Some n) Runnable (a_pid p) (a_chan q)]> ps) (n + 1) (Some i))
  | a_exit ps n i p p1 p2 :
      ps !! i = Some p → a_pid p ≠ Some 0 →
      a_give_up (a_pid p) ps !! i = Some p1 →
      (a_wakeup (a_parent p1) <$> a_give_up (a_pid p) ps) !! i = Some p2 →
      astep (mkAstate ps n (Some i))
        (mkAstate (<[i := a_set_state Zombie p2]>
           (a_wakeup (a_parent p1) <$> a_give_up (a_pid p) ps)) n None)
  | a_reap ps n i p j q :
      ps !! i = Some p → ps !! j = Some q → a_child (a_pid p) q → a_state q = Zombie →
      astep (mkAstate ps n (Some i))
        (mkAstate (<[j := mkAproc None Unused None None]> ps) n (Some i))
  | a_sleep ps n i p :
      ps !! i = Some p →
      (∃ j q, ps !! j = Some q ∧ a_child (a_pid p) q) →
      (∀ j q, ps !! j = Some q → a_child (a_pid p) q → a_state q ≠ Zombie) →
      astep (mkAstate ps n (Some i))
        (mkAstate (<[i := a_set_state Sleeping (a_set_chan (a_pid p) p)]> ps) n None)
  | a_awake ps n i p :
      ps !! i = Some p →
      astep (mkAstate ps n (Some i)) (mkAstate (<[i := a_set_chan None p]> ps) n (Some i)).

(** The table [main] makes: init, ready to run, and free entries. *)
Definition a_free : aproc := mkAproc None Unused None None.
Definition a_initial : astate :=
  mkAstate [mkAproc (Some 0) Runnable None None; a_free; a_free; a_free] 1 None.

Inductive areachable : astate → Prop :=
  | areach_init : areachable a_initial
  | areach_step a a' : areachable a → astep a a' → areachable a'.

(** ** Invariants *)

(** Alive: neither free nor a zombie. *)
Definition a_alive (p : aproc) : Prop := a_state p ≠ Unused ∧ a_state p ≠ Zombie.

Record a_inv (a : astate) : Prop := {
  ai_pid i p c : a_procs a !! i = Some p → a_pid p = Some c → 0 ≤ c < a_next a;
  ai_uniq i j p q c : a_procs a !! i = Some p → a_procs a !! j = Some q →
    a_pid p = Some c → a_pid q = Some c → i = j;
  ai_unused i p : a_procs a !! i = Some p → (a_state p = Unused ↔ a_pid p = None);
  ai_orphan i p : a_procs a !! i = Some p → a_state p = Unused → a_parent p = None;
  ai_run i p : a_procs a !! i = Some p → (a_state p = Running ↔ a_run a = Some i);
  ai_run_in i : a_run a = Some i → is_Some (a_procs a !! i);
  (** A sleeper waits for a child, and none of its children is a zombie. *)
  ai_sleep i p : a_procs a !! i = Some p → a_state p = Sleeping →
    a_chan p = a_pid p ∧ (∃ j q, a_procs a !! j = Some q ∧ a_child (a_pid p) q) ∧
    (∀ j q, a_procs a !! j = Some q → a_child (a_pid p) q → a_state q ≠ Zombie);
  (** Every process but init has a parent, alive. *)
  ai_tree j q : a_procs a !! j = Some q → a_state q ≠ Unused → a_pid q ≠ Some 0 →
    ∃ i p, a_procs a !! i = Some p ∧ a_child (a_pid p) q ∧ a_alive p;
  ai_init : ∃ i p, a_procs a !! i = Some p ∧ a_pid p = Some 0 ∧ a_alive p;
}.

Lemma a_inv_initial : a_inv a_initial.
Proof.
  assert (∀ i p, a_procs a_initial !! i = Some p →
    (i = 0%nat ∧ p = mkAproc (Some 0) Runnable None None) ∨ (i ≠ 0%nat ∧ p = a_free)) as Hall.
  { intros [|[|[|[|i]]]] p [= <-]; [by left|by right..]. }
  split.
  - intros i p c [[_ ->]|[_ ->]]%Hall; intros [= <-]. done.
  - intros i j p q c [[-> ->]|[_ ->]]%Hall [[-> ->]|[_ ->]]%Hall; done.
  - intros i p [[-> ->]|[_ ->]]%Hall; done.
  - intros i p [[-> ->]|[_ ->]]%Hall; done.
  - intros i p [[-> ->]|[_ ->]]%Hall; done.
  - done.
  - intros i p [[-> ->]|[_ ->]]%Hall; done.
  - intros i p [[-> ->]|[_ ->]]%Hall; done.
  - by exists 0%nat, (mkAproc (Some 0) Runnable None None).
Qed.

(** A step that changes one live entry, and neither its pid nor its parent. *)
Lemma a_inv_change ps n run i p p' run' :
  a_inv (mkAstate ps n run) → ps !! i = Some p →
  a_pid p' = a_pid p → a_parent p' = a_parent p → a_alive p → a_alive p' →
  (a_state p' = Running ↔ run' = Some i) →
  (∀ j, j ≠ i → (run = Some j ↔ run' = Some j)) →
  (a_state p' = Sleeping → a_chan p' = a_pid p' ∧
     (∃ j q, ps !! j = Some q ∧ a_child (a_pid p) q) ∧
     (∀ j q, ps !! j = Some q → a_child (a_pid p) q → a_state q ≠ Zombie)) →
  a_inv (mkAstate (<[i := p']> ps) n run').
Proof.
  intros [Hpid Huniq Hun Horph Hrun Hrin Hsl Htree Hin] Hi Hp Hq Hal Hal' Hr1 Hr2 Hs.
  cbn [a_procs a_next a_run] in *. pose proof (lookup_lt_Some _ _ _ Hi) as Hlt.
  (* every new entry comes from an old one with its pid and parent *)
  assert (∀ j q', <[i := p']> ps !! j = Some q' → ∃ q, ps !! j = Some q ∧ a_pid q' = a_pid q ∧
    a_parent q' = a_parent q ∧ ((j = i ∧ q = p ∧ q' = p') ∨ (j ≠ i ∧ q' = q))) as Hold.
  { intros j q' [(-> & <- & _)|[Hne Hj]]%list_lookup_insert_Some; [exists p|exists q']; naive_solver. }
  assert (∀ j q, ps !! j = Some q → ∃ q', <[i := p']> ps !! j = Some q' ∧ a_pid q' = a_pid q ∧
    a_parent q' = a_parent q ∧ (a_alive q → a_alive q') ∧ (a_state q' = Zombie → a_state q = Zombie)) as Hnew.
  { intros j q Hj. destruct (decide (j = i)) as [->|Hne].
    - exists p'. rewrite list_lookup_insert_eq by done. simplify_eq. split_and!; try done.
      intros Hz. by destruct Hal'.
    - exists q. by rewrite list_lookup_insert_ne by done. }
  assert (∀ c j q, <[i := p']> ps !! j = Some q → a_child c q → ∃ q0, ps !! j = Some q0 ∧
    a_child c q0 ∧ (a_state q = Zombie → a_state q0 = Zombie)) as Hback.
  { intros c j q Hj Hc. destruct (Hold j q Hj) as (q0 & H0 & _ & Hpar & [(-> & -> & ->)|[_ ->]]).
    - exists p. unfold a_child in *. split_and!; [done|congruence|]. intros Hz. by destruct Hal'.
    - by exists q0. }
  split; cbn [a_procs a_next a_run].
  - intros j q c Hj Hc. destruct (Hold j q Hj) as (q0 & H0 & Hp0 & _). apply (Hpid j q0); [done|congruence].
  - intros j k q r c Hj Hk Hc1 Hc2. destruct (Hold j q Hj) as (q0 & H0 & Hp0 & _).
    destruct (Hold k r Hk) as (r0 & H1 & Hp1 & _). apply (Huniq j k q0 r0 c); congruence.
  - intros j q Hj. destruct (Hold j q Hj) as (q0 & H0 & Hp0 & _ & [(-> & -> & ->)|[_ ->]]).
    + rewrite Hp. rewrite <- (Hun i p Hi). destruct Hal, Hal'. tauto.
    + by eapply Hun.
  - intros j q Hj Hu. destruct (Hold j q Hj) as (q0 & H0 & Hp0 & _ & [(-> & -> & ->)|[_ ->]]).
    + by destruct Hal'.
    + by eapply Horph.
  - intros j q Hj. destruct (Hold j q Hj) as (q0 & H0 & _ & _ & [(-> & -> & ->)|[Hne ->]]); [done|].
    rewrite (Hrun j q0 H0). by apply Hr2.
  - intros j Hj. rewrite lookup_lt_is_Some, length_insert, <- lookup_lt_is_Some.
    destruct (decide (j = i)) as [->|Hne]; [by eexists|]. by apply Hrin, Hr2.
  - intros j q Hj Hsq. destruct (Hold j q Hj) as (q0 & H0 & Hp0 & _ & [(-> & -> & ->)|[Hne ->]]).
    + destruct (Hs Hsq) as (Hch & (k & r & Hk & Hkc) & Hno). rewrite Hp. split_and!; [congruence| |].
      * destruct (Hnew k r Hk) as (r' & Hr' & _ & Hpar & _). exists k, r'. split; [done|].
        unfold a_child in *. congruence.
      * intros k' r' Hk' Hc Hz. destruct (Hback _ _ _ Hk' Hc) as (r0 & Hr0 & Hc0 & Hz0).
        by apply (Hno k' r0 Hr0 Hc0), Hz0.
    + destruct (Hsl j q0 H0 Hsq) as (Hch & (k & r & Hk & Hkc) & Hno). split_and!; [done| |].
      * destruct (Hnew k r Hk) as (r' & Hr' & _ & Hpar & _). exists k, r'. split; [done|].
        unfold a_child in *. congruence.
      * intros k' r' Hk' Hc Hz. destruct (Hback _ _ _ Hk' Hc) as (r0 & Hr0 & Hc0 & Hz0).
        by apply (Hno k' r0 Hr0 Hc0), Hz0.
  - intros j q Hj Hu Hz. destruct (Hold j q Hj) as (q0 & H0 & Hp0 & Hpar & Hcase).
    destruct (Htree j q0 H0) as (k & r & Hk & Hc & Ha); [|congruence|].
    { destruct Hcase as [(-> & -> & ->)|[_ ->]]; [by destruct Hal|done]. }
    destruct (Hnew k r Hk) as (r' & Hr' & Hrp & _ & Hra & _). exists k, r'.
    split_and!; [done|unfold a_child in *; congruence|by apply Hra].
  - destruct Hin as (k & r & Hk & Hc & Ha).
    destruct (Hnew k r Hk) as (r' & Hr' & Hrp & _ & Hra & _). exists k, r'.
    split_and!; [done|congruence|by apply Hra].
Qed.

(** The process that has the hart is alive and has a pid. *)
Lemma a_running a i p :
  a_inv a → a_run a = Some i → a_procs a !! i = Some p →
  a_state p = Running ∧ a_alive p ∧ ∃ c, a_pid p = Some c.
Proof.
  intros Ha Hr Hi. assert (a_state p = Running) as Hs by by apply (ai_run _ Ha _ _ Hi).
  split_and!; [done|by split; rewrite Hs|]. destruct (a_pid p) as [c|] eqn:Hp; [by exists c|].
  apply (ai_unused _ Ha _ _ Hi) in Hp. congruence.
Qed.

Lemma a_inv_fork ps n i p j q :
  a_inv (mkAstate ps n (Some i)) → 0 ≤ n → ps !! i = Some p → ps !! j = Some q →
  a_state q = Unused →
  a_inv (mkAstate (<[j := mkAproc (Some n) Runnable (a_pid p) (a_chan q)]> ps) (n + 1) (Some i)).
Proof.
  intros Ha Hn Hi Hj Hq. destruct (a_running _ i p Ha eq_refl Hi) as (Hsi & Hali & c & Hc).
  destruct Ha as [Hpid Huniq Hun Horph Hrun Hrin Hsl Htree Hin]. cbn [a_procs a_next a_run] in *.
  set (new := mkAproc (Some n) Runnable (a_pid p) (a_chan q)).
  assert (j ≠ i) as Hji by congruence. pose proof (lookup_lt_Some _ _ _ Hj) as Hlt.
  assert (∀ k r, <[j := new]> ps !! k = Some r → (k = j ∧ r = new) ∨ (k ≠ j ∧ ps !! k = Some r)) as Hold.
  { intros k r [(-> & <- & _)|[Hne Hk]]%list_lookup_insert_Some; naive_solver. }
  assert (∀ k r, ps !! k = Some r → a_state r ≠ Unused → <[j := new]> ps !! k = Some r) as Hnew.
  { intros k r Hk Hr. rewrite list_lookup_insert_ne; [done|]. intros ->. congruence. }
  split; cbn [a_procs a_next a_run].
  - intros k r d [[-> ->]|[_ Hk]]%Hold Hd; [injection Hd; lia|]. pose proof (Hpid k r d Hk Hd). lia.
  - intros k l r t d [[-> ->]|[_ Hk]]%Hold [[-> ->]|[_ Hl]]%Hold H1 H2; [done|..].
    + injection H1 as <-. pose proof (Hpid _ _ _ Hl H2). lia.
    + injection H2 as <-. pose proof (Hpid _ _ _ Hk H1). lia.
    + by apply (Huniq k l r t d).
  - intros k r [[-> ->]|[_ Hk]]%Hold; [done|by eapply Hun].
  - intros k r [[-> ->]|[_ Hk]]%Hold; [done|by eapply Horph].
  - intros k r [[-> ->]|[_ Hk]]%Hold; [|by eapply Hrun]. split; [done|]. intros [= ->]. done.
  - intros k [= <-]. exists p. by rewrite list_lookup_insert_ne.
  - intros k r [[-> ->]|[_ Hk]]%Hold Hs; [done|].
    destruct (Hsl k r Hk Hs) as (Hch & (l & t & Hl & Htc) & Hno). split_and!; [done| |].
    + exists l, t. split; [|done]. apply Hnew; [done|]. intros Hu. unfold a_child in Htc.
      rewrite (Horph _ _ Hl Hu) in Htc. symmetry in Htc. apply (Hun _ _ Hk) in Htc. congruence.
    + intros l' t' [[-> ->]|[_ Hl']]%Hold Hc'; [done|by eapply Hno].
  - intros k r [[-> ->]|[_ Hk]]%Hold Hu Hz.
    + exists i, p. by split; [apply Hnew; [done|apply Hali]|].
    + destruct (Htree k r Hk Hu Hz) as (l & t & Hl & Htc & Hta). exists l, t.
      split_and!; [apply Hnew; [done|apply Hta]|done..].
  - destruct Hin as (l & t & Hl & Htc & Hta). exists l, t. split; [apply Hnew; [done|apply Hta]|done].
Qed.

Lemma a_inv_reap ps n i p j q :
  a_inv (mkAstate ps n (Some i)) → ps !! i = Some p → ps !! j = Some q →
  a_child (a_pid p) q → a_state q = Zombie →
  a_inv (mkAstate (<[j := a_free]> ps) n (Some i)).
Proof.
  intros Ha Hi Hj Hpar Hq. destruct (a_running _ i p Ha eq_refl Hi) as (Hsi & Hali & c & Hc).
  destruct Ha as [Hpid Huniq Hun Horph Hrun Hrin Hsl Htree Hin]. cbn [a_procs a_next a_run] in *.
  assert (j ≠ i) as Hji by congruence. pose proof (lookup_lt_Some _ _ _ Hj) as Hlt.
  assert (∀ k r, <[j := a_free]> ps !! k = Some r → (k = j ∧ r = a_free) ∨ (k ≠ j ∧ ps !! k = Some r)) as Hold.
  { intros k r [(-> & <- & _)|[Hne Hk]]%list_lookup_insert_Some; naive_solver. }
  assert (∀ k r, ps !! k = Some r → a_state r ≠ Zombie → <[j := a_free]> ps !! k = Some r) as Hnew.
  { intros k r Hk Hr. rewrite list_lookup_insert_ne; [done|]. intros ->. congruence. }
  split; cbn [a_procs a_next a_run].
  - intros k r d [[-> ->]|[_ Hk]]%Hold Hd; [done|]. by apply (Hpid k r).
  - intros k l r t d [[-> ->]|[_ Hk]]%Hold [[-> ->]|[_ Hl]]%Hold H1 H2; try done.
    by apply (Huniq k l r t d).
  - intros k r [[-> ->]|[_ Hk]]%Hold; [done|by eapply Hun].
  - intros k r [[-> ->]|[_ Hk]]%Hold; [done|by eapply Horph].
  - intros k r [[-> ->]|[_ Hk]]%Hold; [|by eapply Hrun]. split; [done|]. intros [= ->]. done.
  - intros k [= <-]. exists p. by rewrite list_lookup_insert_ne.
  - intros k r [[-> ->]|[Hkj Hk]]%Hold Hs; [done|].
    destruct (Hsl k r Hk Hs) as (Hch & (l & t & Hl & Htc) & Hno). split_and!; [done| |].
    + exists l, t. split; [|done]. apply Hnew; [done|]. by eapply Hno.
    + intros l' t' [[-> ->]|[_ Hl']]%Hold Hc'; [done|by eapply Hno].
  - intros k r [[-> ->]|[_ Hk]]%Hold Hu Hz; [done|].
    destruct (Htree k r Hk Hu Hz) as (l & t & Hl & Htc & Hta). exists l, t.
    split_and!; [apply Hnew; [done|apply Hta]|done..].
  - destruct Hin as (l & t & Hl & Htc & Hta). exists l, t. split; [apply Hnew; [done|apply Hta]|done].
Qed.

(** ** Exit *)

(** What handing over the children and waking does to an entry: its pid and its life
    stay, its parent changes only if it was the exiting process. *)
Record handed (pid : option Z) (q q' : aproc) : Prop := {
  hd_pid : a_pid q' = a_pid q;
  hd_parent : a_parent q' = if decide (a_parent q = pid) then Some 0 else a_parent q;
  hd_state : a_state q' = a_state q ∨ (a_state q = Sleeping ∧ a_state q' = Runnable);
  hd_chan : a_chan q' = a_chan q;
}.

Lemma a_any_child_true ps pid :
  a_any_child ps pid = true ↔ ∃ j q, ps !! j = Some q ∧ a_child pid q.
Proof.
  unfold a_any_child. rewrite existsb_exists. split.
  - intros (q & [j Hj]%list_elem_of_In%list_elem_of_lookup & Hq%bool_decide_eq_true). by exists j, q.
  - intros (j & q & Hj & Hq). exists q. rewrite <- list_elem_of_In, list_elem_of_lookup.
    split; [by exists j|by apply bool_decide_eq_true].
Qed.

Lemma a_wakeup_handed ch pid q q' : handed pid q q' → handed pid q (a_wakeup ch q').
Proof.
  intros [H1 H2 H3 H4]. unfold a_wakeup. destruct (decide (a_state q' = Sleeping ∧ a_chan q' = ch)) as [Hd|]; [|by split]. split; cbn; try done.
  right. destruct H3 as [H3|[_ H3]]; [split; [|done]; destruct Hd; congruence|destruct Hd; congruence].
Qed.

Lemma a_reparent_handed pid q : handed pid q (a_reparent pid q).
Proof. unfold a_reparent. split; case_decide; cbn; auto. Qed.

(** The table after [reparent] and the [wakeup] of the parent [pp]. *)
Lemma a_give_up_lookup pid pp ps j q' :
  (a_wakeup pp <$> a_give_up pid ps) !! j = Some q' ↔
  ∃ q, ps !! j = Some q ∧ q' = a_wakeup pp (if a_any_child ps pid then a_wakeup (Some 0) (a_reparent pid q)
                                              else a_reparent pid q).
Proof.
  unfold a_give_up. rewrite list_lookup_fmap, fmap_Some.
  destruct (a_any_child ps pid); rewrite !list_lookup_fmap;
    destruct (ps !! j) as [q|]; cbn; split; naive_solver.
Qed.

Lemma a_give_up_handed pid pp ps j q' :
  (a_wakeup pp <$> a_give_up pid ps) !! j = Some q' → ∃ q, ps !! j = Some q ∧ handed pid q q'.
Proof.
  intros (q & Hq & ->)%a_give_up_lookup. exists q. split; [done|]. apply a_wakeup_handed.
  destruct (a_any_child ps pid); [apply a_wakeup_handed|]; apply a_reparent_handed.
Qed.

(** A process still asleep afterwards waits neither for init's children nor for
    the parent's. *)
Lemma a_still_asleep pid pp ps j q q' :
  (a_wakeup pp <$> a_give_up pid ps) !! j = Some q' → ps !! j = Some q → a_state q' = Sleeping →
  a_state q = Sleeping ∧ a_chan q ≠ pp ∧ (a_any_child ps pid = true → a_chan q ≠ Some 0).
Proof.
  intros (q0 & H0 & ->)%a_give_up_lookup Hj Hs. rewrite Hj in H0. injection H0 as <-.
  unfold a_wakeup, a_reparent in Hs.
  destruct (a_any_child ps pid); repeat case_decide; cbn in *; naive_solver.
Qed.

Section exit.
Context (ps : list aproc) (n : Z) (i : nat) (p p1 p2 : aproc).
Context (Ha : a_inv (mkAstate ps n (Some i))) (Hi : ps !! i = Some p) (Hp0 : a_pid p ≠ Some 0).
Context (Hp1 : handed (a_pid p) p p1).
Context (Hp2 : (a_wakeup (a_parent p1) <$> a_give_up (a_pid p) ps) !! i = Some p2).

Let after : list aproc := a_wakeup (a_parent p1) <$> a_give_up (a_pid p) ps.
Let dead : aproc := a_set_state Zombie p2.

Lemma exit_handed : handed (a_pid p) p p2.
Proof. destruct (a_give_up_handed _ _ _ _ _ Hp2) as (q & Hq & H). by simplify_eq. Qed.

Lemma exit_parent : a_parent p2 = a_parent p1.
Proof. by rewrite (hd_parent _ _ _ exit_handed), (hd_parent _ _ _ Hp1). Qed.

Lemma exit_lt : (i < length after)%nat.
Proof. by eapply lookup_lt_Some. Qed.

Lemma exit_old k r' :
  <[i := dead]> after !! k = Some r' →
  (k = i ∧ r' = dead) ∨
  (k ≠ i ∧ after !! k = Some r' ∧ ∃ r, ps !! k = Some r ∧ handed (a_pid p) r r').
Proof.
  intros [(-> & <- & _)|[Hne Hk]]%list_lookup_insert_Some; [by left|right].
  split_and!; [done..|]. by apply a_give_up_handed in Hk.
Qed.

Lemma exit_new k r :
  k ≠ i → ps !! k = Some r →
  ∃ r', <[i := dead]> after !! k = Some r' ∧ handed (a_pid p) r r' ∧ (a_alive r → a_alive r').
Proof.
  intros Hne Hk. rewrite list_lookup_insert_ne by done.
  destruct (after !! k) as [r'|] eqn:Hr'.
  - exists r'. split; [done|]. destruct (a_give_up_handed _ _ _ _ _ Hr') as (r0 & H0 & Hh).
    simplify_eq. split; [done|]. intros [? ?]. unfold a_alive.
    destruct (hd_state _ _ _ Hh) as [->|[? ->]]; done.
  - apply lookup_ge_None in Hr'. apply lookup_lt_Some in Hk. unfold after, a_give_up in Hr'.
    rewrite length_fmap in Hr'. destruct (a_any_child ps (a_pid p)); rewrite !length_fmap in Hr'; lia.
Qed.

Lemma exit_not_self k r : ps !! k = Some r → a_pid r ≠ a_pid p → k ≠ i.
Proof. intros Hk Hne ->. by simplify_eq. Qed.

(** Whoever has the exiting process's pid is the exiting process. *)
Lemma exit_self k r : ps !! k = Some r → a_pid r = a_pid p → k = i.
Proof.
  intros Hk Heq. destruct (a_running _ i p Ha eq_refl Hi) as (_ & _ & c & Hc).
  apply (ai_uniq _ Ha k i r p c); [done..|congruence|done].
Qed.

Lemma exit_init : ∃ k r', <[i := dead]> after !! k = Some r' ∧ a_pid r' = Some 0 ∧ a_alive r'.
Proof.
  destruct (ai_init _ Ha) as (l & t & Hl & Ht & Hta).
  destruct (exit_new l t) as (t' & Ht' & Hh & Hal); [eapply exit_not_self; [done|congruence]|done|].
  exists l, t'. split_and!; [done|by rewrite (hd_pid _ _ _ Hh)|by apply Hal].
Qed.

Lemma exit_sleep k r' :
  <[i := dead]> after !! k = Some r' → a_state r' = Sleeping →
  a_chan r' = a_pid r' ∧ (∃ j q, <[i := dead]> after !! j = Some q ∧ a_child (a_pid r') q) ∧
  (∀ j q, <[i := dead]> after !! j = Some q → a_child (a_pid r') q → a_state q ≠ Zombie).
Proof.
  intros [[-> ->]|(Hki & Hafter & r & Hk & Hh)]%exit_old Hs; [done|].
  destruct (a_still_asleep _ _ _ _ _ _ Hafter Hk Hs) as (Hsr & Hpp & H0).
  destruct (ai_sleep _ Ha k r Hk Hsr) as (Hch & (l & t & Hl & Htc) & Hno). cbn [a_procs] in *.
  rewrite (hd_chan _ _ _ Hh), (hd_pid _ _ _ Hh). unfold a_child in *.
  assert (a_pid r ≠ a_pid p) as Hrp by (intros Heq; by apply Hki, (exit_self k r)).
  split_and!; [done| |].
  - destruct (decide (l = i)) as [->|Hli].
    + exfalso. apply Hpp. rewrite (hd_parent _ _ _ Hp1). simplify_eq. rewrite decide_False; congruence.
    + destruct (exit_new l t Hli Hl) as (t' & Ht' & Hth & _). exists l, t'. split; [done|].
      rewrite (hd_parent _ _ _ Hth), decide_False; congruence.
  - intros l' t' [[-> ->]|(Hl'i & _ & t0 & Ht0 & Hth)]%exit_old Hc Hz.
    + apply Hpp. rewrite <- exit_parent. unfold dead in Hc. cbn in Hc. congruence.
    + rewrite (hd_parent _ _ _ Hth) in Hc. assert (a_state t0 = Zombie) as Hz0.
      { destruct (hd_state _ _ _ Hth) as [<-|[_ Hr]]; [done|congruence]. }
      destruct (decide (a_parent t0 = a_pid p)) as [Hp'|Hp'].
      * apply H0; [|congruence]. apply a_any_child_true. by exists l', t0.
      * by apply (Hno l' t0).
Qed.

Lemma exit_tree k r' :
  <[i := dead]> after !! k = Some r' → a_state r' ≠ Unused → a_pid r' ≠ Some 0 →
  ∃ l t, <[i := dead]> after !! l = Some t ∧ a_child (a_pid t) r' ∧ a_alive t.
Proof.
  intros Hk' Hu Hz. unfold a_child.
  assert (∃ r, ps !! k = Some r ∧ a_pid r' = a_pid r ∧ a_state r ≠ Unused ∧
    a_parent r' = if decide (a_parent r = a_pid p) then Some 0 else a_parent r) as (r & Hk & Hpid & Hur & Hpar).
  { apply exit_old in Hk' as [[-> ->]|(_ & _ & r & Hk & Hh)].
    - exists p. destruct exit_handed as [H1 H2 _ _].
      destruct (a_running _ i p Ha eq_refl Hi) as (_ & [? _] & _). by split_and!.
    - exists r. destruct Hh as [H1 H2 [H3|[H3 _]] _]; split_and!; congruence. }
  destruct (decide (a_parent r = a_pid p)) as [Hp'|Hp'].
  - destruct exit_init as (l & t & Hl & Ht & Hta). exists l, t. split_and!; [done|congruence|done].
  - destruct (ai_tree _ Ha k r Hk Hur) as (l & t & Hl & Htc & Hta); [congruence|].
    cbn [a_procs] in Hl. unfold a_child in Htc.
    destruct (exit_new l t) as (t' & Ht' & Hh & Hal); [eapply exit_not_self; [done|congruence]|done|].
    exists l, t'. split_and!; [done|rewrite (hd_pid _ _ _ Hh); congruence|by apply Hal].
Qed.

Lemma a_inv_exit : a_inv (mkAstate (<[i := dead]> after) n None).
Proof.
  assert (∀ k r', <[i := dead]> after !! k = Some r' → ∃ r, ps !! k = Some r ∧ a_pid r' = a_pid r ∧
    (a_state r' = Unused ↔ a_state r = Unused)) as Hold.
  { intros k r' [[-> ->]|(_ & _ & r & Hk & Hh)]%exit_old.
    - exists p. destruct exit_handed as [H1 _ _ _].
      destruct (a_running _ i p Ha eq_refl Hi) as (_ & [? _] & _). by split_and!.
    - exists r. destruct Hh as [H1 H2 [H3|[H3 H4]] _]; split_and!; try done; [by rewrite H3|].
      rewrite H3, H4. done. }
  split; cbn [a_procs a_next a_run].
  - intros k r' c Hk Hc. destruct (Hold k r' Hk) as (r & Hr & Hp & _).
    apply (ai_pid _ Ha k r); [done|congruence].
  - intros k l r' t' c Hk Hl H1 H2. destruct (Hold k r' Hk) as (r & Hr & Hp & _).
    destruct (Hold l t' Hl) as (t & Ht & Hq & _). apply (ai_uniq _ Ha k l r t c); [done..|congruence|congruence].
  - intros k r' Hk. destruct (Hold k r' Hk) as (r & Hr & -> & ->). by apply (ai_unused _ Ha k).
  - intros k r' Hk Hu. apply exit_old in Hk as [[-> ->]|(_ & _ & r & Hr & Hh)]; [done|].
    assert (a_state r = Unused) as Hur.
    { destruct (hd_state _ _ _ Hh) as [<-|[_ Hx]]; [done|congruence]. }
    pose proof (ai_orphan _ Ha k r Hr Hur) as Hn. rewrite (hd_parent _ _ _ Hh), Hn.
    destruct (a_running _ i p Ha eq_refl Hi) as (_ & _ & c & Hc). rewrite decide_False; congruence.
  - intros k r' Hk. split; [|done]. intros Hr. exfalso.
    apply exit_old in Hk as [[-> ->]|(Hki & _ & r & Hk & Hh)]; [done|].
    destruct (hd_state _ _ _ Hh) as [Hs|[_ Hx]]; [|congruence]. rewrite Hr in Hs. symmetry in Hs.
    apply (ai_run _ Ha k r Hk) in Hs. cbn in Hs. congruence.
  - done.
  - apply exit_sleep.
  - apply exit_tree.
  - apply exit_init.
Qed.
End exit.

(** Every step keeps the invariant. *)
Lemma a_next_pos a : a_inv a → 0 ≤ a_next a.
Proof. intros Ha. destruct (ai_init _ Ha) as (i & p & Hi & Hp & _). pose proof (ai_pid _ Ha i p 0 Hi Hp). lia. Qed.

Lemma a_inv_step a a' : a_inv a → astep a a' → a_inv a'.
Proof.
  intros Ha Hstep. pose proof (a_next_pos _ Ha) as Hn. destruct Hstep.
  - eapply a_inv_change; [done..|by split; congruence|by split|done| |done].
    intros j Hj. split; [done|]. congruence.
  - destruct (a_running _ i p Ha eq_refl H) as (Hs & Hal & _).
    eapply a_inv_change; [done..|by split|done| |done]. intros j Hj. split; [congruence|done].
  - by eapply a_inv_fork.
  - destruct (a_give_up_handed (a_pid p) (a_parent p1) ps i p2) as (q & Hq & Hh); [done|].
    eapply a_inv_exit; [done..| |done]. revert H1. unfold a_give_up.
    destruct (a_any_child ps (a_pid p)); rewrite !list_lookup_fmap, H; cbn; intros [= <-];
      [apply a_wakeup_handed|]; apply a_reparent_handed.
  - by eapply a_inv_reap.
  - destruct (a_running _ i p Ha eq_refl H) as (Hs & Hal & _).
    eapply a_inv_change; [done..|by split|done| |done]. intros j Hj. split; [congruence|done].
  - destruct (a_running _ i p Ha eq_refl H) as (Hs & Hal & _).
    eapply a_inv_change; [done..| | |]; cbn; [by rewrite Hs|done|by rewrite Hs].
Qed.

Lemma areachable_inv a : areachable a → a_inv a.
Proof. induction 1; [apply a_inv_initial|by eapply a_inv_step]. Qed.
