(* ===== verification/KernelSpec.v ===== *)
(** What the kernel's code does to the process table, to its locks and to the
    interrupt state: specifications in the logic of Calm.v, stated on the table's
    abstract view. *)
From S2P Require Export Calm Abs.

Section kernel_spec.
Context {E : Env} {EL : EnvLaws E} {fails : Prop}.
Local Abbreviation wp := (wpo fails).
Implicit Types (s : Sys) (ps : list aproc) (fr : list bool) (held : gset nat).

(** ** The control state *)

Definition view (p : Process) : aproc :=
  mkAproc (p_pid p) (p_state p) (p_parent p) (p_sleep_channel p).
(** A process that has never run starts in [forkret]. *)
Definition never_run (p : Process) : bool := bool_decide (ctx_ra (p_context p) = forkret_addr).
Definition table s : list Process := process_table (s_kernel s).

(** The depth and saved state of the interrupt stack, the current process, the views
    of the table and which of its processes are new, the processes whose locks are
    held, whether the [KERNEL] lock is held, and the next pid. *)
Record kst s (d : Z) (pv : bool) (cur : option nat) ps fr held (kl : bool) (n : Z) : Prop := {
  ks_depth : at_depth (s_mach s) d pv;
  ks_heap : heap_free (s_mach s);
  ks_cur : current (m_cpu (s_mach s)) = cur;
  ks_view : view <$> table s = ps;
  ks_fresh : never_run <$> table s = fr;
  ks_locks i p : table s !! i = Some p → lock_held (p_lock p) = bool_decide (i ∈ held);
  ks_klock : lock_held (s_klock s) = kl;
  ks_next : k_pid (s_kernel s) = n;
  ks_once : s_once s = true;
}.

Lemma kst_lookup s d pv cur ps fr held kl n i p :
  kst s d pv cur ps fr held kl n → table s !! i = Some p →
  ps !! i = Some (view p) ∧ fr !! i = Some (never_run p).
Proof. intros [] Hi. subst. by rewrite !list_lookup_fmap, Hi. Qed.

Lemma kst_length s d pv cur ps fr held kl n :
  kst s d pv cur ps fr held kl n → length (table s) = length ps.
Proof. intros []. subst. by rewrite length_fmap. Qed.

(** A machine step that keeps the table. *)
Lemma kst_mach s d pv cur ps fr held kl n m d' pv' cur' :
  kst s d pv cur ps fr held kl n → at_depth m d' pv' → heap_free m → current (m_cpu m) = cur' →
  kst (set_mach m s) d' pv' cur' ps fr held kl n.
Proof. intros [] ???. by split. Qed.

(** ** Primitives *)

Lemma wpd_lift_raw {A} (m : MM A) (Q : A → Sys → Prop) s :
  wpd m (λ a m', Q a (set_mach m' s)) (s_mach s) → wpd (lift m) Q s.
Proof. unfold wpd, lift. by destruct (m (s_mach s)). Qed.

Lemma wpd_lift {A} (m : MM A) d pv cur ps fr held kl n (Q : A → Sys → Prop) s :
  kst s d pv cur ps fr held kl n → Calm m →
  (∀ a s', kst s' d pv cur ps fr held kl n → Q a s') → wpd (lift m) Q s.
Proof.
  intros Hk Hm HQ. apply wpd_lift_raw. eapply wpd_mono; [apply Hm; apply Hk|].
  intros a m' (H1 & H2 & H3). apply HQ. eapply kst_mach; [done..|]. rewrite H3. apply Hk.
Qed.

Lemma wpd_proc i d pv cur ps fr held kl n (Q : Process → Sys → Prop) s :
  kst s d pv cur ps fr held kl n →
  (∀ p, table s !! i = Some p → ps !! i = Some (view p) → fr !! i = Some (never_run p) → Q p s) →
  wpd (proc i) Q s.
Proof.
  intros Hk HQ. unfold proc. apply wpd_bind, wpd_gets. fold (table s).
  destruct (table s !! i) as [p|] eqn:Hp; [|done].
  destruct (kst_lookup _ _ _ _ _ _ _ _ _ _ _ Hk Hp). by apply wpd_ret, HQ.
Qed.

(** The general update of an entry. *)
Lemma wpd_update i f d pv cur ps fr held held' kl n (Q : unit → Sys → Prop) s :
  kst s d pv cur ps fr held kl n →
  (∀ p, table s !! i = Some p → lock_held (p_lock (f p)) = bool_decide (i ∈ held')) →
  (∀ j, j ≠ i → j ∈ held' ↔ j ∈ held) →
  (∀ p s', table s !! i = Some p →
     kst s' d pv cur (<[i := view (f p)]> ps) (<[i := never_run (f p)]> fr) held' kl n → Q tt s') →
  wpd (update i f) Q s.
Proof.
  intros Hk Hl Hother HQ. unfold update. apply wpd_bind, (wpd_proc i _ _ _ _ _ _ _ _ _ _ Hk).
  intros p Hp _ _. apply wpd_modify, (HQ p); [done|]. destruct Hk. subst.
  split; try done; unfold table in *; cbn.
  - by rewrite list_fmap_insert.
  - by rewrite list_fmap_insert.
  - intros j q [(-> & <- & _)|[Hne Hj]]%list_lookup_insert_Some; [by apply Hl|].
    rewrite (ks_locks0 _ _ Hj). by apply bool_decide_ext; rewrite Hother.
Qed.

Lemma wpd_update_view i f a a' d pv cur ps fr held kl n (Q : unit → Sys → Prop) s :
  kst s d pv cur ps fr held kl n → ps !! i = Some a →
  (∀ p, view p = a → view (f p) = a') → (∀ p, never_run (f p) = never_run p) →
  (∀ p, p_lock (f p) = p_lock p) →
  (∀ s', kst s' d pv cur (<[i := a']> ps) fr held kl n → Q tt s') →
  wpd (update i f) Q s.
Proof.
  intros Hk Ha Hf Hfr Hl HQ. eapply wpd_update; [exact Hk| |done|].
  { intros p Hp. rewrite Hl. by eapply ks_locks. }
  intros p s' Hp Hk'. apply HQ. destruct (kst_lookup _ _ _ _ _ _ _ _ _ _ _ Hk Hp) as [Hv Hr].
  rewrite Hfr, (list_insert_id fr i) in Hk' by done. rewrite Hf in Hk'; [done|congruence].
Qed.

Lemma wpd_update_same i f d pv cur ps fr held kl n (Q : unit → Sys → Prop) s :
  kst s d pv cur ps fr held kl n →
  (∀ p, view (f p) = view p) → (∀ p, never_run (f p) = never_run p) → (∀ p, p_lock (f p) = p_lock p) →
  (∀ s', kst s' d pv cur ps fr held kl n → Q tt s') →
  wpd (update i f) Q s.
Proof.
  intros Hk Hf Hfr Hl HQ. eapply wpd_update; [exact Hk| |done|].
  { intros p Hp. rewrite Hl. by eapply ks_locks. }
  intros p s' Hp Hk'. apply HQ. destruct (kst_lookup _ _ _ _ _ _ _ _ _ _ _ Hk Hp) as [Hv Hr].
  by rewrite Hfr, Hf, (list_insert_id fr i), (list_insert_id ps i) in Hk'.
Qed.

(** Running machine code on an entry, when the code keeps what the view shows. *)
Lemma wpd_update_with {A} i (f : Process → MM (Process * A)) d pv cur ps fr held kl n
    (Q : A → Sys → Prop) s :
  kst s d pv cur ps fr held kl n →
  (∀ p m, at_depth m d pv → heap_free m → wpd (f p) (λ r m',
     (view r.1 = view p ∧ never_run r.1 = never_run p ∧ p_lock r.1 = p_lock p) ∧
     at_depth m' d pv ∧ heap_free m' ∧ same_thread m m') m) →
  (∀ a s', kst s' d pv cur ps fr held kl n → Q a s') →
  wpd (update_with i f) Q s.
Proof.
  intros Hk Hf HQ. unfold update_with. apply wpd_bind, (wpd_proc i _ _ _ _ _ _ _ _ _ _ Hk).
  intros p Hp Hv Hr. apply wpd_bind, wpd_lift_raw. eapply wpd_mono; [apply Hf; apply Hk|].
  intros [p' a] m' ((Hv' & Hr' & Hl') & Hd & Hh & Ht). cbn [fst snd] in *.
  assert (kst (set_mach m' s) d pv cur ps fr held kl n) as Hk1.
  { eapply kst_mach; [exact Hk|done..|]. rewrite Ht. apply Hk. }
  apply wpd_bind. eapply wpd_update; [exact Hk1| |done|].
  { intros q Hq. rewrite Hl'. by eapply (ks_locks _ _ _ _ _ _ _ _ _ Hk). }
  intros q s' Hq Hk'. apply wpd_ret, HQ.
  by rewrite Hv', Hr', (list_insert_id fr i), (list_insert_id ps i) in Hk'.
Qed.

Lemma wpd_IntMutex_lock l d pv (Q : lock_t → Machine → Prop) m :
  at_depth m d pv → lock_held l = false →
  (∀ g m', lock_held g = true → at_depth m' (d + 1) pv → same_thread m m' →
     m_heap_lock m' = m_heap_lock m → Q g m') →
  wpd (IntMutex_lock l) Q m.
Proof.
  intros Hd Hl HQ. unfold IntMutex_lock. apply wpd_bind. eapply wpd_push; [done|].
  intros m' ???. unfold spin_lock. destruct (lock_acquire_free l Hl) as (g & -> & Hg).
  by apply wpd_ret, HQ.
Qed.

Lemma wpd_unlock l d pv (Q : lock_t → Machine → Prop) m :
  at_depth m d pv → 0 < d →
  (∀ g m', lock_held g = false → at_depth m' (d - 1) pv → same_thread m m' →
     m_heap_lock m' = m_heap_lock m → Q g m') →
  wpd (unlock_manual l) Q m.
Proof.
  intros Hd Hpos HQ. unfold unlock_manual. apply wpd_bind. eapply wpd_pop; [done..|].
  intros m' ???. apply wpd_ret, HQ; try done. apply lock_release_free.
Qed.

Lemma kst_heap_lock s d pv cur ps fr held kl n m d' :
  kst s d pv cur ps fr held kl n → at_depth m d' pv → same_thread (s_mach s) m →
  m_heap_lock m = m_heap_lock (s_mach s) → kst (set_mach m s) d' pv cur ps fr held kl n.
Proof.
  intros Hk Hd Ht Hl. eapply kst_mach; [exact Hk|done| |].
  - unfold heap_free. rewrite Hl. apply Hk.
  - rewrite Ht. apply Hk.
Qed.

Lemma wpd_lock_proc i d pv cur ps fr held kl n (Q : unit → Sys → Prop) s :
  kst s d pv cur ps fr held kl n → i ∉ held →
  (∀ s', kst s' (d + 1) pv cur ps fr ({[i]} ∪ held) kl n → Q tt s') →
  wpd (lock_proc i) Q s.
Proof.
  intros Hk Hi HQ. unfold lock_proc. apply wpd_bind, (wpd_proc i _ _ _ _ _ _ _ _ _ _ Hk).
  intros p Hp Hv Hr. apply wpd_bind, wpd_lift_raw.
  eapply (wpd_IntMutex_lock (p_lock p)); [apply Hk| |].
  { rewrite (ks_locks _ _ _ _ _ _ _ _ _ Hk i p Hp). by apply bool_decide_eq_false. }
  intros g m' Hg Hd Ht Hl. eapply (wpd_update i _ _ _ _ _ _ held ({[i]} ∪ held)); [by eapply kst_heap_lock| | |].
  - intros q _. cbn. rewrite Hg. symmetry. apply bool_decide_eq_true. set_solver.
  - intros j Hj. set_solver.
  - intros q s' Hq Hk'. apply HQ. change (table (set_mach m' s)) with (table s) in Hq. simplify_eq.
    by rewrite (list_insert_id fr i), (list_insert_id ps i) in Hk'.
Qed.

Lemma wpd_unlock_proc i d pv cur ps fr held kl n (Q : unit → Sys → Prop) s :
  kst s d pv cur ps fr ({[i]} ∪ held) kl n → i ∉ held → 0 < d →
  (∀ s', kst s' (d - 1) pv cur ps fr held kl n → Q tt s') →
  wpd (unlock_proc i) Q s.
Proof.
  intros Hk Hi Hpos HQ. unfold unlock_proc. apply wpd_bind, (wpd_proc i _ _ _ _ _ _ _ _ _ _ Hk).
  intros p Hp Hv Hr. apply wpd_bind, wpd_lift_raw.
  eapply (wpd_unlock (p_lock p)); [apply Hk|done|].
  intros g m' Hg Hd Ht Hl. eapply (wpd_update i _ _ _ _ _ _ ({[i]} ∪ held) held); [by eapply kst_heap_lock| | |].
  - intros q _. cbn. rewrite Hg. symmetry. by apply bool_decide_eq_false.
  - intros j Hj. set_solver.
  - intros q s' Hq Hk'. apply HQ. change (table (set_mach m' s)) with (table s) in Hq. simplify_eq.
    by rewrite (list_insert_id fr i), (list_insert_id ps i) in Hk'.
Qed.

Lemma wpd_KERNEL_lock d pv cur ps fr held n (Q : unit → Sys → Prop) s :
  kst s d pv cur ps fr held false n →
  (∀ s', kst s' (d + 1) pv cur ps fr held true n → Q tt s') →
  wpd KERNEL_lock Q s.
Proof.
  intros Hk HQ. unfold KERNEL_lock. apply wpd_bind, wpd_gets. rewrite (ks_once _ _ _ _ _ _ _ _ _ Hk).
  apply wpd_bind, wpd_gets, wpd_bind, wpd_lift_raw.
  eapply wpd_IntMutex_lock; [apply Hk|apply Hk|]. intros g m' Hg Hd Ht Hl.
  apply wpd_modify, HQ. pose proof (kst_heap_lock _ _ _ _ _ _ _ _ _ _ _ Hk Hd Ht Hl) as []. by split.
Qed.

Lemma wpd_KERNEL_unlock d pv cur ps fr held kl n (Q : unit → Sys → Prop) s :
  kst s d pv cur ps fr held kl n → 0 < d →
  (∀ s', kst s' (d - 1) pv cur ps fr held false n → Q tt s') →
  wpd KERNEL_unlock Q s.
Proof.
  intros Hk Hpos HQ. unfold KERNEL_unlock. apply wpd_bind, wpd_gets, wpd_bind, wpd_lift_raw.
  unfold IntMutexGuard_drop. eapply wpd_unlock; [apply Hk|done|]. intros g m' Hg Hd Ht Hl.
  apply wpd_modify, HQ. pose proof (kst_heap_lock _ _ _ _ _ _ _ _ _ _ _ Hk Hd Ht Hl) as []. by split.
Qed.

Lemma wpd_indices d pv cur ps fr held kl n (Q : list nat → Sys → Prop) s :
  kst s d pv cur ps fr held kl n → Q (seq 0 (length ps)) s → wpd indices Q s.
Proof.
  intros Hk HQ. apply wpd_gets. change (process_table (s_kernel s)) with (table s).
  by rewrite (kst_length _ _ _ _ _ _ _ _ _ Hk).
Qed.

(** ** The scheduler's primitives *)

Lemma wpd_print_interrupt d pv cur ps fr held kl n (Q : unit → Sys → Prop) s :
  kst s d pv cur ps fr held kl n → (∀ s', kst s' d pv cur ps fr held kl n → Q tt s') →
  wpd print_interrupt Q s.
Proof.
  intros Hk HQ. unfold print_interrupt. apply wpd_bind, wpd_lift_raw, wpd_interrupt_read.
  eapply wpd_lift; [|auto with calm|intros []; apply HQ]. eapply kst_mach; [exact Hk|apply Hk..].
Qed.

Lemma wpd_print_locks d pv cur ps fr held kl n (Q : unit → Sys → Prop) s :
  kst s d pv cur ps fr held kl n → (∀ s', kst s' d pv cur ps fr held kl n → Q tt s') →
  wpd print_locks Q s.
Proof.
  intros Hk HQ. unfold print_locks. apply wpd_bind, wpd_gets.
  eapply wpd_lift; [exact Hk|auto with calm|intros []; apply HQ].
Qed.

(** [sched] with one lock taken and a process that no longer runs. *)
Lemma wpd_sched_enter pv c a ps fr held kl n (Q : bool → Sys → Prop) s :
  kst s 1 pv (Some c) ps fr held kl n → ps !! c = Some a → a_state a ≠ Running →
  (∀ s', kst s' 1 pv (Some c) ps fr held kl n → Q pv s') →
  wpd sched_enter Q s.
Proof.
  intros Hk Ha Hs HQ. unfold sched_enter. apply wpd_bind, wpd_lift_raw, wpd_interrupt_read.
  destruct (ks_depth _ _ _ _ _ _ _ _ _ Hk) as [Hst _ Hsie Hprev].
  rewrite decide_False in Hsie by lia. rewrite Hsie.
  assert (set_mach (s_mach s) s = s) as -> by by destruct s.
  apply wpd_bind, wpd_gets. unfold stack in Hst. rewrite Hst, decide_False by (intros H; by apply H).
  apply wpd_bind, wpd_gets. rewrite (ks_cur _ _ _ _ _ _ _ _ _ Hk).
  apply wpd_bind, (wpd_proc c _ _ _ _ _ _ _ _ _ _ Hk). intros p Hp Hv _. rewrite Ha in Hv.
  injection Hv as ->. rewrite decide_False by done. apply wpd_gets.
  unfold prev in Hprev. rewrite Hprev by lia. by apply HQ.
Qed.

Lemma wpd_sched_leave b d pv cur ps fr held kl n (Q : unit → Sys → Prop) s :
  kst s d pv cur ps fr held kl n → 0 < d →
  (∀ s', kst s' d b cur ps fr held kl n → Q tt s') → wpd (sched_leave b) Q s.
Proof.
  intros Hk Hd HQ. apply wpd_lift_raw, wpd_modify, HQ.
  pose proof Hk as [[H1 H2 H3 H4] ? ? ? ? ? ? ? ?]. eapply kst_mach; [exact Hk| |done|done].
  rewrite decide_False in H3 by lia. split; try done. by rewrite decide_False by lia.
Qed.

Lemma wpd_set_current c d pv cur ps fr held kl n (Q : unit → Sys → Prop) s :
  kst s d pv cur ps fr held kl n →
  (∀ s', kst s' d pv c ps fr held kl n → Q tt s') → wpd (set_current c) Q s.
Proof.
  intros Hk HQ. apply wpd_lift_raw, wpd_modify, HQ.
  pose proof Hk as [[H1 H2 H3 H4] ? ? ? ? ? ? ? ?]. eapply kst_mach; [exact Hk| |done|done]. by split.
Qed.

(** Interrupts let in and kept out, outside of any critical section. *)
Lemma at_depth_sie m (b pv : bool) w :
  at_depth m 0 pv → Z.testbit w 1 = b →
  at_depth (set_csr (csr_set (m_csr m) sstatus w) m) 0 b.
Proof.
  intros [H1 H2 H3 H4] Hb. by split.
Qed.

Lemma wpd_interrupt_on pv cur ps fr held kl n (Q : unit → Sys → Prop) s :
  kst s 0 pv cur ps fr held kl n →
  (∀ s', kst s' 0 true cur ps fr held kl n → Q tt s') → wpd (lift interrupt_on) Q s.
Proof.
  intros Hk HQ. apply wpd_lift_raw. unfold interrupt_on. apply wpd_bind, wpd_gets, wpd_modify, HQ.
  eapply kst_mach; [exact Hk| |apply Hk|apply Hk]. eapply at_depth_sie; [apply (ks_depth _ _ _ _ _ _ _ _ _ Hk)|].
  rewrite Z.lor_spec. apply orb_true_r.
Qed.

Lemma wpd_interrupt_off pv cur ps fr held kl n (Q : unit → Sys → Prop) s :
  kst s 0 pv cur ps fr held kl n →
  (∀ s', kst s' 0 false cur ps fr held kl n → Q tt s') → wpd (lift interrupt_off) Q s.
Proof.
  intros Hk HQ. apply wpd_lift_raw. unfold interrupt_off. apply wpd_bind, wpd_gets, wpd_modify, HQ.
  eapply kst_mach; [exact Hk| |apply Hk|apply Hk]. eapply at_depth_sie; [apply (ks_depth _ _ _ _ _ _ _ _ _ Hk)|].
  rewrite Z.land_spec. apply andb_false_r.
Qed.
(** ** Total correctness

    The logic of Prelude.v, in which the code returns, for code on the system. *)

Lemma wp_wpd {S A} (m : M S A) (Q : A → S → Prop) (s : S) :
  wpd m Q s → wp m (λ _ _, True) s → wp m Q s.
Proof. unfold wpo, wpd. by destruct (m s). Qed.

Lemma wp_lift {A} (m : MM A) (Q : A → Sys → Prop) s :
  wp m (λ a m', Q a (set_mach m' s)) (s_mach s) → wp (lift m) Q s.
Proof. unfold wpo, lift. by destruct (m (s_mach s)). Qed.

Lemma wp_proc i p (Q : Process → Sys → Prop) s : table s !! i = Some p → Q p s → wp (proc i) Q s.
Proof. intros Hp HQ. unfold proc. apply wp_bind, wp_gets. fold (table s). rewrite Hp. by apply wp_ret. Qed.

Lemma wp_update i g p (Q : unit → Sys → Prop) s :
  table s !! i = Some p → (∀ s', Q tt s') → wp (update i g) Q s.
Proof. intros Hp HQ. unfold update. by eapply wp_bind, wp_proc; [|apply wp_modify]. Qed.
End kernel_spec.
