(* ===== verification/ProcSpec.v ===== *)
(** Specifications of the process operations and of the trap handlers, on the
    abstract view of the table. *)
From S2P Require Export KernelSpec.

(** ** Loops over the table *)

(** The table with the first [k] entries changed. *)
Definition upto {A} (f : A → A) (k : nat) (ps : list A) : list A :=
  (f <$> take k ps) ++ drop k ps.

Lemma upto_0 {A} (f : A → A) ps : upto f 0 ps = ps.
Proof. done. Qed.
Lemma upto_all {A} (f : A → A) ps : upto f (length ps) ps = f <$> ps.
Proof. unfold upto. by rewrite take_ge, drop_ge, app_nil_r. Qed.
Lemma length_upto {A} (f : A → A) k ps : length (upto f k ps) = length ps.
Proof. unfold upto. rewrite length_app, length_fmap, length_take, length_drop. lia. Qed.
Lemma upto_lookup_ge {A} (f : A → A) k ps j : (k ≤ j)%nat → upto f k ps !! j = ps !! j.
Proof.
  intros Hj. destruct (decide (j < length ps)%nat) as [Hlt|Hge].
  - unfold upto. rewrite lookup_app_r by (rewrite length_fmap, length_take; lia).
    rewrite lookup_drop. f_equal. rewrite length_fmap, length_take. lia.
  - rewrite !lookup_ge_None_2; [done|lia|rewrite length_upto; lia].
Qed.
Lemma upto_S {A} (f : A → A) k ps a : ps !! k = Some a → <[k := f a]> (upto f k ps) = upto f (S k) ps.
Proof.
  intros Ha. pose proof (lookup_lt_Some _ _ _ Ha) as Hlt. unfold upto.
  rewrite (take_S_r _ _ a) by done. rewrite fmap_app, <- app_assoc. cbn.
  rewrite (drop_S _ a) by done.
  replace k with (length (f <$> take k ps) + 0)%nat at 1 by (rewrite length_fmap, length_take; lia).
  by rewrite insert_app_r.
Qed.

Lemma a_any_child_app ps ps' pid : a_any_child (ps ++ ps') pid = a_any_child ps pid || a_any_child ps' pid.
Proof. unfold a_any_child. by rewrite existsb_app. Qed.
Lemma a_any_child_S ps k a pid :
  ps !! k = Some a →
  a_any_child (drop k ps) pid = bool_decide (a_parent a = pid) || a_any_child (drop (S k) ps) pid.
Proof. intros Ha. by rewrite (drop_S _ a). Qed.

Lemma view_fields `{Env} (p : Process) a :
  view p = a → p_pid p = a_pid a ∧ p_state p = a_state a ∧ p_parent p = a_parent a ∧
    p_sleep_channel p = a_chan a.
Proof. by intros <-. Qed.

(** The view after an assignment to fields the view shows. *)
Ltac view_eq :=
  let H := fresh in
  intros ? H; apply view_fields in H as (? & ? & ? & ?); unfold view, a_set_state, a_set_chan, a_set_parent;
  cbn in *; congruence.

(** Depths are sums of small numbers. *)
Ltac depth H := rewrite ?Z.add_simpl_r in H;
  repeat match type of H with
  | context [?a + ?b] => is_Zlit a; is_Zlit b; let r := eval vm_compute in (a + b) in change (a + b) with r in H
  | context [?a - ?b] => is_Zlit a; is_Zlit b; let r := eval vm_compute in (a - b) in change (a - b) with r in H
  end.

Section proc_spec.
Context {E : Env} {EL : EnvLaws E}.
Implicit Types (s : Sys) (ps : list aproc) (fr : list bool) (held : gset nat).

Lemma wpd_for_each_table (body : nat → KM unit) f d pv cur ps fr held kl n (Q : unit → Sys → Prop) s :
  (∀ k ps' s a (R : unit → Sys → Prop),
     kst s d pv cur ps' fr held kl n → ps' !! k = Some a →
     (∀ s', kst s' d pv cur (<[k := f a]> ps') fr held kl n → R tt s') → wpd (body k) R s) →
  kst s d pv cur ps fr held kl n →
  (∀ s', kst s' d pv cur (f <$> ps) fr held kl n → Q tt s') →
  wpd (for_each (seq 0 (length ps)) body) Q s.
Proof.
  intros Hbody Hk HQ.
  assert (∀ m k s, (k + m = length ps)%nat → kst s d pv cur (upto f k ps) fr held kl n →
    wpd (for_each (seq k m) body) Q s) as Hloop.
  { induction m as [|m IH]; intros k s1 Hlen Hk1; cbn [seq for_each].
    - apply wpd_ret, HQ. rewrite Nat.add_0_r in Hlen. by rewrite Hlen, upto_all in Hk1.
    - destruct (lookup_lt_is_Some_2 ps k) as [a Ha]; [lia|]. apply wpd_bind.
      eapply Hbody; [exact Hk1|by rewrite upto_lookup_ge|].
      intros s2 Hk2. apply IH; [lia|]. by rewrite (upto_S f k ps a) in Hk2. }
  by apply Hloop.
Qed.

(** ** wakeup and reparent *)

Lemma wpd_wakeup ch d pv cur ps fr kl n (Q : unit → Sys → Prop) s :
  kst s d pv cur ps fr ∅ kl n → 0 ≤ d →
  (∀ s', kst s' d pv cur (a_wakeup ch <$> ps) fr ∅ kl n → Q tt s') →
  wpd (wakeup ch) Q s.
Proof.
  intros Hk Hd HQ. unfold wakeup. apply wpd_bind, (wpd_indices _ _ _ _ _ _ _ _ _ _ Hk).
  eapply wpd_for_each_table; [|exact Hk|exact HQ]. clear Hk HQ s Q.
  intros k ps' s a R Hk Ha HR. apply wpd_bind. eapply wpd_lock_proc; [exact Hk|set_solver|].
  intros s1 Hk1. apply wpd_bind, (wpd_proc k _ _ _ _ _ _ _ _ _ _ Hk1). intros p Hp Hv _.
  rewrite Ha in Hv. injection Hv as ->. apply wpd_bind. unfold a_wakeup in HR. cbn [view a_state a_chan] in HR.
  case_decide as Hc.
  - eapply (wpd_update_view k _ _ (a_set_state Runnable (view p)));
      [exact Hk1|done|view_eq|done|done|].
    intros s2 Hk2. eapply wpd_unlock_proc; [exact Hk2|set_solver|lia|].
    intros s3 Hk3. depth Hk3. by apply HR.
  - apply wpd_ret. eapply wpd_unlock_proc; [exact Hk1|set_solver|lia|].
    intros s3 Hk3. depth Hk3. apply HR. by rewrite list_insert_id.
Qed.

Lemma wpd_reparent_loop pid d pv cur ps fr held kl n (Q : bool → Sys → Prop) s :
  kst s d pv cur ps fr held kl n →
  (∀ s', kst s' d pv cur (a_reparent pid <$> ps) fr held kl n → Q (a_any_child ps pid) s') →
  wpd (reparent_loop (seq 0 (length ps)) pid false) Q s.
Proof.
  intros Hk HQ.
  assert (∀ m k b s, (k + m = length ps)%nat → kst s d pv cur (upto (a_reparent pid) k ps) fr held kl n →
    b || a_any_child (drop k ps) pid = a_any_child ps pid →
    wpd (reparent_loop (seq k m) pid b) Q s) as Hloop.
  { induction m as [|m IH]; intros k b s1 Hlen Hk1 Hb; cbn [seq reparent_loop].
    - rewrite Nat.add_0_r in Hlen. rewrite Hlen, drop_ge, orb_false_r in Hb by lia. subst b.
      apply wpd_ret, HQ. by rewrite Hlen, upto_all in Hk1.
    - destruct (lookup_lt_is_Some_2 ps k) as [a Ha]; [lia|]. rewrite (a_any_child_S ps k a) in Hb by done.
      apply wpd_bind, (wpd_proc k _ _ _ _ _ _ _ _ _ _ Hk1). intros p Hp Hv _.
      rewrite upto_lookup_ge, Ha in Hv by done. injection Hv as ->. cbn [a_parent view] in Hb.
      assert (a_reparent pid (view p) = if decide (p_parent p = pid) then view (set_parent (Some 0) p) else view p) as Hrep.
      { unfold a_reparent. cbn [view a_parent]. by case_decide. }
      destruct (decide (p_parent p = pid)) as [Hpar|Hpar].
      + rewrite bool_decide_eq_true_2 in Hb by done. apply wpd_bind.
        eapply (wpd_update_view k _ _ (view (set_parent (Some 0) p)));
          [exact Hk1|by rewrite upto_lookup_ge|view_eq|done|done|].
        intros s2 Hk2. apply IH; [lia| |by rewrite orb_true_r in Hb].
        by rewrite <- (upto_S _ _ _ _ Ha), Hrep.
      + rewrite bool_decide_eq_false_2 in Hb by done. apply IH; [lia| |done].
        rewrite <- (upto_S _ _ _ _ Ha), Hrep, list_insert_id; [done|by rewrite upto_lookup_ge]. }
  by apply (Hloop (length ps) 0%nat).
Qed.

Lemma wpd_reparent pid d pv cur ps fr kl n (Q : unit → Sys → Prop) s :
  kst s d pv cur ps fr ∅ kl n → 0 ≤ d →
  (∀ s', kst s' d pv cur (a_give_up pid ps) fr ∅ kl n → Q tt s') →
  wpd (reparent pid) Q s.
Proof.
  intros Hk Hd HQ. unfold reparent. apply wpd_bind, (wpd_indices _ _ _ _ _ _ _ _ _ _ Hk).
  apply wpd_bind. eapply wpd_reparent_loop; [exact Hk|]. intros s1 Hk1. unfold a_give_up in HQ.
  destruct (a_any_child ps pid).
  - by eapply wpd_wakeup.
  - by apply wpd_ret, HQ.
Qed.

(** ** Assignments that drop the old value *)

Lemma wpd_put_pagetable i v d pv cur ps fr held kl n (Q : unit → Sys → Prop) s :
  kst s d pv cur ps fr held kl n →
  (∀ s', kst s' d pv cur ps fr held kl n → Q tt s') → wpd (put_pagetable i v) Q s.
Proof.
  intros Hk HQ. eapply wpd_update_with; [exact Hk| |by intros []]. intros p m Hd Hh.
  unfold assign_pagetable. apply wpd_bind, wpd_bind.
  eapply wpd_mono; [by apply calm_Uvm_drop|]. intros _ m' (? & ? & ?). by apply wpd_ret, wpd_ret.
Qed.
Lemma wpd_put_trapframe i v d pv cur ps fr held kl n (Q : unit → Sys → Prop) s :
  kst s d pv cur ps fr held kl n →
  (∀ s', kst s' d pv cur ps fr held kl n → Q tt s') → wpd (put_trapframe i v) Q s.
Proof.
  intros Hk HQ. eapply wpd_update_with; [exact Hk| |by intros []]. intros p m Hd Hh.
  unfold assign_trapframe. apply wpd_bind, wpd_bind.
  eapply wpd_mono; [by apply calm_Box_drop|]. intros _ m' (? & ? & ?). by apply wpd_ret, wpd_ret.
Qed.

(** ** allocproc *)

Lemma wpd_claim i q d pv cur ps fr held kl n (Q : unit → Sys → Prop) s :
  kst s d pv cur ps fr held kl n → ps !! i = Some q → i ∉ held →
  (∀ s', kst s' (d + 1) pv cur (<[i := mkAproc (Some n) Used (a_parent q) (a_chan q)]> ps)
           (<[i := true]> fr) ({[i]} ∪ held) kl (n + 1) → Q tt s') →
  wpd (claim i) Q s.
Proof.
  intros Hk Hi Hheld HQ. unfold claim. pose proof (lookup_lt_Some _ _ _ Hi) as Hlt.
  apply wpd_bind, wpd_gets. rewrite (ks_next _ _ _ _ _ _ _ _ _ Hk).
  apply wpd_bind. eapply (wpd_update_view i _ q (mkAproc (Some n) (a_state q) (a_parent q) (a_chan q)));
    [exact Hk|done|by intros p <-|done|done|].
  intros s1 Hk1. apply wpd_bind, wpd_add32, wpd_bind, wpd_modify, wpd_bind.
  set (s1' := set_kernel _ s1).
  assert (kst s1' d pv cur (<[i := mkAproc (Some n) (a_state q) (a_parent q) (a_chan q)]> ps)
    fr held kl (n + 1)) as Hk1' by (destruct Hk1; by split).
  eapply (wpd_update_view i _ _ (mkAproc (Some n) Used (a_parent q) (a_chan q)));
    [exact Hk1'|by apply list_lookup_insert_eq|view_eq|done|done|].
  rewrite list_insert_insert_eq. intros s2 Hk2.
  apply wpd_bind. eapply wpd_lift; [exact Hk2|auto with calm|]. intros t s3 Hk3.
  apply wpd_bind. eapply wpd_put_trapframe; [exact Hk3|]. intros s4 Hk4.
  apply wpd_bind. eapply wpd_lock_proc; [exact Hk4|done|]. intros s5 Hk5.
  apply wpd_bind, (wpd_proc i _ _ _ _ _ _ _ _ _ _ Hk5). intros p Hp _ _.
  apply wpd_bind, wpd_mul32, wpd_bind, wpd_add32.
  eapply (wpd_update i _ _ _ _ _ _ _ ({[i]} ∪ held)); [exact Hk5| |done|].
  { intros p' Hp'. exact (ks_locks _ _ _ _ _ _ _ _ _ Hk5 i p' Hp'). }
  intros p' s6 Hp' Hk6. apply HQ. destruct (kst_lookup _ _ _ _ _ _ _ _ _ _ _ Hk5 Hp') as [Hv _].
  change (view (set_context _ p')) with (view p') in Hk6. rewrite list_insert_id in Hk6 by done.
  unfold never_run in Hk6. cbn in Hk6. by rewrite bool_decide_eq_true_2 in Hk6.
Qed.

Lemma wpd_allocproc d pv cur ps fr held kl n (Q : option nat → Sys → Prop) s :
  kst s d pv cur ps fr held kl n →
  (∀ j q, ps !! j = Some q → j ∈ held → a_state q ≠ Unused) →
  (∀ s', kst s' d pv cur ps fr held kl n → Q None s') →
  (∀ j q s', ps !! j = Some q → a_state q = Unused → j ∉ held →
     kst s' (d + 1) pv cur (<[j := mkAproc (Some n) Used (a_parent q) (a_chan q)]> ps)
       (<[j := true]> fr) ({[j]} ∪ held) kl (n + 1) → Q (Some j) s') →
  wpd allocproc Q s.
Proof.
  intros Hk Hheld HN HS. unfold allocproc. apply wpd_bind, (wpd_indices _ _ _ _ _ _ _ _ _ _ Hk).
  induction (seq 0 (length ps)) as [|j l IH]; cbn [allocproc_loop]; [by apply wpd_ret, HN|].
  apply wpd_bind, (wpd_proc j _ _ _ _ _ _ _ _ _ _ Hk). intros p Hp Hv _.
  case_decide as Hu; [|done].
  assert (j ∉ held) as Hj by (intros Hj; by apply (Hheld j _ Hv Hj)).
  apply wpd_bind. eapply wpd_claim; [done..|]. intros s' Hk'. by eapply wpd_ret, HS.
Qed.

(** ** kfork *)

Lemma wpd_kfork i p pv cur ps fr n (Q : option Z → Sys → Prop) s :
  kst s 0 pv cur ps fr ∅ false n → ps !! i = Some p → a_state p ≠ Unused →
  (∀ j q r s', ps !! j = Some q → a_state q = Unused →
     kst s' 0 pv cur (<[j := mkAproc (Some n) Runnable (a_pid p) (a_chan q)]> ps) (<[j := true]> fr)
       ∅ false (n + 1) → Q (Some r) s') →
  (∀ s', Q None s') →
  wpd (kfork i) Q s.
Proof.
  intros Hk Hi Hpu HQ HN. unfold kfork. apply wpd_bind. eapply wpd_KERNEL_lock; [exact Hk|].
  intros s1 Hk1. apply wpd_bind. eapply wpd_allocproc; [exact Hk1|set_solver| |].
  { intros s2 Hk2. apply wpd_bind, wpd_ret, wpd_bind. eapply wpd_KERNEL_unlock; [exact Hk2|lia|].
    intros s3 _. apply wpd_ret, HN. }
  intros j q s2 Hj Hq _ Hk2. assert (j ≠ i) as Hji by congruence.
  pose proof (lookup_lt_Some _ _ _ Hj) as Hlt. unfold fork_child.
  set (child := mkAproc (Some n) Used _ _) in Hk2. rewrite union_empty_r_L in Hk2.
  assert (<[j := child]> ps !! i = Some p) as Hi' by by rewrite list_lookup_insert_ne.
  assert (<[j := child]> ps !! j = Some child) as Hj' by by apply list_lookup_insert_eq.
  apply wpd_bind, wpd_bind, (wpd_proc i _ _ _ _ _ _ _ _ _ _ Hk2). intros self _ Hself _.
  assert (p_pid self = a_pid p) as Hpid by (rewrite Hi' in Hself; by injection Hself as ->).
  apply wpd_bind. eapply wpd_lift; [exact Hk2|auto with calm|]. intros frame s3 Hk3.
  apply wpd_bind. eapply wpd_lift; [exact Hk3|auto with calm|]. intros t s4 Hk4.
  apply wpd_bind. eapply wpd_put_trapframe; [exact Hk4|]. intros s5 Hk5.
  apply wpd_bind. eapply wpd_lift; [exact Hk5|auto with calm|]. intros uvm s6 Hk6.
  apply wpd_bind, (wpd_proc j _ _ _ _ _ _ _ _ _ _ Hk6). intros c _ Hc _.
  assert (p_pid c = Some n) as Hcpid by (rewrite Hj' in Hc; by injection Hc as ->).
  apply wpd_bind. eapply wpd_lift; [exact Hk6|auto with calm|]. intros r s7 Hk7.
  destruct r as [[]|].
  2: { apply wpd_bind. eapply wpd_lift; [exact Hk7|auto with calm|]. intros _ s8 Hk8.
       apply wpd_ret, wpd_bind. eapply wpd_KERNEL_unlock; [exact Hk8|lia|].
       intros s9 _. apply wpd_ret, HN. }
  apply wpd_bind. eapply wpd_put_pagetable; [exact Hk7|]. intros s8 Hk8.
  apply wpd_bind. eapply wpd_lift; [exact Hk8|auto with calm|]. intros _ s9 Hk9.
  rewrite Hcpid. apply wpd_bind, wpd_ret, wpd_bind.
  eapply wpd_lift; [exact Hk9|auto with calm|]. intros _ s10 Hk10.
  apply wpd_bind. eapply (wpd_unlock_proc j _ _ _ _ _ ∅);
    [by rewrite union_empty_r_L|set_solver|lia|]. intros s11 Hk11. depth Hk11.
  apply wpd_bind. eapply (wpd_update_view j _ child (mkAproc (Some n) Used (a_pid p) (a_chan q)));
    [exact Hk11|done|view_eq|done|done|].
  rewrite list_insert_insert_eq. intros s12 Hk12.
  apply wpd_bind. eapply wpd_lock_proc; [exact Hk12|set_solver|]. intros s13 Hk13.
  apply wpd_bind. eapply (wpd_update_view j _ _ (mkAproc (Some n) Runnable (a_pid p) (a_chan q)));
    [exact Hk13|by apply list_lookup_insert_eq|view_eq|done|done|].
  rewrite list_insert_insert_eq. intros s14 Hk14.
  apply wpd_bind. eapply (wpd_unlock_proc j _ _ _ _ _ ∅); [exact Hk14|set_solver|lia|].
  intros s15 Hk15. depth Hk15. apply wpd_ret, wpd_bind.
  eapply wpd_KERNEL_unlock; [exact Hk15|lia|]. intros s16 Hk16. depth Hk16.
  apply wpd_ret. by eapply HQ.
Qed.

(** ** kexec *)

Lemma wpd_kexec i path argv d pv cur ps fr held kl n (Q : option unit → Sys → Prop) s :
  kst s d pv cur ps fr held kl n →
  (∀ r s', kst s' d pv cur ps fr held kl n → Q r s') →
  wpd (kexec i path argv) Q s.
Proof.
  intros Hk HQ. unfold kexec. apply wpd_bind.
  eapply wpd_lift; [exact Hk|auto with calm|]. intros img s1 Hk1.
  apply wpd_bind, (wpd_proc i _ _ _ _ _ _ _ _ _ _ Hk1). intros self _ _ _.
  apply wpd_bind. eapply wpd_lift; [exact Hk1|auto with calm|]. intros [r|] s2 Hk2; [|by apply wpd_ret, HQ].
  apply wpd_bind. eapply wpd_lift; [exact Hk2|auto with calm|]. intros _ s3 Hk3.
  apply wpd_bind. eapply wpd_lift; [exact Hk3|auto with calm|]. intros _ s4 Hk4.
  apply wpd_bind. eapply wpd_put_pagetable; [exact Hk4|]. intros s5 Hk5.
  apply wpd_bind. eapply wpd_lift; [exact Hk5|auto with calm|]. intros _ s6 Hk6.
  apply wpd_bind. eapply wpd_lift; [exact Hk6|auto with calm|]. intros _ s7 Hk7.
  by apply wpd_ret, HQ.
Qed.
End proc_spec.
