(* ===== verification/ThreadSpec.v ===== *)
(** Specifications of the code between two switches: waiting, exiting, scheduling,
    traps and system calls.  Each stretch of code is matched with steps of the
    abstract machine of Abs.v. *)
From S2P Require Export ProcSpec System.

Section thread_spec.
Context {E : Env} {EL : EnvLaws E}.
Implicit Types (s : Sys) (ps : list aproc) (fr : list bool) (held : gset nat).

(** ** wait *)

Lemma wpd_Process_free p d pv (Q : Process * option unit → Machine → Prop) m :
  at_depth m d pv → heap_free m →
  (∀ r m', at_depth m' d pv → heap_free m' → same_thread m m' → p_lock r.1 = p_lock p →
     (r.2 = Some tt → view r.1 = a_free) → Q r m') →
  wpd (Process_free p) Q m.
Proof.
  intros Hd Hh HQ. unfold Process_free. apply wpd_bind.
  eapply wpd_mono; [by apply calm_Uvm_new|]. intros o m1 (Hd1 & Hh1 & Ht1).
  destruct o as [u|]; [|by apply wpd_ret, HQ].
  unfold assign_pagetable. apply wpd_bind, wpd_bind.
  eapply wpd_mono; [by apply calm_Uvm_drop|]. intros _ m2 (Hd2 & Hh2 & Ht2). apply wpd_ret, wpd_bind.
  eapply wpd_mono; [by apply calm_Box_new_in|]. intros t m3 (Hd3 & Hh3 & Ht3). unfold assign_trapframe.
  apply wpd_bind, wpd_bind.
  eapply wpd_mono; [by apply calm_Box_drop|]. intros _ m4 (Hd4 & Hh4 & Ht4). apply wpd_ret, wpd_ret, HQ; try done.
  trans m1; [done|]. trans m2; [done|]. by trans m3.
Qed.

Lemma wpd_reap j q d pv cur ps fr kl n (Q : kids → Sys → Prop) s :
  kst s (d + 1) pv cur ps fr {[j]} kl n → 0 ≤ d → ps !! j = Some q →
  (∀ x b s', kst s' d pv cur (<[j := a_free]> ps) (<[j := b]> fr) ∅ kl n →
     Q (mkKids true (a_pid q) x) s') →
  wpd (reap j) Q s.
Proof.
  intros Hk Hd Hj HQ. unfold reap. apply wpd_bind, (wpd_proc j _ _ _ _ _ _ _ _ _ _ Hk). intros p Hp Hv _.
  assert (p_pid p = a_pid q) as Hpid by (rewrite Hj in Hv; by injection Hv as ->).
  apply wpd_bind. unfold update_with. apply wpd_bind, (wpd_proc j _ _ _ _ _ _ _ _ _ _ Hk).
  intros p' Hp' _ _. simplify_eq. apply wpd_bind, wpd_lift_raw.
  eapply wpd_Process_free; [apply Hk|apply Hk|]. intros [p1 o] m' Hd' Hh' Ht' Hl' Hview.
  cbn [fst snd] in *. assert (kst (set_mach m' s) (d + 1) pv cur ps fr {[j]} kl n) as Hk1.
  { eapply kst_mach; [exact Hk|done..|]. rewrite Ht'. apply Hk. }
  apply wpd_bind. eapply (wpd_update j _ _ _ _ _ _ _ {[j]}); [exact Hk1| |done|].
  { intros x Hx. rewrite Hl'. by apply (ks_locks _ _ _ _ _ _ _ _ _ Hk). }
  intros x s2 Hx Hk2. apply wpd_ret, wpd_bind. destruct o as [[]|]; [|done]. apply wpd_ret, wpd_bind.
  eapply (wpd_unlock_proc j _ _ _ _ _ ∅); [by rewrite union_empty_r_L|set_solver|lia|].
  intros s3 Hk3. depth Hk3. apply wpd_ret. rewrite Hpid. rewrite Hview in Hk3 by done. by eapply HQ.
Qed.

Lemma wpd_scan pid d pv cur ps fr kl n (Q : kids → Sys → Prop) s :
  kst s d pv cur ps fr ∅ kl n → 0 ≤ d →
  (∀ j q x b s', ps !! j = Some q → a_child pid q → a_state q = Zombie →
     kst s' d pv cur (<[j := a_free]> ps) (<[j := b]> fr) ∅ kl n → Q (mkKids true (a_pid q) x) s') →
  (∀ s', (∀ j q, ps !! j = Some q → a_child pid q → a_state q ≠ Zombie) →
     kst s' d pv cur ps fr ∅ kl n → Q (mkKids (a_any_child ps pid) None 0) s') →
  wpd (scan (seq 0 (length ps)) pid false) Q s.
Proof.
  intros Hk Hd HZ HN.
  assert (∀ m k b s, (k + m = length ps)%nat → kst s d pv cur ps fr ∅ kl n →
    b || a_any_child (drop k ps) pid = a_any_child ps pid →
    (∀ j q, (j < k)%nat → ps !! j = Some q → a_child pid q → a_state q ≠ Zombie) →
    wpd (scan (seq k m) pid b) Q s) as Hloop; [|by apply (Hloop (length ps) 0%nat); [..|lia]].
  clear Hk s. induction m as [|m IH]; intros k b s Hlen Hk Hb Hno; cbn [seq scan].
  { rewrite Nat.add_0_r in Hlen. rewrite Hlen, drop_ge, orb_false_r in Hb by lia. subst b.
    apply wpd_ret, HN; [|done]. intros j q Hj. apply (Hno j q); [|done]. apply lookup_lt_Some in Hj. lia. }
  destruct (lookup_lt_is_Some_2 ps k) as [a Ha]; [lia|]. rewrite (a_any_child_S ps k a) in Hb by done.
  apply wpd_bind, (wpd_proc k _ _ _ _ _ _ _ _ _ _ Hk). intros p Hp Hv _.
  rewrite Ha in Hv. injection Hv as ->. cbn [a_parent view] in Hb.
  assert (∀ b', (p_parent p = pid → p_state p ≠ Zombie) → (b' = b || bool_decide (p_parent p = pid)) →
    ∀ s', kst s' d pv cur ps fr ∅ kl n → wpd (scan (seq (S k) m) pid b') Q s') as Hnext.
  { intros b' Hs -> s' Hk'. apply IH; [lia|done|by rewrite <- Hb, orb_assoc|].
    intros j q Hj Hq Hc. destruct (decide (j = k)) as [->|]; [|apply (Hno j q); [lia|done..]].
    rewrite Ha in Hq. injection Hq as <-. by apply Hs. }
  destruct (decide (p_parent p = pid)) as [Hpar|Hpar].
  - apply wpd_bind. eapply wpd_lock_proc; [exact Hk|set_solver|]. intros s1 Hk1.
    rewrite union_empty_r_L in Hk1.
    apply wpd_bind, (wpd_proc k _ _ _ _ _ _ _ _ _ _ Hk1). intros p' _ Hv _.
    rewrite Ha in Hv. injection Hv as Hv1 Hv2 Hv3 Hv4. rewrite <- Hv2.
    destruct (decide (p_state p = Zombie)) as [Hz|Hz].
    + eapply wpd_reap; [exact Hk1|done..|]. intros x b' s2 Hk2. by eapply HZ.
    + apply wpd_bind. eapply (wpd_unlock_proc k _ _ _ _ _ ∅); [by rewrite union_empty_r_L|set_solver|lia|].
      intros s2 Hk2. depth Hk2. apply Hnext; [done| |done]. by rewrite bool_decide_eq_true_2, orb_true_r.
  - apply Hnext; [done| |done]. by rewrite bool_decide_eq_false_2, orb_false_r.
Qed.

Lemma wpd_find_pid l i p c d pv cur ps fr held kl n (Q : option nat → Sys → Prop) s :
  kst s d pv cur ps fr held kl n → ps !! i = Some p → a_pid p = Some c → i ∈ l →
  (∀ j q, ps !! j = Some q → a_pid q = Some c → j = i) → Q (Some i) s →
  wpd (find_pid l (Some c)) Q s.
Proof.
  intros Hk Hi Hc Hin Huniq HQ. induction l as [|j l IH]; [by apply elem_of_nil in Hin|]. cbn [find_pid].
  apply wpd_bind, (wpd_proc j _ _ _ _ _ _ _ _ _ _ Hk). intros q Hq Hv _. case_decide as Hd.
  - apply wpd_ret. by rewrite (Huniq j (view q)).
  - apply IH. apply elem_of_cons in Hin as [<-|Hin]; [|done]. rewrite Hi in Hv. injection Hv as ->. done.
Qed.

Lemma wpd_publish_sleep i p c d pv cur ps fr kl n (Q : unit → Sys → Prop) s :
  kst s d pv cur ps fr ∅ kl n → ps !! i = Some p → a_pid p = Some c →
  (∀ j q, ps !! j = Some q → a_pid q = Some c → j = i) →
  (∀ s', kst s' (d + 1) pv cur (<[i := a_set_state Sleeping (a_set_chan (Some c) p)]> ps) fr {[i]} kl n →
     Q tt s') →
  wpd (publish_sleep (Some c)) Q s.
Proof.
  intros Hk Hi Hc Huniq HQ. unfold publish_sleep. apply wpd_bind, (wpd_indices _ _ _ _ _ _ _ _ _ _ Hk).
  pose proof (lookup_lt_Some _ _ _ Hi) as Hlt.
  apply wpd_bind. eapply wpd_find_pid; [exact Hk|done..| |done|].
  { apply elem_of_seq. lia. }
  apply wpd_bind, wpd_ret, wpd_bind. eapply wpd_lock_proc; [exact Hk|set_solver|].
  rewrite union_empty_r_L. intros s1 Hk1. apply wpd_bind.
  eapply (wpd_update_view i _ p (a_set_chan (Some c) p)); [exact Hk1|done|view_eq|done|done|].
  intros s2 Hk2. eapply (wpd_update_view i _ _ (a_set_state Sleeping (a_set_chan (Some c) p)));
    [exact Hk2|by apply list_lookup_insert_eq|view_eq|done|done|].
  by rewrite list_insert_insert_eq.
Qed.

(** ** The abstract effect of a stretch of code *)

(** A process that will be switched to again. *)
Definition suspended (q : aproc) : Prop := a_state q = Runnable ∨ a_state q = Sleeping.

(** Suspended processes other than [i] are new, or were suspended before and have
    kept their context. *)
Definition kept (i : nat) ps fr ps' fr' : Prop :=
  ∀ j q', j ≠ i → ps' !! j = Some q' → suspended q' →
    fr' !! j = Some true ∨ (fr' !! j = fr !! j ∧ ∃ q, ps !! j = Some q ∧ suspended q).

Lemma kept_refl i ps fr : kept i ps fr ps fr.
Proof. intros j q _ Hj Hs. right. split; [done|]. by exists q. Qed.
Lemma kept_trans i ps fr ps1 fr1 ps2 fr2 :
  kept i ps fr ps1 fr1 → kept i ps1 fr1 ps2 fr2 → kept i ps fr ps2 fr2.
Proof.
  intros H1 H2 j q Hne Hj Hs. destruct (H2 j q Hne Hj Hs) as [?|[-> (q1 & Hq1 & Hs1)]]; [by left|].
  by apply (H1 j q1).
Qed.
Lemma kept_self i a ps fr : kept i ps fr (<[i := a]> ps) fr.
Proof.
  intros j q Hne Hj Hs. rewrite list_lookup_insert_ne in Hj by done. right. split; [done|]. by exists q.
Qed.
Lemma kept_free i j b ps fr : kept i ps fr (<[j := a_free]> ps) (<[j := b]> fr).
Proof.
  intros k q Hne [(-> & <- & _)|[Hkj Hk]]%list_lookup_insert_Some Hs; [by destruct Hs|].
  right. rewrite list_lookup_insert_ne by done. split; [done|]. by exists q.
Qed.
Lemma kept_fork i j a ps fr : length fr = length ps → kept i ps fr (<[j := a]> ps) (<[j := true]> fr).
Proof.
  intros Hlen k q Hne [(-> & <- & Hlt)|[Hkj Hk]]%list_lookup_insert_Some Hs.
  - left. apply list_lookup_insert_eq. lia.
  - right. rewrite list_lookup_insert_ne by done. split; [done|]. by exists q.
Qed.

Lemma kst_fr_length s d pv cur ps fr held kl n :
  kst s d pv cur ps fr held kl n → length fr = length ps.
Proof. intros []. subst. by rewrite !length_fmap. Qed.

(** The code of process [i] keeps the hart, or has given it up and is in [switch]. *)
Definition running_post s' i pv ps fr n : Prop := ∃ ps' fr' n',
  kst s' 0 pv (Some i) ps' fr' ∅ false n' ∧
  rtc astep (mkAstate ps n (Some i)) (mkAstate ps' n' (Some i)) ∧ kept i ps fr ps' fr'.
Definition switching_post s' i pv ps fr n (st : ProcState) : Prop := ∃ ps' fr' n',
  kst s' 1 pv (Some i) ps' fr' {[i]} false n' ∧
  rtc astep (mkAstate ps n (Some i)) (mkAstate ps' n' None) ∧ kept i ps fr ps' fr' ∧
  ∃ q, ps' !! i = Some q ∧ a_state q = st.

Lemma running_same s' i pv ps fr n :
  kst s' 0 pv (Some i) ps fr ∅ false n → running_post s' i pv ps fr n.
Proof. intros Hk. exists ps, fr, n. split_and!; [done|apply rtc_refl|apply kept_refl]. Qed.

(** ** kwait *)

Lemma wpd_kwait_scan i p pv ps fr n (Q : wait_scan → Sys → Prop) s :
  kst s 0 pv (Some i) ps fr ∅ false n → a_inv (mkAstate ps n (Some i)) → ps !! i = Some p →
  (∀ r s', running_post s' i pv ps fr n → match r with ScanSleep _ => True | _ => Q r s' end) →
  (∀ prev s', switching_post s' i pv ps fr n Sleeping → Q (ScanSleep prev) s') →
  wpd (kwait_scan i) Q s.
Proof.
  intros Hk Hinv Hi HD HS. destruct (a_running _ i p Hinv eq_refl Hi) as (Hrun & _ & c & Hc).
  pose proof (lookup_lt_Some _ _ _ Hi) as Hlt.
  unfold kwait_scan. apply wpd_bind, (wpd_proc i _ _ _ _ _ _ _ _ _ _ Hk). intros self _ Hself _.
  assert (p_pid self = Some c) as -> by (rewrite Hi in Hself; injection Hself as ->; done).
  apply wpd_bind. eapply wpd_KERNEL_lock; [exact Hk|]. intros s1 Hk1.
  apply wpd_bind, (wpd_indices _ _ _ _ _ _ _ _ _ _ Hk1). apply wpd_bind.
  eapply wpd_scan; [exact Hk1|lia| |].
  - intros j q x b s2 Hj Hcq Hz Hk2. cbn [zombie_pid has_kids zombie_xstatus].
    destruct (a_pid q) as [d|] eqn:Hqd.
    2: { apply (ai_unused _ Hinv j q Hj) in Hqd. congruence. }
    rewrite (decide_False (P := Some d = None ∧ true = true)) by (intros [? ?]; discriminate). apply wpd_bind, wpd_ret, wpd_bind.
    eapply wpd_KERNEL_unlock; [exact Hk2|lia|]. intros s3 Hk3. depth Hk3.
    assert (∀ s', kst s' 0 pv (Some i) (<[j:=a_free]> ps) (<[j:=b]> fr) ∅ false n →
      running_post s' i pv ps fr n) as Hpost.
    { intros s' Hk'. exists (<[j:=a_free]> ps), (<[j:=b]> fr), n. split_and!; [done| |apply kept_free].
      apply rtc_once. apply (a_reap ps n i p j q); [done|done| |done]. by rewrite Hc. }
    apply wpd_ret, (HD (ScanReaped d x)), Hpost, Hk3.
  - intros s2 Hno Hk2. cbn [zombie_pid has_kids]. destruct (a_any_child ps (Some c)) eqn:Hany.
    + rewrite decide_True by done. apply wpd_bind. eapply (wpd_publish_sleep i p c); [exact Hk2|done..| |].
      { intros j q Hj Hq. by apply (ai_uniq _ Hinv j i q p c). }
      intros s3 Hk3. apply wpd_bind. eapply wpd_KERNEL_unlock; [exact Hk3|lia|]. intros s4 Hk4. depth Hk4.
      apply wpd_bind. eapply wpd_sched_enter; [exact Hk4|by apply list_lookup_insert_eq|done|].
      intros s5 Hk5. apply wpd_ret, HS.
      eexists _, _, _. split_and!; [exact Hk5| |apply kept_self|].
      * apply rtc_once. rewrite <- Hc.
        apply a_sleep; [done| |by rewrite Hc]. apply a_any_child_true. by rewrite Hc.
      * eexists. split; [by apply list_lookup_insert_eq|done].
    + rewrite (decide_False (P := @None Z = None ∧ false = true)) by (intros [? ?]; discriminate). apply wpd_bind, wpd_ret, wpd_bind.
      eapply wpd_KERNEL_unlock; [exact Hk2|lia|]. intros s3 Hk3. depth Hk3.
      by apply wpd_ret, (HD ScanNone), running_same.
Qed.

(** ** yeld and kexit *)

Lemma switching_self s' i p st pv ps fr n :
  kst s' 1 pv (Some i) (<[i := a_set_state st p]> ps) fr {[i]} false n → ps !! i = Some p →
  astep (mkAstate ps n (Some i)) (mkAstate (<[i := a_set_state st p]> ps) n None) →
  switching_post s' i pv ps fr n st.
Proof.
  intros Hk Hi Hstep. pose proof (lookup_lt_Some _ _ _ Hi) as Hlt.
  eexists _, _, _. split_and!; [exact Hk|by apply rtc_once|apply kept_self|].
  eexists. split; [by apply list_lookup_insert_eq|done].
Qed.

Lemma wpd_yeld_enter i p pv ps fr n (Q : bool → Sys → Prop) s :
  kst s 0 pv (Some i) ps fr ∅ false n → ps !! i = Some p →
  (∀ prev s', switching_post s' i pv ps fr n Runnable → Q prev s') →
  wpd (yeld_enter i) Q s.
Proof.
  intros Hk Hi HQ. pose proof (lookup_lt_Some _ _ _ Hi) as Hlt. unfold yeld_enter.
  apply wpd_bind. eapply wpd_print_interrupt; [exact Hk|]. intros s1 Hk1.
  apply wpd_bind. eapply wpd_print_locks; [exact Hk1|]. intros s2 Hk2.
  apply wpd_bind. eapply wpd_lock_proc; [exact Hk2|set_solver|]. intros s3 Hk3.
  rewrite union_empty_r_L in Hk3. depth Hk3.
  apply wpd_bind. eapply wpd_print_interrupt; [exact Hk3|]. intros s4 Hk4.
  apply wpd_bind. eapply wpd_print_locks; [exact Hk4|]. intros s5 Hk5.
  apply wpd_bind. eapply (wpd_update_view i _ p (a_set_state Runnable p)); [exact Hk5|done|view_eq|done|done|].
  intros s6 Hk6. eapply wpd_sched_enter; [exact Hk6|by apply list_lookup_insert_eq|done|].
  intros s7 Hk7. apply HQ. eapply switching_self; [done..|]. by apply a_yield.
Qed.

Lemma wpd_kexit_enter i p xstatus pv ps fr n (Q : bool → Sys → Prop) s :
  kst s 0 pv (Some i) ps fr ∅ false n → ps !! i = Some p →
  (∀ prev s', switching_post s' i pv ps fr n Zombie → Q prev s') →
  wpd (kexit_enter i xstatus) Q s.
Proof.
  intros Hk Hi HQ. unfold kexit_enter.
  apply wpd_bind, (wpd_proc i _ _ _ _ _ _ _ _ _ _ Hk). intros self _ Hself _.
  assert (p_pid self = a_pid p) as Hpid by (rewrite Hi in Hself; by injection Hself as ->).
  case_decide as H0; [done|]. rewrite Hpid in H0.
  apply wpd_bind, wpd_lift_raw. eapply wpd_IntMutex_lock; [apply Hk|apply lock_new_free|].
  intros g m' _ Hd Ht Hl. pose proof (kst_heap_lock _ _ _ _ _ _ _ _ _ _ _ Hk Hd Ht Hl) as Hk1.
  apply wpd_bind. eapply wpd_KERNEL_lock; [exact Hk1|]. intros s2 Hk2.
  apply wpd_bind, (wpd_proc i _ _ _ _ _ _ _ _ _ _ Hk2). intros self2 _ Hself2 _.
  assert (p_pid self2 = a_pid p) as -> by (rewrite Hi in Hself2; by injection Hself2 as ->).
  apply wpd_bind. eapply wpd_reparent; [exact Hk2|lia|]. intros s3 Hk3.
  apply wpd_bind. eapply wpd_KERNEL_unlock; [exact Hk3|lia|]. intros s4 Hk4. depth Hk4.
  apply wpd_bind. eapply wpd_KERNEL_lock; [exact Hk4|]. intros s5 Hk5.
  apply wpd_bind, (wpd_proc i _ _ _ _ _ _ _ _ _ _ Hk5). intros self3 _ Hself3 _.
  apply wpd_bind. eapply wpd_wakeup; [exact Hk5|lia|]. intros s6 Hk6.
  apply wpd_bind. eapply wpd_KERNEL_unlock; [exact Hk6|lia|]. intros s7 Hk7. depth Hk7.
  change (p_parent self3) with (a_parent (view self3)) in *. set (p1 := view self3) in *.
  set (ps' := a_wakeup (a_parent p1) <$> a_give_up (a_pid p) ps) in *.
  assert (∃ p2, ps' !! i = Some p2) as [p2 Hp2].
  { exists (a_wakeup (a_parent p1) p1). unfold ps'. by rewrite list_lookup_fmap, Hself3. }
  pose proof (lookup_lt_Some _ _ _ Hp2) as Hlt.
  apply wpd_bind. eapply wpd_lock_proc; [exact Hk7|set_solver|]. intros s8 Hk8.
  rewrite union_empty_r_L in Hk8. depth Hk8.
  apply wpd_bind. eapply wpd_update_same; [exact Hk8|done..|]. intros s9 Hk9.
  apply wpd_bind. eapply (wpd_update_view i _ p2 (a_set_state Zombie p2)); [exact Hk9|done|view_eq|done|done|].
  intros s10 Hk10. apply wpd_bind, wpd_lift_raw.
  eapply wpd_unlock; [apply Hk10|lia|]. intros g' m'' _ Hd' Ht' Hl'. depth Hd'.
  pose proof (kst_heap_lock _ _ _ _ _ _ _ _ _ _ _ Hk10 Hd' Ht' Hl') as Hk11.
  eapply wpd_sched_enter; [exact Hk11|by apply list_lookup_insert_eq|done|].
  intros s12 Hk12. apply HQ. eexists _, _, _. split_and!; [exact Hk12| | |].
  - apply rtc_once. by eapply a_exit.
  - intros j q Hne Hj Hs. rewrite list_lookup_insert_ne in Hj by done. right. split; [done|].
    destruct (a_give_up_handed _ _ _ _ _ Hj) as (q0 & Hq0 & Hh). exists q0. split; [done|].
    unfold suspended in *. destruct (hd_state _ _ _ Hh) as [<-|[H1 _]]; [done|by right].
  - eexists. split; [by apply list_lookup_insert_eq|done].
Qed.

(** ** System calls *)

Definition sys_post s' i pv ps fr n (r : sys_next) : Prop :=
  match r with
  | SysDone | SysMore _ => running_post s' i pv ps fr n
  | SysWait _ _ => switching_post s' i pv ps fr n Sleeping
  | SysExit _ => switching_post s' i pv ps fr n Zombie
  end.

Lemma running_lift {A} (m : MM A) i pv ps fr n (Q : A → Sys → Prop) s :
  running_post s i pv ps fr n → Calm m → (∀ a s', running_post s' i pv ps fr n → Q a s') →
  wpd (lift m) Q s.
Proof.
  intros (ps' & fr' & n' & Hk & Hsteps & Hkept) Hm HQ. eapply wpd_lift; [exact Hk|done|].
  intros a s' Hk'. apply HQ. by exists ps', fr', n'.
Qed.

Lemma wpd_sys_return i ret pv ps fr n (Q : sys_next → Sys → Prop) s :
  running_post s i pv ps fr n → (∀ s', running_post s' i pv ps fr n → Q SysDone s') → wpd (sys_return i ret) Q s.
Proof.
  intros Hpost HQ. pose proof Hpost as (ps' & fr' & n' & Hk & _). unfold sys_return.
  apply wpd_bind, (wpd_proc i _ _ _ _ _ _ _ _ _ _ Hk). intros p _ _ _.
  apply wpd_bind. eapply running_lift; [exact Hpost|auto with calm|]. intros _ s1 H1. by apply wpd_ret, HQ.
Qed.

Lemma wpd_store_status i addr x pv ps fr n (Q : unit → Sys → Prop) s :
  running_post s i pv ps fr n → (∀ s', running_post s' i pv ps fr n → Q tt s') → wpd (store_status i addr x) Q s.
Proof.
  intros Hpost HQ. pose proof Hpost as (ps' & fr' & n' & Hk & _). unfold store_status.
  case_decide; [|by apply wpd_ret, HQ].
  apply wpd_bind, (wpd_proc i _ _ _ _ _ _ _ _ _ _ Hk). intros p _ _ _.
  apply wpd_bind. eapply running_lift; [exact Hpost|auto with calm|]. intros r s1 H1.
  apply wpd_unwrap. intros [] _. by apply HQ.
Qed.

(** The pieces that only read. *)
Lemma wpd_sys_write_enter i pv ps fr n (Q : sys_next → Sys → Prop) s :
  kst s 0 pv (Some i) ps fr ∅ false n → (∀ r s', sys_post s' i pv ps fr n r → Q r s') →
  wpd (sys_write_enter i) Q s.
Proof.
  intros Hk HQ. unfold sys_write_enter. apply wpd_bind, (wpd_proc i _ _ _ _ _ _ _ _ _ _ Hk). intros p _ _ _.
  apply wpd_bind. eapply wpd_lift; [exact Hk|auto with calm|]. intros fd s1 Hk1.
  apply wpd_bind. eapply wpd_lift; [exact Hk1|auto with calm|]. intros addr s2 Hk2.
  apply wpd_bind. eapply wpd_lift; [exact Hk2|auto with calm|]. intros size s3 Hk3. case_decide; [done|].
  apply wpd_bind. eapply wpd_lift; [exact Hk3|auto with calm|]. intros o s4 Hk4.
  apply wpd_bind, wpd_unwrap. intros bytes _. apply wpd_bind, wpd_unwrap. intros msg _.
  by apply wpd_ret, HQ, running_same.
Qed.

Lemma wpd_sys_exec_enter fuel i pv ps fr n (Q : sys_next → Sys → Prop) s :
  kst s 0 pv (Some i) ps fr ∅ false n → (∀ r s', sys_post s' i pv ps fr n r → Q r s') →
  wpd (sys_exec_enter fuel i) Q s.
Proof.
  intros Hk HQ. unfold sys_exec_enter. apply wpd_bind, (wpd_proc i _ _ _ _ _ _ _ _ _ _ Hk). intros p _ _ _.
  apply wpd_bind. eapply wpd_lift; [exact Hk|auto with calm|]. intros path_addr s1 Hk1.
  apply wpd_bind. eapply wpd_lift; [exact Hk1|auto with calm|]. intros argv_addr s2 Hk2.
  apply wpd_bind. eapply wpd_lift; [exact Hk2|auto with calm|]. intros o s3 Hk3.
  apply wpd_bind, wpd_unwrap. intros path _. by apply wpd_ret, HQ, running_same.
Qed.

Lemma wpd_sys_exec_arg fuel i path argv a pv ps fr n (Q : sys_next → Sys → Prop) s :
  kst s 0 pv (Some i) ps fr ∅ false n → (∀ r s', sys_post s' i pv ps fr n r → Q r s') →
  wpd (sys_exec_arg fuel i path argv a) Q s.
Proof.
  intros Hk HQ. unfold sys_exec_arg. apply wpd_bind, (wpd_proc i _ _ _ _ _ _ _ _ _ _ Hk). intros p _ _ _.
  apply wpd_bind. eapply wpd_lift; [exact Hk|auto with calm|]. intros o s1 Hk1.
  apply wpd_bind, wpd_unwrap. intros w _. case_decide; [by apply wpd_ret, HQ, running_same|].
  apply wpd_bind. eapply wpd_lift; [exact Hk1|auto with calm|]. intros r s2 Hk2.
  apply wpd_bind, wpd_unwrap. intros arg _. apply wpd_bind, wpd_add32.
  by apply wpd_ret, HQ, running_same.
Qed.

(** The pieces of a system call. *)
Lemma wpd_syscall_enter fuel i p pv ps fr n (Q : sys_next → Sys → Prop) s :
  kst s 0 pv (Some i) ps fr ∅ false n → a_inv (mkAstate ps n (Some i)) → ps !! i = Some p →
  (∀ r s', sys_post s' i pv ps fr n r → Q r s') →
  wpd (syscall_enter fuel i) Q s.
Proof.
  intros Hk Hinv Hi HQ. destruct (a_running _ i p Hinv eq_refl Hi) as (_ & Hal & _).
  unfold syscall_enter. apply wpd_bind, (wpd_proc i _ _ _ _ _ _ _ _ _ _ Hk). intros self _ _ _.
  apply wpd_bind. eapply wpd_lift; [exact Hk|auto with calm|]. intros num s1 Hk1.
  case_decide; [by eapply wpd_sys_write_enter|].
  case_decide.
  { apply wpd_bind. unfold sys_fork. apply wpd_bind.
    eapply wpd_kfork; [exact Hk1|done|apply Hal| |done]. intros j q r s2 Hj Hq Hk2.
    apply wpd_bind, wpd_ret, wpd_ret, wpd_ret, HQ. eexists _, _, _. split_and!; [exact Hk2| |].
    - by apply rtc_once, a_fork.
    - apply kept_fork. by eapply kst_fr_length. }
  case_decide; [by eapply wpd_sys_exec_enter|].
  case_decide.
  { apply wpd_bind, (wpd_proc i _ _ _ _ _ _ _ _ _ _ Hk1). intros p' _ _ _.
    apply wpd_bind. eapply wpd_lift; [exact Hk1|auto with calm|]. intros a s2 Hk2.
    by apply wpd_ret, HQ, running_same. }
  case_decide; [|done].
  unfold sys_exit_enter. apply wpd_bind, (wpd_proc i _ _ _ _ _ _ _ _ _ _ Hk1). intros p' _ _ _.
  apply wpd_bind. eapply wpd_lift; [exact Hk1|auto with calm|]. intros x s2 Hk2.
  apply wpd_bind. eapply wpd_kexit_enter; [exact Hk2|done|]. intros prev s3 Hpost. by apply wpd_ret, HQ.
Qed.

Lemma wpd_syscall_more fuel i k p pv ps fr n (Q : sys_next → Sys → Prop) s :
  kst s 0 pv (Some i) ps fr ∅ false n → a_inv (mkAstate ps n (Some i)) → ps !! i = Some p →
  (∀ r s', sys_post s' i pv ps fr n r → Q r s') →
  wpd (syscall_more fuel i k) Q s.
Proof.
  intros Hk Hinv Hi HQ. destruct k as [[|b text] ret|path argv a|path argv|addr|addr pid x]; cbn [syscall_more].
  - eapply wpd_sys_return; [by apply running_same|]. intros s1. apply (HQ SysDone).
  - apply wpd_bind. eapply wpd_lift; [exact Hk|apply calm_uart_write|]. intros _ s1 Hk1.
    by apply wpd_ret, HQ, running_same.
  - by eapply wpd_sys_exec_arg.
  - apply wpd_bind. eapply wpd_kexec; [exact Hk|]. intros r s1 Hk1. apply wpd_bind, wpd_unwrap.
    intros [] _. by apply wpd_ret, HQ, running_same.
  - apply wpd_bind. eapply wpd_kwait_scan; [exact Hk|exact Hinv|exact Hi| |].
    + intros [pid x|prev|] s1 Hpost; [|done|]; by apply wpd_ret, HQ.
    + intros prev s1 Hpost. by apply wpd_ret, HQ.
  - apply wpd_bind. eapply wpd_store_status; [by apply running_same|]. intros s1 H1.
    eapply wpd_sys_return; [exact H1|]. intros s2. apply (HQ SysDone).
Qed.
End thread_spec.
