(* ===== verification/TrapSpec.v ===== *)
(** Specifications of the scheduler, of the way back to user mode and of the trap
    handlers. *)
From Stdlib Require Import (notations) String.
From S2P Require Export ThreadSpec.

Section trap_spec.
Context {E : Env} {EL : EnvLaws E}.
Implicit Types (s : Sys) (ps : list aproc) (fr : list bool) (held : gset nat).

(** ** The scheduler *)

Lemma wpd_pick_loop order d pv cur ps fr kl n (Q : option nat → Sys → Prop) s :
  kst s d pv cur ps fr ∅ kl n → 0 ≤ d →
  (∀ s', kst s' d pv cur ps fr ∅ kl n → Q None s') →
  (∀ i p s', ps !! i = Some p → a_state p = Runnable →
     kst s' (d + 1) pv cur (<[i := a_set_state Running p]> ps) fr {[i]} kl n → Q (Some i) s') →
  wpd (pick_loop order) Q s.
Proof.
  intros Hk Hd HN HS. revert s Hk. induction order as [|i order IH]; intros s Hk; cbn [pick_loop].
  { by apply wpd_ret, HN. }
  apply wpd_bind. eapply wpd_lock_proc; [exact Hk|set_solver|]. intros s1 Hk1. rewrite union_empty_r_L in Hk1.
  apply wpd_bind, (wpd_proc i _ _ _ _ _ _ _ _ _ _ Hk1). intros p _ Hv _. case_decide as Hr.
  - apply wpd_bind. eapply (wpd_update_view i _ _ (a_set_state Running (view p)));
      [exact Hk1|done|view_eq|done|done|]. intros s2 Hk2. by eapply wpd_ret, HS.
  - apply wpd_bind. eapply (wpd_unlock_proc i _ _ _ _ _ ∅); [by rewrite union_empty_r_L|set_solver|lia|].
    intros s2 Hk2. depth Hk2. by apply IH.
Qed.

Lemma wpd_scheduler_open pv ps fr n (Q : unit → Sys → Prop) s :
  kst s 0 pv None ps fr ∅ false n →
  (∀ s', kst s' 0 true None ps fr ∅ false n → Q tt s') → wpd scheduler_open Q s.
Proof.
  intros Hk HQ. unfold scheduler_open. apply wpd_bind.
  eapply wpd_lift; [exact Hk|auto with calm|]. intros _ s1 Hk1. by eapply wpd_interrupt_on.
Qed.

Lemma wpd_scheduler_idle pv ps fr n (Q : unit → Sys → Prop) s :
  kst s 0 pv None ps fr ∅ false n →
  (∀ s', kst s' 0 true None ps fr ∅ false n → Q tt s') → wpd scheduler_idle Q s.
Proof.
  intros Hk HQ. unfold scheduler_idle. apply wpd_bind.
  eapply wpd_lift; [exact Hk|auto with calm|]. intros _ s1 Hk1. by eapply wpd_interrupt_on.
Qed.

Lemma wpd_scheduler_pick pv ps fr n (Q : option nat → Sys → Prop) s :
  kst s 0 pv None ps fr ∅ false n →
  (∀ s', kst s' 0 false None ps fr ∅ false n → Q None s') →
  (∀ i p s', ps !! i = Some p → a_state p = Runnable →
     kst s' 1 false None (<[i := a_set_state Running p]> ps) fr {[i]} false n → Q (Some i) s') →
  wpd scheduler_pick Q s.
Proof.
  intros Hk HN HS. unfold scheduler_pick. apply wpd_bind. eapply wpd_interrupt_off; [exact Hk|].
  intros s1 Hk1. apply wpd_bind. eapply wpd_KERNEL_lock; [exact Hk1|]. intros s2 Hk2.
  apply wpd_bind, (wpd_indices _ _ _ _ _ _ _ _ _ _ Hk2), wpd_bind, wpd_gets, wpd_bind.
  eapply wpd_pick_loop; [exact Hk2|lia| |].
  - intros s3 Hk3. apply wpd_bind. eapply wpd_KERNEL_unlock; [exact Hk3|lia|]. intros s4 Hk4. depth Hk4.
    by apply wpd_ret, HN.
  - intros i p s3 Hi Hr Hk3. apply wpd_bind. eapply wpd_KERNEL_unlock; [exact Hk3|lia|]. intros s4 Hk4.
    depth Hk4. by eapply wpd_ret, HS.
Qed.

Lemma wpd_scheduler_dispatch i d pv cur ps fr held kl n (Q : unit → Sys → Prop) s :
  kst s d pv cur ps fr held kl n →
  (∀ s', kst s' d pv (Some i) ps fr held kl n → Q tt s') →
  wpd (scheduler_dispatch i) Q s.
Proof.
  intros Hk HQ. unfold scheduler_dispatch.
  apply wpd_bind, (wpd_proc i _ _ _ _ _ _ _ _ _ _ Hk). intros p _ _ _.
  apply wpd_bind, wpd_add32, wpd_bind. eapply wpd_update_same; [exact Hk|done..|]. intros s1 Hk1.
  apply wpd_bind. eapply wpd_set_current; [exact Hk1|]. intros s2 Hk2.
  eapply wpd_lift; [exact Hk2|auto with calm|]. intros []. apply HQ.
Qed.

Lemma wpd_save_cpu_context regs d pv cur ps fr held kl n (Q : unit → Sys → Prop) s :
  kst s d pv cur ps fr held kl n → (∀ s', kst s' d pv cur ps fr held kl n → Q tt s') →
  wpd (save_cpu_context regs) Q s.
Proof.
  intros Hk HQ. apply wpd_lift_raw, wpd_modify, HQ. pose proof Hk as [[H1 H2 H3 H4] ? ? ? ? ? ? ? ?].
  eapply kst_mach; [exact Hk| |done|done]. by split.
Qed.

(** The switch from process [i] back to the scheduler. *)
Lemma wpd_switch_out i out d pv ps fr n (Q : unit → Sys → Prop) s :
  kst s (d + 1) pv (Some i) ps fr {[i]} false n → 0 ≤ d → ctx_ra out ≠ forkret_addr →
  (∀ s', kst s' d pv None ps (<[i := false]> fr) ∅ false n → Q tt s') →
  wpd (save_context i out;; scheduler_return i) Q s.
Proof.
  intros Hk Hd Hout HQ. unfold save_context, scheduler_return. apply wpd_bind.
  eapply (wpd_update i _ _ _ _ _ _ _ {[i]}); [exact Hk| |done|].
  { intros p Hp. exact (ks_locks _ _ _ _ _ _ _ _ _ Hk i p Hp). }
  intros p s1 Hp Hk1. destruct (kst_lookup _ _ _ _ _ _ _ _ _ _ _ Hk Hp) as [Hv _].
  change (view (set_context out p)) with (view p) in Hk1. rewrite list_insert_id in Hk1 by done.
  unfold never_run in Hk1. cbn in Hk1. rewrite bool_decide_eq_false_2 in Hk1 by done.
  apply wpd_bind. eapply wpd_set_current; [exact Hk1|]. intros s2 Hk2.
  eapply (wpd_unlock_proc i _ _ _ _ _ ∅); [by rewrite union_empty_r_L|set_solver|lia|].
  intros s3 Hk3. depth Hk3. by apply HQ.
Qed.

(** ** The way back to user mode *)

Lemma wpd_write_sstatus w pv cur ps fr held kl n (Q : unit → Sys → Prop) s :
  kst s 0 pv cur ps fr held kl n →
  (∀ s', kst s' 0 (Z.testbit w 1) cur ps fr held kl n → Q tt s') →
  wpd (lift (write_csr sstatus w)) Q s.
Proof.
  intros Hk HQ. apply wpd_lift_raw, wpd_modify, HQ.
  eapply kst_mach; [exact Hk| |apply Hk|apply Hk].
  eapply at_depth_sie; [apply (ks_depth _ _ _ _ _ _ _ _ _ Hk)|done].
Qed.

Lemma wpd_sret pv cur ps fr held kl n (Q : unit → Sys → Prop) s :
  kst s 0 pv cur ps fr held kl n →
  (∀ pv' s', kst s' 0 pv' cur ps fr held kl n → Q tt s') → wpd sret Q s.
Proof.
  intros Hk HQ. unfold sret. apply wpd_bind, wpd_lift_raw, wpd_gets.
  eapply wpd_write_sstatus; [eapply kst_mach; [exact Hk|apply Hk..]|]. intros s'. apply HQ.
Qed.

Lemma wpd_calm_bind {A B} (m : MM A) (f : A → MM B) (Q : B → Machine → Prop) (m0 s1 : Machine) d pv :
  Calm m → at_depth s1 d pv → heap_free s1 → same_thread m0 s1 →
  (∀ a (s2 : Machine), at_depth s2 d pv → heap_free s2 → same_thread m0 s2 → wpd (f a) Q s2) →
  wpd (m ≫= f) Q s1.
Proof.
  intros Hm Hd Hh Ht HQ. apply wpd_bind. eapply wpd_mono; [by apply Hm|].
  intros a s2 (H1 & H2 & H3). apply HQ; [done..|]. by trans s1.
Qed.

(** The parts of [prepare_return] around its write of sstatus. *)
Lemma prepare_bit w b :
  Z.testbit w 1 = b → Z.testbit (Z.lor (Z.land w (not32 SSTATUS_SPP)) SSTATUS_SPIE) 1 = b.
Proof.
  intros <-. rewrite Z.lor_spec, Z.land_spec.
  change (Z.testbit (not32 SSTATUS_SPP) 1) with true. change (Z.testbit SSTATUS_SPIE 1) with false.
  by rewrite andb_true_r, orb_false_r.
Qed.

Lemma wpd_prepare_return i pv cur ps fr held kl n (Q : unit → Sys → Prop) s :
  kst s 0 pv cur ps fr held kl n →
  (∀ s', kst s' 0 false cur ps fr held kl n → Q tt s') → wpd (prepare_return i) Q s.
Proof.
  intros Hk HQ. unfold prepare_return. apply wpd_bind, (wpd_proc i _ _ _ _ _ _ _ _ _ _ Hk). intros p _ _ _.
  apply wpd_lift_raw. apply wpd_bind. unfold interrupt_off. apply wpd_bind, wpd_gets, wpd_modify.
  set (m1 := set_csr _ _).
  assert (at_depth m1 0 false ∧ heap_free m1 ∧ same_thread (s_mach s) m1) as (Hd1 & Hh1 & Ht1).
  { split_and!; [|apply Hk|done]. eapply at_depth_sie; [apply (ks_depth _ _ _ _ _ _ _ _ _ Hk)|].
    rewrite Z.land_spec. apply andb_false_r. }
  clearbody m1.
  assert (∀ m, at_depth m 0 false → heap_free m → same_thread (s_mach s) m →
    wpd (w ← read_csr sstatus;
         write_csr sstatus (Z.lor (Z.land w (not32 SSTATUS_SPP)) SSTATUS_SPIE);;
         epc ← tf_get (p_trapframe p) tf_epc; write_csr sepc epc)
      (λ a m', Q a (set_mach m' s)) m) as Htail.
  { intros m Hd Hh Ht. apply wpd_bind, wpd_gets, wpd_bind, wpd_modify.
    set (m2 := set_csr _ m).
    assert (at_depth m2 0 false) as Hd2.
    { eapply at_depth_sie; [exact Hd|]. apply prepare_bit. destruct Hd as [_ _ Hs _]. exact Hs. }
    eapply wpd_mono; [eapply (calm_bind (tf_get (p_trapframe p) tf_epc)); [auto with calm|intros; auto with calm|exact Hd2|exact Hh]|].
    intros [] m3 (Hd3 & Hh3 & Ht3). apply HQ. eapply kst_mach; [exact Hk|done..|].
    rewrite Ht3. unfold m2. cbn. rewrite Ht. apply Hk. }
  do 10 (eapply (wpd_calm_bind _ _ _ (s_mach s)); [auto with calm|eassumption..|]; clear dependent m1;
    intros ? m1 Hd1 Hh1 Ht1).
  by apply Htail.
Qed.

Lemma wpd_usertrap_leave i pv cur ps fr held kl n (Q : Z → Sys → Prop) s :
  kst s 0 pv cur ps fr held kl n →
  (∀ a s', kst s' 0 false cur ps fr held kl n → Q a s') → wpd (usertrap_leave i) Q s.
Proof.
  intros Hk HQ. unfold usertrap_leave. apply wpd_bind. eapply wpd_prepare_return; [exact Hk|].
  intros s1 Hk1. apply wpd_bind, (wpd_proc i _ _ _ _ _ _ _ _ _ _ Hk1). intros p _ _ _.
  by apply wpd_ret, HQ.
Qed.

Lemma wpd_forkret i pv ps fr n (Q : Z * Z → Sys → Prop) s :
  kst s 1 pv (Some i) ps fr {[i]} false n →
  (∀ a s', kst s' 0 false (Some i) ps fr ∅ false n → Q a s') → wpd forkret Q s.
Proof.
  intros Hk HQ. unfold forkret. apply wpd_bind, wpd_gets. rewrite (ks_cur _ _ _ _ _ _ _ _ _ Hk).
  apply wpd_bind. eapply (wpd_unlock_proc i _ _ _ _ _ ∅); [by rewrite union_empty_r_L|set_solver|lia|].
  intros s1 Hk1. depth Hk1. apply wpd_bind. eapply wpd_prepare_return; [exact Hk1|]. intros s2 Hk2.
  apply wpd_bind, (wpd_proc i _ _ _ _ _ _ _ _ _ _ Hk2). intros p _ _ _.
  apply wpd_bind, wpd_sub32, wpd_bind, wpd_add32. by apply wpd_ret, HQ.
Qed.

Lemma wpd_yeld_leave i prev pv ps fr n (Q : unit → Sys → Prop) s :
  kst s 1 pv (Some i) ps fr {[i]} false n →
  (∀ s', kst s' 0 prev (Some i) ps fr ∅ false n → Q tt s') → wpd (yeld_leave i prev) Q s.
Proof.
  intros Hk HQ. unfold yeld_leave. apply wpd_bind. eapply wpd_sched_leave; [exact Hk|lia|]. intros s1 Hk1.
  eapply (wpd_unlock_proc i _ _ _ _ _ ∅); [by rewrite union_empty_r_L|set_solver|lia|].
  intros s2 Hk2. depth Hk2. by apply HQ.
Qed.

Lemma wpd_kwait_leave i p prev pv ps fr n (Q : unit → Sys → Prop) s :
  kst s 1 pv (Some i) ps fr {[i]} false n → ps !! i = Some p →
  (∀ s', kst s' 0 prev (Some i) (<[i := a_set_chan None p]> ps) fr ∅ false n → Q tt s') →
  wpd (kwait_leave i prev) Q s.
Proof.
  intros Hk Hi HQ. unfold kwait_leave. apply wpd_bind. eapply wpd_sched_leave; [exact Hk|lia|]. intros s1 Hk1.
  apply wpd_bind. eapply (wpd_update_view i _ p (a_set_chan None p)); [exact Hk1|done|view_eq|done|done|].
  intros s2 Hk2. eapply (wpd_unlock_proc i _ _ _ _ _ ∅); [by rewrite union_empty_r_L|set_solver|lia|].
  intros s3 Hk3. depth Hk3. by apply HQ.
Qed.

(** ** The handlers *)

Lemma wpd_usertrap_enter i p ps fr n (Q : nat * trap_next → Sys → Prop) s :
  kst s 0 false (Some i) ps fr ∅ false n → ps !! i = Some p →
  Z.land (m_csr (s_mach s) sstatus) SSTATUS_SPP = 0 →
  (∀ s', kst s' 0 true (Some i) ps fr ∅ false n → Q (i, TrapSyscall) s') →
  (∀ prev s', switching_post s' i false ps fr n Runnable → Q (i, TrapYield prev) s') →
  wpd usertrap_enter Q s.
Proof.
  intros Hk Hi Hspp HS HY. unfold usertrap_enter.
  apply wpd_bind, wpd_lift_raw, wpd_gets. assert (set_mach (s_mach s) s = s) as Hs by by destruct s.
  rewrite Hs. apply wpd_bind, wpd_lift_raw, wpd_gets. rewrite Hs.
  apply wpd_bind, wpd_lift_raw, wpd_gets. rewrite Hs.
  apply wpd_bind, wpd_gets. rewrite (ks_cur _ _ _ _ _ _ _ _ _ Hk). rewrite decide_False by (intros H; by apply H).
  apply wpd_bind, wpd_lift_raw, wpd_interrupt_read. rewrite Hs.
  assert (sie_on (s_mach s) = false) as -> by (destruct (ks_depth _ _ _ _ _ _ _ _ _ Hk) as [_ _ H _]; exact H).
  apply wpd_bind. eapply wpd_lift; [exact Hk|auto with calm|]. intros _ s1 Hk1.
  apply wpd_bind, (wpd_proc i _ _ _ _ _ _ _ _ _ _ Hk1). intros q _ _ _.
  apply wpd_bind. eapply wpd_lift; [exact Hk1|auto with calm|]. intros _ s2 Hk2. case_decide.
  - apply wpd_bind. eapply wpd_lift; [exact Hk2|auto with calm|]. intros epc s3 Hk3.
    apply wpd_bind, wpd_add32, wpd_bind. eapply wpd_lift; [exact Hk3|auto with calm|]. intros _ s4 Hk4.
    apply wpd_bind. eapply wpd_interrupt_on; [exact Hk4|]. intros s5 Hk5. by apply wpd_ret, HS.
  - case_decide; [|done]. apply wpd_bind. eapply wpd_lift; [exact Hk2|auto with calm|]. intros t s3 Hk3.
    apply wpd_bind, wpd_add32, wpd_bind. eapply wpd_lift; [exact Hk3|auto with calm|]. intros _ s4 Hk4.
    apply wpd_bind. eapply wpd_lift; [exact Hk4|auto with calm|]. intros _ s5 Hk5.
    apply wpd_bind. eapply wpd_yeld_enter; [exact Hk5|done|]. intros prev s6 Hpost. by apply wpd_ret, HY.
Qed.

Lemma wpd_kerneltrap_enter cur ps fr n (Q : ktrap_next → Sys → Prop) s :
  kst s 0 false cur ps fr ∅ false n →
  (∀ i, cur = Some i → is_Some (ps !! i)) →
  Z.land (m_csr (s_mach s) sstatus) SSTATUS_SPP ≠ 0 →
  (∀ a b s', cur = None → kst s' 0 false cur ps fr ∅ false n → Q (KtrapDone a b) s') →
  (∀ i a b prev s', cur = Some i → switching_post s' i false ps fr n Runnable →
     Q (KtrapYield i a b prev) s') →
  wpd kerneltrap_enter Q s.
Proof.
  intros Hk Hcur Hspp HD HY. unfold kerneltrap_enter. assert (set_mach (s_mach s) s = s) as Hs by by destruct s.
  do 4 (apply wpd_bind, wpd_lift_raw, wpd_gets; rewrite Hs). rewrite decide_False by done.
  apply wpd_bind, wpd_lift_raw, wpd_interrupt_read. rewrite Hs.
  assert (sie_on (s_mach s) = false) as -> by (destruct (ks_depth _ _ _ _ _ _ _ _ _ Hk) as [_ _ H _]; exact H).
  apply wpd_bind, wpd_gets. rewrite (ks_cur _ _ _ _ _ _ _ _ _ Hk). apply wpd_bind.
  apply (wpd_mono _ (λ _ s', kst s' 0 false cur ps fr ∅ false n)).
  { destruct cur as [i|]; [|by apply wpd_ret]. by apply wpd_bind, (wpd_proc i _ _ _ _ _ _ _ _ _ _ Hk). }
  intros pid s1 Hk1. apply wpd_bind. eapply wpd_lift; [exact Hk1|auto with calm|]. intros _ s2 Hk2.
  case_decide; [|done]. apply wpd_bind. eapply wpd_lift; [exact Hk2|auto with calm|]. intros t s3 Hk3.
  apply wpd_bind, wpd_add32, wpd_bind. eapply wpd_lift; [exact Hk3|auto with calm|]. intros _ s4 Hk4.
  apply wpd_bind. eapply wpd_lift; [exact Hk4|auto with calm|]. intros _ s5 Hk5.
  destruct cur as [i|]; [|by apply wpd_ret, HD].
  apply wpd_bind. eapply wpd_lift; [exact Hk5|auto with calm|]. intros _ s6 Hk6.
  destruct (Hcur i eq_refl) as [p Hi]. apply wpd_bind. eapply wpd_yeld_enter; [exact Hk6|exact Hi|].
  intros prev s7 Hpost. by apply wpd_ret, HY.
Qed.

Lemma wpd_kerneltrap_leave a b pv cur ps fr held kl n (Q : unit → Sys → Prop) s :
  kst s 0 pv cur ps fr held kl n →
  (∀ pv' s', kst s' 0 pv' cur ps fr held kl n → Q tt s') → wpd (kerneltrap_leave a b) Q s.
Proof.
  intros Hk HQ. unfold kerneltrap_leave. apply wpd_bind.
  eapply wpd_lift; [exact Hk|auto with calm|]. intros _ s1 Hk1. eapply wpd_write_sstatus; [exact Hk1|].
  intros s2. apply HQ.
Qed.
End trap_spec.
