(* ===== verification/Refine.v ===== *)
(** The running kernel refines the abstract machine of processes: what [main] leaves
    represents its initial state, and every step of the system is matched. *)
From Stdlib Require Import (notations) String.
From S2P Require Export TrapSpec.

Section refine.
Context {E : Env} {EL : EnvLaws E}.
Implicit Types (s : Sys) (ps : list aproc) (fr : list bool) (th : gmap nat resume).

(** ** Boot *)

Lemma wpd_Process_new i d pv (Q : option Process → Machine → Prop) m :
  at_depth m d pv → heap_free m →
  (∀ o m', at_depth m' d pv → heap_free m' → same_thread m m' →
     (∀ p, o = Some p → view p = a_free ∧ lock_held (p_lock p) = false) → Q o m') →
  wpd (Process_new i) Q m.
Proof.
  intros Hd Hh HQ. unfold Process_new.
  eapply wpd_calm_bind; [auto with calm|exact Hd|exact Hh|reflexivity|]. intros ks m1 Hd1 Hh1 Ht1.
  eapply wpd_calm_bind; [auto with calm|done..|]. intros [u|] m2 Hd2 Hh2 Ht2; [|by apply wpd_ret, HQ].
  eapply wpd_calm_bind; [auto with calm|done..|]. intros t m3 Hd3 Hh3 Ht3. apply wpd_ret, HQ; try done.
  intros p [= <-]. split; [done|]. apply lock_new_free.
Qed.

(** A new process at the end of the table. *)
Lemma kst_push s d pv cur ps fr kl n p :
  kst s d pv cur ps fr ∅ kl n → lock_held (p_lock p) = false →
  kst (set_kernel (set_table (process_table (s_kernel s) ++ [p]) (s_kernel s)) s) d pv cur
    (ps ++ [view p]) (fr ++ [never_run p]) ∅ kl n.
Proof.
  intros [H1 H2 H3 H4 H5 H6 H7 H8 H9] Hl. subst. split; try done; unfold table in *; cbn.
  - by rewrite fmap_app.
  - by rewrite fmap_app.
  - intros i q [Hi|[_ Hi]]%lookup_app_Some; [by apply H6|].
    apply list_lookup_singleton_Some in Hi as [_ <-]. by rewrite Hl.
Qed.

Lemma wpd_initproc k d pv cur ps fr kl n (Q : option unit → Sys → Prop) s :
  kst s d pv cur ps fr ∅ kl n → 0 ≤ k →
  (∀ s', Q None s') →
  (∀ fr' s', kst s' d pv cur (ps ++ replicate (Z.to_nat k) a_free) fr' ∅ kl n → Q (Some tt) s') →
  wpd (initproc k) Q s.
Proof.
  intros Hk Hpos HN HS. unfold initproc. apply wpd_bind, wpd_gets, wpd_bind, wpd_gets.
  destruct (k_kvm (s_kernel s)) as [kvm|]; [|by apply wpd_ret].
  apply wpd_bind, wpd_add32. set (np := Z.of_nat _). replace (np + k - np) with k by lia.
  clearbody np.
  replace (Z.to_nat k) with (length (seqZ np k)) in HS by by rewrite length_seqZ.
  eapply (wpd_for_each_try (λ m s, ∃ fr, kst s d pv cur (ps ++ replicate m a_free) fr ∅ kl n));
    [|exists fr; by rewrite app_nil_r|].
  2: { intros [[]|] s' H; [|apply HN]. destruct H as [fr' Hk']. by eapply HS. }
  clear Hk s HS. intros m x s [fr' Hk].
  apply wpd_bind, wpd_lift_raw. eapply wpd_Process_new; [apply Hk|apply Hk|].
  intros o m1 Hd1 Hh1 Ht1 Hp. assert (kst (set_mach m1 s) d pv cur (ps ++ replicate m a_free) fr' ∅ kl n) as Hk1.
  { eapply kst_mach; [exact Hk|done..|]. rewrite Ht1. apply Hk. }
  destruct o as [p|]; [|by apply wpd_ret]. destruct (Hp p eq_refl) as [Hv Hl].
  apply wpd_bind, wpd_KSTACK. intros va.
  apply wpd_bind. eapply wpd_lift; [exact Hk1|auto with calm|]. intros _ s2 Hk2.
  apply wpd_bind. eapply wpd_lift; [exact Hk2|auto with calm|]. intros _ s3 Hk3.
  apply wpd_bind, wpd_modify, wpd_ret. exists (fr' ++ [never_run p]).
  rewrite replicate_S_end, app_assoc. pose proof (kst_push _ _ _ _ _ _ _ _ p Hk3 Hl) as H.
  by rewrite Hv in H.
Qed.

(** ** The relation *)

(** The places in the kernel that are code of process [i], with interrupts on. *)
Definition inside (i : nat) (r : running) : Prop :=
  match r with RunSyscall j | RunInside j _ | RunReturn j => j = i | _ => False end.

(** How a thread may be suspended: not inside [kexit], and an interrupt in the kernel
    goes back to the process's own code. *)
Definition resumable (i : nat) (r : resume) : Prop :=
  match r with
  | ResYield _ | ResWait _ _ => True
  | ResKernel _ _ _ back => inside i back
  | ResExit _ => False
  end.
Definition has_thread th fr (i : nat) : Prop :=
  fr !! i = Some true ∨ ∃ r, th !! i = Some r ∧ resumable i r.
Definition threads_ok th ps fr : Prop := ∀ i q, ps !! i = Some q → suspended q → has_thread th fr i.

(** The process that runs at a place, if any. *)
Definition owner (r : running) (cur : option nat) : Prop :=
  match r with
  | RunLoop | RunWindow => cur = None
  | RunSyscall i | RunInside i _ | RunReturn i => cur = Some i
  | _ => False
  end.

(** The control state at each place: the interrupt stack is empty and no lock is held,
    except in a switch, where exactly the process's own lock is held, once. *)
Definition located s th (r : running) ps fr n (run : option nat) : Prop :=
  match r with
  | RunLoop | RunWindow => run = None ∧ ∃ pv, kst s 0 pv None ps fr ∅ false n
  | RunSwitch i => run = Some i ∧ has_thread th fr i ∧ ∃ pv, kst s 1 pv (Some i) ps fr {[i]} false n
  | RunUser i | RunSyscall i | RunInside i _ | RunReturn i => run = Some i ∧ ∃ pv, kst s 0 pv (Some i) ps fr ∅ false n
  | RunTrap => Z.land (m_csr (s_mach s) sstatus) SSTATUS_SPP = 0 ∧
      ∃ i, run = Some i ∧ kst s 0 false (Some i) ps fr ∅ false n
  | RunKtrap back => Z.land (m_csr (s_mach s) sstatus) SSTATUS_SPP ≠ 0 ∧
      owner back run ∧ kst s 0 false run ps fr ∅ false n
  end.

(** A configuration represents an abstract state. *)
Definition represents (c : Config) (a : astate) : Prop := ∃ fr,
  threads_ok (c_threads c) (a_procs a) fr ∧
  located (c_sys c) (c_threads c) (c_run c) (a_procs a) fr (a_next a) (a_run a).

Lemma wpd_main_boot (Q : unit → Sys → Prop) s :
  power_on s → (∀ s', represents (boot_config s') a_initial → Q tt s') → wpd main_boot Q s.
Proof.
  intros (Honce & Hcpu & _ & Hlock & Hsie) HQ. unfold main_boot.
  apply wpd_bind, wpd_sub32, wpd_bind, wpd_lift_raw.
  assert (at_depth (s_mach s) 0 false) as Hd.
  { split; [unfold stack; by rewrite Hcpu|done|done|done]. }
  assert (heap_free (s_mach s)) as Hh by (unfold heap_free; rewrite Hlock; apply lock_new_free).
  eapply wpd_mono; [by apply calm_HEAP_ALLOCATOR_init|]. intros _ m1 (Hd1 & Hh1 & Ht1).
  apply wpd_bind, wpd_lift_raw. eapply wpd_mono; [by apply calm_init_trap|]. intros _ m2 (Hd2 & Hh2 & Ht2).
  unfold KERNEL_call_once. apply wpd_bind, wpd_bind, wpd_gets. cbn [s_once set_mach]. rewrite Honce.
  apply wpd_modify. set (s3 := mkSys _ _ _ _).
  assert (kst s3 0 false None [] [] ∅ false 0) as Hk3.
  { split; try done; [|apply lock_new_free]. etrans; [exact Ht2|]. etrans; [exact Ht1|].
    by rewrite Hcpu. }
  clearbody s3. apply wpd_bind. eapply wpd_KERNEL_lock; [exact Hk3|]. intros s4 Hk4.
  apply wpd_bind. unfold Kernel_init. apply wpd_bind.
  eapply wpd_lift; [exact Hk4|auto with calm|]. intros [kvm|] s5 Hk5; [|done].
  apply wpd_bind, wpd_modify, wpd_ret, wpd_bind, wpd_ret, wpd_bind.
  set (s6 := set_kernel _ s5). assert (kst s6 (0 + 1) false None [] [] ∅ true 0) as Hk6 by (destruct Hk5; by split).
  eapply wpd_initproc; [exact Hk6|done| |].
  { intros s'. by apply wpd_bind. }
  intros fr s7 Hk7. cbn in Hk7. apply wpd_bind, wpd_ret, wpd_bind, wpd_gets, wpd_bind, wpd_unwrap.
  intros kvm' _. apply wpd_bind. eapply wpd_lift; [exact Hk7|auto with calm|]. intros _ s8 Hk8.
  apply wpd_bind. unfold allocproc. apply wpd_bind, (wpd_indices _ _ _ _ _ _ _ _ _ _ Hk8). cbn [replicate length seq allocproc_loop].
  apply wpd_bind, (wpd_proc 0 _ _ _ _ _ _ _ _ _ _ Hk8). intros p _ Hp _. injection Hp as _ Hu _ _.
  rewrite decide_True by done. apply wpd_bind.
  eapply wpd_claim; [exact Hk8|done|set_solver|]. intros s9 Hk9. cbn [replicate insert list_insert] in Hk9.
  apply wpd_ret, wpd_bind, wpd_ret, wpd_bind.
  eapply (wpd_unlock_proc 0 _ _ _ _ _ ∅); [exact Hk9|set_solver|lia|]. intros s10 Hk10. depth Hk10.
  apply wpd_bind. eapply wpd_kexec; [exact Hk10|]. intros r s11 Hk11. apply wpd_bind, wpd_unwrap. intros [] _.
  apply wpd_bind. eapply (wpd_update_view 0 _ _ (mkAproc (Some 0) Runnable None None));
    [exact Hk11|done|view_eq|done|done|]. intros s12 Hk12. cbn [insert list_insert] in Hk12.
  eapply wpd_KERNEL_unlock; [exact Hk12|lia|]. intros s13 Hk13. depth Hk13. apply HQ.
  exists (<[0%nat:=true]> fr). split; [|by split; [|exists false]].
  intros i q Hi Hs. destruct i as [|i].
  - left. apply list_lookup_insert_eq. pose proof (kst_fr_length _ _ _ _ _ _ _ _ _ Hk8) as Hl. change (length fr = 4%nat) in Hl. lia.
  - by destruct i as [|[|[|i]]]; cbn in Hi; simplify_eq; destruct Hs.
Qed.

(** ** Steps *)

(** What a stretch of kernel code leaves: a represented configuration, with the same
    process on the hart unless one has been dispatched, or that process in the switch to
    the scheduler, its lock held. *)
Definition code_post th (a : astate) (nx : next) s' : Prop :=
  match nx with
  | Goto r' => ∃ a', rtc astep a a' ∧ represents (mkConfig s' th r') a' ∧
      (a_run a' = a_run a ∨ ∃ j, r' = RunSwitch j)
  | Switch i res => a_run a = Some i ∧ ∃ pv ps' fr' n',
      kst s' 1 pv (Some i) ps' fr' {[i]} false n' ∧ rtc astep a (mkAstate ps' n' None) ∧
      (∀ j q, j ≠ i → ps' !! j = Some q → suspended q → has_thread th fr' j) ∧
      (∀ q, ps' !! i = Some q → suspended q → resumable i res)
  end.

Lemma a_inv_rtc a a' : a_inv a → rtc astep a a' → a_inv a'.
Proof. intros Ha. induction 1; [done|]. eauto using a_inv_step. Qed.

Lemma kept_threads th i ps fr ps' fr' j q :
  threads_ok th ps fr → kept i ps fr ps' fr' → j ≠ i → ps' !! j = Some q → suspended q →
  has_thread th fr' j.
Proof.
  intros Hth Hk Hne Hj Hs. destruct (Hk j q Hne Hj Hs) as [H|[Heq (q0 & Hq0 & Hs0)]]; [by left|].
  unfold has_thread. rewrite Heq. by apply (Hth j q0).
Qed.

(** A process that keeps the hart. *)
Lemma running_post_represents th a i pv fr s' r :
  a_inv a → a_run a = Some i → threads_ok th (a_procs a) fr →
  running_post s' i pv (a_procs a) fr (a_next a) →
  inside i r ∨ r = RunUser i →
  code_post th a (Goto r) s'.
Proof.
  intros Ha Hrun Hth (ps' & fr' & n' & Hk & Hsteps & Hkept) Hr.
  assert (a = mkAstate (a_procs a) (a_next a) (Some i)) as Heq by (destruct a; cbn in *; by subst).
  rewrite <- Heq in Hsteps. exists (mkAstate ps' n' (Some i)). split; [done|].
  pose proof (a_inv_rtc _ _ Ha Hsteps) as Ha'. split; [|by left]. exists fr'. split.
  - intros j q Hj Hs. cbn [a_procs] in Hj. destruct (decide (j = i)) as [->|Hne].
    + apply (a_running _ i q Ha' eq_refl) in Hj as (Hq & _). unfold suspended in Hs. rewrite Hq in Hs.
      by destruct Hs.
    + by eapply kept_threads.
  - destruct Hr as [Hr | ->]; [|split; [done|by exists pv]].
    destruct r; try done; cbn in Hr; subst; (split; [done|by exists pv]).
Qed.

Lemma switching_post_code th a i pv fr s' st res :
  a_run a = Some i → threads_ok th (a_procs a) fr →
  switching_post s' i pv (a_procs a) fr (a_next a) st →
  (st = Runnable ∨ st = Sleeping → resumable i res) →
  code_post th a (Switch i res) s'.
Proof.
  intros Hrun Hth (ps' & fr' & n' & Hk & Hsteps & Hkept & q & Hq & Hst) Hres.
  assert (a = mkAstate (a_procs a) (a_next a) (Some i)) as Heq by (destruct a; cbn in *; by subst).
  rewrite <- Heq in Hsteps. split; [done|]. exists pv, ps', fr', n'. split_and!; [done..| |].
  - intros j q' Hne Hj Hs. by eapply kept_threads.
  - intros q' Hq' Hs. simplify_eq. by apply Hres.
Qed.

Lemma sys_post_code th a i pv fr s' r :
  a_inv a → a_run a = Some i → threads_ok th (a_procs a) fr →
  sys_post s' i pv (a_procs a) fr (a_next a) r → code_post th a (after_syscall i r) s'.
Proof.
  intros Ha Hrun Hth Hpost. destruct r; cbn [sys_post after_syscall] in *.
  - by eapply running_post_represents; [..|left].
  - by eapply running_post_represents; [..|left].
  - by eapply switching_post_code.
  - eapply switching_post_code; [done..|]. by intros [?|?].
Qed.

(** A later abstract state, reached with the same thread of process [i]. *)
Lemma code_post_trans th a a' nx s' :
  rtc astep a a' → a_run a' = a_run a → code_post th a' nx s' → code_post th a nx s'.
Proof.
  intros Hst Hrun. destruct nx as [r|i res]; cbn [code_post].
  - intros (a'' & H & Hr & Hrun'). exists a''. split; [by etrans|]. by rewrite <- Hrun.
  - intros (Hi & pv & ps' & fr' & n' & Hk & H & Hrest). split; [congruence|]. exists pv, ps', fr', n'.
    split; [done|]. split; [by etrans|done].
Qed.

Lemma running_code th a i pv fr s' r :
  a_inv a → a_run a = Some i → threads_ok th (a_procs a) fr →
  kst s' 0 pv (Some i) (a_procs a) fr ∅ false (a_next a) →
  inside i r ∨ r = RunUser i → code_post th a (Goto r) s'.
Proof. intros. eapply running_post_represents; [done..| |done]. by apply running_same. Qed.

Lemma wpd_resume_thread th a i fr pv s :
  a_inv a → a_run a = Some i → threads_ok th (a_procs a) fr → has_thread th fr i →
  kst s 1 pv (Some i) (a_procs a) fr {[i]} false (a_next a) →
  wpd (resume_thread th i) (code_post th a) s.
Proof.
  intros Ha Hrun Hth Hi Hk. destruct (ai_run_in _ Ha i Hrun) as [p Hp].
  unfold resume_thread. apply wpd_bind, (wpd_proc i _ _ _ _ _ _ _ _ _ _ Hk). intros self _ _ Hfr.
  case_decide as Hra.
  { apply wpd_bind. eapply wpd_forkret; [exact Hk|]. intros _ s1 Hk1. apply wpd_bind.
    eapply wpd_sret; [exact Hk1|]. intros pv' s2 Hk2. apply wpd_ret. eapply running_code; naive_solver. }
  destruct Hi as [Hi|(res & -> & Hres)].
  { rewrite Hfr in Hi. injection Hi as Hi. by apply bool_decide_eq_true in Hi. }
  destruct res as [prev|prev sepc_v sstatus_v back|status_addr prev|prev]; [..|done].
  - apply wpd_bind. eapply wpd_yeld_leave; [exact Hk|]. intros s1 Hk1. apply wpd_bind.
    eapply wpd_usertrap_leave; [exact Hk1|]. intros _ s2 Hk2. apply wpd_bind.
    eapply wpd_sret; [exact Hk2|]. intros pv' s3 Hk3. apply wpd_ret. eapply running_code; naive_solver.
  - apply wpd_bind. eapply wpd_yeld_leave; [exact Hk|]. intros s1 Hk1. apply wpd_bind.
    eapply wpd_kerneltrap_leave; [exact Hk1|]. intros pv2 s2 Hk2. apply wpd_bind.
    eapply wpd_sret; [exact Hk2|]. intros pv' s3 Hk3. apply wpd_ret. cbn in Hres.
    eapply running_code; naive_solver.
  - apply wpd_bind. eapply wpd_kwait_leave; [exact Hk|exact Hp|].
    intros s1 Hk1. set (a1 := mkAstate (<[i := a_set_chan None p]> (a_procs a)) (a_next a) (Some i)).
    assert (astep a a1) as Hstep.
    { destruct a; cbn in *; subst. by apply a_awake. }
    pose proof (a_inv_step _ _ Ha Hstep) as Ha1.
    apply wpd_ret, (code_post_trans _ _ a1); [by apply rtc_once|by rewrite Hrun|].
    eapply running_code; [exact Ha1|done| |exact Hk1|by left].
    intros j q Hj Hs. destruct (decide (j = i)) as [->|Hne].
    + apply (a_running _ i q Ha1 eq_refl) in Hj as (Hq & _). unfold suspended in Hs. rewrite Hq in Hs.
      by destruct Hs.
    + eapply (kept_threads th i (a_procs a) fr (a_procs a1)); [exact Hth|apply kept_self|done..].
Qed.

(** A stretch of kernel code, run from a represented configuration. *)
Lemma wpd_code fuel regs th r a s :
  represents (mkConfig s th r) a → a_inv a → wpd (code fuel regs th r) (code_post th a) s.
Proof.
  destruct a as [ps n run]. intros (fr & Hth & Hloc) Ha. cbn [c_sys c_threads c_run a_procs a_next a_run] in *.
  destruct r as [| |i|i| |i|i k|i|back]; cbn [located code] in *.
  - destruct Hloc as (-> & pv & Hk). apply wpd_bind. eapply wpd_scheduler_open; [exact Hk|].
    intros s1 Hk1. apply wpd_ret. exists (mkAstate ps n None). split; [done|].
    split; [|by left]. exists fr. split; [done|]. by split; [|exists true].
  - destruct Hloc as (-> & pv & Hk). apply wpd_bind. eapply wpd_scheduler_pick; [exact Hk| |].
    + intros s1 Hk1. apply wpd_bind. eapply wpd_scheduler_idle; [exact Hk1|]. intros s2 Hk2.
      apply wpd_ret. exists (mkAstate ps n None). split; [done|]. split; [|by left]. exists fr. split; [done|].
      by split; [|exists true].
    + intros i p s1 Hi Hr Hk1. apply wpd_bind. eapply wpd_scheduler_dispatch; [exact Hk1|]. intros s2 Hk2.
      apply wpd_bind. eapply wpd_save_cpu_context; [exact Hk2|]. intros s3 Hk3. apply wpd_ret.
      exists (mkAstate (<[i := a_set_state Running p]> ps) n (Some i)).
      split; [by apply rtc_once, a_dispatch|]. split; [|right; by exists i]. exists fr. split.
      * intros j q [(-> & <- & _)|[_ Hj]]%list_lookup_insert_Some Hs; [by destruct Hs|by eapply Hth].
      * split_and!; [done| |by exists false]. apply (Hth i p Hi). by left.
  - destruct Hloc as (-> & Hi & pv & Hk). by eapply wpd_resume_thread.
  - done.
  - destruct Hloc as (Hspp & i & -> & Hk). destruct (ai_run_in _ Ha i eq_refl) as [p Hi].
    apply wpd_bind. eapply wpd_usertrap_enter; [exact Hk|exact Hi|exact Hspp| |].
    + intros s1 Hk1. apply wpd_ret. cbn [fst snd]. eapply running_code; naive_solver.
    + intros prev s1 Hpost. apply wpd_ret. cbn [fst snd].
      by eapply (switching_post_code _ (mkAstate ps n (Some i))).
  - destruct Hloc as (-> & pv & Hk). destruct (ai_run_in _ Ha i eq_refl) as [p Hi].
    apply wpd_bind. eapply wpd_syscall_enter; [exact Hk|exact Ha|exact Hi|]. intros r s1 Hpost.
    apply wpd_ret. by eapply (sys_post_code _ (mkAstate ps n (Some i))).
  - destruct Hloc as (-> & pv & Hk). destruct (ai_run_in _ Ha i eq_refl) as [p Hi].
    apply wpd_bind. eapply wpd_syscall_more; [exact Hk|exact Ha|exact Hi|]. intros r s1 Hpost.
    apply wpd_ret. by eapply (sys_post_code _ (mkAstate ps n (Some i))).
  - destruct Hloc as (-> & pv & Hk). apply wpd_bind. eapply wpd_usertrap_leave; [exact Hk|].
    intros _ s1 Hk1. apply wpd_bind. eapply wpd_sret; [exact Hk1|]. intros pv' s2 Hk2.
    apply wpd_ret. eapply running_code; naive_solver.
  - destruct Hloc as (Hspp & Hown & Hk). apply wpd_bind.
    eapply wpd_kerneltrap_enter; [exact Hk| |exact Hspp| |].
    + intros i ->. by apply (ai_run_in _ Ha).
    + intros w v s1 -> Hk1. apply wpd_bind. eapply wpd_kerneltrap_leave; [exact Hk1|].
      intros pv1 s2 Hk2. apply wpd_bind. eapply wpd_sret; [exact Hk2|]. intros pv2 s3 Hk3.
      apply wpd_ret. exists (mkAstate ps n None). split; [done|]. split; [|by left]. exists fr. split; [done|].
      destruct back; try done; by split; [|exists pv2].
    + intros i w v prev s1 -> Hpost. apply wpd_ret.
      eapply (switching_post_code _ (mkAstate ps n (Some i))); [done|exact Hth|exact Hpost|].
      intros _. destruct back; try done; cbn in *; injection Hown as ->; auto.
Qed.

(** ** Hardware *)

Lemma trap_sstatus_sie user w : Z.testbit (trap_sstatus user w) 1 = false.
Proof.
  unfold trap_sstatus. rewrite Z.lor_spec, Z.land_spec.
  change (Z.testbit (not32 _) 1) with false. rewrite andb_false_r, Z.lor_spec.
  by destruct (Z.testbit w 1), user.
Qed.

Lemma trap_sstatus_spp user w : Z.land (trap_sstatus user w) SSTATUS_SPP = 0 ↔ user = true.
Proof.
  assert (Z.testbit (trap_sstatus user w) 8 = negb user) as Hb.
  { unfold trap_sstatus. rewrite Z.lor_spec, Z.land_spec.
    change (Z.testbit (not32 _) 8) with false. rewrite andb_false_r, Z.lor_spec.
    by destruct (Z.testbit w 1), user. }
  change SSTATUS_SPP with (2 ^ 8). rewrite land_pow2, Hb by done. by destruct user.
Qed.

(** A trap leaves the kernel's state alone and turns interrupts off. *)
Lemma kst_trap_entry s user t f pv cur ps fr kl n :
  kst s 0 pv cur ps fr ∅ kl n →
  kst (set_mach (trap_entry user t (set_mem f (s_mach s))) s) 0 false cur ps fr ∅ kl n.
Proof.
  intros Hk. eapply kst_mach; [exact Hk| |apply Hk|apply Hk].
  destruct (ks_depth _ _ _ _ _ _ _ _ _ Hk) as [H1 H2 H3 H4]. split; try done.
  cbn. apply trap_sstatus_sie.
Qed.
(** ** Every step is matched *)

Lemma located_interruptible c a :
  represents c a → interruptible (c_run c) = true → ∃ pv fr,
    threads_ok (c_threads c) (a_procs a) fr ∧ owner (c_run c) (a_run a) ∧
    kst (c_sys c) 0 pv (a_run a) (a_procs a) fr ∅ false (a_next a).
Proof.
  intros (fr & Hth & Hloc) Hi.
  destruct (c_run c); try done; destruct Hloc as (-> & pv & Hk); by exists pv, fr.
Qed.

Lemma step_refines c c' a :
  represents c a → a_inv a → step c c' → ∃ a', rtc astep a a' ∧ represents c' a'.
Proof.
  intros Hc Ha Hstep.
  destruct Hstep as [fuel regs s s' th r r' Hcode|fuel regs s s1 s2 th r i res out Hcode Hout Hsw
    |s th i m t|s th r t Hint Hsie].
  - pose proof (wpd_code fuel regs _ _ _ _ Hc Ha) as H. unfold wpd in H. rewrite Hcode in H.
    destruct H as (a' & Hst & Hr & _). by exists a'.
  - pose proof (wpd_code fuel regs _ _ _ _ Hc Ha) as H. unfold wpd in H. rewrite Hcode in H.
    destruct H as (_ & pv & ps' & fr' & n' & Hk & Hrtc & Hothers & Hself).
    eexists. split; [exact Hrtc|]. pose proof (kst_fr_length _ _ _ _ _ _ _ _ _ Hk) as Hlen.
    assert (wpd (save_context i out;; scheduler_return i)
      (λ _ s', kst s' 0 pv None ps' (<[i := false]> fr') ∅ false n') s1) as H2.
    { by eapply (wpd_switch_out i out 0); [exact Hk|..]. }
    unfold wpd in H2. rewrite Hsw in H2. exists (<[i := false]> fr'). split; [|by split; [|exists pv]].
    intros j q Hj Hs. cbn [c_threads a_procs] in *. destruct (decide (j = i)) as [->|Hne].
    + right. exists res. split; [apply lookup_insert_eq|by eapply Hself].
    + destruct (Hothers j q Hne Hj Hs) as [Hf|(r' & Hr' & Hres)].
      * left. by rewrite list_lookup_insert_ne.
      * right. exists r'. by rewrite lookup_insert_ne.
  - destruct Hc as (fr & Hth & Hrun & pv & Hk). exists a. split; [done|]. exists fr. split; [done|].
    split; [by apply trap_sstatus_spp|]. exists i. split; [done|]. by eapply kst_trap_entry.
  - destruct (located_interruptible _ _ Hc Hint) as (pv & fr & Hth & Hown & Hk). exists a. split; [done|].
    exists fr. split; [done|]. split; [|split; [done|]].
    + by intros H%trap_sstatus_spp.
    + cbn [c_sys c_threads c_run] in *. pose proof (kst_trap_entry s false t (m_mem (s_mach s)) _ _ _ _ _ _ Hk) as H.
      destruct s as [[] ? ? ?]; exact H.
Qed.

Lemma represents_rtc c c' a :
  represents c a → areachable a → rtc step c c' → ∃ a', represents c' a' ∧ areachable a'.
Proof.
  intros Hr Ha Hs. revert a Hr Ha. induction Hs as [c|c1 c2 c3 H12 _ IH]; intros a Hr Ha; [by exists a|].
  destruct (step_refines _ _ _ Hr (areachable_inv _ Ha) H12) as (a2 & Hrtc & H2). apply (IH a2); [done|].
  clear -Ha Hrtc. induction Hrtc; [done|]. apply IHHrtc. by eapply areach_step.
Qed.

Lemma reachable_represents c : reachable c → ∃ a, represents c a ∧ areachable a.
Proof.
  intros (s & s' & Hon & Hboot & Hsteps).
  assert (wpd main_boot (λ _ s', represents (boot_config s') a_initial) s) as H by by apply wpd_main_boot.
  eapply wpd_done in H; [|exact Hboot]. by eapply represents_rtc; [|constructor|].
Qed.

(** The control state of a represented configuration. *)
Lemma represents_control c a : represents c a → ∃ d pv fr held,
  kst (c_sys c) d pv (a_run a) (a_procs a) fr held false (a_next a) ∧
  match c_run c with RunSwitch i => d = 1 ∧ held = {[i]} ∧ a_run a = Some i | _ => d = 0 ∧ held = ∅ end.
Proof.
  intros (fr & _ & Hloc). destruct (c_run c); cbn [located] in Hloc.
  - destruct Hloc as (-> & pv & Hk). by exists 0, pv, fr, ∅.
  - destruct Hloc as (-> & pv & Hk). by exists 0, pv, fr, ∅.
  - destruct Hloc as (-> & _ & pv & Hk). by exists 1, pv, fr, {[i]}.
  - destruct Hloc as (-> & pv & Hk). by exists 0, pv, fr, ∅.
  - destruct Hloc as (_ & i & -> & Hk). by exists 0, false, fr, ∅.
  - destruct Hloc as (-> & pv & Hk). by exists 0, pv, fr, ∅.
  - destruct Hloc as (-> & pv & Hk). by exists 0, pv, fr, ∅.
  - destruct Hloc as (-> & pv & Hk). by exists 0, pv, fr, ∅.
  - destruct Hloc as (_ & _ & Hk). by exists 0, false, fr, ∅.
Qed.

(** What every represented configuration shows of the table. *)
Lemma represents_kst c a : represents c a → ∃ d pv cur fr held,
  kst (c_sys c) d pv cur (a_procs a) fr held false (a_next a).
Proof.
  intros (fr & _ & Hloc). destruct (c_run c); cbn [located] in Hloc.
  - destruct Hloc as (_ & pv & Hk). by eexists _, _, _, _, _.
  - destruct Hloc as (_ & pv & Hk). by eexists _, _, _, _, _.
  - destruct Hloc as (_ & _ & pv & Hk). by eexists _, _, _, _, _.
  - destruct Hloc as (_ & pv & Hk). by eexists _, _, _, _, _.
  - destruct Hloc as (_ & i & _ & Hk). by eexists _, _, _, _, _.
  - destruct Hloc as (_ & pv & Hk). by eexists _, _, _, _, _.
  - destruct Hloc as (_ & pv & Hk). by eexists _, _, _, _, _.
  - destruct Hloc as (_ & pv & Hk). by eexists _, _, _, _, _.
  - destruct Hloc as (_ & _ & Hk). by eexists _, _, _, _, _.
Qed.
End refine.
