(* ===== verification/Keeps.v ===== *)
(** Which fields of the processes a piece of kernel code leaves alone, whatever its
    outcome and whatever state it starts in. *)
From S2P Require Export System KernelSpec.

Create HintDb keeps.

Lemma add32_done {S} a b (s : S) r s' : add32 a b s = Done r s' → r = a + b ∧ s' = s.
Proof. unfold add32. case_decide; [|done]. by intros [= <- <-]. Qed.
Lemma sub32_done {S} a b (s : S) r s' : sub32 a b s = Done r s' → r = a - b ∧ s' = s.
Proof. unfold sub32. case_decide; [|done]. by intros [= <- <-]. Qed.
Lemma mul32_done {S} a b (s : S) r s' : mul32 a b s = Done r s' → r = a * b ∧ s' = s.
Proof. unfold mul32. case_decide; [|done]. by intros [= <- <-]. Qed.

Section keeps.
Context {E : Env} {B : Type} (f : Process → B).

(** [f] of every entry of the table is what it was. *)
Definition Keeps {A} (m : KM A) : Prop :=
  ∀ s a s', m s = Done a s' → f <$> table s' = f <$> table s.

Lemma keeps_ret {A} (a : A) : Keeps (mret a).
Proof. by intros s b s' [= _ ->]. Qed.
Lemma keeps_panic {A} p : Keeps (panic_with p : KM A).
Proof. done. Qed.
Lemma keeps_fault {A} : Keeps (fault : KM A).
Proof. done. Qed.
Lemma keeps_out_of_fuel {A} : Keeps (out_of_fuel : KM A).
Proof. done. Qed.
Lemma keeps_gets {A} (g : Sys → A) : Keeps (gets g).
Proof. by intros s b s' [= _ ->]. Qed.
Lemma keeps_unwrap {A} (o : option A) : Keeps (unwrap o).
Proof. destruct o; [apply keeps_ret|apply keeps_panic]. Qed.
Lemma keeps_add32 a b : Keeps (add32 a b).
Proof. unfold add32. case_decide; [apply keeps_ret|apply keeps_panic]. Qed.
Lemma keeps_sub32 a b : Keeps (sub32 a b).
Proof. unfold sub32. case_decide; [apply keeps_ret|apply keeps_panic]. Qed.
Lemma keeps_mul32 a b : Keeps (mul32 a b).
Proof. unfold mul32. case_decide; [apply keeps_ret|apply keeps_panic]. Qed.
Lemma keeps_bind {A C} (m : KM A) (k : A → KM C) : Keeps m → (∀ a, Keeps (k a)) → Keeps (m ≫= k).
Proof. intros Hm Hk s b s' (a & s1 & H1 & H2)%bind_done. rewrite (Hk _ _ _ _ H2). by eapply Hm. Qed.
Lemma keeps_lift {A} (m : MM A) : Keeps (lift m).
Proof. intros s a s'. unfold lift. destruct (m (s_mach s)); [|done..]. by intros [= _ <-]. Qed.
Lemma keeps_modify (g : Sys → Sys) : (∀ s, table (g s) = table s) → Keeps (modify g).
Proof. intros Hg s a s' [= _ <-]. by rewrite Hg. Qed.
Lemma keeps_for_each {A} (l : list A) (body : A → KM unit) : (∀ x, Keeps (body x)) → Keeps (for_each l body).
Proof.
  intros Hb. induction l as [|x l IH]; cbn [for_each]; [apply keeps_ret|].
  by apply keeps_bind.
Qed.
Lemma keeps_proc i : Keeps (proc i).
Proof.
  unfold proc. apply keeps_bind; [apply keeps_gets|]. intros t.
  destruct (t !! i); [apply keeps_ret|apply keeps_fault].
Qed.

(** A state change through a reference, and what it does to the table. *)
Lemma proc_done i s p s' : proc i s = Done p s' → s' = s ∧ table s !! i = Some p.
Proof.
  unfold proc, mbind, M_bind, gets. fold (table s).
  destruct (table s !! i) as [q|]; [|done]. by intros [= -> ->].
Qed.
Lemma update_done i g s a s' :
  update i g s = Done a s' →
  ∃ p, table s !! i = Some p ∧ table s' = <[i := g p]> (table s).
Proof.
  unfold update. intros (p & s1 & [-> Hp]%proc_done & H)%bind_done.
  exists p. split; [done|]. by injection H as _ <-.
Qed.

Lemma keeps_update i g : (∀ p, f (g p) = f p) → Keeps (update i g).
Proof.
  intros Hg s a s' (p & Hp & ->)%update_done. rewrite list_fmap_insert, Hg.
  apply list_insert_id. by rewrite list_lookup_fmap, Hp.
Qed.
Lemma keeps_update_with {A} i (g : Process → MM (Process * A)) :
  (∀ p m r m', g p m = Done r m' → f r.1 = f p) → Keeps (update_with i g).
Proof.
  intros Hg s a s'. unfold update_with.
  intros (p & s1 & [-> Hp]%proc_done & (r & s2 & H2 & (u & s3 & H3 & H4)%bind_done)%bind_done)%bind_done.
  injection H4 as _ <-. apply update_done in H3 as (p' & Hp' & ->).
  unfold lift in H2. destruct (g p (s_mach s)) as [r' m'| | | |] eqn:Hgp; try done. injection H2 as -> <-.
  rewrite list_fmap_insert, (Hg _ _ _ _ Hgp). apply list_insert_id. by rewrite list_lookup_fmap, Hp.
Qed.
End keeps.

#[export] Hint Resolve keeps_ret keeps_panic keeps_fault keeps_out_of_fuel keeps_gets keeps_unwrap
  keeps_add32 keeps_sub32 keeps_mul32 keeps_lift keeps_proc : keeps.
#[export] Hint Extern 1 (Keeps _ (update _ _)) => apply keeps_update; reflexivity : keeps.
#[export] Hint Extern 1 (Keeps _ (modify _)) => apply keeps_modify; reflexivity : keeps.
#[export] Hint Extern 1 (Keeps _ (kernel_modify _)) => apply keeps_modify; reflexivity : keeps.

(** Works through straight-line code and its branches. *)
Ltac keeps_step :=
  cbv zeta beta;
  lazymatch goal with
  | |- Keeps _ (mbind _ _) => apply keeps_bind; [|intros ?]
  | |- Keeps _ (for_each _ _) => apply keeps_for_each; intros ?
  | |- Keeps _ (match ?x with _ => _ end) => destruct x
  | |- Keeps _ _ => solve [auto with keeps]
  end.
Ltac keeps := repeat keeps_step.

(** ** Locks: every field but the lock *)

Section locks.
Context {E : Env} {B : Type} (f : Process → B).
Context (Hlock : ∀ l p, f (set_lock l p) = f p).

Lemma keeps_lock_proc i : Keeps f (lock_proc i).
Proof. unfold lock_proc. keeps. by apply keeps_update. Qed.
Lemma keeps_unlock_proc i : Keeps f (unlock_proc i).
Proof. unfold unlock_proc. keeps. by apply keeps_update. Qed.
Lemma keeps_KERNEL_lock : Keeps f KERNEL_lock.
Proof. unfold KERNEL_lock. keeps. Qed.
Lemma keeps_KERNEL_unlock : Keeps f KERNEL_unlock.
Proof. unfold KERNEL_unlock. keeps. Qed.
End locks.

#[export] Hint Extern 1 (Keeps _ (lock_proc _)) => apply keeps_lock_proc; reflexivity : keeps.
#[export] Hint Extern 1 (Keeps _ (unlock_proc _)) => apply keeps_unlock_proc; reflexivity : keeps.
#[export] Hint Resolve keeps_KERNEL_lock keeps_KERNEL_unlock : keeps.

(** ** Stacks and counts *)

Section fixed.
Context {E : Env}.

(** What the kernel's code leaves alone once the table is built: the stacks, and, but
    for the scheduler's dispatch, the counts. *)
Definition fixed (p : Process) : (Z * Z)%type := (p_kstack p, p_quants p).
Abbreviation KeepsQ := (Keeps fixed).

Lemma keeps_part {A C} (g : (Z * Z)%type → C) (m : KM A) : KeepsQ m → Keeps (g ∘ fixed) m.
Proof. intros Hm s a s' H. by rewrite !list_fmap_compose, (Hm s a s' H). Qed.


Lemma assign_pagetable_fixed v p m r m' : assign_pagetable v p m = Done r m' → fixed r = fixed p.
Proof. by intros (u & m1 & _ & [= <- _])%bind_done. Qed.
Lemma assign_trapframe_fixed v p m r m' : assign_trapframe v p m = Done r m' → fixed r = fixed p.
Proof. by intros (u & m1 & _ & [= <- _])%bind_done. Qed.
Lemma Process_free_fixed p m r m' : Process_free p m = Done r m' → fixed r.1 = fixed p.
Proof.
  unfold Process_free. intros (o & m1 & _ & H)%bind_done. destruct o as [u|]; [|by injection H as <- _].
  apply bind_done in H as (p1 & m2 & H1 & H). apply bind_done in H as (t & m3 & _ & H).
  apply bind_done in H as (p2 & m4 & H2 & [= <- _]).
  cbn [fst]. apply assign_trapframe_fixed in H2 as ->. by apply assign_pagetable_fixed in H1.
Qed.

Lemma keeps_put_pagetable i v : KeepsQ (put_pagetable i v).
Proof.
  apply keeps_update_with. intros p m r m' (p1 & m1 & H & [= <- _])%bind_done.
  by apply assign_pagetable_fixed in H.
Qed.
Lemma keeps_put_trapframe i v : KeepsQ (put_trapframe i v).
Proof.
  apply keeps_update_with. intros p m r m' (p1 & m1 & H & [= <- _])%bind_done.
  by apply assign_trapframe_fixed in H.
Qed.
#[local] Hint Resolve keeps_put_pagetable keeps_put_trapframe : keeps.

Lemma keeps_sched_enter : KeepsQ sched_enter.
Proof. unfold sched_enter, get_current. keeps. Qed.
Lemma keeps_sched_leave b : KeepsQ (sched_leave b).
Proof. apply keeps_lift. Qed.
#[local] Hint Resolve keeps_sched_enter keeps_sched_leave : keeps.
Lemma keeps_yeld_enter i : KeepsQ (yeld_enter i).
Proof. unfold yeld_enter, print_interrupt, print_locks. keeps. Qed.
Lemma keeps_yeld_leave i b : KeepsQ (yeld_leave i b).
Proof. unfold yeld_leave. keeps. Qed.
Lemma keeps_wakeup ch : KeepsQ (wakeup ch).
Proof. unfold wakeup, indices. keeps. Qed.
#[local] Hint Resolve keeps_yeld_enter keeps_yeld_leave keeps_wakeup : keeps.
Lemma keeps_reparent_loop l pid b : KeepsQ (reparent_loop l pid b).
Proof. revert b. induction l; intros; cbn [reparent_loop]; keeps. Qed.
#[local] Hint Resolve keeps_reparent_loop : keeps.
Lemma keeps_reparent pid : KeepsQ (reparent pid).
Proof. unfold reparent, indices. keeps. Qed.
Lemma keeps_claim i : KeepsQ (claim i).
Proof. unfold claim. keeps. Qed.
#[local] Hint Resolve keeps_reparent keeps_claim : keeps.
Lemma keeps_allocproc_loop l : KeepsQ (allocproc_loop l).
Proof. induction l; cbn [allocproc_loop]; keeps. Qed.
#[local] Hint Resolve keeps_allocproc_loop : keeps.
Lemma keeps_fork_child i c : KeepsQ (fork_child i c).
Proof. unfold fork_child. keeps. Qed.
#[local] Hint Resolve keeps_fork_child : keeps.
Lemma keeps_kfork i : KeepsQ (kfork i).
Proof. unfold kfork, allocproc, indices. keeps. Qed.
Lemma keeps_kexec i path argv : KeepsQ (kexec i path argv).
Proof. unfold kexec. keeps. Qed.
Lemma keeps_kexit_enter i x : KeepsQ (kexit_enter i x).
Proof. unfold kexit_enter. keeps. Qed.
Lemma keeps_reap j : KeepsQ (reap j).
Proof. unfold reap. keeps. apply keeps_update_with, Process_free_fixed. Qed.
#[local] Hint Resolve keeps_kfork keeps_kexec keeps_kexit_enter keeps_reap : keeps.
Lemma keeps_scan l pid b : KeepsQ (scan l pid b).
Proof. revert b. induction l; intros; cbn [scan]; keeps. Qed.
Lemma keeps_find_pid l pid : KeepsQ (find_pid l pid).
Proof. induction l; cbn [find_pid]; keeps. Qed.
#[local] Hint Resolve keeps_scan keeps_find_pid : keeps.
Lemma keeps_kwait_scan i : KeepsQ (kwait_scan i).
Proof. unfold kwait_scan, publish_sleep, indices. keeps. Qed.
Lemma keeps_store_status i a x : KeepsQ (store_status i a x).
Proof. unfold store_status. keeps. Qed.
#[local] Hint Resolve keeps_kwait_scan keeps_store_status : keeps.
Lemma keeps_syscall_enter fuel i : KeepsQ (syscall_enter fuel i).
Proof.
  unfold syscall_enter, sys_write_enter, sys_fork, sys_exec_enter, sys_exit_enter. keeps.
Qed.
Lemma keeps_syscall_more fuel i k : KeepsQ (syscall_more fuel i k).
Proof. unfold syscall_more, sys_exec_arg, sys_return. keeps. Qed.
Lemma keeps_usertrap_leave i : KeepsQ (usertrap_leave i).
Proof. unfold usertrap_leave, prepare_return. keeps. Qed.
Lemma keeps_sret : KeepsQ sret.
Proof. unfold sret. keeps. Qed.
#[local] Hint Resolve keeps_syscall_enter keeps_syscall_more keeps_usertrap_leave keeps_sret : keeps.
Lemma keeps_resume_thread th i : KeepsQ (resume_thread th i).
Proof.
  unfold resume_thread, forkret, get_current, prepare_return, kerneltrap_leave,
    kwait_leave, kexit_leave.
  keeps.
Qed.
#[local] Hint Resolve keeps_resume_thread : keeps.

Lemma run_window_dec r : {r = RunWindow} + {r ≠ RunWindow}.
Proof. destruct r; (by left) || (by right). Qed.

(** The code of a step, the dispatch apart. *)
Lemma keeps_code_fixed fuel regs th r : r ≠ RunWindow → KeepsQ (code fuel regs th r).
Proof.
  intros Hr. destruct r; cbn [code]; [|done|..].
  all: unfold scheduler_open, usertrap_enter, kerneltrap_enter, kerneltrap_leave, get_current; keeps.
Qed.
Lemma keeps_switch_out_fixed i out : KeepsQ (save_context i out;; scheduler_return i).
Proof. unfold save_context, scheduler_return. keeps. apply keeps_lift. Qed.

(** ** Scheduling counts: only the dispatch changes them *)

Lemma keeps_code fuel regs th r : r ≠ RunWindow → Keeps p_quants (code fuel regs th r).
Proof. intros Hr. by apply (keeps_part snd), keeps_code_fixed. Qed.
Lemma keeps_switch_out i out : Keeps p_quants (save_context i out;; scheduler_return i).
Proof. apply (keeps_part snd), keeps_switch_out_fixed. Qed.

(** ** Kernel stacks: nothing changes them *)

Lemma keeps_pick_loop l : Keeps p_kstack (pick_loop l).
Proof. induction l; cbn [pick_loop]; keeps. Qed.
#[local] Hint Resolve keeps_pick_loop : keeps.
Lemma kstack_code fuel regs th r : Keeps p_kstack (code fuel regs th r).
Proof.
  destruct (run_window_dec r) as [->|Hr]; [|by apply (keeps_part fst), keeps_code_fixed].
  cbn [code]. unfold scheduler_pick, scheduler_dispatch, scheduler_idle, save_cpu_context, set_current, indices. keeps.
Qed.
Lemma kstack_switch_out i out : Keeps p_kstack (save_context i out;; scheduler_return i).
Proof. apply (keeps_part fst), keeps_switch_out_fixed. Qed.
Lemma step_kstack c c' : step c c' → p_kstack <$> table (c_sys c') = p_kstack <$> table (c_sys c).
Proof.
  intros [fuel regs s s' th r r' H|fuel regs s s1 s2 th r i res out H _ H2|s th i m t|s th r t _ _]; cbn [c_sys]; [..|done|done].
  - by eapply kstack_code.
  - trans (p_kstack <$> table s1); [by eapply kstack_switch_out|by eapply kstack_code].
Qed.
End fixed.
