(* ===== verification/SchedSpec.v ===== *)
(** The scheduler's choice: its sort, its search, and that the search returns. *)
From Stdlib Require Import Sorted.
From S2P Require Export Refine Keeps.

(** ** The sort *)

Section sort.
Context (key : nat → Z).

Lemma insert_by_perm x l : insert_by key x l ≡ₚ x :: l.
Proof.
  induction l as [|y l IH]; [done|]. cbn [insert_by]. case_decide; [done|].
  rewrite IH. constructor.
Qed.
Lemma sort_by_key_perm l : sort_by_key key l ≡ₚ l.
Proof. induction l as [|x l IH]; [done|]. cbn [sort_by_key]. by rewrite insert_by_perm, IH. Qed.

(** By key, and by position among equal keys. *)
Definition before (x y : nat) : Prop := key x < key y ∨ key x = key y ∧ (x < y)%nat.

Lemma insert_by_sorted x l :
  StronglySorted before l → (∀ y, y ∈ l → (x < y)%nat) → StronglySorted before (insert_by key x l).
Proof.
  induction 1 as [|y l Hl IH Hy]; intros Hx; cbn [insert_by]; [by repeat constructor|].
  rewrite Forall_forall in Hy. case_decide as Hle.
  - constructor; [constructor; [done|by rewrite Forall_forall]|]. rewrite Forall_forall.
    intros z [->|Hz]%elem_of_cons.
    + pose proof (Hx y ltac:(by left)). unfold before. lia.
    + pose proof (Hy z Hz) as Hyz. pose proof (Hx z ltac:(by right)). unfold before in *. lia.
  - constructor; [apply IH; intros z Hz; apply Hx; by right|]. rewrite Forall_forall. intros z.
    rewrite insert_by_perm. intros [->|Hz]%elem_of_cons; [left; lia|by apply Hy].
Qed.
Lemma sort_by_key_sorted k n : StronglySorted before (sort_by_key key (seq k n)).
Proof.
  revert k. induction n as [|n IH]; intros k; cbn [seq sort_by_key]; [constructor|].
  apply insert_by_sorted; [apply IH|]. intros y. rewrite sort_by_key_perm, elem_of_seq. lia.
Qed.
End sort.

Lemma sorted_split {A} (R : A → A → Prop) pre x post y :
  StronglySorted R (pre ++ x :: post) → y ∈ pre ++ x :: post → y ∈ pre ∨ y = x ∨ R x y.
Proof.
  intros Hs [Hy|[->|Hy]%elem_of_cons]%elem_of_app; [by left|by right; left|right; right].
  induction pre as [|z pre IH]; apply StronglySorted_inv in Hs as [Hs Hz].
  - rewrite Forall_forall in Hz. by apply Hz.
  - by apply IH.
Qed.

Section sched_spec.
Context {E : Env} {EL : EnvLaws E} {fails : Prop}.
Local Abbreviation wp := (wpo fails).
Implicit Types (s : Sys) (ps : list aproc) (fr : list bool) (held : gset nat).

(** ** The search *)

(** An entry without the state of its lock. *)
Definition unlocked (p : Process) : Process := set_lock lock_new p.
Definition entries_of s : list Process := unlocked <$> table s.

Lemma entries_lookup s s' i p :
  entries_of s' = entries_of s → table s' !! i = Some p → ∃ q, table s !! i = Some q ∧ unlocked q = unlocked p.
Proof.
  unfold entries_of. intros He Hi. assert ((unlocked <$> table s) !! i = Some (unlocked p)) as H.
  { by rewrite <- He, list_lookup_fmap, Hi. }
  rewrite list_lookup_fmap, fmap_Some in H. destruct H as (q & Hq & Hqp). by exists q.
Qed.

Lemma update_entries i g s a s' p :
  update i g s = Done a s' → table s !! i = Some p → entries_of s' = <[i := unlocked (g p)]> (entries_of s).
Proof.
  intros (q & Hq & Ht)%update_done Hp. simplify_eq. unfold entries_of. rewrite Ht. by rewrite list_fmap_insert.
Qed.

Definition idle s (k : nat) : Prop := ∀ q, table s !! k = Some q → p_state q ≠ Runnable.

Lemma idle_entries s s' k : entries_of s' = entries_of s → idle s' k → idle s k.
Proof.
  intros He Hi q Hq. destruct (entries_lookup s' s k q) as (q' & Hq' & Heq); [done..|].
  apply (f_equal p_state) in Heq. cbn in Heq. rewrite <- Heq. by apply Hi.
Qed.

(** The entry of the search that is found: the first runnable one. *)
Lemma pick_loop_done order s r s' :
  pick_loop order s = Done r s' →
  match r with
  | Some i => ∃ pre post p, order = pre ++ i :: post ∧ (∀ k, k ∈ pre → idle s k) ∧
      table s !! i = Some p ∧ p_state p = Runnable ∧
      entries_of s' = <[i := set_state Running (unlocked p)]> (entries_of s)
  | None => (∀ k, k ∈ order → idle s k) ∧ entries_of s' = entries_of s
  end.
Proof.
  revert s. induction order as [|i order IH]; intros s; cbn [pick_loop].
  { intros [= <- <-]. split; [|done]. intros k Hk. by apply elem_of_nil in Hk. }
  intros (u & s1 & Hl & (p & s2 & [-> Hp]%proc_done & H)%bind_done)%bind_done.
  assert (entries_of s1 = entries_of s) as He by (by eapply (keeps_lock_proc unlocked); [|exact Hl]).
  destruct (entries_lookup s s1 i p) as (q & Hq & Hqp); [done..|].
  assert (p_state q = p_state p) as Hst by by apply (f_equal p_state) in Hqp.
  case_decide as Hr.
  - apply bind_done in H as (v & s3 & H & [= <- <-]).
    eapply update_entries in H; [|exact Hp]. exists [], order, q. split_and!; [done| |done|congruence|].
    + intros k Hk. by apply elem_of_nil in Hk.
    + rewrite H, He, Hqp. done.
  - apply bind_done in H as (v & s3 & Hu & H).
    assert (entries_of s3 = entries_of s) as He3.
    { trans (entries_of s1); [|done]. by eapply (keeps_unlock_proc unlocked); [|exact Hu]. }
    assert (idle s i) as Hi by (intros q' Hq'; simplify_eq; congruence).
    apply IH in H. destruct r as [j|].
    + destruct H as (pre & post & pj & -> & Hpre & Hj & Hjr & Hs').
      destruct (entries_lookup s s3 j pj) as (qj & Hqj & Hqpj); [done..|].
      exists (i :: pre), post, qj. split_and!; [done| |done| |].
      * intros k [->|Hk]%elem_of_cons; [done|]. eapply idle_entries; [exact He3|by apply Hpre].
      * apply (f_equal p_state) in Hqpj. by rewrite <- Hjr.
      * by rewrite Hs', He3, Hqpj.
    + destruct H as [Hno ->]. split; [|done]. intros k [->|Hk]%elem_of_cons; [done|].
      eapply idle_entries; [exact He3|by apply Hno].
Qed.

(** ** The choice *)

Lemma scheduler_pick_done s r s' :
  scheduler_pick s = Done r s' →
  match r with
  | Some i => ∃ p, table s !! i = Some p ∧ p_state p = Runnable ∧
      (∀ j q, table s !! j = Some q → p_state q = Runnable →
         p_quants p < p_quants q ∨ p_quants p = p_quants q ∧ (i ≤ j)%nat) ∧
      entries_of s' = <[i := set_state Running (unlocked p)]> (entries_of s)
  | None => (∀ j, idle s j) ∧ entries_of s' = entries_of s
  end.
Proof.
  unfold scheduler_pick.
  intros (? & s1 & H1 & (? & s2 & H2 & (l & s3 & H3 & (t & s4 & H4 & (o & s5 & H5 & (? & s6 & H6 & H7)%bind_done)
    %bind_done)%bind_done)%bind_done)%bind_done)%bind_done.
  injection H7 as -> <-. injection H3 as <- <-. injection H4 as <- <-.
  fold (table s2) in H5.
  assert (entries_of s2 = entries_of s) as He.
  { trans (entries_of s1); [by eapply (keeps_KERNEL_lock unlocked)|by eapply (keeps_lift unlocked)]. }
  assert (entries_of s6 = entries_of s5) as He6 by by eapply (keeps_KERNEL_unlock unlocked).
  apply pick_loop_done in H5.
  assert (∀ j q, table s !! j = Some q → ∃ q', table s2 !! j = Some q' ∧ unlocked q' = unlocked q) as Hback.
  { intros j q Hj. destruct (entries_lookup s2 s j q) as (q' & ? & ?); [done..|by exists q']. }
  assert (∀ j, (j < length (table s2))%nat → j ∈ sort_by_key (quants_of (table s2)) (seq 0 (length (table s2)))) as Hin.
  { intros j Hj. rewrite sort_by_key_perm, elem_of_seq. lia. }
  destruct r as [i|].
  - destruct H5 as (pre & post & p & Horder & Hpre & Hi & Hr & Hs5).
    destruct (entries_lookup s s2 i p) as (q & Hq & Hqp); [done..|].
    exists q. assert (p_state q = p_state p ∧ p_quants q = p_quants p) as [Hst Hqu].
    { split; [by apply (f_equal p_state) in Hqp|by apply (f_equal p_quants) in Hqp]. }
    split_and!; [done|congruence| |].
    + intros j qj Hj Hjr. destruct (Hback j qj Hj) as (qj' & Hqj' & Hqjp).
      assert (p_state qj' = p_state qj ∧ p_quants qj' = p_quants qj) as [Hst' Hqu'].
      { split; [by apply (f_equal p_state) in Hqjp|by apply (f_equal p_quants) in Hqjp]. }
      pose proof (Hin j ltac:(by eapply lookup_lt_Some)) as Hjo.
      pose proof (sort_by_key_sorted (quants_of (table s2)) 0 (length (table s2))) as Hsorted.
      rewrite Horder in Hjo, Hsorted.
      destruct (sorted_split _ _ _ _ _ Hsorted Hjo) as [Hp|[->|Hb]].
      * exfalso. apply (Hpre j Hp qj'); [done|congruence].
      * simplify_eq. right. split; [congruence|lia].
      * unfold before, quants_of in Hb. rewrite Hi, Hqj' in Hb. rewrite Hqu, <- Hqu'. lia.
    + by rewrite He6, Hs5, He, Hqp.
  - destruct H5 as [Hno Hs5]. split; [|by rewrite He6, Hs5].
    intros j q Hj. destruct (Hback j q Hj) as (q' & Hq' & Hqq).
    apply (f_equal p_state) in Hqq. cbn in Hqq. rewrite <- Hqq.
    apply (Hno j); [apply Hin; by eapply lookup_lt_Some|done].
Qed.

(** The dispatch adds one to the count of the process it found. *)
Lemma scheduler_dispatch_done j s u s' :
  scheduler_dispatch j s = Done u s' →
  ∃ p, table s !! j = Some p ∧ table s' = <[j := set_quants (p_quants p + 1) p]> (table s).
Proof.
  unfold scheduler_dispatch. intros (p & ? & [-> Hp]%proc_done & H)%bind_done.
  apply bind_done in H as (q & ? & Hq & H). unfold add32 in Hq. case_decide; [|done].
  injection Hq as <- <-. apply bind_done in H as (v & s1 & Hu & H).
  apply update_done in Hu as (p2 & Hp2 & Ht). rewrite Hp in Hp2. injection Hp2 as <-.
  exists p. split; [done|]. rewrite <- Ht, <- (list_fmap_id (table s')), <- (list_fmap_id (table s1)).
  eapply (keeps_bind id); [| |exact H]; [apply keeps_lift|intros; apply keeps_lift].
Qed.

(** ** That it returns *)

Lemma push_returns (m : Machine) d pv :
  at_depth m d pv → d + 1 < U32 → wp push_interrupt_off (λ _ _, True) m.
Proof.
  intros [Hst Hd _ _] Hu. unfold push_interrupt_off. apply wp_bind, interrupt_read_spec.
  unfold interrupt_off. apply wp_bind, wp_bind, wp_gets, wp_modify, wp_bind, wp_gets.
  unfold stack in Hst. cbn [m_cpu set_csr]. rewrite Hst. apply wp_bind.
  apply (wp_mono _ (λ _ _, True)); [case_decide; [by apply wp_modify|by apply wp_ret]|]. intros _ m1 _.
  apply wp_bind, wp_add32; [lia|]. by apply wp_modify.
Qed.

Lemma pop_returns (m : Machine) d pv :
  at_depth m d pv → 0 < d → wp pop_interrupt_off (λ _ _, True) m.
Proof.
  intros [Hst Hd _ _] Hu. unfold pop_interrupt_off. apply wp_bind, wp_gets.
  unfold stack in Hst. rewrite Hst, decide_False by lia. apply wp_bind, wp_sub32; [lia|].
  apply wp_bind, wp_modify. case_decide; [|by apply wp_ret].
  unfold interrupt_on. apply wp_bind, wp_gets. by apply wp_modify.
Qed.

Lemma wp_lock_proc i d pv cur ps fr held kl n (Q : unit → Sys → Prop) s :
  kst s d pv cur ps fr held kl n → i ∉ held → (i < length ps)%nat → d + 1 < U32 →
  (∀ s', kst s' (d + 1) pv cur ps fr ({[i]} ∪ held) kl n → Q tt s') → wp (lock_proc i) Q s.
Proof.
  intros Hk Hi Hlen Hd HQ. apply wp_wpd; [by eapply wpd_lock_proc|].
  rewrite <- (kst_length _ _ _ _ _ _ _ _ _ Hk) in Hlen.
  apply lookup_lt_is_Some_2 in Hlen as [p Hp]. unfold lock_proc. eapply wp_bind, wp_proc; [exact Hp|].
  apply wp_bind, wp_lift. unfold lock_manual. apply wp_bind.
  eapply wp_mono; [eapply push_returns; [apply Hk|done]|]. intros _ m1 _. unfold spin_lock.
  destruct (lock_acquire_free (p_lock p)) as (g & -> & _).
  { rewrite (ks_locks _ _ _ _ _ _ _ _ _ Hk i p Hp). by apply bool_decide_eq_false. }
  by apply wp_ret, (wp_update i _ p).
Qed.

Lemma wp_unlock_proc i d pv cur ps fr held kl n (Q : unit → Sys → Prop) s :
  kst s d pv cur ps fr ({[i]} ∪ held) kl n → i ∉ held → (i < length ps)%nat → 0 < d →
  (∀ s', kst s' (d - 1) pv cur ps fr held kl n → Q tt s') → wp (unlock_proc i) Q s.
Proof.
  intros Hk Hi Hlen Hd HQ. apply wp_wpd; [by eapply wpd_unlock_proc|].
  rewrite <- (kst_length _ _ _ _ _ _ _ _ _ Hk) in Hlen.
  apply lookup_lt_is_Some_2 in Hlen as [p Hp]. unfold unlock_proc. eapply wp_bind, wp_proc; [exact Hp|].
  apply wp_bind, wp_lift. unfold unlock_manual. apply wp_bind.
  eapply wp_mono; [eapply pop_returns; [apply Hk|done]|]. intros _ m1 _.
  by apply wp_ret, (wp_update i _ p).
Qed.

Lemma wp_KERNEL_lock d pv cur ps fr held n (Q : unit → Sys → Prop) s :
  kst s d pv cur ps fr held false n → d + 1 < U32 →
  (∀ s', kst s' (d + 1) pv cur ps fr held true n → Q tt s') → wp KERNEL_lock Q s.
Proof.
  intros Hk Hd HQ. apply wp_wpd; [by eapply wpd_KERNEL_lock|]. unfold KERNEL_lock.
  apply wp_bind, wp_gets. rewrite (ks_once _ _ _ _ _ _ _ _ _ Hk). apply wp_bind, wp_gets, wp_bind, wp_lift.
  unfold IntMutex_lock. apply wp_bind. eapply wp_mono; [eapply push_returns; [apply Hk|done]|]. intros _ m1 _.
  unfold spin_lock. destruct (lock_acquire_free (s_klock s)) as (g & -> & _); [apply Hk|].
  by apply wp_ret, wp_modify.
Qed.

Lemma wp_KERNEL_unlock d pv cur ps fr held kl n (Q : unit → Sys → Prop) s :
  kst s d pv cur ps fr held kl n → 0 < d →
  (∀ s', kst s' (d - 1) pv cur ps fr held false n → Q tt s') → wp KERNEL_unlock Q s.
Proof.
  intros Hk Hd HQ. apply wp_wpd; [by eapply wpd_KERNEL_unlock|]. unfold KERNEL_unlock.
  apply wp_bind, wp_gets, wp_bind, wp_lift. unfold IntMutexGuard_drop. apply wp_bind.
  eapply wp_mono; [eapply pop_returns; [apply Hk|done]|]. intros _ m1 _. by apply wp_ret, wp_modify.
Qed.

Lemma pick_loop_returns order d pv cur ps fr kl n s :
  kst s d pv cur ps fr ∅ kl n → 0 ≤ d → d + 1 < U32 → (∀ i, i ∈ order → (i < length ps)%nat) →
  wp (pick_loop order) (λ _ s', ∃ d' ps' held, kst s' d' pv cur ps' fr held kl n ∧ d ≤ d') s.
Proof.
  intros Hk Hd Hu. revert s Hk. induction order as [|i order IH]; intros s Hk Hin; cbn [pick_loop].
  { apply wp_ret. by exists d, ps, ∅. }
  pose proof (Hin i ltac:(by left)) as Hi.
  apply wp_bind. eapply wp_lock_proc; [exact Hk|set_solver|done|done|]. intros s1 Hk1.
  rewrite union_empty_r_L in Hk1. pose proof Hi as Hi'. rewrite <- (kst_length _ _ _ _ _ _ _ _ _ Hk1) in Hi'.
  apply lookup_lt_is_Some_2 in Hi' as [p Hp]. eapply wp_bind, wp_proc; [exact Hp|].
  destruct (kst_lookup _ _ _ _ _ _ _ _ _ _ _ Hk1 Hp) as [Hv _]. case_decide as Hr.
  - apply wp_bind, wp_wpd; [|by eapply (wp_update i _ p)].
    eapply (wpd_update_view i _ _ (a_set_state Running (view p))); [exact Hk1|done|view_eq|done|done|].
    intros s2 Hk2. apply wp_ret. eexists _, _, _. split; [exact Hk2|lia].
  - apply wp_bind. eapply (wp_unlock_proc i _ _ _ _ _ ∅); [by rewrite union_empty_r_L|set_solver|done|lia|].
    intros s2 Hk2. depth Hk2. apply IH; [done|]. intros j Hj. apply Hin. by right.
Qed.

Lemma scheduler_pick_returns pv ps fr n s :
  kst s 0 pv None ps fr ∅ false n → wp scheduler_pick (λ _ _, True) s.
Proof.
  intros Hk. unfold scheduler_pick. assert (2 < U32) as Hu by done.
  apply wp_bind, wp_wpd; [|by apply wp_lift, wp_bind, wp_gets, wp_modify].
  eapply wpd_interrupt_off; [exact Hk|]. intros s1 Hk1.
  apply wp_bind. eapply wp_KERNEL_lock; [exact Hk1|done|]. intros s2 Hk2.
  apply wp_bind, wp_gets, wp_bind, wp_gets, wp_bind. fold (table s2).
  rewrite (kst_length _ _ _ _ _ _ _ _ _ Hk2).
  eapply wp_mono; [eapply pick_loop_returns; [exact Hk2|lia|done|]|].
  { intros i. rewrite sort_by_key_perm, elem_of_seq. lia. }
  intros r s3 (d & ps' & held & Hk3 & Hd). apply wp_bind. eapply wp_KERNEL_unlock; [exact Hk3|lia|].
  intros s4 _. by apply wp_ret.
Qed.
End sched_spec.
