(* ===== verification/ExecSpec.v ===== *)
(** What [kexec] builds: the address space of a new program, its image, its guard
    page, and its stack with the arguments. *)
From S2P Require Export VmLoad Sched.

(** ** The layout of the stack *)

(** Where the arguments go: each below the one before, rounded down to 8. *)
Fixpoint arg_slots (sp : Z) (argv : list (list Z)) : list Z :=
  match argv with
  | [] => []
  | arg :: argv => let slot := (sp - Z.of_nat (length arg)) / 8 * 8 in slot :: arg_slots slot argv
  end.
Fixpoint args_end (sp : Z) (argv : list (list Z)) : Z :=
  match argv with
  | [] => sp
  | arg :: argv => args_end ((sp - Z.of_nat (length arg)) / 8 * 8) argv
  end.

Lemma align8 z : is_u32 z → Z.land z (not32 7) = z / 8 * 8.
Proof.
  intros Hu. assert (z / 8 * 8 = shl32 (shr32 z 3) 3) as ->.
  { unfold shl32, shr32. rewrite Z.shiftr_div_pow2, Z.shiftl_mul_pow2 by done.
    change (2 ^ 3) with 8. symmetry. apply wrap32_small. unfold is_u32, U32 in *.
    Z.div_mod_to_equations. lia. }
  change (not32 7) with 0xfffffff8. bits32.
Qed.

Lemma args_end_le sp argv : args_end sp argv ≤ sp.
Proof.
  revert sp. induction argv as [|arg argv IH]; intros sp; cbn [args_end]; [lia|].
  etrans; [apply IH|]. Z.div_mod_to_equations. lia.
Qed.
Lemma arg_slots_length sp argv : length (arg_slots sp argv) = length argv.
Proof. revert sp. induction argv as [|arg argv IH]; intros sp; cbn; [done|]. by rewrite IH. Qed.

(** The arguments lie between the last slot and the top, and do not overlap. *)
Lemma arg_slots_range sp argv i arg slot :
  argv !! i = Some arg → arg_slots sp argv !! i = Some slot →
  args_end sp argv ≤ slot ∧ slot + Z.of_nat (length arg) ≤ sp.
Proof.
  revert sp i. induction argv as [|a argv IH]; intros sp [|i]; cbn; [done..| |].
  - intros [= ->] [= <-]. split; [apply args_end_le|]. Z.div_mod_to_equations. lia.
  - intros Ha Hs. destruct (IH _ _ Ha Hs) as [H1 H2]. split; [done|].
    etrans; [exact H2|]. Z.div_mod_to_equations. lia.
Qed.
Lemma args_end_mod4 sp argv : sp mod 4 = 0 → args_end sp argv mod 4 = 0.
Proof.
  revert sp. induction argv as [|a argv IH]; intros sp Hsp; cbn; [done|]. apply IH.
  Z.div_mod_to_equations. lia.
Qed.
(** Each argument takes at least eight bytes. *)
Lemma args_end_count sp argv :
  Forall (λ a, a ≠ []) argv → args_end sp argv + 8 * Z.of_nat (length argv) ≤ sp + 7.
Proof.
  intros Hne. destruct argv as [|a argv]; [cbn; lia|].
  assert (∀ argv sp, Forall (λ a, a ≠ []) argv → sp mod 8 = 0 →
    args_end sp argv + 8 * Z.of_nat (length argv) ≤ sp) as Hal.
  { clear. induction argv as [|a argv IH]; intros sp; cbn [args_end length]; [lia|].
    intros [Ha Hne]%Forall_cons Hsp. assert (0 < Z.of_nat (length a)) by (destruct a; cbn; [done|lia]).
    specialize (IH ((sp - Z.of_nat (length a)) / 8 * 8) Hne). rewrite Z.mod_mul in IH by done.
    specialize (IH eq_refl). Z.div_mod_to_equations. lia. }
  apply Forall_cons in Hne as [Ha Hne]. cbn [args_end length].
  assert (0 < Z.of_nat (length a)) by (destruct a; cbn; [done|lia]).
  pose proof (Hal argv ((sp - Z.of_nat (length a)) / 8 * 8) Hne (Z.mod_mul _ 8 ltac:(done))). Z.div_mod_to_equations. lia.
Qed.

(** ** Copying words *)

Section exec.
Context {E : Env} {EL : EnvLaws E} {fails : Prop}.
Local Abbreviation wp := (wpo fails).
Implicit Types (s : Machine) (F : gset Z) (tabs : gmap Z Z) (pages hi : entries) (u : Uvm).
Abbreviation uroot u := (root (uvm_pagetable u)).

(** Byte [i] of a sequence of words. *)
Definition words_byte (l : list Z) (i : Z) : Z := word_byte (l !!! Z.to_nat (i / 4)) (i mod 4).

Lemma write_words_at_spec l pa (Q : unit → Machine → Prop) s :
  in_data pa (4 * Z.of_nat (length l)) → pa mod 4 = 0 →
  (∀ m, (∀ b, ld8 m b = if decide (pa ≤ b < pa + 4 * Z.of_nat (length l)) then words_byte l (b - pa)
                        else ld8 (m_mem s) b) → Q tt (set_mem m s)) →
  wp (write_words_at pa l) Q s.
Proof.
  unfold in_data. revert pa s. induction l as [|w l IH]; intros pa s Hram Hal HQ; cbn [write_words_at].
  { apply wp_ret. destruct s. apply HQ. intros b. cbn. by rewrite decide_False by lia. }
  cbn [length] in Hram. apply wp_bind, wp_write32; [unfold in_data; lia|done|].
  apply IH; [lia|Z.div_mod_to_equations; lia|]. intros m Hm. apply HQ. intros b. rewrite Hm. cbn [length m_mem set_mem].
  destruct (decide (pa + 4 ≤ b < pa + 4 + 4 * Z.of_nat (length l))) as [Hb|Hb].
  - rewrite decide_True by lia. unfold words_byte.
    replace (b - (pa + 4)) with (b - pa + (-1) * 4) by lia. rewrite Z.div_add, Z.mod_add by done.
    assert (1 ≤ (b - pa) / 4) by (Z.div_mod_to_equations; lia).
    replace (Z.to_nat ((b - pa) / 4)) with (S (Z.to_nat ((b - pa) / 4 + -1))) by lia. done.
  - rewrite ld8_st32. destruct (decide (pa ≤ b < pa + 4)) as [Hb'|Hb'].
    + rewrite decide_True by lia. unfold words_byte. rewrite Z.div_small, Z.mod_small by lia. done.
    + by rewrite decide_False by lia.
Qed.

Lemma copy_out_cont_usize_spec s u tabs F pages hi a x va data (Q : option unit → Machine → Prop) :
  uvm_rep s u tabs F pages hi → pages !! a = Some x → data ≠ [] →
  in_page a va (4 * Z.of_nat (length data)) → va mod 4 = 0 →
  (∀ s', copied s u tabs F pages hi va (4 * Z.of_nat (length data)) (words_byte data) s' → Q (Some tt) s') →
  wp (copy_out_cont_usize u va data) Q s.
Proof.
  intros Hu Hx Hne Hin Hal HQ.
  assert (0 < 4 * Z.of_nat (length data)) as Hn by (destruct data; cbn; [done|lia]).
  destruct (in_page_user _ _ _ _ _ _ _ _ _ _ Hu Hx Hin Hn) as (_ & Hram & Hfr).
  unfold copy_out_cont_usize. apply wp_bind. eapply walkaddr_user; [done..|].
  apply wp_bind, write_words_at_spec; [done| |].
  { destruct Hin as (Ha & _). destruct Hfr as (Hp & _). unfold page_aligned, page_size in *.
    Z.div_mod_to_equations. lia. }
  intros m Hm. apply wp_ret, HQ.
  destruct (user_write_in s u tabs F pages hi a x m va (4 * Z.of_nat (length data)) (words_byte data))
    as (? & ? & ? & ?); try done.
Qed.

(** ** The arguments *)

(** The slots hold the arguments. *)
Definition args_at s pages (sp : Z) (argv : list (list Z)) : Prop :=
  ∀ i arg slot, argv !! i = Some arg → arg_slots sp argv !! i = Some slot →
    ∀ k, 0 ≤ k < Z.of_nat (length arg) →
      user_byte (m_mem s) pages (slot + k) = Some (arg !!! Z.to_nat k mod 256).

(** A state that differs from [s] at most in the user's bytes from [lo] up to [up]. *)
Definition user_wrote s u tabs F pages hi (lo up : Z) s' : Prop :=
  uvm_rep s' u tabs F pages hi ∧ quiet s s' ∧ agree F (m_mem s) (m_mem s') ∧ live s' = live s ∧
  ∀ b, b < lo ∨ up ≤ b → user_byte (m_mem s') pages b = user_byte (m_mem s) pages b.

Lemma user_wrote_trans s1 s2 s3 u tabs F pages hi lo1 up1 lo2 up2 lo up :
  user_wrote s1 u tabs F pages hi lo1 up1 s2 → user_wrote s2 u tabs F pages hi lo2 up2 s3 →
  lo ≤ lo1 → up1 ≤ up → lo ≤ lo2 → up2 ≤ up → user_wrote s1 u tabs F pages hi lo up s3.
Proof.
  intros (_ & Hq & Hag & Hl & Hb) (Hu & Hq' & Hag' & Hl' & Hb') ????. split_and!; [done|by trans s2| |congruence|].
  - by eapply agree_trans.
  - intros b Hlt. rewrite Hb', Hb by lia. done.
Qed.
Lemma user_wrote_refl s u tabs F pages hi lo up :
  uvm_rep s u tabs F pages hi → user_wrote s u tabs F pages hi lo up s.
Proof. intros Hu. by split_and!. Qed.
Lemma copied_wrote s u tabs F pages hi va n f s' :
  copied s u tabs F pages hi va n f s' → user_wrote s u tabs F pages hi va (va + n) s'.
Proof.
  intros (Hu & Hq & Hag & Hl & Hb). split_and!; try done. intros b Hlt. by rewrite Hb, decide_False by lia.
Qed.

Lemma push_args_spec argv s u tabs F pages hi a x sp ustack
    (Q : option (Z * list Z) → Machine → Prop) :
  uvm_rep s u tabs F pages hi → pages !! a = Some x → page_aligned a →
  a ≤ sp ≤ a + page_size → is_u32 sp →
  Forall (λ arg, arg ≠ [] ∧ Z.of_nat (length arg) ≤ a) argv →
  (∀ s', user_wrote s u tabs F pages hi a sp s' →
     (a ≤ args_end sp argv → args_at s' pages sp argv) →
     Q (if decide (a ≤ args_end sp argv) then Some (args_end sp argv, ustack ++ arg_slots sp argv) else None) s') →
  wp (push_args u a sp argv ustack) Q s.
Proof.
  revert s sp ustack. induction argv as [|arg argv IH]; intros s sp ustack Hu Hx Ha Hsp Hu32 Hargs HQ;
    cbn [push_args args_end arg_slots] in *.
  { rewrite decide_True, app_nil_r in HQ by lia. apply wp_ret, HQ; [by apply user_wrote_refl|by intros _ i]. }
  apply Forall_cons in Hargs as [[Hne Hlen] Hargs].
  apply wp_bind, wp_sub32; [lia|]. cbv zeta. unfold is_u32 in Hu32.
  rewrite align8 by (unfold is_u32; lia). set (slot := (sp - Z.of_nat (length arg)) / 8 * 8) in *.
  assert (slot + Z.of_nat (length arg) ≤ sp ∧ 0 ≤ slot) as [Hfit Hpos] by (unfold slot; Z.div_mod_to_equations; lia).
  pose proof (args_end_le slot argv) as Hend.
  destruct (decide (slot < a)) as [Hlow|Hlow].
  { rewrite decide_False in HQ by lia. apply wp_ret, HQ; [by apply user_wrote_refl|lia]. }
  apply wp_bind. eapply copy_out_cont_u8_spec; [exact Hu|exact Hx|done|split_and!; [done|lia..]|].
  intros s1 Hcop. pose proof Hcop as (Hu1 & _ & _ & _ & Hb1). apply copied_wrote in Hcop.
  eapply IH; [exact Hu1|done|done|lia|unfold is_u32; lia|done|]. intros s2 Hw Hat. rewrite <- app_assoc.
  apply HQ; [eapply user_wrote_trans; [exact Hcop|exact Hw|lia..]|].
  intros Hle i arg' slot' Hi Hs k Hk. destruct i as [|i]; cbn in Hi, Hs.
  - injection Hi as <-. injection Hs as <-. destruct Hw as (_ & _ & _ & _ & Hb2).
    rewrite Hb2, Hb1, decide_True by lia. do 3 f_equal. lia.
  - by eapply Hat.
Qed.
(** ** The stack *)

(** The vector of addresses the program finds at its stack pointer. *)
Definition arg_vector (sp : Z) (argv : list (list Z)) : list Z := arg_slots sp argv ++ [0].
Definition exec_sp (sp : Z) (argv : list (list Z)) : Z :=
  args_end sp argv - 4 * (Z.of_nat (length argv) + 1).

Definition argv_ok (argv : list (list Z)) : Prop :=
  Forall (λ arg, arg ≠ [] ∧ Z.of_nat (length arg) ≤ USER_START) argv.

(** The arguments, and the vector of their addresses at [exec_sp]. *)
Definition stack_holds s pages (sp : Z) (argv : list (list Z)) : Prop :=
  args_at s pages sp argv ∧
  ∀ i, 0 ≤ i < 4 * (Z.of_nat (length argv) + 1) →
    user_byte (m_mem s) pages (exec_sp sp argv + i) = Some (words_byte (arg_vector sp argv) i).

Lemma exec_stack_spec argv s u tabs F pages hi a x (Q : option Z → Machine → Prop) :
  uvm_rep s u tabs F pages hi → pages !! a = Some x → user_end u = a + page_size → argv_ok argv →
  (∀ s', user_wrote s u tabs F pages hi a (user_end u) s' →
     (a ≤ exec_sp (user_end u) argv → stack_holds s' pages (user_end u) argv) →
     Q (if decide (a ≤ exec_sp (user_end u) argv) then Some (exec_sp (user_end u) argv) else None) s') →
  wp (exec_stack u argv) Q s.
Proof.
  intros Hu Hx Hend Hargv HQ. destruct (uvm_end_aligned _ _ _ _ _ _ Hu) as [Hea Heu].
  destruct (ur_page _ _ _ _ _ _ Hu a x Hx) as ([Hlo _] & _). pose proof Heu as [_ Heu'].
  assert (page_aligned a) as Ha by by eapply uvm_rep_aligned.
  unfold exec_stack, Uvm_end. rewrite (ur_begin _ _ _ _ _ _ Hu). fold (user_end u).
  unfold page_size in Hend. unfold USER_START in Hlo. unfold U32 in Heu'.
  apply wp_bind, wp_add32; [fold (user_end u); unfold U32; lia|].
  fold (user_end u). apply wp_bind, wp_sub32; [unfold PAGESIZE; lia|].
  replace (user_end u - PAGESIZE) with a by (unfold PAGESIZE; lia). apply wp_bind.
  assert (0 ≤ Z.of_nat (length argv)) as Hn by lia. unfold exec_sp in *.
  eapply push_args_spec; [exact Hu|exact Hx|done|unfold page_size; lia|done| |].
  { eapply Forall_impl; [exact Hargv|]. intros arg [? ?]. split; [done|]. unfold USER_START in *. lia. }
  intros s1 Hw Hat. pose proof (args_end_le (user_end u) argv) as Hle.
  destruct (decide (a ≤ args_end (user_end u) argv)) as [Hfit|Hfit].
  2: { apply wp_ret. rewrite decide_False in HQ by lia. apply HQ; [done|lia]. }
  cbn [fst snd app]. change ([] ++ arg_slots (user_end u) argv) with (arg_slots (user_end u) argv).
  fold (arg_vector (user_end u) argv).
  assert (Z.of_nat (length (arg_vector (user_end u) argv)) = Z.of_nat (length argv) + 1) as Hlen.
  { unfold arg_vector. rewrite length_app, arg_slots_length. cbn. lia. }
  assert (8 * Z.of_nat (length argv) ≤ 4103) as Hcount.
  { assert (Forall (λ arg, arg ≠ []) argv) as Hne by (eapply Forall_impl; [exact Hargv|]; by intros ? []).
    pose proof (args_end_count (user_end u) argv Hne). lia. }
  unfold mul32. rewrite Hlen, decide_True by (unfold U32; lia).
  apply wp_bind, wp_ret, wp_bind, wp_sub32; [lia|].
  replace (args_end (user_end u) argv - (Z.of_nat (length argv) + 1) * 4)
    with (args_end (user_end u) argv - 4 * (Z.of_nat (length argv) + 1)) by lia.
  set (sp := args_end (user_end u) argv - 4 * (Z.of_nat (length argv) + 1)) in *.
  destruct (decide (sp < a)) as [Hlow|Hlow].
  { apply wp_ret. rewrite decide_False in HQ by lia. apply HQ; [done|lia]. }
  rewrite decide_True in HQ by lia. apply wp_bind. pose proof Hw as (Hu1 & _).
  eapply copy_out_cont_usize_spec; [exact Hu1|exact Hx| | | |].
  { unfold arg_vector. by destruct (arg_slots _ _). }
  { rewrite Hlen. split_and!; [done|unfold sp in *; lia|unfold sp, page_size; lia]. }
  { assert (user_end u mod 4 = 0) as H4 by (unfold page_aligned, page_size in Hea; Z.div_mod_to_equations; lia).
    apply (args_end_mod4 _ argv) in H4. unfold sp. Z.div_mod_to_equations. lia. }
  intros s2 Hcop. pose proof Hcop as (_ & _ & _ & _ & Hb). rewrite Hlen in Hb.
  apply copied_wrote in Hcop. rewrite Hlen in Hcop. apply wp_ret, HQ.
  - eapply user_wrote_trans; [exact Hw|exact Hcop|lia..].
  - intros _. split.
    + intros i arg slot Hi Hs k Hk. destruct (arg_slots_range _ _ _ _ _ Hi Hs) as [H1 _].
      rewrite Hb, decide_False by lia. by eapply Hat.
    + intros i Hi. unfold exec_sp. fold sp. rewrite Hb, decide_True by lia. do 2 f_equal. lia.
Qed.

(** ** The address space *)

(** The pages an image takes, the last one in part. *)
Definition image_pages (img : Z * Z) : Z := (img.2 + PAGESIZE - 1) / PAGESIZE.
(** The image is in the kernel's own memory, with the rest of its last page, and fits
    the user's address space. *)
Definition image_ok (img : Z * Z) : Prop :=
  0 ≤ img.2 ∧ RAMSTART ≤ img.1 ∧ img.1 + image_pages img * page_size ≤ ekernel ∧
  USER_START + (image_pages img + 2) * page_size ≤ TRAPFRAME.

Definition RWX : Z := Z.lor (Z.lor PTE_R PTE_W) PTE_X.

(** A fresh program: its image from [USER_START] on, a page that is not mapped, and a
    page of stack, the first executable, the last not. *)
Record program s u tabs F pages (t : Z) (img : Z * Z) : Prop := {
  pg_rep : uvm_rep s u tabs F pages (high t);
  pg_end : user_end u = USER_START + (image_pages img + 2) * page_size;
  pg_dom a : is_Some (pages !! a) ↔
    page_aligned a ∧ (USER_START ≤ a < user_end u - 2 * page_size ∨ a = user_end u - page_size);
  pg_perm a x : pages !! a = Some x →
    x.2 = Z.lor (if decide (a = user_end u - page_size) then Z.lor PTE_W PTE_R else RWX) PTE_U;
  pg_image i : 0 ≤ i < img.2 →
    user_byte (m_mem s) pages (USER_START + i) = Some (ld8 (m_mem s) (img.1 + i));
}.

Lemma image_pages_bounds img : 0 ≤ img.2 →
  0 ≤ image_pages img ∧ img.2 ≤ image_pages img * page_size < img.2 + page_size.
Proof. unfold image_pages, PAGESIZE, page_size. intros. Z.div_mod_to_equations. lia. Qed.

Lemma rwx_perm_RWX : rwx_perm RWX.
Proof. by split_and!. Qed.
Lemma rwx_perm_RW : rwx_perm (Z.lor PTE_W PTE_R).
Proof. by split_and!. Qed.

(** The room an address space needs: its root, two tables for the high pages, and for
    each page of image and stack a frame and perhaps a table. *)
Definition exec_frames (img : Z * Z) : Z := 2 * image_pages img + 5.

(** Image, guard page and stack from the empty space. *)
Lemma exec_pages_spec s u tabs F pages hi img (Q : Uvm * option unit → Machine → Prop) :
  uvm_rep s u tabs F pages hi → image_ok img → uvm_size u = image_pages img * page_size →
  grown ∅ pages USER_START (user_end u) (Z.lor RWX PTE_U) →
  Z.of_nat (size (live s)) + 3 < Z.of_nat (capacity s) ∨ fails →
  (∀ u' s' tabs' pages', uvm_rep s' u' tabs' F pages' hi →
     user_end u' = user_end u + 2 * page_size → quiet s s' →
     agree (frames_of pages ∪ F) (m_mem s) (m_mem s') → pages ⊆ pages' →
     (∀ a, is_Some (pages' !! a) ↔
        page_aligned a ∧ (USER_START ≤ a < user_end u ∨ a = user_end u + page_size)) →
     (∀ a x, pages' !! a = Some x →
        x.2 = Z.lor (if decide (a = user_end u + page_size) then Z.lor PTE_W PTE_R else RWX) PTE_U) →
     (size (live s') ≤ size (live s) + 2)%nat → Q (u', Some tt) s') →
  wp (r ← Uvm_grow u PAGESIZE 0; unwrap r.2;;
      r ← Uvm_grow r.1 PAGESIZE (Z.lor PTE_W PTE_R); unwrap r.2;; mret (r.1, Some tt)) Q s.
Proof.
  intros Hu (Hi0 & Hi1 & Hi2 & Hi3) Hsz Hg Hroom HQ. destruct (image_pages_bounds img Hi0) as (Hn & _).
  pose proof (ur_begin _ _ _ _ _ _ Hu) as Hbeg.
  assert (user_end u = USER_START + image_pages img * page_size) as Hend by (unfold user_end; lia).
  destruct (uvm_end_aligned _ _ _ _ _ _ Hu) as [Hea _].
  apply wp_bind. eapply Uvm_grow_guard; [exact Hu|done|done|unfold page_size, PAGESIZE in *; lia|].
  intros u1 -> Hu1. apply wp_bind, (wp_unwrap _ tt), wp_bind; [done|]. cbn [fst snd].
  set (u1 := set_size (uvm_size u + PAGESIZE) u) in *.
  assert (user_end u1 = user_end u + page_size) as He1 by (unfold user_end, u1, PAGESIZE, page_size; cbn; lia).
  eapply Uvm_grow_spec; [exact Hu1|apply rwx_perm_RW|done|unfold PAGESIZE, page_size in *; lia|].
  change ((PAGESIZE + PAGESIZE - 1) / PAGESIZE) with 1.
  intros [u2 o] s2 (tabs2 & pages2 & Hu2 & _ & Hq2 & Hag2 & Hg2 & Hl2 & Ho). cbn [fst snd] in *.
  destruct o as [[]|]; [|destruct Hroom; [lia|done]]. apply wp_bind, (wp_unwrap _ tt), wp_ret; [done|].
  assert (user_end u2 = user_end u1 + page_size) as He2 by (unfold user_end in *; lia).
  destruct Hg as [_ Hnew Hperm]. destruct Hg2 as [Hsub2 Hnew2 Hperm2].
  assert (∀ a, pages !! a = None → page_aligned a ∧ user_end u1 ≤ a < user_end u2 ↔ a = user_end u + page_size) as Hlast.
  { intros a _. rewrite He2, He1. split.
    - intros [Ha Hr]. destruct (page_aligned_diff a (user_end u + page_size)) as [i ->]; [done|by apply page_aligned_next|].
      unfold page_size in *. lia.
    - intros ->. split; [by apply page_aligned_next|]. unfold page_size. lia. }
  assert (pages !! (user_end u + page_size) = None) as Hnone.
  { eapply uvm_end_free; [exact Hu|]. unfold page_size. lia. }
  eapply HQ; [exact Hu2|lia|done|done|done| | |lia].
  - intros a. destruct (pages !! a) as [x|] eqn:Hx.
    + rewrite (lookup_weaken _ _ _ _ Hx Hsub2). specialize (Hnew a (lookup_empty a)). rewrite Hx in Hnew.
      destruct Hnew as [Hnew _]. specialize (Hnew (mk_is_Some _ _ eq_refl)) as [? ?].
      split; [|done]. intros _. split; [done|]. by left.
    + rewrite (Hnew2 a Hx), (Hlast a Hx). split.
      * intros ->. split; [by apply page_aligned_next|by right].
      * intros [Ha [Hr|Hr]]; [|done]. exfalso. specialize (Hnew a (lookup_empty a)). rewrite Hx in Hnew.
        destruct Hnew as [_ Hnew]. destruct Hnew; done.
  - intros a x Hx2. destruct (pages !! a) as [y|] eqn:Hy.
    + rewrite (lookup_weaken _ _ _ _ Hy Hsub2) in Hx2. injection Hx2 as <-.
      rewrite decide_False by congruence. by eapply Hperm, Hy.
    + assert (is_Some (pages2 !! a)) as Hs by by eexists. apply (Hnew2 a Hy), (Hlast a Hy) in Hs as ->.
      rewrite decide_True by done. by eapply Hperm2.
Qed.

(** Bytes of pages that are still there, in frames nobody wrote. *)
Lemma user_byte_kept s u tabs F pages hi pages' m va b :
  uvm_rep s u tabs F pages hi → pages ⊆ pages' → agree (frames_of pages) (m_mem s) m →
  user_byte (m_mem s) pages va = Some b → user_byte m pages' va = Some b.
Proof.
  intros Hu Hsub Hag. unfold user_byte. destruct (pages !! page_of va) as [x|] eqn:Hx; [|done].
  rewrite (lookup_weaken _ _ _ _ Hx Hsub). cbn. intros [= <-]. f_equal. apply Hag. left.
  destruct (ur_page _ _ _ _ _ _ Hu _ _ Hx) as (_ & (Hf & _) & _).
  rewrite page_of_add; [|done|by apply Z.mod_pos_bound]. apply elem_of_frames_pages. eauto.
Qed.

Lemma exec_space_spec s u tabs F t img (Q : Uvm * option unit → Machine → Prop) :
  uvm_rep s u tabs F ∅ ∅ → uvm_size u = 0 → frame_ok t → image_ok img →
  Z.of_nat (size (live s)) + exec_frames img < Z.of_nat (capacity s) ∨ fails →
  (fails → ∀ u' s', Q (u', None) s') →
  (∀ u' s' tabs' pages, program s' u' tabs' F pages t img → quiet s s' →
     agree F (m_mem s) (m_mem s') → Z.of_nat (size (live s')) < Z.of_nat (size (live s)) + exec_frames img →
     Q (u', Some tt) s') →
  wp (exec_space u t img) Q s.
Proof.
  intros Hu Hsz Ht Himg Hroom Hfail HQ. pose proof Himg as (Hi0 & Hi1 & Hi2 & Hi3).
  destruct (image_pages_bounds img Hi0) as (Hn & Hlen). unfold exec_frames in *.
  unfold exec_space. apply wp_bind. eapply init_proc_spec; [exact Hu|exact Ht|].
  intros o s1 tabs1 hi Hu1 Hq1 Hag1 Hl1 Ho.
  destruct o as [[]|]; [subst hi|destruct Hroom; [exfalso; lia|by apply wp_ret, Hfail]].
  assert (user_end u = USER_START) as He0 by (unfold user_end; rewrite Hsz; lia).
  assert (pages_to u img.2 = image_pages img) as Hpt by (unfold pages_to, image_pages in *; rewrite Hsz, Z.sub_0_r; lia).
  apply wp_bind. eapply Uvm_alloc_spec; [exact Hu1|apply rwx_perm_RWX|unfold page_size in *; lia|].
  rewrite Hpt. intros [u2 o] s2 (tabs2 & pages2 & Hu2 & _ & Hq2 & Hag2 & Hg2 & Hl2 & Ho2).
  rewrite He0 in Hg2. cbn [fst snd] in *. pose proof (qt_cap _ _ Hq1) as Hc1. pose proof (qt_cap _ _ Hq2) as Hc2.
  destruct o as [[]|]; [|destruct Hroom; [lia|by apply wp_ret, Hfail]]. assert (uvm_size u2 = image_pages img * page_size) as Hsz2 by lia.
  assert (user_end u2 = USER_START + image_pages img * page_size) as He2.
  { unfold user_end. lia. }
  apply wp_bind. eapply Uvm_load_spec; [exact Hu2|done|done|done| | |done|done|]; fold (image_pages img).
  { assert (TRAPFRAME < U32) by done. unfold page_size in *. lia. }
  { intros i Hi. destruct Hg2 as [_ Hnew _]. apply (Hnew _ (lookup_empty _)). rewrite He2. split.
    - by apply page_aligned_add; [|apply page_aligned_mul].
    - unfold page_size in *. lia. }
  intros s3 (Hu3 & Hq3 & Hag3 & Hl3 & Hb3). pose proof (qt_cap _ _ Hq3) as Hc3.
  eapply exec_pages_spec; [exact Hu3|exact Himg|exact Hsz2|exact Hg2|rewrite Hl3; destruct Hroom; [left; lia|by right]|].
  intros u4 s4 tabs4 pages4 Hu4 He4 Hq4 Hag4 Hsub Hdom Hperm Hl4. rewrite Hl3 in Hl4.
  eapply HQ; [|trans s1; [done|]; trans s2; [done|]; by trans s3| |lia].
  - split; [exact Hu4|lia| | |].
    + intros a. rewrite Hdom. replace (user_end u4 - 2 * page_size) with (user_end u2) by lia.
      by replace (user_end u4 - page_size) with (user_end u2 + page_size) by lia.
    + intros a x Hx. rewrite (Hperm a x Hx). by replace (user_end u4 - page_size) with (user_end u2 + page_size) by lia.
    + intros i Hi. replace (ld8 (m_mem s4) (img.1 + i)) with (ld8 (m_mem s2) (img.1 + i)).
      * eapply user_byte_kept; [exact Hu3|exact Hsub|eapply agree_weaken; [|exact Hag4]; set_solver +|].
        rewrite Hb3, decide_True by lia. do 2 f_equal. lia.
      * assert (¬ heap_area (img.1 + i)) as Hout by (apply outside_heap; lia).
        by rewrite Hag4, Hag3 by by right.
  - eapply agree_trans; [eapply agree_weaken; [|exact Hag1]; set_solver +|].
    eapply agree_trans; [eapply agree_weaken; [|exact Hag2]; set_solver +|].
    eapply agree_trans; [exact Hag3|]. eapply agree_weaken; [|exact Hag4]; set_solver +.
Qed.

(** ** Moving an address space to another state *)

(** The frames an address space owns. *)
Definition owned u tabs pages : gset Z := pt_pages (uroot u) tabs ∪ frames_of pages.

Lemma owned_live s u tabs F pages hi :
  uvm_rep s u tabs F pages hi → owned u tabs pages ⊆ live s ∧ owned u tabs pages ## F.
Proof.
  intros Hu. unfold owned. rewrite (uvm_rep_live _ _ _ _ _ _ Hu).
  pose proof (uvm_rep_disj _ _ _ _ _ _ Hu) as H1. pose proof (ur_disj _ _ _ _ _ _ Hu) as H2.
  split; set_solver.
Qed.

Lemma uvm_rep_move s s' u tabs F pages hi :
  uvm_rep s u tabs F pages hi → mach_ok s' → agree (owned u tabs pages) (m_mem s) (m_mem s') →
  owned u tabs pages ⊆ live s' →
  uvm_rep s' u tabs (live s' ∖ owned u tabs pages) pages hi.
Proof.
  intros Hu Hok Hag Hsub. unfold owned in *. eapply uvm_rep_agree; [exact Hu|done| | | |].
  - eapply agree_weaken; [|exact Hag]. set_solver +.
  - set_solver +.
  - set_solver +.
  - apply set_eq. intros p. destruct (decide (p ∈ pt_pages (uroot u) tabs ∪ frames_of pages)); set_solver.
Qed.

(** The same, when the frames handed out have not changed. *)
Lemma uvm_rep_same s s' u tabs F pages hi :
  uvm_rep s u tabs F pages hi → mach_ok s' → agree (owned u tabs pages) (m_mem s) (m_mem s') →
  live s' = live s → uvm_rep s' u tabs F pages hi.
Proof.
  intros Hu Hok Hag Hl. destruct (owned_live _ _ _ _ _ _ Hu) as [Hsub Hdis].
  assert (F = live s' ∖ owned u tabs pages) as ->.
  { rewrite Hl, (uvm_rep_live _ _ _ _ _ _ Hu). unfold owned in *. set_solver. }
  eapply uvm_rep_move; [exact Hu|done|done|by rewrite Hl].
Qed.

Lemma user_byte_agree s u tabs F pages hi m va :
  uvm_rep s u tabs F pages hi → agree (frames_of pages) (m_mem s) m →
  user_byte m pages va = user_byte (m_mem s) pages va.
Proof.
  intros Hu Hag. destruct (user_byte (m_mem s) pages va) as [b|] eqn:Hb.
  - by eapply user_byte_kept.
  - unfold user_byte in *. by destruct (pages !! page_of va).
Qed.

Lemma user_byte_move s s' u tabs F pages hi va :
  uvm_rep s u tabs F pages hi → agree (owned u tabs pages) (m_mem s) (m_mem s') →
  user_byte (m_mem s') pages va = user_byte (m_mem s) pages va.
Proof. intros Hu Hag. eapply user_byte_agree; [exact Hu|]. eapply agree_weaken; [|exact Hag]. set_solver +. Qed.

Lemma program_move s s' u tabs F pages t img :
  program s u tabs F pages t img → image_ok img → mach_ok s' →
  agree (owned u tabs pages) (m_mem s) (m_mem s') → owned u tabs pages ⊆ live s' →
  program s' u tabs (live s' ∖ owned u tabs pages) pages t img.
Proof.
  intros [Hu He Hd Hp Hb] (Hi0 & Hi1 & Hi2 & _) Hok Hag Hsub. destruct (image_pages_bounds img Hi0) as (_ & Hlen).
  split; [by eapply uvm_rep_move|done..|]. intros i Hi.
  rewrite (user_byte_move _ _ _ _ _ _ _ _ Hu Hag), Hb by done. f_equal.
  assert (¬ heap_area (img.1 + i)) as Hout by (apply outside_heap; lia). symmetry. apply Hag. by right.
Qed.

Lemma stack_holds_move s s' u tabs F pages hi sp argv :
  uvm_rep s u tabs F pages hi → agree (owned u tabs pages) (m_mem s) (m_mem s') →
  stack_holds s pages sp argv → stack_holds s' pages sp argv.
Proof.
  intros Hu Hag [H1 H2]. split.
  - intros i arg slot Hi Hs k Hk. rewrite (user_byte_move _ _ _ _ _ _ _ _ Hu Hag). by eapply H1.
  - intros i Hi. rewrite (user_byte_move _ _ _ _ _ _ _ _ Hu Hag). by apply H2.
Qed.

(** ** The whole construction *)

Definition user_top (img : Z * Z) : Z := USER_START + (image_pages img + 2) * page_size.
(** The arguments and their vector fit the stack page. *)
Definition argv_fits (img : Z * Z) (argv : list (list Z)) : Prop :=
  user_top img - page_size ≤ exec_sp (user_top img) argv.
#[global] Instance argv_fits_dec img argv : Decision (argv_fits img argv).
Proof. unfold argv_fits. apply _. Defined.

Definition exec_post s (t : Z) (img : Z * Z) (argv : list (list Z)) (r : option (Uvm * Z)) s' : Prop :=
  quiet s s' ∧ agree (live s) (m_mem s) (m_mem s') ∧
  if decide (argv_fits img argv) then ∃ u tabs pages,
    r = Some (u, exec_sp (user_top img) argv) ∧ program s' u tabs (live s) pages t img ∧
    stack_holds s' pages (user_top img) argv ∧
    Z.of_nat (size (live s')) ≤ Z.of_nat (size (live s)) + exec_frames img
  else r = None ∧ mach_ok s' ∧ live s ⊆ live s'.

Lemma exec_build_spec s t img argv (Q : option (Uvm * Z) → Machine → Prop) :
  mach_ok s → frame_ok t → image_ok img → argv_ok argv →
  Z.of_nat (size (live s)) + 1 + exec_frames img < Z.of_nat (capacity s) ∨ fails →
  (fails → ∀ s', Q None s') →
  (∀ r s', exec_post s t img argv r s' → Q r s') →
  wp (exec_build t img argv) Q s.
Proof.
  intros Hok Ht Himg Hargv Hroom Hfail HQ. pose proof Himg as (Hi0 & _). unfold exec_frames in *.
  destruct (image_pages_bounds img Hi0) as (Hn & _).
  unfold exec_build. apply wp_bind, Uvm_new_spec; [done|destruct Hroom; [left; lia|by right]|]. intros u0 s1 Hu0 Hsz Hq1 Hag1.
  pose proof (uvm_rep_live _ _ _ _ _ _ Hu0) as Hl1. rewrite frames_of_empty in Hl1.
  assert (size (live s1) ≤ size (live s) + 1)%nat as Hs1.
  { rewrite Hl1. unfold pt_pages, pt_tables. rewrite map_img_empty_L.
    pose proof (size_add_le (uroot u0) (live s)). replace ({[uroot u0]} ∪ ∅ ∪ (∅ ∪ live s)) with ({[uroot u0]} ∪ live s) by set_solver +. lia. }
  apply wp_bind. eapply exec_space_spec; [exact Hu0|done|done|done| | |].
  { destruct Hroom; [left|by right]. unfold exec_frames. rewrite (qt_cap _ _ Hq1). lia. }
  { intros Hf u s2. apply wpo_fails; [done|]. intros r s3 (? & ? & _ & [= <- <-])%bind_done. by apply Hfail. }
  unfold exec_frames. intros u s2 tabs pages Hp Hq2 Hag2 Hs2. cbn [fst snd].
  pose proof (pg_rep _ _ _ _ _ _ _ Hp) as Hu. pose proof (pg_end _ _ _ _ _ _ _ Hp) as He. fold (user_top img) in He.
  assert (is_Some (pages !! (user_end u - page_size))) as [x Hx].
  { apply (pg_dom _ _ _ _ _ _ _ Hp). split; [|by right]. destruct (uvm_end_aligned _ _ _ _ _ _ Hu) as [Ha _].
    unfold page_aligned, page_size in *. Z.div_mod_to_equations. lia. }
  apply wp_bind. eapply exec_stack_spec; [exact Hu|exact Hx|lia|done|]. rewrite He.
  intros s3 (Hu3 & Hq3 & Hag3 & Hl3 & Hb3) Hstack. fold (argv_fits img argv) in *.
  assert (quiet s s3 ∧ agree (live s) (m_mem s) (m_mem s3)) as [Hq Hag].
  { split; [trans s1; [done|]; by trans s2|]. eapply agree_trans; [exact Hag1|].
    eapply agree_trans; [exact Hag2|exact Hag3]. }
  change (user_top img - page_size ≤ exec_sp (user_top img) argv) with (argv_fits img argv) in *.
  destruct (decide (argv_fits img argv)) as [Hfit|Hfit].
  - apply wp_ret, HQ. split_and!; [done..|]. rewrite decide_True by done. exists u, tabs, pages.
    split; [done|]. split; [|split; [by apply Hstack|rewrite Hl3; unfold exec_frames; lia]].
    destruct Hp as [_ He' Hd Hperm Hb]. split; [exact Hu3|done..|]. intros i Hi.
    assert (¬ heap_area (img.1 + i)) as Hout.
    { destruct Himg as (_ & _ & Hi2 & _). destruct (image_pages_bounds img Hi0). apply outside_heap. lia. }
    destruct (image_pages_bounds img Hi0) as (_ & Hlen).
    rewrite Hb3 by (left; unfold user_top, page_size in *; lia). rewrite Hb by done.
    f_equal. symmetry. apply Hag3. by right.
  - apply wp_bind. eapply Uvm_drop_spec; [exact Hu3|]. intros s4 Hok4 Hl4 Hq4 Hag4. apply wp_ret, HQ.
    split_and!; [by trans s3|by eapply agree_trans|]. rewrite decide_False by done.
    split_and!; [done..|]. rewrite Hl4. set_solver +.
Qed.
End exec.
