(* ===== verification/FrameSpec.v ===== *)
(** The trap frame of a process in memory, and the assignments that drop what a
    process owned. *)
From S2P Require Export ExecSpec KernelSpec.

Section frame_spec.
Context {E : Env} {EL : EnvLaws E} {fails : Prop}.
Local Abbreviation wp := (wpo fails).
Implicit Types (m : Machine) (s : Sys) (F : gset Z) (tabs : gmap Z Z) (pages hi : entries) (u : Uvm).

(** ** The trap frame *)

Definition tf_word m (t : Z) (f : tf_field) : Z := ld32 (m_mem m) (t + tf_offset f).

(** A state reached by writing inside one live frame. *)
Definition wrote_frame m (t : Z) m' : Prop :=
  mach_ok m' ∧ quiet m m' ∧ live m' = live m ∧ ∀ X, t ∉ X → agree X (m_mem m) (m_mem m').

Lemma wrote_frame_trans m1 m2 m3 t : wrote_frame m1 t m2 → wrote_frame m2 t m3 → wrote_frame m1 t m3.
Proof.
  intros (_ & Hq & Hl & Hag) (Hok & Hq' & Hl' & Hag'). split_and!; [done|by trans m2|congruence|].
  intros X HX. eapply agree_trans; [by apply Hag|by apply Hag'].
Qed.

Lemma tf_set_spec t f v (Q : unit → Machine → Prop) m :
  mach_ok m → t ∈ live m → is_u32 v →
  (∀ m', wrote_frame m t m' →
     (∀ g, tf_word m' t g = if decide (g = f) then v else tf_word m t g) → Q tt m') →
  wp (tf_set t f v) Q m.
Proof.
  intros Hok Ht Hv HQ. destruct (live_frame_ok _ _ Hok Ht) as (Hp & Hlo & Hhi).
  destruct (tf_offset_range f) as (H0 & H1 & H4).
  assert (∀ b, page_of b ≠ t → ld8 (st32 (m_mem m) (t + tf_offset f) v) b = ld8 (m_mem m) b) as Hout.
  { intros b Hb. rewrite ld8_st32. case_decide; [|done]. exfalso. apply Hb.
    apply page_of_inside; [done|]. unfold page_size. lia. }
  unfold tf_set. apply wp_write32.
  { pose proof etext_before_ekernel. unfold in_data, page_size in *. lia. }
  { unfold page_aligned, page_size in Hp. Z.div_mod_to_equations. lia. }
  apply HQ.
  - split_and!; [by eapply mach_ok_write_frame|by apply quiet_set_mem|done|].
    intros X HX b Hb. apply Hout. intros Hpb. destruct Hb as [Hb|Hb]; [congruence|].
    apply Hb. pose proof (page_of_range b). unfold heap_area, page_size in *. lia.
  - intros g. unfold tf_word. cbn [m_mem set_mem]. destruct (decide (g = f)) as [->|Hne].
    + by apply ld32_st32_same.
    + apply ld32_st32_other. destruct (tf_offset_range g) as (G0 & G1 & G4).
      assert (tf_offset g ≠ tf_offset f) by (intros Heq; by apply Hne, tf_offset_inj).
      Z.div_mod_to_equations. lia.
Qed.

Lemma wrote_frame_uvm m m' t u tabs F pages hi :
  uvm_rep m u tabs F pages hi → t ∈ F → wrote_frame m t m' → uvm_rep m' u tabs F pages hi.
Proof.
  intros Hu Ht (Hok & _ & Hl & Hag). destruct (owned_live _ _ _ _ _ _ Hu) as [_ Hdis].
  eapply uvm_rep_same; [exact Hu|done| |done]. apply Hag. set_solver.
Qed.

Lemma tf_word_agree m m' t f X : agree X (m_mem m) (m_mem m') → t ∈ X → page_aligned t → tf_word m' t f = tf_word m t f.
Proof.
  intros Hag Ht Hp. destruct (tf_offset_range f) as (H0 & H1 & _). apply ld32_ext. intros b Hb. apply Hag. left.
  rewrite (page_of_inside t b); [done|done|unfold page_size; lia].
Qed.

Lemma tf_get_spec t f (Q : Z → Machine → Prop) m :
  mach_ok m → t ∈ live m → Q (tf_word m t f) m → wp (tf_get t f) Q m.
Proof.
  intros Hok Ht HQ. destruct (live_frame_ok _ _ Hok Ht) as (Hp & Hlo & Hhi).
  destruct (frame_ok_range t) as [Hr _]; [done|]. destruct (tf_offset_range f) as (H0 & H1 & H4).
  unfold tf_get. apply wp_read32; [unfold in_ram, page_size in *; lia| |done].
  unfold page_aligned, page_size in Hp. Z.div_mod_to_equations. lia.
Qed.

Lemma wp_put_pagetable i v p (Q : unit → Sys → Prop) s :
  table s !! i = Some p →
  wp (Uvm_drop (p_pagetable p)) (λ _ m', ∀ s', s_mach s' = m' →
    table s' = <[i := set_pagetable v p]> (table s) → Q tt s') (s_mach s) →
  wp (put_pagetable i v) Q s.
Proof.
  intros Hi Hd. unfold put_pagetable, update_with. eapply wp_bind, wp_proc; [exact Hi|].
  apply wp_bind, wp_lift. unfold assign_pagetable. apply wp_bind, wp_bind.
  eapply wp_mono; [exact Hd|]. cbn beta; intros ? m' HQ. apply wp_ret, wp_ret, wp_bind.
  unfold update. eapply wp_bind, wp_proc; [exact Hi|]. by apply wp_modify, wp_ret, HQ.
Qed.

Lemma wrote_frame_agree m m' t X : wrote_frame m t m' → agree (X ∖ {[t]}) (m_mem m) (m_mem m').
Proof. intros (_ & _ & _ & Hag). apply Hag. set_solver +. Qed.
End frame_spec.

(** Reads of a live frame as equations. *)
Lemma tf_get_done {E : Env} {EL : EnvLaws E} t f m :
  mach_ok m → t ∈ live m → tf_get t f m = Done (tf_word m t f) m.
Proof.
  intros Hok Ht. assert (wp (tf_get t f) (λ v m', v = tf_word m t f ∧ m' = m) m) as H by by apply tf_get_spec.
  by apply wp_unfold in H as (v & m' & H & -> & ->).
Qed.
