(* ===== verification/MemSpec.v ===== *)
(** Total specifications of kernel code that works on the table and on memory: the
    control state of KernelSpec.v together with the machine's well-formedness and the
    exact entries of the table, locks apart. *)
From S2P Require Export SchedSpec FrameSpec.

Section mem_spec.
Context {E : Env} {EL : EnvLaws E} {fails : Prop}.
Local Abbreviation wp := (wpo fails).
Implicit Types (m : Machine) (s : Sys) (F : gset Z) (tabs : gmap Z Z) (pages hi : entries) (u : Uvm)
  (held : gset nat) (es : list Process).

(** ** The control state with memory *)

(** Neither memory nor the heap nor the page table in use has changed. *)
Definition still m m' : Prop :=
  m_mem m' = m_mem m ∧ m_heap m' = m_heap m ∧ m_csr m' satp = m_csr m satp ∧
  (is_u32 (m_csr m sstatus) → is_u32 (m_csr m' sstatus)).

#[global] Instance still_preorder : PreOrder still.
Proof.
  split; [intros ?; by split_and!|]. intros m1 m2 m3 (H1 & H2 & H3 & H4) (H5 & H6 & H7 & H8).
  split_and!; [congruence..|auto].
Qed.

Lemma push_still m r m' : push_interrupt_off m = Done r m' → still m m'.
Proof.
  unfold push_interrupt_off. intros (old & m1 & H1 & H)%bind_done.
  assert (m1 = m) as -> by (unfold interrupt_read in H1; by injection H1).
  apply bind_done in H as (? & m2 & H2 & H). injection H2 as _ <-.
  apply bind_done in H as (? & m3 & H3 & H). injection H3 as <- <-.
  apply bind_done in H as (? & m4 & H4 & H). apply bind_done in H as (k & m5 & H5 & [= _ <-]).
  apply add32_done in H5 as [_ ->].
  case_decide; injection H4 as _ <-; (split_and!; [done..|]); intros Hu; cbn; rewrite csr_set_eq;
    by apply is_u32_land_l.
Qed.

Lemma pop_still m r m' : pop_interrupt_off m = Done r m' → still m m'.
Proof.
  unfold pop_interrupt_off. intros (c & m1 & H1 & H)%bind_done. injection H1 as <- <-.
  case_decide; [done|]. apply bind_done in H as (k & m2 & H2 & H).
  apply sub32_done in H2 as [_ ->].
  apply bind_done in H as (? & m3 & H3 & H). injection H3 as _ <-.
  case_decide; [|by injection H as _ <-].
  unfold interrupt_on in H. injection H as _ <-. split_and!; [done..|]. intros Hu. cbn.
  rewrite csr_set_eq. by apply is_u32_lor.
Qed.

Lemma lock_manual_still l m l' m' : lock_manual l m = Done l' m' → still m m'.
Proof.
  intros (? & m1 & H1 & H)%bind_done. unfold spin_lock in H. destruct (lock_acquire l); [|done].
  injection H as _ <-. by eapply push_still.
Qed.
Lemma unlock_manual_still l m l' m' : unlock_manual l m = Done l' m' → still m m'.
Proof. intros (? & m1 & H1 & [= _ <-])%bind_done. by eapply pop_still. Qed.

Lemma lift_done {A} (f : MM A) s a s' :
  lift f s = Done a s' → ∃ m', f (s_mach s) = Done a m' ∧ s' = set_mach m' s.
Proof. unfold lift. destruct (f (s_mach s)) as [b m'| | | |]; try done. intros [= -> <-]. by exists m'. Qed.

Lemma update_mach i g s a s' : update i g s = Done a s' → s_mach s' = s_mach s.
Proof. unfold update. by intros (p & s1 & [-> _]%proc_done & [= _ <-])%bind_done. Qed.

Lemma lock_proc_still i s r s' : lock_proc i s = Done r s' → still (s_mach s) (s_mach s').
Proof.
  unfold lock_proc. intros (p & s1 & [-> _]%proc_done & H)%bind_done.
  apply bind_done in H as (l & s2 & (m' & Hm & ->)%lift_done & ->%update_mach). by eapply lock_manual_still.
Qed.
Lemma unlock_proc_still i s r s' : unlock_proc i s = Done r s' → still (s_mach s) (s_mach s').
Proof.
  unfold unlock_proc. intros (p & s1 & [-> _]%proc_done & H)%bind_done.
  apply bind_done in H as (l & s2 & (m' & Hm & ->)%lift_done & ->%update_mach). by eapply unlock_manual_still.
Qed.
Lemma KERNEL_lock_still s r s' : KERNEL_lock s = Done r s' → still (s_mach s) (s_mach s').
Proof.
  unfold KERNEL_lock. intros (o & s1 & [= <- <-] & H)%bind_done. destruct (s_once s); [|done].
  apply bind_done in H as (l & s1 & [= <- <-] & (l' & s2 & (m' & Hm & ->)%lift_done & [= _ <-])%bind_done).
  by eapply lock_manual_still.
Qed.
Lemma KERNEL_unlock_still s r s' : KERNEL_unlock s = Done r s' → still (s_mach s) (s_mach s').
Proof.
  unfold KERNEL_unlock. intros (l & s1 & [= <- <-] & H)%bind_done.
  apply bind_done in H as (l' & s2 & (m' & Hm & ->)%lift_done & [= _ <-]). by eapply unlock_manual_still.
Qed.

(** Depth, saved state, current process, locks and next pid; the machine is well
    formed; and the entries are [es]. *)
Definition ctl s (d : Z) (pv : bool) (cur : option nat) held (kl : bool) (n : Z) es : Prop :=
  mach_ok (s_mach s) ∧ entries_of s = es ∧ d + 16 < U32 ∧
  ∃ ps fr, kst s d pv cur ps fr held kl n.

Lemma kst_still s s' d pv cur ps fr held kl n :
  kst s' d pv cur ps fr held kl n → d + 16 < U32 → mach_ok (s_mach s) → still (s_mach s) (s_mach s') →
  mach_ok (s_mach s').
Proof.
  intros Hk Hd [[H1 H2 H3] Hh Hl] (Hm & Hheap & _ & Hu). destruct (ks_depth _ _ _ _ _ _ _ _ _ Hk) as [D1 D2 D3 _].
  split; [split|by rewrite Hm, Hheap|apply Hk].
  - by apply Hu.
  - lia.
  - rewrite D1, D3. by case_decide.
Qed.

(** A machine operation inside. *)
Lemma ctl_mach s d pv cur held kl n es m' :
  ctl s d pv cur held kl n es → mach_ok m' → quiet (s_mach s) m' → ctl (set_mach m' s) d pv cur held kl n es.
Proof.
  intros (Hok & He & Hd & ps & fr & Hk) Hok' [Hcpu _]. split_and!; [done..|]. exists ps, fr.
  destruct (ks_depth _ _ _ _ _ _ _ _ _ Hk) as [D1 D2 D3 D4]. eapply kst_mach; [exact Hk| |apply Hok'|].
  - split; [by rewrite (sc_stack _ _ Hcpu)|done|by rewrite (same_cpu_sie _ _ Hcpu)|].
    intros Hne. rewrite (sc_prev _ _ Hcpu); [by apply D4|congruence].
  - rewrite (sc_current _ _ Hcpu). apply Hk.
Qed.

Lemma ctl_lift {A} (f : MM A) d pv cur held kl n es (Q : A → Sys → Prop) s :
  ctl s d pv cur held kl n es →
  wp f (λ a m', mach_ok m' ∧ quiet (s_mach s) m' ∧ (ctl (set_mach m' s) d pv cur held kl n es → Q a (set_mach m' s)))
    (s_mach s) →
  wp (lift f) Q s.
Proof.
  intros Hc Hf. apply wp_lift. eapply wp_mono; [exact Hf|]. intros a m' (Hok & Hq & HQ).
  by apply HQ, ctl_mach.
Qed.

Lemma entries_length s : length (entries_of s) = length (table s).
Proof. unfold entries_of. apply length_fmap. Qed.

Lemma ctl_proc i d pv cur held kl n es e (Q : Process → Sys → Prop) s :
  ctl s d pv cur held kl n es → es !! i = Some e →
  (∀ p, table s !! i = Some p → unlocked p = e → Q p s) → wp (proc i) Q s.
Proof.
  intros (_ & <- & _) He HQ. unfold entries_of in He. rewrite list_lookup_fmap, fmap_Some in He.
  destruct He as (p & Hp & ->). eapply wp_proc; [exact Hp|]. by apply HQ.
Qed.

Lemma ctl_lt s d pv cur held kl n es ps fr i :
  ctl s d pv cur held kl n es → kst s d pv cur ps fr held kl n → (i < length es)%nat → (i < length ps)%nat.
Proof.
  intros (_ & <- & _) Hk Hi. rewrite entries_length in Hi. by rewrite <- (kst_length _ _ _ _ _ _ _ _ _ Hk).
Qed.

Lemma wp_done_post {S A} (f : M S A) (Q R : A → S → Prop) (s : S) :
  wp f Q s → (∀ a x, f s = Done a x → Q a x → R a x) → wp f R s.
Proof. unfold wpo. destruct (f s); naive_solver. Qed.

Lemma ctl_step s s' d pv cur held kl n es d' held' kl' ps fr :
  ctl s d pv cur held kl n es → kst s' d' pv cur ps fr held' kl' n → d' + 16 < U32 →
  still (s_mach s) (s_mach s') → entries_of s' = entries_of s → ctl s' d' pv cur held' kl' n es.
Proof.
  intros (Hok & He & _) Hk' Hd' Hst Heq. split_and!; [by eapply kst_still|congruence|done|by exists ps, fr].
Qed.

Lemma ctl_lock_proc i d pv cur held kl n es (Q : unit → Sys → Prop) s :
  ctl s d pv cur held kl n es → i ∉ held → (i < length es)%nat → d + 17 < U32 →
  (∀ s', ctl s' (d + 1) pv cur ({[i]} ∪ held) kl n es → still (s_mach s) (s_mach s') → Q tt s') →
  wp (lock_proc i) Q s.
Proof.
  intros Hc Hi Hlen Hd HQ. pose proof Hc as (Hok & He & _ & ps & fr & Hk).
  apply (wp_done_post _ (λ _ s', kst s' (d + 1) pv cur ps fr ({[i]} ∪ held) kl n)).
  - by eapply wp_lock_proc; [exact Hk|done|by eapply ctl_lt|lia|done].
  - intros [] s' Hdone Hk'. pose proof (lock_proc_still _ _ _ _ Hdone) as Hst. apply HQ; [|done].
    eapply ctl_step; [exact Hc|exact Hk'|lia|done|by eapply (keeps_lock_proc unlocked); [|exact Hdone]].
Qed.

Lemma ctl_unlock_proc i d pv cur held kl n es (Q : unit → Sys → Prop) s :
  ctl s d pv cur ({[i]} ∪ held) kl n es → i ∉ held → (i < length es)%nat → 0 < d →
  (∀ s', ctl s' (d - 1) pv cur held kl n es → still (s_mach s) (s_mach s') → Q tt s') →
  wp (unlock_proc i) Q s.
Proof.
  intros Hc Hi Hlen Hd HQ. pose proof Hc as (Hok & He & Hd' & ps & fr & Hk).
  apply (wp_done_post _ (λ _ s', kst s' (d - 1) pv cur ps fr held kl n)).
  - by eapply wp_unlock_proc; [exact Hk|done|by eapply ctl_lt|lia|done].
  - intros [] s' Hdone Hk'. pose proof (unlock_proc_still _ _ _ _ Hdone) as Hst. apply HQ; [|done].
    eapply ctl_step; [exact Hc|exact Hk'|lia|done|by eapply (keeps_unlock_proc unlocked); [|exact Hdone]].
Qed.

Lemma ctl_KERNEL_lock d pv cur held n es (Q : unit → Sys → Prop) s :
  ctl s d pv cur held false n es → d + 17 < U32 →
  (∀ s', ctl s' (d + 1) pv cur held true n es → still (s_mach s) (s_mach s') → Q tt s') →
  wp KERNEL_lock Q s.
Proof.
  intros Hc Hd HQ. pose proof Hc as (Hok & He & Hd' & ps & fr & Hk).
  apply (wp_done_post _ (λ _ s', kst s' (d + 1) pv cur ps fr held true n)).
  - by eapply wp_KERNEL_lock; [exact Hk|lia|done].
  - intros [] s' Hdone Hk'. pose proof (KERNEL_lock_still _ _ _ Hdone) as Hst. apply HQ; [|done].
    eapply ctl_step; [exact Hc|exact Hk'|lia|done|by eapply (keeps_KERNEL_lock unlocked)].
Qed.

Lemma ctl_KERNEL_unlock d pv cur held kl n es (Q : unit → Sys → Prop) s :
  ctl s d pv cur held kl n es → 0 < d →
  (∀ s', ctl s' (d - 1) pv cur held false n es → still (s_mach s) (s_mach s') → Q tt s') →
  wp KERNEL_unlock Q s.
Proof.
  intros Hc Hd HQ. pose proof Hc as (Hok & He & Hd' & ps & fr & Hk).
  apply (wp_done_post _ (λ _ s', kst s' (d - 1) pv cur ps fr held false n)).
  - by eapply wp_KERNEL_unlock; [exact Hk|lia|done].
  - intros [] s' Hdone Hk'. pose proof (KERNEL_unlock_still _ _ _ Hdone) as Hst. apply HQ; [|done].
    eapply ctl_step; [exact Hc|exact Hk'|lia|done|by eapply (keeps_KERNEL_unlock unlocked)].
Qed.

(** An update, by its effect on the entry it finds. *)
Lemma ctl_update_at i g d pv cur held kl n es e' p (Q : unit → Sys → Prop) s :
  ctl s d pv cur held kl n es → table s !! i = Some p →
  unlocked (g p) = e' → p_lock (g p) = p_lock p →
  (∀ s', ctl s' d pv cur held kl n (<[i := e']> es) → s_mach s' = s_mach s → Q tt s') →
  wp (update i g) Q s.
Proof.
  intros Hc Hp <- Hl HQ. pose proof Hc as (Hok & <- & Hd & ps & fr & Hk).
  eapply (wp_done_post _ (λ _ s', ∃ ps fr, kst s' d pv cur ps fr held kl n)).
  - apply wp_wpd; [|by eapply wp_update]. eapply wpd_update; [exact Hk| |done|].
    { intros q Hq. simplify_eq. rewrite Hl. by eapply ks_locks. }
    intros q s' _ Hk'. eauto.
  - intros [] s' Hdone (ps' & fr' & Hk'). pose proof (update_mach _ _ _ _ _ Hdone) as Hm.
    apply HQ; [|done]. split_and!; [by rewrite Hm|by eapply update_entries|done|by exists ps', fr'].
Qed.

Lemma ctl_update i g d pv cur held kl n es e (Q : unit → Sys → Prop) s :
  ctl s d pv cur held kl n es → es !! i = Some e →
  (∀ p, unlocked (g p) = g (unlocked p)) → (∀ p, p_lock (g p) = p_lock p) →
  (∀ s', ctl s' d pv cur held kl n (<[i := g e]> es) → s_mach s' = s_mach s → Q tt s') →
  wp (update i g) Q s.
Proof.
  intros Hc He Hg Hl HQ. pose proof Hc as (_ & <- & _). unfold entries_of in He.
  rewrite list_lookup_fmap, fmap_Some in He. destruct He as (p & Hp & ->). eapply ctl_update_at; [exact Hc|exact Hp|apply Hg|apply Hl|exact HQ].
Qed.

Lemma ctl_set_kpid d pv cur held kl n k es (Q : unit → Sys → Prop) s :
  ctl s d pv cur held kl n es →
  (∀ s', ctl s' d pv cur held kl k es → s_mach s' = s_mach s → Q tt s') →
  wp (kernel_modify (set_kpid k)) Q s.
Proof.
  intros (Hok & He & Hd & ps & fr & Hk) HQ. apply wp_modify, HQ; [|done].
  split_and!; [done..|]. exists ps, fr. destruct Hk. by split.
Qed.

(** ** Frames of one object *)

(** One frame for another. *)
Lemma size_swap (X : gset Z) x y : y ∈ X → (size ({[x]} ∪ X ∖ {[y]}) ≤ size X)%nat.
Proof.
  intros Hy. assert (size (X ∖ {[y]}) = size X - 1)%nat as H.
  { rewrite size_difference, size_singleton by set_solver +Hy. done. }
  pose proof (size_add_le x (X ∖ {[y]})). assert (size X ≠ 0)%nat; [|lia].
  intros He%size_empty_inv. set_solver +Hy He.
Qed.

(** The frames in [X] are as before, and the heap has the same capacity and the hart
    the same page table. *)
Definition kept_frames (X : gset Z) m m' : Prop :=
  (capacity m' = capacity m ∧ m_csr m' satp = m_csr m satp) ∧ agree X (m_mem m) (m_mem m').

Lemma kept_frames_quiet X m m' : quiet m m' → agree X (m_mem m) (m_mem m') → kept_frames X m m'.
Proof. intros [Hc Hcap] Hag. split; [split; [done|apply (sc_csr _ _ Hc)]|done]. Qed.
Lemma kept_frames_trans X m1 m2 m3 : kept_frames X m1 m2 → kept_frames X m2 m3 → kept_frames X m1 m3.
Proof. intros [[H1 H2] H3] [[H4 H5] H6]. split; [split; congruence|by eapply agree_trans]. Qed.
Lemma kept_frames_weaken X Y m m' : X ⊆ Y → kept_frames Y m m' → kept_frames X m m'.
Proof. intros HX [H1 H2]. split; [done|by eapply agree_weaken]. Qed.
Lemma still_kept X m m' : still m m' → kept_frames X m m' ∧ live m' = live m.
Proof.
  intros (H1 & H2 & H3 & _). unfold live. split; [split; [split|]|by rewrite H2]; [|done|].
  - unfold capacity. by rewrite H2.
  - intros a _. by rewrite H1.
Qed.

Lemma Box_new_in_spec vs (Q : Z → Machine → Prop) m :
  mach_ok m → (size (live m) < capacity m)%nat ∨ fails → length vs = 36%nat → Forall is_u32 vs →
  (∀ t m', mach_ok m' → quiet m m' → t ∉ live m → live m' = {[t]} ∪ live m →
     agree (live m) (m_mem m) (m_mem m') →
     (∀ f v, vs !! tf_index f = Some v → tf_word m' t f = v) → Q t m') →
  wp (Box_new_in vs) Q m.
Proof.
  intros Hok Hroom Hlen Hvs HQ. unfold Box_new_in, FrameAllocator_allocate.
  rewrite decide_False by done. apply wp_bind, wp_bind.
  apply LockedHeap_alloc_spec; [done|]. intros t m1 (Hok1 & Hq1 & Hag1 & [(-> & _ & Hc)|(Ht & Hn & Hl)]).
  { destruct Hroom as [?|Hf]; [lia|]. apply wp_ret. by apply wpo_fails. }
  destruct (frame_ok_range t Ht) as [Hr Hr2]. destruct Ht as (Hta & Hlo & Hhi).
  unfold NonNull_new. rewrite decide_False by (unfold RAMSTART in Hr; lia). apply wp_ret, wp_bind.
  apply write_words_at_spec; [pose proof etext_before_ekernel; unfold in_data, page_size in *; lia|unfold page_aligned, page_size in Hta; Z.div_mod_to_equations; lia|].
  intros mm Hmm. rewrite Hlen in Hmm. change (4 * Z.of_nat 36) with 144 in Hmm. apply wp_ret.
  assert (∀ b, page_of b ≠ t → ld8 mm b = ld8 (m_mem m1) b) as Hout.
  { intros b Hb. rewrite Hmm, decide_False; [done|]. intros Hin. apply Hb, page_of_inside; [done|unfold page_size; lia]. }
  apply HQ.
  - eapply mach_ok_write_frame; [exact Hok1| |exact Hout]. rewrite Hl. set_solver +.
  - by apply quiet_set_mem.
  - done.
  - done.
  - eapply agree_trans; [exact Hag1|]. intros b Hb. apply Hout. intros Hpb. destruct Hb as [Hb|Hb]; [congruence|].
    apply Hb. pose proof (page_of_range b). unfold heap_area, page_size in *. lia.
  - intros f v Hv. unfold tf_word. cbn [m_mem set_mem].
    destruct (tf_offset_range f) as (H0 & H1 & H4).
    apply word_byte_inj; [apply ld32_range|by eapply Forall_lookup_1|].
    intros k Hk. rewrite word_byte_ld32, Hmm, decide_True by lia. unfold words_byte.
    replace (t + tf_offset f + k - t) with (k + Z.of_nat (tf_index f) * 4) by (unfold tf_offset; lia).
    rewrite Z.div_add, Z.mod_add, Z.div_small, Z.mod_small, Z.add_0_l, Nat2Z.id by lia.
    by rewrite (list_lookup_total_correct _ _ _ Hv).
Qed.

Lemma Box_drop_spec t (Q : unit → Machine → Prop) m :
  mach_ok m → t ∈ live m →
  (∀ m', mach_ok m' → quiet m m' → live m' = live m ∖ {[t]} → agree (live m ∖ {[t]}) (m_mem m) (m_mem m') → Q tt m') →
  wp (Box_drop t) Q m.
Proof. intros Hok Ht HQ. by apply LockedHeap_dealloc_spec. Qed.

Lemma Trapframe_clone_spec t (Q : list Z → Machine → Prop) m :
  mach_ok m → t ∈ live m → Q (tf_word m t <$> tf_fields) m → wp (Trapframe_clone t) Q m.
Proof.
  intros Hok Ht. unfold Trapframe_clone. generalize tf_fields as l. intros l. revert Q.
  induction l as [|f l IH]; intros Q HQ; cbn [tf_read_fields]; [by apply wp_ret|].
  apply wp_bind, tf_get_spec; [done..|]. apply wp_bind, IH, wp_ret. exact HQ.
Qed.

(** Replacing the frame of a process drops the old one. *)
Lemma wp_put_trapframe i t d pv cur held kl n es e (Q : unit → Sys → Prop) s :
  ctl s d pv cur held kl n es → es !! i = Some e → p_trapframe e ∈ live (s_mach s) →
  (∀ s', ctl s' d pv cur held kl n (<[i := set_trapframe t e]> es) →
     live (s_mach s') = live (s_mach s) ∖ {[p_trapframe e]} →
     kept_frames (live (s_mach s) ∖ {[p_trapframe e]}) (s_mach s) (s_mach s') → Q tt s') →
  wp (put_trapframe i t) Q s.
Proof.
  intros Hc He Hl HQ. pose proof Hc as (Hok & _). unfold put_trapframe, update_with.
  apply wp_bind. eapply ctl_proc; [exact Hc|exact He|]. intros p Hp <-. cbn [p_trapframe unlocked] in *.
  apply wp_bind. eapply ctl_lift; [exact Hc|]. unfold assign_trapframe. apply wp_bind, wp_bind.
  apply Box_drop_spec; [done|done|]. intros m' Hok' Hq Hl' Hag. apply wp_ret, wp_ret.
  split; [done|]. split; [done|]. intros Hc'. apply wp_bind. cbn [fst snd].
  eapply ctl_update_at; [exact Hc'|exact Hp|done|done|]. intros s' Hc'' Hm'.
  apply wp_ret, HQ; [done|by rewrite Hm'|rewrite Hm'; by apply kept_frames_quiet].
Qed.

Lemma ctl_entries d pv cur held kl n es s : ctl s d pv cur held kl n es → entries_of s = es.
Proof. by intros (_ & He & _). Qed.
End mem_spec.
