(* ===== verification/Touch.v ===== *)
(** What kernel code that allocates nothing does to memory: it writes inside a given
    set of addresses, the frame of the process it works for, and moves no address space
    or frame from one entry to another. *)
From S2P Require Export MemSpec.

Create HintDb touch.

Section touch.
Context {E : Env}.
Implicit Types (m : Machine) (s : Sys) (X : Z → Prop).

(** ** Machine code *)

(** The heap and the page table in use are as before, and so is every byte outside
    [X]. *)
Record written X m m' : Prop := {
  wr_heap : m_heap m' = m_heap m;
  wr_satp : m_csr m' satp = m_csr m satp;
  wr_sstatus : is_u32 (m_csr m sstatus) → is_u32 (m_csr m' sstatus);
  wr_bytes a : ¬ X a → ld8 (m_mem m') a = ld8 (m_mem m) a;
}.

#[global] Instance written_preorder X : PreOrder (written X).
Proof.
  split; [by split|]. intros m1 m2 m3 [H1 H2 H3 H4] [K1 K2 K3 K4].
  split; [congruence..|auto|]. intros a Ha. by rewrite K4, H4.
Qed.

Lemma still_written X m m' : still m m' → written X m m'.
Proof. intros (H1 & H2 & H3 & H4). split; [done..|]. intros a _. by rewrite H1. Qed.

Definition Writes X {A} (f : MM A) : Prop := ∀ m a m', f m = Done a m' → written X m m'.

Lemma writes_ret X {A} (a : A) : Writes X (mret a).
Proof. by intros m b m' [= _ <-]. Qed.
Lemma writes_panic X {A} p : Writes X (panic_with p : MM A).
Proof. done. Qed.
Lemma writes_fault X {A} : Writes X (fault : MM A).
Proof. done. Qed.
Lemma writes_out_of_fuel X {A} : Writes X (out_of_fuel : MM A).
Proof. done. Qed.
Lemma writes_gets X {A} (g : Machine → A) : Writes X (gets g).
Proof. by intros m b m' [= _ <-]. Qed.
Lemma writes_unwrap X {A} (o : option A) : Writes X (unwrap o).
Proof. destruct o; [apply writes_ret|apply writes_panic]. Qed.
Lemma writes_add32 X a b : Writes X (add32 a b).
Proof. unfold add32. case_decide; [apply writes_ret|apply writes_panic]. Qed.
Lemma writes_sub32 X a b : Writes X (sub32 a b).
Proof. unfold sub32. case_decide; [apply writes_ret|apply writes_panic]. Qed.
Lemma writes_mul32 X a b : Writes X (mul32 a b).
Proof. unfold mul32. case_decide; [apply writes_ret|apply writes_panic]. Qed.
Lemma writes_bind X {A B} (f : MM A) (k : A → MM B) : Writes X f → (∀ a, Writes X (k a)) → Writes X (f ≫= k).
Proof. intros Hf Hk m b m' (a & m1 & H1 & H2)%bind_done. trans m1; [by eapply Hf|by eapply Hk]. Qed.
Lemma writes_for_each X {A} (l : list A) (body : A → MM unit) :
  (∀ x, Writes X (body x)) → Writes X (for_each l body).
Proof.
  intros Hb. induction l as [|x l IH]; cbn [for_each]; [apply writes_ret|]. by apply writes_bind.
Qed.

Lemma writes_read_csr X c : Writes X (read_csr c).
Proof. by intros m a m' [= _ <-]. Qed.
Lemma writes_write_csr X (c : csr_name) v : c ≠ satp → (c = sstatus → is_u32 v) → Writes X (write_csr c v).
Proof.
  intros Hc Hv m a m' [= _ <-]. split; try done; cbn [m_csr set_csr].
  - by rewrite csr_set_ne by congruence.
  - destruct (decide (c = sstatus)) as [->|]; [rewrite csr_set_eq; auto|by rewrite csr_set_ne by congruence].
Qed.
(** A read, a change and a write of sstatus. *)
Lemma writes_sstatus X {A} (g : Z → Z) (k : Z → MM A) :
  (∀ w, is_u32 w → is_u32 (g w)) → (∀ w, Writes X (k w)) →
  Writes X (w ← read_csr sstatus; write_csr sstatus (g w);; k w).
Proof.
  intros Hg Hk m a m' H. change ((write_csr sstatus (g (m_csr m sstatus));; k (m_csr m sstatus)) m = Done a m') in H.
  apply bind_done in H as (u & m1 & [= _ <-] & H). etrans; [|by eapply Hk].
  split; try done; cbn [m_csr set_csr].
  rewrite csr_set_eq. apply Hg.
Qed.
Lemma writes_sstatus_end X (g : Z → Z) :
  (∀ w, is_u32 w → is_u32 (g w)) → Writes X (w ← read_csr sstatus; write_csr sstatus (g w)).
Proof.
  intros Hg m a m' H. change (write_csr sstatus (g (m_csr m sstatus)) m = Done a m') in H.
  injection H as _ <-. split; try done; cbn [m_csr set_csr].
  rewrite csr_set_eq. apply Hg.
Qed.
Lemma writes_interrupt_on X : Writes X interrupt_on.
Proof. apply writes_sstatus_end. intros w Hw. by apply is_u32_lor. Qed.
Lemma writes_interrupt_off X : Writes X interrupt_off.
Proof. apply writes_sstatus_end. intros w Hw. by apply is_u32_land_l. Qed.
Lemma writes_interrupt_read X : Writes X interrupt_read.
Proof. by intros m a m' [= _ <-]. Qed.
Lemma writes_modify_cpu X g : Writes X (modify_cpu g).
Proof. by intros m a m' [= _ <-]. Qed.
Lemma writes_lock_manual X l : Writes X (lock_manual l).
Proof. intros m a m' H. by eapply still_written, lock_manual_still. Qed.
Lemma writes_unlock_manual X l : Writes X (unlock_manual l).
Proof. intros m a m' H. by eapply still_written, unlock_manual_still. Qed.

Lemma writes_uart_write X b : Writes X (uart_write b).
Proof. by intros m a m' [= _ <-]. Qed.
Lemma writes_uart_print X l : Writes X (uart_print l).
Proof. apply writes_for_each. intros b. apply writes_uart_write. Qed.
Lemma writes_kprintln X l : Writes X (kprintln l).
Proof. intros m a m'. rewrite kprintln_run. by intros [= _ <-]. Qed.

Lemma writes_read32 X a : Writes X (read32 a).
Proof. intros m v m'. unfold read32. case_decide; [by intros [= _ <-]|done]. Qed.
Lemma writes_read8 X a : Writes X (read8 a).
Proof. intros m v m'. unfold read8. case_decide; [by intros [= _ <-]|done]. Qed.
Lemma writes_tf_get X t f : Writes X (tf_get t f).
Proof. apply writes_read32. Qed.

Definition in_frame (t a : Z) : Prop := t ≤ a < t + page_size.

Lemma writes_tf_set X t f v : (∀ a, in_frame t a → X a) → Writes X (tf_set t f v).
Proof.
  intros HX m a m'. unfold tf_set, write32. case_decide; [|done]. intros [= _ <-]. split; try done.
  intros b Hb. cbn [m_mem set_mem]. rewrite ld8_st32, decide_False; [done|]. intros Hin. apply Hb, HX.
  destruct (tf_offset_range f) as (H0 & H1 & _). unfold in_frame, page_size. lia.
Qed.

(** ** Kernel code *)

(** An entry that a process other than the one at work finds as it left it. *)
Definition busy (p : Process) : Prop := p_state p ≠ Unused ∧ p_state p ≠ Zombie.
#[global] Instance busy_dec p : Decision (busy p).
Proof. unfold busy. apply _. Defined.

(** The same space, frame and pid; no entry but the one at work dies or gets another
    context. *)
Record kept_entry (own : bool) (p p' : Process) : Prop := {
  ke_space : p_pagetable p' = p_pagetable p;
  ke_frame : p_trapframe p' = p_trapframe p;
  ke_pid : p_pid p' = p_pid p;
  ke_busy : own = false → busy p → busy p';
  ke_context : own = false → p_context p' = p_context p;
}.

Lemma kept_entry_refl own p : kept_entry own p p.
Proof. by split. Qed.
Lemma kept_entry_trans own p1 p2 p3 : kept_entry own p1 p2 → kept_entry own p2 p3 → kept_entry own p1 p3.
Proof.
  intros [H1 H2 H3 H4 H5] [K1 K2 K3 K4 K5]. split; [congruence..|auto|].
  intros Ho. by rewrite K5, H5.
Qed.

(** [act] is the process the code works for. *)
Definition is_act (act : option nat) (j : nat) : bool := bool_decide (act = Some j).

Record touch (act : option nat) X s s' : Prop := {
  to_mach : written X (s_mach s) (s_mach s');
  to_length : length (table s') = length (table s);
  to_entry j p' : table s' !! j = Some p' → ∃ p, table s !! j = Some p ∧ kept_entry (is_act act j) p p';
}.

#[global] Instance touch_preorder act X : PreOrder (touch act X).
Proof.
  split; [split; [done..|]|].
  - intros j p Hp. exists p. split; [done|apply kept_entry_refl].
  - intros s1 s2 s3 [H1 H2 H3] [K1 K2 K3]. split; [by trans (s_mach s2)|congruence|].
    intros j p3 Hp3. destruct (K3 j p3 Hp3) as (p2 & Hp2 & Hk2). destruct (H3 j p2 Hp2) as (p1 & Hp1 & Hk1).
    exists p1. split; [done|]. by eapply kept_entry_trans.
Qed.

Lemma touch_nobody act X s s' : touch None X s s' → touch act X s s'.
Proof.
  intros [Hm Hl He]. split; [done..|]. intros j p' Hp'. destruct (He j p' Hp') as (p & Hp & [K1 K2 K3 K4 K5]).
  exists p. split; [done|]. split; auto.
Qed.

Lemma touch_same act X s s' : written X (s_mach s) (s_mach s') → table s' = table s → touch act X s s'.
Proof. intros Hm Ht. split; [done|by rewrite Ht|]. rewrite Ht. intros j p Hp. exists p. split; [done|apply kept_entry_refl]. Qed.

(** The frame of the process at work is inside [X]. *)
Definition framed (act : option nat) X s : Prop :=
  ∀ i p, act = Some i → table s !! i = Some p → ∀ a, in_frame (p_trapframe p) a → X a.

Lemma touch_framed act X s s' : touch act X s s' → framed act X s → framed act X s'.
Proof.
  intros Ht Hf i p' Hi Hp'. destruct (to_entry _ _ _ _ Ht i p' Hp') as (p & Hp & Hk).
  rewrite (ke_frame _ _ _ Hk). by eapply Hf.
Qed.

Definition Touch (act : option nat) X {A} (f : KM A) : Prop :=
  ∀ s a s', framed act X s → f s = Done a s' → touch act X s s'.

Lemma touch_ret act X {A} (a : A) : Touch act X (mret a).
Proof. by intros s b s' _ [= _ <-]. Qed.
Lemma touch_panic act X {A} p : Touch act X (panic_with p : KM A).
Proof. done. Qed.
Lemma touch_fault act X {A} : Touch act X (fault : KM A).
Proof. done. Qed.
Lemma touch_gets act X {A} (g : Sys → A) : Touch act X (gets g).
Proof. by intros s b s' _ [= _ <-]. Qed.
Lemma touch_unwrap act X {A} (o : option A) : Touch act X (unwrap o).
Proof. destruct o; [apply touch_ret|apply touch_panic]. Qed.
Lemma touch_add32 act X a b : Touch act X (add32 a b).
Proof. unfold add32. case_decide; [apply touch_ret|apply touch_panic]. Qed.
Lemma touch_sub32 act X a b : Touch act X (sub32 a b).
Proof. unfold sub32. case_decide; [apply touch_ret|apply touch_panic]. Qed.
Lemma touch_bind act X {A B} (f : KM A) (k : A → KM B) :
  Touch act X f → (∀ a, Touch act X (k a)) → Touch act X (f ≫= k).
Proof.
  intros Hf Hk s b s' HF (a & s1 & H1 & H2)%bind_done. pose proof (Hf _ _ _ HF H1) as Ht.
  trans s1; [done|]. eapply Hk; [by eapply touch_framed|exact H2].
Qed.
Lemma touch_for_each act X {A} (l : list A) (body : A → KM unit) :
  (∀ x, Touch act X (body x)) → Touch act X (for_each l body).
Proof.
  intros Hb. induction l as [|x l IH]; cbn [for_each]; [apply touch_ret|]. by apply touch_bind.
Qed.
Lemma touch_lift act X {A} (f : MM A) : Writes X f → Touch act X (lift f).
Proof. intros Hf s a s' _ (m' & Hm & ->)%lift_done. apply touch_same; [by eapply Hf|done]. Qed.
Lemma touch_modify act X g :
  (∀ s, s_mach (g s) = s_mach s) → (∀ s, table (g s) = table s) → Touch act X (modify g).
Proof. intros Hm Ht s a s' _ [= _ <-]. apply touch_same; [by rewrite Hm|done]. Qed.
Lemma touch_proc act X i : Touch act X (proc i).
Proof. by intros s p s' _ [-> _]%proc_done. Qed.
(** Reading the entry of the process at work gives its frame. *)
Lemma touch_proc_bind i X {B} (k : Process → KM B) :
  (∀ p, (∀ a, in_frame (p_trapframe p) a → X a) → Touch (Some i) X (k p)) → Touch (Some i) X (proc i ≫= k).
Proof.
  intros Hk s b s' HF (p & s1 & [-> Hp]%proc_done & H)%bind_done.
  by eapply (Hk p); [by apply (HF i)|exact HF|exact H].
Qed.
Lemma update_touch act X i g s a s' :
  (∀ p, kept_entry (is_act act i) p (g p)) → update i g s = Done a s' → touch act X s s'.
Proof.
  intros Hg H. pose proof (update_mach _ _ _ _ _ H) as Hm. apply update_done in H as (p & Hp & Ht).
  split; [by rewrite Hm|by rewrite Ht, length_insert|]. intros j q Hq. rewrite Ht in Hq.
  apply list_lookup_insert_Some in Hq as [(<- & <- & _)|[_ Hq]]; [by exists p|]. exists q. split; [done|apply kept_entry_refl].
Qed.
Lemma touch_update act X i g : (∀ p, kept_entry (is_act act i) p (g p)) → Touch act X (update i g).
Proof. intros Hg s a s' _. by apply update_touch. Qed.
Lemma touch_update_lock act X i l : Touch act X (update i (set_lock l)).
Proof. apply touch_update. intros p. by split. Qed.
Lemma touch_lock_proc act X i : Touch act X (lock_proc i).
Proof.
  apply touch_bind; [apply touch_proc|intros p]. apply touch_bind; [apply touch_lift, writes_lock_manual|intros l].
  apply touch_update_lock.
Qed.
Lemma touch_unlock_proc act X i : Touch act X (unlock_proc i).
Proof.
  apply touch_bind; [apply touch_proc|intros p]. apply touch_bind; [apply touch_lift, writes_unlock_manual|intros l].
  apply touch_update_lock.
Qed.
Lemma touch_KERNEL_lock act X : Touch act X KERNEL_lock.
Proof.
  apply touch_bind; [apply touch_gets|intros o]. destruct o; [|apply touch_panic].
  apply touch_bind; [apply touch_gets|intros l]. apply touch_bind; [apply touch_lift, writes_lock_manual|intros l'].
  by apply touch_modify.
Qed.
Lemma touch_KERNEL_unlock act X : Touch act X KERNEL_unlock.
Proof.
  apply touch_bind; [apply touch_gets|intros l]. apply touch_bind; [apply touch_lift, writes_unlock_manual|intros l'].
  by apply touch_modify.
Qed.
End touch.

#[export] Hint Resolve writes_ret writes_panic writes_fault writes_out_of_fuel writes_gets writes_unwrap
  writes_add32 writes_sub32 writes_mul32 writes_read_csr writes_interrupt_on writes_interrupt_off
  writes_interrupt_read writes_modify_cpu writes_lock_manual writes_unlock_manual writes_uart_print
  writes_kprintln writes_read32 writes_read8 writes_tf_get writes_tf_set : touch.
#[export] Hint Extern 1 (Writes _ (write_csr _ _)) => apply writes_write_csr; done : touch.
#[export] Hint Extern 1 (Writes _ (print _)) => apply writes_uart_print : touch.
#[export] Hint Extern 1 (Writes _ (println _)) => apply writes_uart_print : touch.
#[export] Hint Resolve touch_ret touch_panic touch_fault touch_gets touch_unwrap touch_add32 touch_sub32
  touch_proc touch_lock_proc touch_unlock_proc touch_KERNEL_lock touch_KERNEL_unlock : touch.
#[export] Hint Extern 1 (Touch _ _ (update _ _)) => apply touch_update; intros ?; by split : touch.

(** A value of sstatus made with masks. *)
Ltac u32_mask := repeat first [apply is_u32_lor | apply is_u32_land_l | assumption | done].

(** Works through straight-line code and its branches. *)
Ltac touch_step :=
  cbv zeta beta;
  lazymatch goal with
  | |- Writes _ (mbind (λ w, mbind (@?k w) (write_csr _ _)) (read_csr (Named sstatus))) =>
      apply writes_sstatus; [intros ? ?; u32_mask|intros ?]
  | |- Writes _ (mbind _ _) => apply writes_bind; [|intros ?]
  | |- Writes _ (for_each _ _) => apply writes_for_each; intros ?
  | |- Writes _ (match ?x with _ => _ end) => destruct x
  | |- Writes _ _ => solve [auto with touch]
  | |- Touch (Some ?i) _ (mbind _ (proc ?i)) => apply touch_proc_bind; intros ? ?
  | |- Touch _ _ (mbind _ _) => apply touch_bind; [|intros ?]
  | |- Touch _ _ (for_each _ _) => apply touch_for_each; intros ?
  | |- Touch _ _ (lift _) => apply touch_lift
  | |- Touch _ _ (match ?x with _ => _ end) => destruct x
  | |- Touch _ _ _ => solve [auto with touch]
  end.
Ltac touch := repeat touch_step.
