(* ===== verification/TouchCode.v ===== *)
(** The scheduler, the traps and the system calls that allocate nothing: what they do to
    memory. *)
From Stdlib Require Import (notations) String.
From S2P Require Export Touch.

(** ** Code that only reads *)

Section reads.
Context {E : Env}.

Definition Reads {A} (f : MM A) : Prop := ∀ m a m', f m = Done a m' → m' = m.

Lemma reads_bind {A B} (f : MM A) (k : A → MM B) : Reads f → (∀ a, Reads (k a)) → Reads (f ≫= k).
Proof. intros Hf Hk m b m' (a & m1 & H1 & H2)%bind_done. by rewrite (Hk _ _ _ _ H2), (Hf _ _ _ H1). Qed.
Lemma reads_ret {A} (a : A) : Reads (mret a).
Proof. by intros m b m' [= _ ->]. Qed.
Lemma reads_panic {A} p : Reads (panic_with p : MM A).
Proof. done. Qed.
Lemma reads_out_of_fuel {A} : Reads (out_of_fuel : MM A).
Proof. done. Qed.
Lemma reads_unwrap {A} (o : option A) : Reads (unwrap o).
Proof. destruct o; [apply reads_ret|apply reads_panic]. Qed.
Lemma reads_add32 a b : Reads (add32 a b).
Proof. unfold add32. case_decide; [apply reads_ret|apply reads_panic]. Qed.
Lemma reads_read32 a : Reads (read32 a).
Proof. intros m v m'. unfold read32. case_decide; [by intros [= _ ->]|done]. Qed.
Lemma reads_read8 a : Reads (read8 a).
Proof. intros m v m'. unfold read8. case_decide; [by intros [= _ ->]|done]. Qed.
End reads.

Create HintDb reads.
#[export] Hint Resolve reads_ret reads_panic reads_out_of_fuel reads_unwrap reads_add32 reads_read32 reads_read8 : reads.
Ltac reads_step :=
  cbv zeta beta;
  lazymatch goal with
  | |- Reads (mbind _ _) => apply reads_bind; [|intros ?]
  | |- Reads (match ?x with _ => _ end) => destruct x
  | |- Reads _ => solve [auto with reads]
  end.
Ltac reads := repeat reads_step.

Section copies.
Context {E : Env}.

Lemma reads_walk pt va : Reads (walk pt va Walk).
Proof. unfold walk. reads; congruence. Qed.
Lemma reads_walkaddr pt va : Reads (walkaddr pt va).
Proof. unfold walkaddr. apply reads_bind; [apply reads_walk|intros o]. reads. Qed.
Lemma reads_copy_in u va : Reads (copy_in u va).
Proof. unfold copy_in. apply reads_bind; [apply reads_walkaddr|intros o]. reads. Qed.
Lemma reads_read_bytes n a : Reads (read_bytes n a).
Proof. revert a. induction n as [|n IH]; intros a; cbn [read_bytes]; reads. Qed.
Lemma reads_copy_in_cont u va len : Reads (copy_in_cont u va len).
Proof. unfold copy_in_cont. apply reads_bind; [apply reads_walkaddr|intros o]. reads. apply reads_read_bytes. Qed.
Lemma reads_read_str n a : Reads (read_str n a).
Proof. revert a. induction n as [|n IH]; intros a; cbn [read_str]; reads. Qed.
Lemma reads_copy_in_str n u va : Reads (copy_in_str n u va).
Proof. unfold copy_in_str. apply reads_bind; [apply reads_walkaddr|intros o]. reads. apply reads_read_str. Qed.
Lemma reads_read_argv n fuel u va : Reads (read_argv n fuel u va).
Proof.
  revert va. induction n as [|n IH]; intros va; cbn [read_argv]; [apply reads_out_of_fuel|].
  apply reads_bind; [apply reads_copy_in|intros o]. apply reads_bind; [reads|intros w]. destruct (decide (w = 0)); [reads|].
  apply reads_bind; [apply reads_copy_in_str|intros r]. reads.
Qed.
Lemma reads_exec_image path : Reads (exec_image path).
Proof. unfold exec_image. reads. Qed.
Lemma reads_tf_get t f : Reads (tf_get t f).
Proof. apply reads_read32. Qed.

Lemma writes_reads X {A} (f : MM A) : Reads f → Writes X f.
Proof. intros Hf m a m' H. by rewrite (Hf _ _ _ H). Qed.
End copies.

#[export] Hint Extern 1 (Writes _ (copy_in_cont _ _ _)) => apply writes_reads, reads_copy_in_cont : touch.
#[export] Hint Extern 1 (Writes _ (copy_in _ _)) => apply writes_reads, reads_copy_in : touch.
#[export] Hint Extern 1 (Writes _ (copy_in_str _ _ _)) => apply writes_reads, reads_copy_in_str : touch.

Section code.
Context {E : Env}.
Implicit Types (m : Machine) (s : Sys) (X : Z → Prop).

(** ** The scheduler *)

Lemma touch_pick_loop act X l : Touch act X (pick_loop l).
Proof. induction l as [|i l IH]; cbn [pick_loop]; touch. Qed.
Lemma touch_scheduler_open act X : Touch act X scheduler_open.
Proof. unfold scheduler_open. touch. Qed.
Lemma touch_scheduler_pick act X : Touch act X scheduler_pick.
Proof. unfold scheduler_pick, indices. touch. apply touch_pick_loop. Qed.
Lemma touch_scheduler_dispatch act X i : Touch act X (scheduler_dispatch i).
Proof. unfold scheduler_dispatch, set_current. touch. Qed.
Lemma touch_scheduler_return act X i : Touch act X (scheduler_return i).
Proof. unfold scheduler_return, set_current. touch. Qed.
Lemma touch_scheduler_idle act X : Touch act X scheduler_idle.
Proof. unfold scheduler_idle. touch. Qed.
Lemma touch_save_cpu_context act X regs : Touch act X (save_cpu_context regs).
Proof. unfold save_cpu_context. touch. Qed.
Lemma touch_save_context i X regs : Touch (Some i) X (save_context i regs).
Proof.
  unfold save_context. apply touch_update. intros p. split; try done. unfold is_act. by rewrite bool_decide_eq_false.
Qed.

(** ** sched and its callers *)

Lemma touch_sched_enter act X : Touch act X sched_enter.
Proof. unfold sched_enter, get_current. touch. Qed.
Lemma touch_sched_leave act X b : Touch act X (sched_leave b).
Proof. unfold sched_leave, set_prev_state. touch. Qed.
Lemma touch_yeld_enter act X i : Touch act X (yeld_enter i).
Proof. unfold yeld_enter, print_interrupt, print_locks. touch. apply touch_sched_enter. Qed.
Lemma touch_yeld_leave act X i b : Touch act X (yeld_leave i b).
Proof. unfold yeld_leave. apply touch_bind; [apply touch_sched_leave|intros _]. touch. Qed.
Lemma touch_kwait_leave act X i b : Touch act X (kwait_leave i b).
Proof. unfold kwait_leave. apply touch_bind; [apply touch_sched_leave|intros _]. touch. Qed.

Lemma touch_wakeup act X ch : Touch act X (wakeup ch).
Proof. unfold wakeup, indices. touch. Qed.
Lemma touch_reparent_loop act X l pid b : Touch act X (reparent_loop l pid b).
Proof. revert b. induction l as [|i l IH]; intros b; cbn [reparent_loop]; touch. Qed.
Lemma touch_reparent act X pid : Touch act X (reparent pid).
Proof.
  unfold reparent, indices. touch; [apply touch_reparent_loop|apply touch_wakeup].
Qed.
Lemma touch_die i X : Touch (Some i) X (update i (set_state Zombie)).
Proof. apply touch_update. intros p. split; try done. unfold is_act. by rewrite bool_decide_eq_false. Qed.
#[local] Hint Resolve touch_reparent touch_wakeup touch_sched_enter touch_die : touch.
Lemma touch_kexit_enter i X st : Touch (Some i) X (kexit_enter i st).
Proof. unfold kexit_enter. touch. Qed.

(** ** Going back *)

Lemma touch_prepare_return i X : Touch (Some i) X (prepare_return i).
Proof. unfold prepare_return. touch. Qed.
#[local] Hint Resolve touch_prepare_return touch_yeld_enter : touch.
Lemma touch_usertrap_leave i X : Touch (Some i) X (usertrap_leave i).
Proof. unfold usertrap_leave. touch. Qed.

Lemma touch_sret act X : Touch act X sret.
Proof.
  intros s a s' _ (w & s1 & [= <- <-] & (m' & [= _ <-] & ->)%lift_done)%bind_done. apply touch_same; [|done].
  split; try done; cbn [m_csr set_csr s_mach set_mach].
  rewrite csr_set_eq. intros Hw. unfold sret_sstatus. destruct (Z.testbit _ 5); u32_mask.
Qed.

(** The current process, read from the CPU record. *)
Lemma touch_current i X {B} (k : option nat → KM B) s b s' :
  current (m_cpu (s_mach s)) = Some i → framed (Some i) X s → Touch (Some i) X (k (Some i)) →
  (get_current ≫= k) s = Done b s' → touch (Some i) X s s'.
Proof. intros Hcur Hf Hk (c & s1 & [= <- <-] & H)%bind_done. rewrite Hcur in H. by eapply Hk. Qed.

Lemma touch_forkret i X s r s' :
  current (m_cpu (s_mach s)) = Some i → framed (Some i) X s → forkret s = Done r s' → touch (Some i) X s s'.
Proof. intros Hcur Hf. apply touch_current; [done|done|]. touch. Qed.

Lemma read_csr_lift c s v s' : lift (read_csr c) s = Done v s' → v = m_csr (s_mach s) c ∧ s' = s.
Proof. intros [= <- <-]. by destruct s. Qed.

(** ** Traps *)

Lemma touch_usertrap_enter i X s r s' :
  current (m_cpu (s_mach s)) = Some i → framed (Some i) X s → usertrap_enter s = Done r s' → touch (Some i) X s s'.
Proof.
  intros Hcur Hf. unfold usertrap_enter.
  intros (v1 & s1 & [-> ->]%read_csr_lift & H)%bind_done. apply bind_done in H as (v2 & s2 & [-> ->]%read_csr_lift & H).
  apply bind_done in H as (v3 & s3 & [-> ->]%read_csr_lift & H). revert H. apply touch_current; [done|done|]. touch.

Qed.

Lemma touch_kerneltrap_enter act X : Touch act X kerneltrap_enter.
Proof. unfold kerneltrap_enter, get_current. touch. Qed.
Lemma touch_kerneltrap_leave act X pc w : is_u32 w → Touch act X (kerneltrap_leave pc w).
Proof.
  intros Hw. unfold kerneltrap_leave. apply touch_bind; [touch|intros _]. by apply touch_lift, writes_write_csr.
Qed.

(** ** System calls *)

Lemma touch_sys_return i X ret : Touch (Some i) X (sys_return i ret).
Proof. unfold sys_return. touch. Qed.
Lemma touch_sys_write_enter i X : Touch (Some i) X (sys_write_enter i).
Proof. unfold sys_write_enter. touch. Qed.
Lemma touch_sys_exec_enter fuel i X : Touch (Some i) X (sys_exec_enter fuel i).
Proof. unfold sys_exec_enter. touch. Qed.
Lemma touch_sys_exec_arg fuel i path argv a X : Touch (Some i) X (sys_exec_arg fuel i path argv a).
Proof. unfold sys_exec_arg. touch. Qed.
Lemma touch_sys_exit_enter i X : Touch (Some i) X (sys_exit_enter i).
Proof. unfold sys_exit_enter. touch. apply touch_kexit_enter. Qed.
Lemma touch_kexit_leave act X {A} b : Touch act X (kexit_leave b : KM A).
Proof. unfold kexit_leave. apply touch_bind; [apply touch_sched_leave|intros _]. touch. Qed.
End code.
