(* ===== verification/ForkSpec.v ===== *)
(** What [allocproc] and [kfork] do to the table and to memory: a free entry is
    claimed, and the child gets a copy of its parent's frame and address space. *)
From S2P Require Export MemSpec.

Section fork_spec.
Context {E : Env} {EL : EnvLaws E} {fails : Prop}.
Local Abbreviation wp := (wpo fails).
Implicit Types (m : Machine) (s : Sys) (F : gset Z) (tabs : gmap Z Z) (pages hi : entries) (u : Uvm)
  (held : gset nat) (es : list Process).

(** ** A new trap frame *)

Lemma ctl_new_frame {A} i vs (k : KM A) d pv cur held kl n es e (Q : A → Sys → Prop) s :
  ctl s d pv cur held kl n es → es !! i = Some e → p_trapframe e ∈ live (s_mach s) →
  (size (live (s_mach s)) < capacity (s_mach s))%nat ∨ fails → length vs = 36%nat → Forall is_u32 vs →
  (∀ t s', ctl s' d pv cur held kl n (<[i := set_trapframe t e]> es) → t ∉ live (s_mach s) →
     live (s_mach s') = {[t]} ∪ live (s_mach s) ∖ {[p_trapframe e]} →
     kept_frames (live (s_mach s) ∖ {[p_trapframe e]}) (s_mach s) (s_mach s') →
     (∀ f v, vs !! tf_index f = Some v → tf_word (s_mach s') t f = v) → wp k Q s') →
  wp (t ← lift (Box_new_in vs); put_trapframe i t;; k) Q s.
Proof.
  intros Hc He Hl Hroom Hlen Hvs HQ. pose proof Hc as (Hok & _). apply wp_bind.
  eapply ctl_lift; [exact Hc|]. apply Box_new_in_spec; [done..|].
  intros t m1 Hok1 Hq1 Ht Hl1 Hag1 Hw1. split; [done|]. split; [done|]. intros Hc1. apply wp_bind.
  eapply wp_put_trapframe; [exact Hc1|exact He|cbn [s_mach set_mach]; set_solver|].
  cbn [s_mach set_mach]. intros s' Hc' Hl' Hk'. pose proof Hk' as [_ Hag'].
  assert (t ≠ p_trapframe e) as Hne by (intros ->; done).
  apply (HQ t); [exact Hc'|done|rewrite Hl', Hl1; set_solver| |].
  - eapply kept_frames_trans; [eapply kept_frames_quiet; [exact Hq1|by eapply agree_weaken; [|exact Hag1]; set_solver +]|].
    eapply kept_frames_weaken; [|exact Hk']. set_solver.
  - intros f v Hv. erewrite tf_word_agree; [by apply Hw1|exact Hag'|set_solver|].
    apply (live_frame_ok m1); [done|set_solver].
Qed.

(** ** allocproc *)

Definition KSTACK_SIZE : Z := 0x2000.

(** A claimed entry. *)
Definition claimed (q : Process) (t n : Z) : Process :=
  set_context (mkContext forkret_addr (p_kstack q + KSTACK_SIZE) 0 0 0 0 0 0 0 0 0 0 0 0)
    (set_trapframe t (set_state Used (set_pid (Some n) q))).

Lemma claim_spec c q d pv cur held kl n es (Q : unit → Sys → Prop) s :
  ctl s d pv cur held kl n es → es !! c = Some q → c ∉ held → d + 17 < U32 → n + 1 < U32 ∨ fails →
  p_kstack q + KSTACK_SIZE < U32 ∨ fails → p_trapframe q ∈ live (s_mach s) →
  (size (live (s_mach s)) < capacity (s_mach s))%nat ∨ fails →
  (∀ t s', n + 1 < U32 → ctl s' (d + 1) pv cur ({[c]} ∪ held) kl (n + 1) (<[c := claimed q t n]> es) →
     t ∉ live (s_mach s) → live (s_mach s') = {[t]} ∪ live (s_mach s) ∖ {[p_trapframe q]} →
     kept_frames (live (s_mach s) ∖ {[p_trapframe q]}) (s_mach s) (s_mach s') → Q tt s') →
  wp (claim c) Q s.
Proof.
  intros Hc Hq Hh Hd Hn Hks Hl Hroom HQ. pose proof (lookup_lt_Some _ _ _ Hq) as Hlen.
  unfold claim. apply wp_bind, wp_gets.
  assert (k_pid (s_kernel s) = n) as -> by (destruct Hc as (_ & _ & _ & ps & fr & Hk); apply Hk).
  apply wp_bind. eapply ctl_update; [exact Hc|exact Hq|done|done|]. intros s1 Hc1 Hm1.
  apply wp_bind, wp_add32_or; [done|]. intros Hn32. apply wp_bind. eapply ctl_set_kpid; [exact Hc1|]. intros s2 Hc2 Hm2.
  apply wp_bind. eapply ctl_update; [exact Hc2|by apply list_lookup_insert_eq|done|done|].
  intros s3 Hc3 Hm3. rewrite list_insert_insert_eq in Hc3.
  assert (s_mach s3 = s_mach s) as Hm by congruence.
  eapply ctl_new_frame; [exact Hc3|by apply list_lookup_insert_eq|by rewrite Hm|by rewrite Hm|done| |].
  { by apply Forall_replicate. }
  intros t s4 Hc4 Ht Hl4 Hk4 _. rewrite list_insert_insert_eq in Hc4. rewrite Hm in *. apply wp_bind.
  eapply ctl_lock_proc; [exact Hc4|done|by rewrite length_insert|done|]. intros s5 Hc5 Hst.
  apply wp_bind. eapply ctl_proc; [exact Hc5|by apply list_lookup_insert_eq|]. intros p _ Hp.
  assert (p_kstack p = p_kstack q) as -> by (by apply (f_equal p_kstack) in Hp).
  apply wp_bind. unfold mul32. rewrite decide_True by done. apply wp_ret, wp_bind, wp_add32_or; [done|]. intros _.
  eapply ctl_update; [exact Hc5|by apply list_lookup_insert_eq|done|done|].
  intros s6 Hc6 Hm6. rewrite list_insert_insert_eq in Hc6.
  destruct (still_kept (live (s_mach s) ∖ {[p_trapframe q]}) _ _ Hst) as [Hk5 Hl5].
  apply (HQ t); [exact Hn32|exact Hc6|done|rewrite Hm6, Hl5; exact Hl4|].
  rewrite Hm6. by eapply kept_frames_trans.
Qed.

Definition first_unused (c : nat) es : Prop :=
  (∃ q, es !! c = Some q ∧ p_state q = Unused) ∧
  ∀ j e, (j < c)%nat → es !! j = Some e → p_state e ≠ Unused.

Lemma allocproc_loop_spec l c q d pv cur held kl n es (Q : option nat → Sys → Prop) s :
  ctl s d pv cur held kl n es → es !! c = Some q → p_state q = Unused →
  (∀ j e, (j < c)%nat → es !! j = Some e → p_state e ≠ Unused) →
  (∃ k r, l = seq k (S (c - k)) ++ r ∧ (k ≤ c)%nat) →
  wp (claim c) (λ _, Q (Some c)) s → wp (allocproc_loop l) Q s.
Proof.
  intros Hc Hq Hst Hfirst (k & r & -> & Hk) HQ. remember (c - k)%nat as w eqn:Hw.
  revert k Hk Hw. induction w as [|w IH]; intros k Hk Hw; cbn [seq app allocproc_loop].
  - assert (k = c) as -> by lia. apply wp_bind. eapply ctl_proc; [exact Hc|exact Hq|]. intros p _ <-.
    rewrite decide_True by done. apply wp_bind. eapply wp_mono; [exact HQ|]. intros ? s' H. by apply wp_ret.
  - destruct (lookup_lt_is_Some_2 es k) as [e He]; [apply lookup_lt_Some in Hq; lia|].
    apply wp_bind. eapply ctl_proc; [exact Hc|exact He|]. intros p _ <-.
    rewrite decide_False by (apply (Hfirst k (unlocked p)); [lia|exact He]). apply IH; lia.
Qed.

Lemma allocproc_spec c d pv cur held kl n es (Q : option nat → Sys → Prop) s :
  ctl s d pv cur held kl n es → first_unused c es → wp (claim c) (λ _, Q (Some c)) s → wp allocproc Q s.
Proof.
  intros Hc [(q & Hq & Hst) Hfirst] HQ. pose proof (lookup_lt_Some _ _ _ Hq) as Hlen.
  unfold allocproc, indices. apply wp_bind, wp_gets.
  eapply allocproc_loop_spec; [exact Hc|exact Hq|done|done| |done]. exists 0%nat, (seq (S c) (length es - S c)).
  split; [|lia]. destruct Hc as (_ & <- & _). rewrite entries_length in *. unfold table in *.
  rewrite Nat.sub_0_r. change (S c) with (0 + S c)%nat at 2. rewrite <- seq_app. f_equal. lia.
Qed.

(** ** The child *)

(** Dropping the entry's old address space for the new one. *)
Lemma ctl_put_pagetable i v d pv cur held kl n es e tabs F pages hi (Q : unit → Sys → Prop) s :
  ctl s d pv cur held kl n es → es !! i = Some e →
  uvm_rep (s_mach s) (p_pagetable e) tabs F pages hi →
  (∀ s', ctl s' d pv cur held kl n (<[i := set_pagetable v e]> es) →
     F ⊆ live (s_mach s') → kept_frames F (s_mach s) (s_mach s') → Q tt s') →
  wp (put_pagetable i v) Q s.
Proof.
  intros Hc He Hu HQ. unfold put_pagetable, update_with. apply wp_bind.
  eapply ctl_proc; [exact Hc|exact He|]. intros p Hp <-. cbn [p_pagetable unlocked set_lock] in Hu.
  apply wp_bind. eapply ctl_lift; [exact Hc|]. unfold assign_pagetable. apply wp_bind, wp_bind.
  eapply Uvm_drop_spec; [exact Hu|]. intros m' Hok' Hl' Hq Hag. apply wp_ret, wp_ret.
  split; [done|]. split; [done|]. intros Hc'. apply wp_bind. cbn [fst snd].
  eapply ctl_update_at; [exact Hc'|exact Hp|done|done|]. intros s' Hc'' Hm'.
  apply wp_ret, HQ; [done|rewrite Hm'; cbn [s_mach set_mach]; rewrite Hl'; set_solver +|].
  rewrite Hm'. by apply kept_frames_quiet.
Qed.

Lemma ctl_tf_set t f v d pv cur held kl n es (Q : unit → Sys → Prop) s :
  ctl s d pv cur held kl n es → t ∈ live (s_mach s) → is_u32 v →
  (∀ s', ctl s' d pv cur held kl n es → wrote_frame (s_mach s) t (s_mach s') →
     (∀ g, tf_word (s_mach s') t g = if decide (g = f) then v else tf_word (s_mach s) t g) → Q tt s') →
  wp (lift (tf_set t f v)) Q s.
Proof.
  intros Hc Ht Hv HQ. pose proof Hc as (Hok & _). eapply ctl_lift; [exact Hc|].
  apply tf_set_spec; [done..|]. intros m' Hw Hf. pose proof Hw as (Hok' & Hq & _).
  split; [done|]. split; [done|]. intros Hc'. by apply HQ.
Qed.

(** The results, the parent, and the publication of the child. *)
Definition fork_finish (c : nat) (t tp : Z) (opid par : option Z) : KM (option Z) :=
  lift (tf_set t tf_a0 0);;
  pid ← unwrap opid;
  lift (tf_set tp tf_a0 pid);;
  unlock_proc c;;
  update c (set_parent par);;
  lock_proc c;;
  update c (set_state Runnable);;
  unlock_proc c;;
  mret opid.

Lemma fork_finish_spec c t tp pid par d pv cur held kl n es e (Q : option Z → Sys → Prop) s :
  ctl s (d + 1) pv cur ({[c]} ∪ held) kl n es → es !! c = Some e → c ∉ held → 0 ≤ d →
  t ∈ live (s_mach s) → tp ∈ live (s_mach s) → t ≠ tp → is_u32 pid →
  (∀ s', ctl s' d pv cur held kl n (<[c := set_state Runnable (set_parent par e)]> es) →
     live (s_mach s') = live (s_mach s) →
     kept_frames (live (s_mach s) ∖ {[t]} ∖ {[tp]}) (s_mach s) (s_mach s') →
     (∀ f, tf_word (s_mach s') t f = if decide (f = tf_a0) then 0 else tf_word (s_mach s) t f) →
     (∀ f, tf_word (s_mach s') tp f = if decide (f = tf_a0) then pid else tf_word (s_mach s) tp f) →
     Q (Some pid) s') →
  wp (fork_finish c t tp (Some pid) par) Q s.
Proof.
  intros Hc He Hh Hd Ht Htp Hne Hpid HQ. pose proof (lookup_lt_Some _ _ _ He) as Hlen.
  pose proof Hc as (Hok & _ & Hdb & _). unfold fork_finish.
  apply wp_bind. eapply ctl_tf_set; [exact Hc|done|done|]. intros s1 Hc1 Hw1 Hf1.
  apply wp_bind, (wp_unwrap _ pid); [done|]. apply wp_bind.
  assert (live (s_mach s1) = live (s_mach s)) as Hl1 by apply Hw1.
  eapply ctl_tf_set; [exact Hc1|by rewrite Hl1|done|]. intros s2 Hc2 Hw2 Hf2.
  assert (live (s_mach s2) = live (s_mach s)) as Hl2 by (rewrite <- Hl1; apply Hw2).
  apply wp_bind. eapply ctl_unlock_proc; [exact Hc2|done|done|lia|]. rewrite Z.add_simpl_r. intros s3 Hc3 Hst3.
  apply wp_bind. eapply ctl_update; [exact Hc3|exact He|done|done|]. intros s4 Hc4 Hm4.
  apply wp_bind. eapply ctl_lock_proc; [exact Hc4|done|by rewrite length_insert|lia|]. intros s5 Hc5 Hst5.
  apply wp_bind. eapply ctl_update; [exact Hc5|by apply list_lookup_insert_eq|done|done|].
  intros s6 Hc6 Hm6. rewrite list_insert_insert_eq in Hc6.
  apply wp_bind. eapply ctl_unlock_proc; [exact Hc6|done|by rewrite length_insert|lia|].
  rewrite Z.add_simpl_r. intros s7 Hc7 Hst7. apply wp_ret.
  assert (still (s_mach s2) (s_mach s7)) as Hst.
  { trans (s_mach s3); [done|]. rewrite <- Hm4. trans (s_mach s5); [done|]. by rewrite <- Hm6. }
  assert (∀ g x, tf_word (s_mach s7) x g = tf_word (s_mach s2) x g) as Hw.
  { intros g x. destruct Hst as (Hmem & _). unfold tf_word. by rewrite Hmem. }
  destruct (still_kept (live (s_mach s) ∖ {[t]} ∖ {[tp]}) _ _ Hst) as [Hk7 Hl7].
  destruct (live_frame_ok (s_mach s) t Hok Ht) as [Hta _].
  destruct (live_frame_ok (s_mach s) tp Hok Htp) as [Htpa _].
  apply HQ; [exact Hc7|by rewrite Hl7| | |].
  - eapply kept_frames_trans; [|exact Hk7]. destruct Hw1 as (_ & Hq1 & _ & Hag1), Hw2 as (_ & Hq2 & _ & Hag2).
    eapply kept_frames_trans; (eapply kept_frames_quiet; [eassumption|]); [apply Hag1|apply Hag2]; set_solver +.
  - intros f. rewrite Hw, <- Hf1. eapply (tf_word_agree _ _ _ _ {[t]}); [apply Hw2|..]; set_solver.
  - intros f. rewrite Hw, Hf2. case_decide; [done|].
    eapply (tf_word_agree _ _ _ _ {[tp]}); [apply Hw1|..]; set_solver.
Qed.

(** The child's entry. *)
Definition fork_entry (p q : Process) (t : Z) (vm : Uvm) : Process :=
  set_state Runnable (set_parent (p_pid p) (set_pagetable vm (set_trapframe t q))).

(** Memory after a fork: the child has a copy of the frame at [tp], where it returns 0
    and the parent the child's pid, and of the pages; what was in use is as before,
    but for the frame and the address space the child's entry had, [old]. *)
Record fork_memory m (tp : Z) pages (old : gset Z) m' (t : Z) (vm : Uvm) (pid : Z) : Prop := {
  fm_space : ∃ tabs F pc, uvm_rep m' vm tabs F pc (high t) ∧ t ∈ F ∧ owned vm tabs pc ## live m ∖ old ∧
    (∀ a, snd <$> pc !! a = snd <$> pages !! a) ∧
    (∀ va, user_byte (m_mem m') pc va = user_byte (m_mem m) pages va);
  fm_frame f : tf_word m' t f = if decide (f = tf_a0) then 0 else tf_word m tp f;
  fm_result f : tf_word m' tp f = if decide (f = tf_a0) then pid else tf_word m tp f;
  fm_live : live m ∖ old ⊆ live m';
  fm_agree : agree (live m ∖ old ∖ {[t; tp]}) (m_mem m) (m_mem m');
  fm_satp : m_csr m' satp = m_csr m satp;
}.

(** What the three last parts of [kfork] make of it: [m4] is the memory when the child's
    space is complete, [m5] when the entry's old one has been dropped. *)
Lemma fork_memory_intro m m4 m5 m6 tp pages old t vm pid tabs4 pc :
  mach_ok m → uvm_rep m4 vm tabs4 (live m) pc (high t) → agree (live m) (m_mem m) (m_mem m4) →
  {[t; tp]} ⊆ live m ∖ old → (∀ f, tf_word m t f = tf_word m tp f) →
  (∀ a, snd <$> pc !! a = snd <$> pages !! a) →
  (∀ va, user_byte (m_mem m4) pc va = user_byte (m_mem m) pages va) →
  live m4 ∖ old ⊆ live m5 → agree (live m4 ∖ old) (m_mem m4) (m_mem m5) →
  mach_ok m6 → old ⊆ live m → live m6 = live m5 → agree (live m5 ∖ {[t]} ∖ {[tp]}) (m_mem m5) (m_mem m6) →
  (∀ f, tf_word m6 t f = if decide (f = tf_a0) then 0 else tf_word m5 t f) →
  (∀ f, tf_word m6 tp f = if decide (f = tf_a0) then pid else tf_word m5 tp f) →
  m_csr m6 satp = m_csr m satp → fork_memory m tp pages old m6 t vm pid.
Proof.
  intros Hok Hvm4 Hag Htt Hw Hperm Hbytes Hl5 Hag5 Hok6 Hold Hl6 Hag6 Hf6 Hg6 Hsatp.
  destruct (owned_live _ _ _ _ _ _ Hvm4) as [Hvl Hvd].
  assert (t ∈ live m ∖ old ∧ tp ∈ live m ∖ old) as [Ht Htp] by set_solver +Htt.
  assert (live m ∖ old ⊆ live m4 ∖ old) as Hl4.
  { rewrite (uvm_rep_live _ _ _ _ _ _ Hvm4). set_solver +. }
  assert (∀ x f, x ∈ live m ∖ old → tf_word m5 x f = tf_word m x f) as Hw5.
  { intros x f Hx. assert (x ∈ live m) as Hxl by set_solver +Hx.
    destruct (live_frame_ok m x Hok Hxl) as [Hal _].
    rewrite (tf_word_agree m4 m5 x f _ Hag5) by (done || by apply Hl4). by apply (tf_word_agree m m4 x f _ Hag). }
  assert (agree (live m4 ∖ old ∖ {[t]} ∖ {[tp]}) (m_mem m4) (m_mem m6)) as Hag46.
  { eapply agree_trans; [eapply agree_weaken; [|exact Hag5]; set_solver +|].
    eapply agree_weaken; [|exact Hag6]. set_solver +Hl5. }
  assert (owned vm tabs4 pc ⊆ live m4 ∖ old ∖ {[t]} ∖ {[tp]}) as Hvs.
  { set_solver +Hvl Hvd Hold Ht Htp. }
  split.
  - exists tabs4, (live m6 ∖ owned vm tabs4 pc), pc. split_and!; [| |set_solver +Hvd|done|].
    + eapply uvm_rep_move; [exact Hvm4|done|by eapply agree_weaken|rewrite Hl6; set_solver +Hvs Hl5].
    + rewrite Hl6. set_solver +Hl5 Hl4 Ht Hvd.
    + intros va. by rewrite (user_byte_move m4 _ vm tabs4 _ _ _ _ Hvm4) by (by eapply agree_weaken).
  - intros f. rewrite Hf6. case_decide; [done|]. by rewrite Hw5.
  - intros f. rewrite Hg6. case_decide; [done|]. by rewrite Hw5.
  - rewrite Hl6. by etransitivity.
  - eapply agree_trans; [eapply agree_weaken; [|exact Hag]; set_solver +|].
    eapply agree_weaken; [|exact Hag46]. set_solver +Hl4.
  - done.
Qed.

(** From the clone on: [m] is the memory when the parent's frame had been copied. *)
Lemma fork_space_spec c t p e pid d pv cur held kl n es tabs F pages hi tabsq Fq pagesq hiq
    (Q : option Z → Sys → Prop) s :
  let m := s_mach s in let tp := p_trapframe p in let old := owned (p_pagetable e) tabsq pagesq in
  ctl s (d + 1) pv cur ({[c]} ∪ held) kl n es → es !! c = Some e → p_trapframe e = t → p_pid e = Some pid →
  c ∉ held → 0 ≤ d → is_u32 pid →
  uvm_rep m (p_pagetable p) tabs F pages hi →
  uvm_rep m (p_pagetable e) tabsq Fq pagesq hiq →
  {[t; tp]} ⊆ Fq → t ≠ tp → old ⊆ F → {[t; tp]} ⊆ F →
  (∀ f, tf_word m t f = tf_word m tp f) →
  covered (p_pagetable p) tabs ∧ clone_room m (p_pagetable p) + 2 < Z.of_nat (capacity m) ∨ fails →
  (fails → ∀ s', Q None s') →
  (∀ vm s', ctl s' d pv cur held kl n
       (<[c := set_state Runnable (set_parent (p_pid p) (set_pagetable vm e))]> es) →
     fork_memory m tp pages old (s_mach s') t vm pid → Q (Some pid) s') →
  wp (uvm ← lift (Uvm_clone (p_pagetable p)); child ← proc c; r ← lift (init_proc uvm (p_trapframe child));
      match r with
      | None => lift (Uvm_drop uvm);; mret None
      | Some _ => put_pagetable c uvm;; fork_finish c (p_trapframe child) tp (p_pid child) (p_pid p)
      end) Q s.
Proof.
  intros m tp old Hc He Het Hep Hh Hd Hpid Hu Huq Htq Hne Hold Ht Hw Hroom Hfail HQ.
  destruct (owned_live _ _ _ _ _ _ Huq) as [Hql Hqd]. fold old in Hql, Hqd.
  pose proof (uvm_rep_ok _ _ _ _ _ _ Hu) as Hok.
  assert (F ⊆ live m) as HF by (rewrite (uvm_rep_live _ _ _ _ _ _ Hu); set_solver +).
  assert ({[t; tp]} ⊆ live m ∖ old) as Htt by set_solver +Ht HF Htq Hqd.
  assert (t ∈ live m ∖ old ∧ tp ∈ live m ∖ old) as [Htl Htpl] by set_solver +Htt.
  apply wp_bind. eapply ctl_lift; [exact Hc|]. eapply Uvm_clone_spec; [exact Hu|fold m; destruct Hroom as [[]|]; [left; split; [done|lia]|by right]|].
  intros vm m3 (tabsc & pc & Hvm & _ & _ & _ & Hq3 & Hag3 & Hperm & Hbytes & Hsz). fold m in Hvm, Hq3, Hag3, Hbytes, Hsz.
  split; [by eapply uvm_rep_ok|]. split; [done|]. intros Hc3.
  apply wp_bind. eapply ctl_proc; [exact Hc3|exact He|]. intros child _ Hch.
  assert (p_trapframe child = t) as -> by (by rewrite <- Het, <- Hch).
  assert (p_pid child = Some pid) as -> by (by rewrite <- Hep, <- Hch).
  apply wp_bind. eapply ctl_lift; [exact Hc3|]. cbn [s_mach set_mach].
  eapply init_proc_spec; [exact Hvm|apply (live_frame_ok m); [done|set_solver +Htl]|].
  intros o m4 tabs4 hi4 Hvm4 Hq4 Hag4 Hsz4 Ho. split; [by eapply uvm_rep_ok|]. split; [done|]. intros Hc4.
  destruct o as [[]|]; [subst hi4|].
  2: { rewrite (qt_cap _ _ Hq3) in Ho. destruct Hroom as [[]|Hf]; [lia|]. apply wpo_fails; [done|].
    intros r s' (? & ? & _ & [= <- <-])%bind_done. by apply Hfail. }
  assert (live m ⊆ live m4) as Hl4 by (rewrite (uvm_rep_live _ _ _ _ _ _ Hvm4); set_solver +).
  assert (agree (live m) (m_mem m) (m_mem m4)) as Hag by
    (eapply agree_trans; [exact Hag3|]; eapply agree_weaken; [|exact Hag4]; set_solver +).
  assert (uvm_rep m4 (p_pagetable e) tabsq (live m4 ∖ old) pagesq hiq) as Huq4.
  { eapply uvm_rep_move; [exact Huq|by eapply uvm_rep_ok| |by etransitivity].
    by eapply agree_weaken; [|exact Hag]. }
  apply wp_bind. eapply ctl_put_pagetable; [exact Hc4|exact He|exact Huq4|]. cbn [s_mach set_mach].
  intros s5 Hc5 Hl5 [[_ Hsatp5] Hag5].
  assert (∀ x, x ∈ live m ∖ old → x ∈ live (s_mach s5)) as Hin by (intros x Hx; set_solver +Hx Hl4 Hl5).
  eapply fork_finish_spec; [exact Hc5|apply list_lookup_insert_eq; by eapply lookup_lt_Some|done|done|by apply Hin..|done|done|].
  intros s6 Hc6 Hl6 [[_ Hsatp6] Hag6] Hf6 Hg6. rewrite list_insert_insert_eq in Hc6. apply (HQ vm); [exact Hc6|].
  pose proof (sc_csr _ _ (qt_cpu _ _ Hq3)) as Hsatp3. pose proof (sc_csr _ _ (qt_cpu _ _ Hq4)) as Hsatp4.
  eapply (fork_memory_intro m m4 (s_mach s5)); [done|exact Hvm4|done|done|done|done| |done|done|apply Hc6|done..|congruence].
  intros va. rewrite <- Hbytes. eapply user_byte_agree; [exact Hvm|]. eapply agree_weaken; [|exact Hag4]. set_solver +.
Qed.

(** Work before the fork that keeps what the parent owns. *)
Lemma fork_memory_before m m2 old old2 m' tp u tabs F pages hi t vm pid :
  mach_ok m → uvm_rep m u tabs F pages hi → old ⊆ F → tp ∈ live m ∖ old →
  agree (live m ∖ old) (m_mem m) (m_mem m2) → live m ∖ old ⊆ live m2 ∖ old2 → m_csr m2 satp = m_csr m satp →
  fork_memory m2 tp pages old2 m' t vm pid → fork_memory m tp pages old m' t vm pid.
Proof.
  intros Hok Hu Hold Htp Hag Hl Hsatp [(tabsc & Fc & pc & Hc & Ht & Hfresh & Hperm & Hbytes) Hf Hr Hl2 Hag2 Hsatp2].
  destruct (owned_live _ _ _ _ _ _ Hu) as [Hown Hdis].
  assert (tp ∈ live m) as Htpl by set_solver +Htp.
  assert (∀ f, tf_word m2 tp f = tf_word m tp f) as Hw.
  { intros f. eapply tf_word_agree; [exact Hag|done|by apply (live_frame_ok m)]. }
  split.
  - exists tabsc, Fc, pc. split_and!; [done|done| |done|]; [|intros va; rewrite Hbytes].
    { clear -Hl Hl2 Hfresh. set_solver +Hl Hfresh. }
    eapply user_byte_move; [exact Hu|]. eapply agree_weaken; [|exact Hag]. set_solver +Hown Hdis Hold.
  - intros f. rewrite Hf. case_decide; [done|apply Hw].
  - intros f. rewrite Hr. case_decide; [done|apply Hw].
  - set_solver +Hl Hl2.
  - eapply agree_trans; (eapply agree_weaken; [|eassumption]); set_solver +Hl.
  - congruence.
Qed.

(** Locks taken and released around the fork do not matter. *)
Lemma fork_memory_still m m' m2 tp pages old t vm pid :
  fork_memory m tp pages old m' t vm pid → mach_ok m2 → still m' m2 → fork_memory m tp pages old m2 t vm pid.
Proof.
  intros [(tabs & F & pc & Hu & Ht & Hfresh & Hperm & Hbytes) Hf Hr Hl Hag Hsatp] Hok Hst.
  destruct (still_kept (live m') _ _ Hst) as [[[_ Hsatp'] Hag'] Hl']. pose proof Hst as (Hmem & _).
  split.
  - exists tabs, F, pc. split_and!; [|done..|by rewrite Hmem]. destruct (owned_live _ _ _ _ _ _ Hu) as [Hown _].
    eapply uvm_rep_same; [exact Hu|done| |done]. by eapply agree_weaken.
  - intros f. unfold tf_word. rewrite Hmem. apply Hf.
  - intros f. unfold tf_word. rewrite Hmem. apply Hr.
  - by rewrite Hl'.
  - by rewrite Hmem.
  - congruence.
Qed.

(** The parent's address space afterwards. *)
Lemma fork_memory_parent m m' tp u tabs F pages hi old t vm pid :
  uvm_rep m u tabs F pages hi → old ⊆ F → tp ∈ F → t ∉ owned u tabs pages → mach_ok m' →
  fork_memory m tp pages old m' t vm pid →
  (∃ F', uvm_rep m' u tabs F' pages hi) ∧
  ∀ va, user_byte (m_mem m') pages va = user_byte (m_mem m) pages va.
Proof.
  intros Hu Hold Htp Ht Hok [_ _ _ Hl Hag _]. destruct (owned_live _ _ _ _ _ _ Hu) as [Hown Hdis].
  assert (agree (owned u tabs pages) (m_mem m) (m_mem m')) as Hag'.
  { eapply agree_weaken; [|exact Hag]. set_solver +Hown Hdis Hold Htp Ht. }
  split; [eexists; eapply uvm_rep_move; [exact Hu|done|done|set_solver +Hown Hdis Hold Hl]|].
  intros va. by eapply user_byte_move.
Qed.

Lemma fork_child_spec i c p q pid d pv cur held kl n es tabs F pages hi tabsq Fq pagesq hiq
    (Q : option Z → Sys → Prop) s :
  let m := s_mach s in let tp := p_trapframe p in let t1 := p_trapframe q in
  let old := owned (p_pagetable q) tabsq pagesq in
  ctl s (d + 1) pv cur ({[c]} ∪ held) kl n es → es !! i = Some p → es !! c = Some q → p_pid q = Some pid →
  c ∉ held → 0 ≤ d → is_u32 pid →
  uvm_rep m (p_pagetable p) tabs F pages hi →
  uvm_rep m (p_pagetable q) tabsq Fq pagesq hiq →
  {[t1; tp]} ⊆ Fq → t1 ≠ tp → {[t1]} ∪ old ⊆ F → tp ∈ F →
  covered (p_pagetable p) tabs ∧ clone_room m (p_pagetable p) + 2 < Z.of_nat (capacity m) ∨ fails →
  (fails → ∀ s', Q None s') →
  (∀ t vm s', ctl s' d pv cur held kl n (<[c := fork_entry p q t vm]> es) →
     fork_memory m tp pages ({[t1]} ∪ old) (s_mach s') t vm pid → t ∉ live m → Q (Some pid) s') →
  wp (fork_child i c) Q s.
Proof.
  intros m tp t1 old Hc Hp Hq Hqp Hh Hd Hpid Hu Huq Htq Hne Hold Htp Hroom Hfail HQ.
  pose proof (uvm_rep_ok _ _ _ _ _ _ Hu) as Hok. destruct (owned_live _ _ _ _ _ _ Huq) as [Hql Hqd]. fold old in Hql, Hqd.
  destruct (owned_live _ _ _ _ _ _ Hu) as [Hpl Hpd].
  assert (F ⊆ live m) as HF by (rewrite (uvm_rep_live _ _ _ _ _ _ Hu); set_solver +).
  assert (t1 ∈ live m ∧ tp ∈ live m) as [Ht1l Htpl] by set_solver +HF Hold Htp.
  unfold fork_child. apply wp_bind. eapply ctl_proc; [exact Hc|exact Hp|]. intros self _ Hself.
  assert (p_trapframe self = tp ∧ p_pagetable self = p_pagetable p ∧ p_pid self = p_pid p) as (-> & -> & ->) by (by subst p).
  apply wp_bind. eapply ctl_lift; [exact Hc|]. apply Trapframe_clone_spec; [done..|].
  split; [done|]. split; [done|]. intros Hc0.
  eapply ctl_new_frame; [exact Hc0|exact Hq|done|cbn [s_mach set_mach]; fold m; unfold clone_room in Hroom| |..].
  { destruct Hroom as [[_ Hroom]|]; [left|by right]. destruct (ur_size _ _ _ _ _ _ Hu) as (Hs0 & _). assert (0 ≤ uvm_size (p_pagetable p) / page_size); [|lia].
    apply Z.div_pos; [done|by unfold page_size]. }
  { by rewrite length_fmap. }
  { apply Forall_fmap, Forall_true. intros f. apply ld32_range. }
  cbn [s_mach set_mach]. fold m t1. intros t s2 Hc2 Ht Hl2 [[Hcap2 Hsatp2] Hag2] Hw2.
  assert (∀ f, tf_word (s_mach s2) t f = tf_word m tp f) as Hwt.
  { intros f. apply Hw2. rewrite list_lookup_fmap, tf_index_lookup. done. }
  assert (∀ X : gset Z, X ⊆ live m → t1 ∉ X → X ⊆ live (s_mach s2)) as Hin.
  { intros X HX H1. rewrite Hl2. set_solver +HX H1. }
  assert (∀ X : gset Z, X ⊆ live m → t1 ∉ X → agree X (m_mem m) (m_mem (s_mach s2))) as Hagin.
  { intros X HX H1. eapply agree_weaken; [|exact Hag2]. set_solver +HX H1. }
  assert (t1 ∉ owned (p_pagetable p) tabs pages) as H1p by set_solver +Hpd Hold.
  assert (t1 ∉ old) as H1q by set_solver +Hqd Htq.
  assert (t ∈ live (s_mach s2)) as Ht2 by (rewrite Hl2; set_solver +).
  assert (tp ∈ live (s_mach s2)) as Htp2 by (rewrite Hl2; set_solver +Htpl Hne).
  eapply (fork_space_spec c t p (set_trapframe t q) pid _ _ _ _ _ _ _ tabs (live (s_mach s2) ∖ owned (p_pagetable p) tabs pages)
    pages hi tabsq (live (s_mach s2) ∖ old) pagesq hiq).
  - exact Hc2.
  - apply list_lookup_insert_eq. by eapply lookup_lt_Some.
  - done.
  - exact Hqp.
  - done.
  - done.
  - done.
  - eapply uvm_rep_move; [exact Hu|apply Hc2|by apply Hagin|by apply Hin].
  - eapply uvm_rep_move; [exact Huq|apply Hc2|by apply Hagin|by apply Hin].
  - set_solver +Ht2 Htp2 Ht Hql Hqd Htq.
  - intros ->. done.
  - intros x Hx. cbn in Hx. fold old in Hx. assert (x ∈ live (s_mach s2)) by (by apply (Hin old)). set_solver +H Hx Hold Hpd.
  - set_solver +Ht2 Htp2 Ht Hpl Hpd Htp.
  - intros f. rewrite Hwt. symmetry. eapply tf_word_agree; [exact Hag2|set_solver +Htpl Hne|by apply (live_frame_ok m)].
  - destruct Hroom as [[Hcov Hroom]|]; [left|by right]. split; [exact Hcov|].
    rewrite Hcap2. unfold clone_room in *. cbn [s_mach set_mach]. fold m.
    pose proof (size_swap (live m) t t1 Ht1l) as Hs. rewrite Hl2. lia.
  - exact Hfail.
  - intros vm s' Hc' Hm'. rewrite list_insert_insert_eq in Hc'. apply (HQ t vm); [exact Hc'| |exact Ht].
    eapply fork_memory_before; [exact Hok|exact Hu|exact Hold|set_solver +Htpl Hne Htq Hqd| | |exact Hsatp2|exact Hm'].
    + eapply agree_weaken; [|exact Hag2]. set_solver +.
    + cbn. fold old. rewrite Hl2. set_solver +.
Qed.
(** The entry [allocproc] takes. *)
Definition free_entry es : option nat := fst <$> list_find (λ q, p_state q = Unused) es.

(** Memory before a fork: the address spaces of the parent [p] and of the free entry
    [q], and nothing shared. *)
Record fork_apart m (p q : Process) tabs F pages hi tabsq Fq pagesq hiq : Prop := {
  fr_parent : uvm_rep m (p_pagetable p) tabs F pages hi;
  fr_entry : uvm_rep m (p_pagetable q) tabsq Fq pagesq hiq;
  fr_apart : owned (p_pagetable q) tabsq pagesq ⊆ F;
  fr_frames : {[p_trapframe p; p_trapframe q]} ⊆ F ∩ Fq;
  fr_frame : p_trapframe p ≠ p_trapframe q;
}.

(** What a fork needs not to panic: every page of the parent below a table of its own,
    room in the heap, and a kernel stack inside the address space. *)
Record fork_enough m (p q : Process) tabs : Prop := {
  fr_covered : covered (p_pagetable p) tabs;
  fr_kstack : p_kstack q + KSTACK_SIZE < U32;
  fr_room : clone_room m (p_pagetable p) + 2 < Z.of_nat (capacity m);
}.

Lemma allocproc_none d pv cur held kl n es (Q : option nat → Sys → Prop) s :
  ctl s d pv cur held kl n es → free_entry es = None → Q None s → wp allocproc Q s.
Proof.
  intros Hc Hf HQ. unfold free_entry in Hf. destruct (list_find _ es) eqn:Hfind; [done|].
  apply list_find_None in Hfind. rewrite Forall_lookup in Hfind.
  unfold allocproc, indices. apply wp_bind, wp_gets.
  assert (Forall (λ k, (k < length es)%nat) (seq 0 (length (process_table (s_kernel s))))) as Hl.
  { apply Forall_seq. destruct Hc as (_ & <- & _). rewrite entries_length. unfold table. lia. }
  induction Hl as [|k l Hk Hl IH]; cbn [allocproc_loop]; [by apply wp_ret|].
  apply lookup_lt_is_Some_2 in Hk as [e He]. apply wp_bind. eapply ctl_proc; [exact Hc|exact He|].
  intros x _ <-. rewrite decide_False by exact (Hfind _ _ He). exact IH.
Qed.

Lemma fork_apart_still m m' p q tabs F pages hi tabsq Fq pagesq hiq :
  fork_apart m p q tabs F pages hi tabsq Fq pagesq hiq → mach_ok m' → still m m' →
  fork_apart m' p q tabs F pages hi tabsq Fq pagesq hiq.
Proof.
  intros [Hu Huq Hap Hfr Hne] Hok Hst. destruct (still_kept (live m) _ _ Hst) as [[_ Hag] Hl].
  split; [| |done..].
  - destruct (owned_live _ _ _ _ _ _ Hu). eapply uvm_rep_same; [exact Hu|done|by eapply agree_weaken|done].
  - destruct (owned_live _ _ _ _ _ _ Huq). eapply uvm_rep_same; [exact Huq|done|by eapply agree_weaken|done].
Qed.
Lemma fork_enough_still m m' p q tabs : fork_enough m p q tabs → still m m' → fork_enough m' p q tabs.
Proof.
  intros [Hcov Hks Hroom] Hst. destruct (still_kept ∅ _ _ Hst) as [[[Hcap _] _] Hl].
  split; [done..|unfold clone_room in *; by rewrite Hcap, Hl].
Qed.

Lemma free_entry_first es c : free_entry es = Some c → first_unused c es.
Proof.
  unfold free_entry. intros ([j q] & Hj & ->)%fmap_Some. apply list_find_Some in Hj as (Hq & Hs & Hfirst).
  split; [by exists q|]. intros k e Hk He. by eapply Hfirst.
Qed.

Lemma clone_room_one m u tabs F pages hi : uvm_rep m u tabs F pages hi →
  clone_room m u + 2 < Z.of_nat (capacity m) → (size (live m) < capacity m)%nat.
Proof.
  intros Hu Hroom. destruct (ur_size _ _ _ _ _ _ Hu) as (Hs0 & _). unfold clone_room in Hroom.
  assert (0 ≤ uvm_size u / page_size); [|lia]. apply Z.div_pos; [done|by unfold page_size].
Qed.

(** With the table locked: an entry is claimed and becomes the child. *)
Lemma fork_entry_spec i c p q d pv cur kl n es tabs F pages hi tabsq Fq pagesq hiq
    (Q : option Z → Sys → Prop) s :
  ctl s d pv cur ∅ kl n es → es !! i = Some p → 0 ≤ d → d + 17 < U32 → 0 ≤ n → n + 1 < U32 ∨ fails →
  free_entry es = Some c → es !! c = Some q → c ≠ i →
  fork_apart (s_mach s) p q tabs F pages hi tabsq Fq pagesq hiq →
  fork_enough (s_mach s) p q tabs ∨ fails → (fails → ∀ s', Q None s') →
  (∀ t vm s', ctl s' d pv cur ∅ kl (n + 1) (<[c := fork_entry p (claimed q t n) t vm]> es) →
     fork_memory (s_mach s) (p_trapframe p) pages
       ({[p_trapframe q]} ∪ owned (p_pagetable q) tabsq pagesq) (s_mach s') t vm n →
     t ∉ live (s_mach s) ∖ ({[p_trapframe q]} ∪ owned (p_pagetable q) tabsq pagesq) → Q (Some n) s') →
  wp allocproc (λ o, wp (match o with None => mret None | Some c => fork_child i c end) Q) s.
Proof.
  intros Hc Hp Hd0 Hd Hn0 Hn Hfree Hq Hci [Hu Huq Hap Hfr Hne] Hen Hfail HQ.
  set (m := s_mach s) in *. pose proof (uvm_rep_ok _ _ _ _ _ _ Hu) as Hok.
  destruct (owned_live _ _ _ _ _ _ Hu) as [Hpl Hpd], (owned_live _ _ _ _ _ _ Huq) as [Hql Hqd].
  set (old := owned (p_pagetable q) tabsq pagesq) in *.
  set (tp := p_trapframe p) in *. set (tq := p_trapframe q) in *.
  assert (F ⊆ live m) as HF by (rewrite (uvm_rep_live _ _ _ _ _ _ Hu); set_solver +).
  assert (tp ∈ F ∧ tq ∈ F ∧ tp ∈ Fq ∧ tq ∈ Fq) as (HtpF & HtqF & HtpFq & HtqFq) by set_solver +Hfr.
  assert (tp ∈ live m ∧ tq ∈ live m) as [Htpl Htql] by set_solver +HF HtpF HtqF.
  eapply allocproc_spec; [exact Hc|by apply free_entry_first|].
  eapply (claim_spec c q); [exact Hc|exact Hq|set_solver +|done|done| |done| |].
  { destruct Hen as [[]|]; [by left|by right]. }
  { destruct Hen as [[_ _ Hroom]|]; [left; exact (clone_room_one _ _ _ _ _ _ Hu Hroom)|by right]. }
  fold m tq. intros t1 s2 Hn32 Hc2 Ht1 Hl2 [[Hcap2 Hsatp2] Hag2].
  assert (∀ X : gset Z, X ⊆ live m → tq ∉ X → X ⊆ live (s_mach s2)) as Hin.
  { intros X HX H1. rewrite Hl2. set_solver +HX H1. }
  assert (∀ X : gset Z, X ⊆ live m → tq ∉ X → agree X (m_mem m) (m_mem (s_mach s2))) as Hagin.
  { intros X HX H1. eapply agree_weaken; [|exact Hag2]. set_solver +HX H1. }
  assert (tq ∉ owned (p_pagetable p) tabs pages) as H1p by set_solver +Hpd HtqF.
  assert (tq ∉ old) as H1q by set_solver +Hqd HtqFq.
  assert (t1 ∈ live (s_mach s2)) as Ht2 by (rewrite Hl2; set_solver +).
  assert (tp ∈ live (s_mach s2)) as Htp2 by (rewrite Hl2; set_solver +Htpl Hne).
  assert (t1 ≠ tp) as Hne1 by (intros ->; done).
  eapply (fork_child_spec i c p (claimed q t1 n) n _ _ _ _ _ _ _ tabs (live (s_mach s2) ∖ owned (p_pagetable p) tabs pages)
    pages hi tabsq (live (s_mach s2) ∖ old) pagesq hiq).
  - exact Hc2.
  - by rewrite list_lookup_insert_ne.
  - apply list_lookup_insert_eq. by eapply lookup_lt_Some.
  - done.
  - set_solver +.
  - done.
  - split; lia.
  - eapply uvm_rep_move; [exact Hu|apply Hc2|by apply Hagin|by apply Hin].
  - eapply uvm_rep_move; [exact Huq|apply Hc2|by apply Hagin|by apply Hin].
  - cbn. set_solver +Ht2 Htp2 Ht1 Hql Hqd HtpFq.
  - exact Hne1.
  - intros x Hx. cbn in Hx. fold old in Hx. pose proof (Hin old Hql H1q) as Ho. set_solver +Ho Ht2 Ht1 Hpl Hpd Hap Hx.
  - set_solver +Htp2 Hpd HtpF.
  - destruct Hen as [[Hcov _ Hroom]|]; [left; split; [exact Hcov|]|by right].
    rewrite Hcap2. unfold clone_room in *. fold m.
    pose proof (size_swap (live m) t1 tq Htql) as Hs. rewrite Hl2. lia.
  - exact Hfail.
  - intros t vm s' Hc' Hm' Ht. rewrite list_insert_insert_eq in Hc'. apply (HQ t vm); [exact Hc'| |].
    + eapply fork_memory_before; [exact Hok|exact Hu|set_solver +Hap HtqF|set_solver +Htpl Hne HtpFq Hqd| | |exact Hsatp2|exact Hm'].
      * eapply agree_weaken; [|exact Hag2]. set_solver +.
      * cbn. fold old. rewrite Hl2. set_solver +Ht1.
    + rewrite Hl2 in Ht. set_solver +Ht.
Qed.

(** The whole call, when there is a free entry. *)
Lemma kfork_spec i p c q n pv cur es tabs F pages hi tabsq Fq pagesq hiq (Q : option Z → Sys → Prop) s :
  ctl s 0 pv cur ∅ false n es → es !! i = Some p → 0 ≤ n → n + 1 < U32 ∨ fails →
  free_entry es = Some c → es !! c = Some q → c ≠ i →
  fork_apart (s_mach s) p q tabs F pages hi tabsq Fq pagesq hiq →
  fork_enough (s_mach s) p q tabs ∨ fails → (fails → ∀ s', Q None s') →
  (∀ t vm s', ctl s' 0 pv cur ∅ false (n + 1) (<[c := fork_entry p (claimed q t n) t vm]> es) →
     fork_memory (s_mach s) (p_trapframe p) pages
       ({[p_trapframe q]} ∪ owned (p_pagetable q) tabsq pagesq) (s_mach s') t vm n →
     t ∉ live (s_mach s) ∖ ({[p_trapframe q]} ∪ owned (p_pagetable q) tabsq pagesq) → Q (Some n) s') →
  wp (kfork i) Q s.
Proof.
  intros Hc Hp Hn0 Hn Hfree Hq Hci Hr Hen Hfail HQ. unfold kfork.
  apply wp_bind. eapply ctl_KERNEL_lock; [exact Hc|done|]. intros s1 Hc1 Hs1. apply wp_bind.
  assert (mach_ok (s_mach s1)) as Hok1 by apply Hc1. pose proof (fork_apart_still _ _ _ _ _ _ _ _ _ _ _ _ Hr Hok1 Hs1) as Hr1.
  eapply wp_mono; [|intros o s' H; apply wp_bind; exact H].
  eapply fork_entry_spec; [exact Hc1|exact Hp|done..|exact Hr1| | |].
  { destruct Hen; [left; by eapply fork_enough_still|by right]. }
  { intros Hf s'. apply wpo_fails; [done|]. intros r s2 (? & s3 & _ & [= <- <-])%bind_done. by apply Hfail. }
  intros t vm s2 Hc2 Hm2 Ht. apply wp_bind.
  eapply ctl_KERNEL_unlock; [exact Hc2|done|]. intros s3 Hc3 Hs3. apply wp_ret.
  destruct Hr as [Hu Huq Hap Hfr Hne]. pose proof (uvm_rep_ok _ _ _ _ _ _ Hu) as Hok.
  destruct (still_kept (live (s_mach s)) _ _ Hs1) as [[[_ Hsatp1] Hag] Hl]. rewrite Hl in Ht.
  apply (HQ t vm); [exact Hc3| |exact Ht]. eapply fork_memory_still; [|apply Hc3|exact Hs3].
  destruct (owned_live _ _ _ _ _ _ Huq) as [_ Hqd].
  assert (F ⊆ live (s_mach s)) as HF by (rewrite (uvm_rep_live _ _ _ _ _ _ Hu); set_solver +).
  eapply fork_memory_before; [exact Hok|exact Hu|set_solver +Hap Hfr|set_solver +HF Hfr Hne Hqd| | |exact Hsatp1|exact Hm2].
  - eapply agree_weaken; [|exact Hag]. set_solver +.
  - by rewrite Hl.
Qed.
End fork_spec.
