(* ===== verification/WaitSpec.v ===== *)
(** What recycling an entry and scanning the table for children do to the table and
    to memory. *)
From Stdlib Require Import (notations) String.
From S2P Require Export MemSpec.

Section wait_spec.
Context {E : Env} {EL : EnvLaws E} {fails : Prop}.
Local Abbreviation wp := (wpo fails).
Implicit Types (m : Machine) (s : Sys) (F : gset Z) (tabs : gmap Z Z) (pages hi : entries) (u : Uvm)
  (held : gset nat) (es : list Process).

(** ** Recycling an entry *)

(** A recycled entry. *)
Definition recycled (q : Process) u (t : Z) : Process :=
  mkProcess (p_id q) None Unused (p_kstack q) None u Context_zero 0 None t (p_lock q) (p_quants q).

(** Memory after recycling: the entry has an empty address space and a frame of its
    own, both new; the frames of [pages] are free again; what was not in [old] is still
    in use and, but for the frames in [mine], as before. *)
Record recycled_memory m (old mine : gset Z) pages m' u (t : Z) : Prop := {
  rm_space : ∃ F, uvm_rep m' u ∅ F ∅ ∅ ∧ t ∈ F;
  rm_size : uvm_size u = 0;
  rm_live : live m ∖ old ⊆ live m';
  rm_fresh : {[root (uvm_pagetable u); t]} ## live m ∖ old;
  rm_agree : agree (live m ∖ old ∖ mine) (m_mem m) (m_mem m');
  rm_freed : (size (live m') + size (frames_of pages) ≤ size (live m))%nat;
  rm_satp : m_csr m' satp = m_csr m satp;
}.

Lemma owned_empty u : owned u ∅ ∅ = {[root (uvm_pagetable u)]}.
Proof. unfold owned, pt_pages, pt_tables. by rewrite frames_of_empty, map_img_empty_L, !union_empty_r_L. Qed.

Lemma Process_free_spec q tabs F pages hi (Q : Process * option unit → Machine → Prop) m :
  uvm_rep m (p_pagetable q) tabs F pages hi → p_trapframe q ∈ F → (size (live m) + 1 < capacity m)%nat ∨ fails →
  (∀ u t m', mach_ok m' → quiet m m' →
     recycled_memory m ({[p_trapframe q]} ∪ owned (p_pagetable q) tabs pages) ∅ pages m' u t →
     Q (recycled q u t, Some tt) m') →
  wp (Process_free q) Q m.
Proof.
  intros Hu Ht Hroom HQ. set (tq := p_trapframe q) in *. set (old := owned (p_pagetable q) tabs pages) in *.
  destruct (owned_live _ _ _ _ _ _ Hu) as [Hol Hod]. fold old in Hol, Hod. pose proof (uvm_rep_live _ _ _ _ _ _ Hu) as Hl.
  assert (tq ∈ live m ∧ tq ∉ old) as [Htl Hto] by set_solver +Hl Ht Hod.
  set (rq := root (uvm_pagetable (p_pagetable q))) in *.
  assert (rq ∉ pt_tables tabs) as Hroot.
  { intros [i Hi]%elem_of_map_img. by eapply (pw_root_fresh _ _ _ (pt_rep_wf _ _ _ _ _ (ur_pt _ _ _ _ _ _ Hu))) in Hi. }
  unfold Process_free. apply wp_bind, Uvm_new_spec; [by eapply uvm_rep_ok|destruct Hroom; [left; lia|by right]|].
  intros u m1 Hu1 Hsz Hq1 Hag1. destruct (owned_live _ _ _ _ _ _ Hu1) as [Hn1 Hd1]. rewrite owned_empty in Hn1, Hd1.
  pose proof (uvm_rep_live _ _ _ _ _ _ Hu1) as Hl1. rewrite frames_of_empty, union_empty_l_L in Hl1.
  unfold pt_pages, pt_tables in Hl1. rewrite map_img_empty_L, union_empty_r_L in Hl1.
  assert (pt_tables tabs ## frames_of pages ∧ rq ∉ frames_of pages) as [Htf Hrf].
  { pose proof (uvm_rep_disj _ _ _ _ _ _ Hu) as Hd. unfold pt_pages in Hd. set_solver +Hd. }
  set (ru := root (uvm_pagetable u)) in *. assert (ru ∉ live m) as Hrn by set_solver +Hd1. pose proof (qt_cap _ _ Hq1) as Hc1.
  apply wp_bind. cbn [p_pagetable set_pid set_state set_parent]. unfold assign_pagetable. apply wp_bind.
  eapply (Uvm_drop_spec m1 (p_pagetable q) tabs (live m1 ∖ old) pages hi).
  { eapply uvm_rep_move; [exact Hu|by eapply uvm_rep_ok| |set_solver +Hol Hl1].
    eapply agree_weaken; [|exact Hag1]. done. }
  intros m2 Hok2 Hl2 Hq2 Hag2. apply wp_ret.
  assert (size (live m2) + size (frames_of pages) ≤ size (live m))%nat as Hs2.
  { assert (old = {[rq]} ∪ pt_tables tabs ∪ frames_of pages) as Hold by done.
    assert (rq ∈ live m) as Hrq by (apply Hol; rewrite Hold; set_solver +).
    etransitivity; [|exact (size_swap (live m) ru rq Hrq)].
    rewrite <- size_union by (rewrite Hl2, Hold; set_solver +Htf).
    apply subseteq_size. rewrite Hl2, Hl1. rewrite Hold in Hol |- *. set_solver +Hol Htf Hroot Hrf Hrn. }
  apply wp_bind, Box_new_in_spec; [done|rewrite (qt_cap _ _ Hq2); destruct Hroom; [left; lia|by right]|done|by apply Forall_replicate|].
  intros t m3 Hok3 Hq3 Hn3 Hl3 Hag3 _. apply wp_bind. unfold assign_trapframe. apply wp_bind.
  assert (tq ∈ live m2) as Ht2 by (rewrite Hl2, Hl1; set_solver +Htl Hto).
  cbn [p_trapframe set_pid set_state set_parent set_pagetable set_context set_xstatus set_channel]. fold tq.
  apply Box_drop_spec; [done|rewrite Hl3; set_solver +Ht2|]. intros m4 Hok4 Hq4 Hl4 Hag4. apply wp_ret, wp_ret.
  assert (agree (live m2 ∖ {[tq]}) (m_mem m2) (m_mem m4)) as Hag24.
  { eapply agree_trans; [eapply agree_weaken; [|exact Hag3]; set_solver +|].
    eapply agree_weaken; [|exact Hag4]. rewrite Hl3. set_solver +. }
  assert (live m2 ∖ {[tq]} ⊆ live m4) as Hl24 by (rewrite Hl4, Hl3; set_solver +).
  assert (live m1 ∖ old ⊆ live m2) as Hl12 by (rewrite Hl2; set_solver +).
  assert (ru ∈ live m1 ∖ old) as Hr1.
  { apply elem_of_difference. split; [rewrite Hl1; set_solver +|]. intros H. by apply Hrn, Hol. }
  assert (ru ∈ live m2 ∖ {[tq]}) as Hr2.
  { apply elem_of_difference. split; [by apply Hl12|]. intros H%elem_of_singleton. by apply Hrn; rewrite H. }
  assert (t ∈ live m4 ∧ t ≠ ru) as [Ht4 Htr].
  { split; [rewrite Hl4, Hl3; set_solver +Hn3 Ht2|]. intros ->. by apply Hn3, Hl12. }
  assert (quiet m m4) as Hq by (trans m1; [done|]; trans m2; [done|]; by trans m3).
  apply (HQ u t m4); [done|exact Hq|]. split.
  - exists (live m4 ∖ owned u ∅ ∅). rewrite owned_empty. fold ru. split; [|set_solver +Ht4 Htr].
    unfold ru. rewrite <- owned_empty. eapply (uvm_rep_move m1); [exact Hu1|done| |].
    + rewrite owned_empty. fold ru. eapply agree_trans; (eapply agree_weaken; [|eassumption]); by apply singleton_subseteq_l.
    + rewrite owned_empty. fold ru. by apply singleton_subseteq_l, Hl24.
  - done.
  - set_solver +Hl1 Hl12 Hl24.
  - fold ru. assert (live m ∖ ({[tq]} ∪ old) ⊆ live m2) as Hlm by set_solver +Hl1 Hl12. set_solver +Hrn Hn3 Hlm.
  - rewrite difference_empty_L. eapply agree_trans; [eapply agree_weaken; [|exact Hag1]; set_solver +|].
    eapply agree_trans; (eapply agree_weaken; [|eassumption]); [set_solver +Hl1|set_solver +Hl1 Hl12].
  - assert (live m4 = {[t]} ∪ live m2 ∖ {[tq]}) as -> by (rewrite Hl4, Hl3; set_solver +Hn3 Ht2).
    pose proof (size_swap (live m2) t tq Ht2). lia.
  - apply (sc_csr _ _ (qt_cpu _ _ Hq)).
Qed.

Lemma recycled_memory_still m m' m2 old mine pages u t :
  recycled_memory m old mine pages m' u t → mach_ok m2 → still m' m2 → recycled_memory m old mine pages m2 u t.
Proof.
  intros [(F & Hu & Ht) Hsz Hl Hn Hag Hf Hsatp] Hok Hst. destruct (still_kept (live m') _ _ Hst) as [[[_ Hsatp'] Hag'] Hl'].
  pose proof Hst as (Hmem & _). split; [|done|by rewrite Hl'|done|by rewrite Hmem|by rewrite Hl'|congruence].
  exists F. split; [|done]. destruct (owned_live _ _ _ _ _ _ Hu) as [Hown _].
  eapply uvm_rep_same; [exact Hu|done|by eapply agree_weaken|done].
Qed.

Lemma recycled_memory_before m m1 m2 old mine pages u t :
  still m m1 → recycled_memory m1 old mine pages m2 u t → recycled_memory m old mine pages m2 u t.
Proof.
  intros Hst [Hu Hsz Hl Hn Hag Hf Hsatp]. destruct (still_kept (live m) _ _ Hst) as [[[_ Hsatp'] _] Hl']. pose proof Hst as (Hmem & _).
  rewrite Hl' in *. rewrite Hmem in Hag. rewrite Hsatp' in Hsatp. by split.
Qed.

(** A write to the frames in [mine] afterwards. *)
Lemma recycled_memory_write m m1 m2 old mine pages u t :
  recycled_memory m old ∅ pages m1 u t → mach_ok m2 → mine ⊆ live m ∖ old → live m2 = live m1 →
  agree (live m1 ∖ mine) (m_mem m1) (m_mem m2) → m_csr m2 satp = m_csr m1 satp → recycled_memory m old mine pages m2 u t.
Proof.
  intros [(F & Hu & Ht) Hsz Hl Hn Hag Hf Hsatp] Hok Hmine Hl2 Hag2 Hsatp2. rewrite difference_empty_L in Hag.
  split; [|done|by rewrite Hl2|done| |by rewrite Hl2|congruence].
  - exists F. split; [|done]. eapply uvm_rep_same; [exact Hu|done| |done].
    eapply agree_weaken; [|exact Hag2]. destruct (owned_live _ _ _ _ _ _ Hu) as [Hown _].
    rewrite owned_empty in *. set_solver +Hown Hn Hmine.
  - eapply agree_trans; (eapply agree_weaken; [|eassumption]); set_solver +Hl.
Qed.

Lemma ctl_recycle j q d pv cur held kl n es tabs F pages hi (Q : option unit → Sys → Prop) s :
  ctl s d pv cur held kl n es → es !! j = Some q → uvm_rep (s_mach s) (p_pagetable q) tabs F pages hi →
  p_trapframe q ∈ F → (size (live (s_mach s)) + 1 < capacity (s_mach s))%nat ∨ fails →
  (∀ u t s', ctl s' d pv cur held kl n (<[j := recycled q u t]> es) →
     recycled_memory (s_mach s) ({[p_trapframe q]} ∪ owned (p_pagetable q) tabs pages) ∅ pages (s_mach s') u t →
     Q (Some tt) s') →
  wp (update_with j Process_free) Q s.
Proof.
  intros Hc Hq Hu Ht Hroom HQ. unfold update_with. apply wp_bind. eapply ctl_proc; [exact Hc|exact Hq|].
  intros p Hp Hpq. assert (p_pagetable p = p_pagetable q ∧ p_trapframe p = p_trapframe q) as [Hpt Htf] by by subst q.
  apply wp_bind. eapply ctl_lift; [exact Hc|]. eapply Process_free_spec; [rewrite Hpt; exact Hu|by rewrite Htf|done|].
  rewrite Hpt, Htf. intros u t m' Hok' Hq' Hm'. split; [done|]. split; [done|]. intros Hc'. apply wp_bind. cbn [fst snd].
  eapply ctl_update_at; [exact Hc'|exact Hp| |done|].
  { instantiate (1 := recycled q u t). by subst q. }
  intros s' Hc'' Hms. apply wp_ret, (HQ u t); [exact Hc''|by rewrite Hms].
Qed.

(** ** Scanning for children *)

(** Reaping the zombie [j], whose lock is held. *)
Lemma reap_spec j q d pv cur held kl n es tabs F pages hi (Q : kids → Sys → Prop) s :
  ctl s (d + 1) pv cur ({[j]} ∪ held) kl n es → es !! j = Some q → j ∉ held → 0 ≤ d →
  uvm_rep (s_mach s) (p_pagetable q) tabs F pages hi →
  p_trapframe q ∈ F → (size (live (s_mach s)) + 1 < capacity (s_mach s))%nat ∨ fails →
  (∀ u t s', ctl s' d pv cur held kl n (<[j := recycled q u t]> es) →
     recycled_memory (s_mach s) ({[p_trapframe q]} ∪ owned (p_pagetable q) tabs pages) ∅ pages (s_mach s') u t →
     Q (mkKids true (p_pid q) (p_xstatus q)) s') →
  wp (reap j) Q s.
Proof.
  intros Hc Hq Hj Hd Hu Ht Hroom HQ. unfold reap. apply wp_bind. eapply ctl_proc; [exact Hc|exact Hq|].
  intros p _ Hpq. apply wp_bind. eapply ctl_recycle; [exact Hc|exact Hq|exact Hu|done|done|].
  intros u t s1 Hc1 Hm1. apply wp_bind, (wp_unwrap _ tt); [done|]. apply wp_bind.
  eapply ctl_unlock_proc; [exact Hc1|done|rewrite length_insert; by eapply lookup_lt_Some|lia|].
  rewrite Z.add_simpl_r. intros s2 Hc2 Hst. apply wp_ret.
  assert (p_pid p = p_pid q ∧ p_xstatus p = p_xstatus q) as [-> ->] by by subst q.
  apply (HQ u t); [exact Hc2|]. by eapply recycled_memory_still; [|apply Hc2|].
Qed.

(** The children of a pid, and those that are zombies. *)
Definition child_of (pid : option Z) (q : Process) : Prop := p_parent q = pid.
Definition zombie_of (pid : option Z) (q : Process) : Prop := p_parent q = pid ∧ p_state q = Zombie.
#[global] Instance child_of_dec pid q : Decision (child_of pid q).
Proof. unfold child_of. apply _. Defined.
#[global] Instance zombie_of_dec pid q : Decision (zombie_of pid q).
Proof. unfold zombie_of. apply _. Defined.

Definition zombie_child (pid : option Z) es : option nat := fst <$> list_find (zombie_of pid) es.
Definition any_child (pid : option Z) es : bool := existsb (λ q, bool_decide (child_of pid q)) es.

Lemma zombie_child_skip pid e es : ¬ zombie_of pid e → zombie_child pid (e :: es) = S <$> zombie_child pid es.
Proof.
  intros He. unfold zombie_child. cbn [list_find]. rewrite decide_False by done.
  by destruct (list_find _ es) as [[]|].
Qed.

(** The scan from an entry on, up to the first zombie. *)
Lemma scan_spec l k pid has d pv cur kl n es (Q : kids → Sys → Prop) s :
  ctl s d pv cur ∅ kl n es → l = seq k (length es - k) → 0 ≤ d → d + 17 < U32 → (k ≤ length es)%nat →
  match zombie_child pid (drop k es) with
  | None => ∀ s', ctl s' d pv cur ∅ kl n es → still (s_mach s) (s_mach s') →
      Q (mkKids (has || any_child pid (drop k es)) None 0) s'
  | Some j => ∀ s', ctl s' (d + 1) pv cur ({[(k + j)%nat]} ∪ ∅) kl n es → still (s_mach s) (s_mach s') →
      wp (reap (k + j)) Q s'
  end → wp (scan l pid has) Q s.
Proof.
  intros Hc -> Hd Hdb. remember (length es - k)%nat as w eqn:Hw. revert k has s Hc Hw.
  induction w as [|w IH]; intros k has s Hc Hw Hk HQ; cbn [seq scan].
  - assert (drop k es = []) as Hdrop by (apply drop_ge; lia). rewrite Hdrop in HQ. cbn in HQ.
    apply wp_ret. rewrite orb_false_r in HQ. by apply HQ.
  - destruct (lookup_lt_is_Some_2 es k) as [e He]; [lia|]. rewrite (drop_S _ _ _ He) in HQ.
    apply wp_bind. eapply ctl_proc; [exact Hc|exact He|]. intros p _ Hpe.
    assert (p_parent p = p_parent e) as -> by by subst e. cbn [any_child existsb] in HQ.
    destruct (decide (p_parent e = pid)) as [Hpar|Hpar].
    + apply wp_bind. eapply ctl_lock_proc; [exact Hc|set_solver +|lia|done|]. intros s1 Hc1 Hst1.
      apply wp_bind. eapply ctl_proc; [exact Hc1|exact He|]. intros p1 _ Hpe1.
      assert (p_state p1 = p_state e) as -> by by rewrite <- Hpe1.
      destruct (decide (p_state e = Zombie)) as [Hz|Hz].
      * unfold zombie_child in HQ. cbn [list_find] in HQ. rewrite decide_True in HQ by done.
        cbn in HQ. rewrite Nat.add_0_r in HQ. by apply HQ.
      * rewrite zombie_child_skip in HQ by (intros [_ H]; done). rewrite bool_decide_true in HQ by done.
        apply wp_bind. eapply ctl_unlock_proc; [exact Hc1|set_solver +|lia|lia|].
        rewrite Z.add_simpl_r. intros s2 Hc2 Hst2. assert (still (s_mach s) (s_mach s2)) as Hst by by trans (s_mach s1).
        apply (IH (S k)); [exact Hc2|lia|lia|]. rewrite orb_true_r in HQ.
        destruct (zombie_child pid (drop (S k) es)) as [j|]; cbn [fmap option_fmap option_map] in HQ.
        { intros s' Hc' Hs'. replace (S k + j)%nat with (k + S j)%nat in * by lia. apply HQ; [done|by trans (s_mach s2)]. }
        { intros s' Hc' Hs'. apply HQ; [done|by trans (s_mach s2)]. }
    + rewrite zombie_child_skip in HQ by (intros [H _]; done). rewrite bool_decide_false in HQ by done.
      apply (IH (S k)); [exact Hc|lia|lia|].
      destruct (zombie_child pid (drop (S k) es)) as [j|]; cbn [fmap option_fmap option_map] in HQ; [|done].
      intros s' Hc' Hs'. replace (S k + j)%nat with (k + S j)%nat in * by lia. by apply HQ.
Qed.

(** ** Going to sleep *)

Lemma ctl_uart_print text d pv cur held kl n es (Q : unit → Sys → Prop) s :
  ctl s d pv cur held kl n es →
  (let s' := set_mach (put_uart text (s_mach s)) s in ctl s' d pv cur held kl n es → Q tt s') →
  wp (lift (uart_print text)) Q s.
Proof.
  intros (Hok & He & Hd & ps & fr & Hk) HQ. apply wp_lift, uart_print_spec, HQ. split_and!; [|done|done|].
  - destruct Hok as [[] Hh Hlk]. by split.
  - exists ps, fr. destruct (ks_depth _ _ _ _ _ _ _ _ _ Hk). eapply kst_mach; [exact Hk|by split|apply Hk|apply Hk].
Qed.

Lemma ctl_println text d pv cur held kl n es (Q : unit → Sys → Prop) s :
  ctl s d pv cur held kl n es →
  (∀ s', ctl s' d pv cur held kl n es → still (s_mach s) (s_mach s') → Q tt s') →
  wp (lift (println text)) Q s.
Proof. intros Hc HQ. eapply ctl_uart_print; [exact Hc|]. intros s' Hc'. apply HQ; [done|by split_and!]. Qed.

Lemma ctl_sched_enter pv c held kl n es e (Q : bool → Sys → Prop) s :
  ctl s 1 pv (Some c) held kl n es → es !! c = Some e → p_state e ≠ Running → Q pv s → wp sched_enter Q s.
Proof.
  intros Hc He Hst HQ. pose proof Hc as (_ & _ & _ & ps & fr & Hk). unfold sched_enter.
  destruct (ks_depth _ _ _ _ _ _ _ _ _ Hk) as [Hstk _ Hsie Hprev].
  rewrite decide_False in Hsie by lia. apply wp_bind, wp_lift, interrupt_read_spec.
  rewrite Hsie. assert (set_mach (s_mach s) s = s) as -> by by destruct s.
  apply wp_bind, wp_gets. unfold stack in Hstk. rewrite Hstk, decide_False by (intros H; by apply H).
  apply wp_bind. unfold get_current. apply wp_gets. rewrite (ks_cur _ _ _ _ _ _ _ _ _ Hk).
  apply wp_bind. eapply ctl_proc; [exact Hc|exact He|]. intros p _ Hp.
  assert (p_state p = p_state e) as -> by by subst e. rewrite decide_False by done.
  apply wp_gets. unfold prev in Hprev. by rewrite Hprev by lia.
Qed.

Lemma find_pid_spec l i pid e d pv cur held kl n es (Q : option nat → Sys → Prop) s :
  ctl s d pv cur held kl n es → es !! i = Some e → p_pid e = pid → i ∈ l →
  (∀ j q, es !! j = Some q → p_pid q = pid → j = i) → Forall (λ j, (j < length es)%nat) l →
  Q (Some i) s → wp (find_pid l pid) Q s.
Proof.
  intros Hc He Hpid Hin Huniq Hl HQ. induction Hl as [|j l Hj Hl IH]; [by apply elem_of_nil in Hin|].
  cbn [find_pid]. apply lookup_lt_is_Some_2 in Hj as [q Hq]. apply wp_bind.
  eapply ctl_proc; [exact Hc|exact Hq|]. intros p _ Hp. assert (p_pid p = p_pid q) as -> by by subst q.
  case_decide as Hc'.
  - rewrite (Huniq j q) by done. by apply wp_ret.
  - apply IH. apply elem_of_cons in Hin as [->|Hin]; [|done]. simplify_eq.
Qed.

Lemma publish_sleep_spec i e pid d pv cur kl n es (Q : unit → Sys → Prop) s :
  ctl s d pv cur ∅ kl n es → es !! i = Some e → p_pid e = pid → d + 17 < U32 →
  (∀ j q, es !! j = Some q → p_pid q = pid → j = i) →
  (∀ s', ctl s' (d + 1) pv cur {[i]} kl n (<[i := set_state Sleeping (set_channel pid e)]> es) →
     still (s_mach s) (s_mach s') → Q tt s') →
  wp (publish_sleep pid) Q s.
Proof.
  intros Hc He Hpid Hd Huniq HQ. pose proof (lookup_lt_Some _ _ _ He) as Hlen.
  unfold publish_sleep, indices. apply wp_bind, wp_gets.
  assert (length (process_table (s_kernel s)) = length es) as ->.
  { destruct Hc as (_ & <- & _). by rewrite entries_length. }
  apply wp_bind. eapply find_pid_spec; [exact Hc|exact He|done|apply elem_of_seq; lia|done|apply Forall_seq; lia|].
  apply wp_bind, (wp_unwrap _ i); [done|]. apply wp_bind.
  eapply ctl_lock_proc; [exact Hc|set_solver +|done|done|]. rewrite union_empty_r_L. intros s1 Hc1 Hst.
  apply wp_bind. eapply ctl_update; [exact Hc1|exact He|done|done|]. intros s2 Hc2 Hm2.
  eapply ctl_update; [exact Hc2|by apply list_lookup_insert_eq|done|done|]. intros s3 Hc3 Hm3.
  rewrite list_insert_insert_eq in Hc3. apply HQ; [exact Hc3|by rewrite Hm3, Hm2].
Qed.

(** ** One iteration of [kwait] *)

Lemma zombie_child_state pid es j q : zombie_child pid es = Some j → es !! j = Some q →
  p_parent q = pid ∧ p_state q = Zombie.
Proof.
  unfold zombie_child. intros ([k e] & Hk & ->)%fmap_Some Hq. apply list_find_Some in Hk as (He & Hz & _).
  cbn in Hq. by simplify_eq.
Qed.

(** The part under the lock, when a child is a zombie. *)
Lemma kwait_scan_zombie s i p pid d pv cur n es j q tabsq Fq pagesq hiq (Q : wait_scan → Sys → Prop) :
  ctl s d pv cur ∅ false n es → es !! i = Some p → 0 ≤ d ∧ d + 18 < U32 →
  zombie_child (p_pid p) es = Some j → es !! j = Some q → p_pid q = Some pid →
  uvm_rep (s_mach s) (p_pagetable q) tabsq Fq pagesq hiq → p_trapframe q ∈ Fq →
  (size (live (s_mach s)) + 1 < capacity (s_mach s))%nat ∨ fails →
  (∀ u t s', ctl s' d pv cur ∅ false n (<[j := recycled q u t]> es) →
     recycled_memory (s_mach s) ({[p_trapframe q]} ∪ owned (p_pagetable q) tabsq pagesq) ∅ pagesq (s_mach s') u t →
     Q (ScanReaped pid (p_xstatus q)) s') →
  wp (kwait_scan i) Q s.
Proof.
  intros Hc Hp [Hd0 Hd] Hz Hq Hqp Huq Hfr Hroom HQ. destruct (zombie_child_state _ _ _ _ Hz Hq) as [Hpar Hqs].
  unfold kwait_scan. apply wp_bind. eapply ctl_proc; [exact Hc|exact Hp|]. intros self _ Hself.
  assert (p_pid self = p_pid p) as -> by by subst p. apply wp_bind.
  eapply ctl_KERNEL_lock; [exact Hc|lia|]. intros s1 Hc1 Hs1. unfold indices. apply wp_bind, wp_gets.
  assert (length (process_table (s_kernel s1)) = length es) as ->.
  { destruct Hc1 as (_ & <- & _). by rewrite entries_length. }
  apply wp_bind. eapply (scan_spec _ 0); [exact Hc1|by rewrite Nat.sub_0_r|lia|lia|lia|].
  rewrite drop_0, Hz, Nat.add_0_l. intros s2 Hc2 Hs2.
  assert (still (s_mach s) (s_mach s2)) as Hs by by trans (s_mach s1).
  destruct (still_kept (live (s_mach s)) _ _ Hs) as [[[Hcap _] Hag] Hl].
  eapply reap_spec; [exact Hc2|exact Hq|set_solver +|lia| |exact Hfr|by rewrite Hl, Hcap|].
  { destruct (owned_live _ _ _ _ _ _ Huq). eapply uvm_rep_same; [exact Huq|apply Hc2|by eapply agree_weaken|done]. }
  intros u t s3 Hc3 Hm3. apply wp_bind. cbn [zombie_pid has_kids]. rewrite Hqp, decide_False by (by intros [? _]).
  apply wp_ret, wp_bind. eapply ctl_KERNEL_unlock; [exact Hc3|lia|]. rewrite Z.add_simpl_r. intros s4 Hc4 Hs4.
  apply wp_ret, (HQ u t); [exact Hc4|]. eapply recycled_memory_still; [|apply Hc4|exact Hs4]. by eapply recycled_memory_before.
Qed.

(** ... and when none is. *)
Lemma kwait_scan_alive s i p n pv es :
  ctl s 0 pv (Some i) ∅ false n es → es !! i = Some p →
  (∀ j q, es !! j = Some q → p_pid q = p_pid p → j = i) → zombie_child (p_pid p) es = None →
  wp (kwait_scan i) (λ r s', still (s_mach s) (s_mach s') ∧
    if any_child (p_pid p) es
    then r = ScanSleep pv ∧
      ctl s' 1 pv (Some i) {[i]} false n (<[i := set_state Sleeping (set_channel (p_pid p) p)]> es)
    else r = ScanNone ∧ ctl s' 0 pv (Some i) ∅ false n es) s.
Proof.
  intros Hc Hp Huniq Hz. unfold kwait_scan. apply wp_bind. eapply ctl_proc; [exact Hc|exact Hp|]. intros self _ Hself.
  assert (p_pid self = p_pid p) as -> by by subst p. apply wp_bind.
  eapply ctl_KERNEL_lock; [exact Hc|done|]. intros s1 Hc1 Hs1. unfold indices. apply wp_bind, wp_gets.
  assert (length (process_table (s_kernel s1)) = length es) as ->.
  { destruct Hc1 as (_ & <- & _). by rewrite entries_length. }
  apply wp_bind. eapply (scan_spec _ 0); [exact Hc1|by rewrite Nat.sub_0_r|done|done|lia|].
  rewrite drop_0, Hz. intros s2 Hc2 Hs2. apply wp_bind. cbn [zombie_pid has_kids orb].
  destruct (any_child (p_pid p) es) eqn:Hany.
  - rewrite decide_True by done. eapply publish_sleep_spec; [exact Hc2|exact Hp|done|done|done|].
    intros s3 Hc3 Hs3. apply wp_bind. eapply ctl_KERNEL_unlock; [exact Hc3|done|]. intros s4 Hc4 Hs4.
    apply wp_bind. eapply ctl_sched_enter; [exact Hc4|apply list_lookup_insert_eq; by eapply lookup_lt_Some|done|].
    apply wp_ret. split; [|by split]. trans (s_mach s1); [done|]. trans (s_mach s2); [done|]. by trans (s_mach s3).
  - rewrite decide_False by (by intros [_ ?]). apply wp_ret, wp_bind.
    eapply ctl_KERNEL_unlock; [exact Hc2|done|]. intros s3 Hc3 Hs3. apply wp_ret.
    split; [|by split]. trans (s_mach s1); [done|]. by trans (s_mach s2).
Qed.
End wait_spec.
