(* ===== verification/ExitSpec.v ===== *)
(** Loops over the table on its entries, and what [kexit] does with them. *)
From S2P Require Export WaitSpec.

(** ** What exiting does to the table *)

Section exit_table.
Context {E : Env}.
Implicit Types (p : Process) (es : list Process).

Definition woken (ch : option Z) p : Process :=
  if decide (p_state p = Sleeping ∧ p_sleep_channel p = ch) then set_state Runnable p else p.
Definition orphaned (pid : option Z) p : Process :=
  if decide (p_parent p = pid) then set_parent (Some 0) p else p.

(** The children of [pid] go to init, which is woken if there are any. *)
Definition given_up (pid : option Z) es : list Process :=
  if any_child pid es then woken (Some 0) <$> (orphaned pid <$> es) else orphaned pid <$> es.

(** The entry of a process that has exited with [xstatus]. *)
Definition dead (xstatus : Z) p : Process := set_state Zombie (set_xstatus xstatus p).

(** The table after the exit of the process [i], which is [p]. *)
Definition exited (i : nat) (xstatus : Z) p es : list Process :=
  <[i := dead xstatus p]> (woken (p_parent p) <$> given_up (p_pid p) es).
End exit_table.

Section exit_spec.
Context {E : Env} {EL : EnvLaws E} {fails : Prop}.
Local Abbreviation wp := (wpo fails).
Implicit Types (m : Machine) (s : Sys) (p : Process) (held : gset nat) (es : list Process).

(** ** Loops over the table *)

Lemma ctl_for_each (body : nat → KM unit) (f : Process → Process) d pv cur held kl n es (Q : unit → Sys → Prop) s :
  (∀ k es' s p (R : unit → Sys → Prop),
     ctl s d pv cur held kl n es' → es' !! k = Some p →
     (∀ s', ctl s' d pv cur held kl n (<[k := f p]> es') → still (s_mach s) (s_mach s') → R tt s') → wp (body k) R s) →
  ctl s d pv cur held kl n es →
  (∀ s', ctl s' d pv cur held kl n (f <$> es) → still (s_mach s) (s_mach s') → Q tt s') →
  wp (for_each (seq 0 (length es)) body) Q s.
Proof.
  intros Hbody Hc HQ.
  assert (∀ (r k : nat) s1, (k + r = length es)%nat → ctl s1 d pv cur held kl n (upto f k es) → still (s_mach s) (s_mach s1) →
    wp (for_each (seq k r) body) Q s1) as Hloop.
  { induction r as [|r IH]; intros k s1 Hlen Hc1 Hs1; cbn [seq for_each].
    - apply wp_ret, HQ; [|done]. rewrite Nat.add_0_r in Hlen. by rewrite Hlen, upto_all in Hc1.
    - destruct (lookup_lt_is_Some_2 es k) as [p Hp]; [lia|]. apply wp_bind.
      eapply Hbody; [exact Hc1|by rewrite upto_lookup_ge|]. intros s2 Hc2 Hs2.
      apply IH; [lia| |by trans (s_mach s1)]. by rewrite (upto_S f k es p) in Hc2. }
  by apply (Hloop _ 0%nat).
Qed.

Lemma ctl_indices d pv cur held kl n es (Q : list nat → Sys → Prop) s :
  ctl s d pv cur held kl n es → Q (seq 0 (length es)) s → wp indices Q s.
Proof.
  intros (_ & <- & _) HQ. apply wp_gets. change (process_table (s_kernel s)) with (table s). by rewrite entries_length in HQ.
Qed.

Lemma ctl_wakeup ch d pv cur kl n es (Q : unit → Sys → Prop) s :
  ctl s d pv cur ∅ kl n es → 0 ≤ d → d + 17 < U32 →
  (∀ s', ctl s' d pv cur ∅ kl n (woken ch <$> es) → still (s_mach s) (s_mach s') → Q tt s') →
  wp (wakeup ch) Q s.
Proof.
  intros Hc Hd Hd' HQ. unfold wakeup. apply wp_bind. eapply ctl_indices; [exact Hc|].
  eapply ctl_for_each; [|exact Hc|exact HQ]. clear Hc HQ s Q es. intros k es s p R Hc Hp HR.
  pose proof (lookup_lt_Some _ _ _ Hp) as Hlt.
  apply wp_bind. eapply ctl_lock_proc; [exact Hc|set_solver +|done|done|]. intros s1 Hc1 Hs1.
  apply wp_bind. eapply ctl_proc; [exact Hc1|exact Hp|]. intros q _ Hq. apply wp_bind. unfold woken in HR.
  assert (p_state q = p_state p ∧ p_sleep_channel q = p_sleep_channel p) as [-> ->] by by subst p.
  case_decide as Hw.
  - eapply ctl_update; [exact Hc1|exact Hp|done|done|]. intros s2 Hc2 Hs2.
    eapply ctl_unlock_proc; [exact Hc2|set_solver +|by rewrite length_insert|lia|]. intros s3 Hc3 Hs3.
    rewrite Z.add_simpl_r in Hc3. apply HR; [done|]. rewrite Hs2 in Hs3. by trans (s_mach s1).
  - apply wp_ret. eapply ctl_unlock_proc; [exact Hc1|set_solver +|done|lia|]. intros s3 Hc3 Hs3.
    rewrite Z.add_simpl_r in Hc3. apply HR; [by rewrite list_insert_id|]. by trans (s_mach s1).
Qed.

Lemma any_child_drop pid k p es :
  es !! k = Some p → any_child pid (drop k es) = bool_decide (p_parent p = pid) || any_child pid (drop (S k) es).
Proof. intros Hp. by rewrite (drop_S _ p). Qed.

Lemma ctl_reparent_loop pid d pv cur held kl n es (Q : bool → Sys → Prop) s :
  ctl s d pv cur held kl n es →
  (∀ s', ctl s' d pv cur held kl n (orphaned pid <$> es) → s_mach s' = s_mach s → Q (any_child pid es) s') →
  wp (reparent_loop (seq 0 (length es)) pid false) Q s.
Proof.
  intros Hc HQ.
  assert (∀ (r k : nat) b s1, (k + r = length es)%nat → ctl s1 d pv cur held kl n (upto (orphaned pid) k es) →
    s_mach s1 = s_mach s → b || any_child pid (drop k es) = any_child pid es →
    wp (reparent_loop (seq k r) pid b) Q s1) as Hloop.
  { induction r as [|r IH]; intros k b s1 Hlen Hc1 Hs1 Hb; cbn [seq reparent_loop].
    - rewrite Nat.add_0_r in Hlen. rewrite Hlen, drop_ge, orb_false_r in Hb by lia. subst b.
      apply wp_ret, HQ; [|done]. by rewrite Hlen, upto_all in Hc1.
    - destruct (lookup_lt_is_Some_2 es k) as [p Hp]; [lia|]. rewrite (any_child_drop pid k p) in Hb by done.
      apply wp_bind. eapply ctl_proc; [exact Hc1|by rewrite upto_lookup_ge|]. intros q _ Hq.
      assert (p_parent q = p_parent p) as -> by by subst p. destruct (decide (p_parent p = pid)) as [Hpar|Hpar].
      + rewrite bool_decide_eq_true_2 in Hb by done. apply wp_bind.
        eapply ctl_update; [exact Hc1|by rewrite upto_lookup_ge|done|done|]. intros s2 Hc2 Hs2.
        apply IH; [lia| |congruence|by rewrite orb_true_r in Hb].
        rewrite <- (upto_S _ _ _ p) by done. unfold orphaned at 1. by rewrite decide_True.
      + rewrite bool_decide_eq_false_2 in Hb by done. apply IH; [lia| |done|done].
        rewrite <- (upto_S _ _ _ p) by done. unfold orphaned at 1. rewrite decide_False by done.
        rewrite list_insert_id; [done|by rewrite upto_lookup_ge]. }
  by apply (Hloop (length es) 0%nat).
Qed.

Lemma ctl_reparent pid d pv cur kl n es (Q : unit → Sys → Prop) s :
  ctl s d pv cur ∅ kl n es → 0 ≤ d → d + 17 < U32 →
  (∀ s', ctl s' d pv cur ∅ kl n (given_up pid es) → still (s_mach s) (s_mach s') → Q tt s') →
  wp (reparent pid) Q s.
Proof.
  intros Hc Hd Hd' HQ. unfold reparent. apply wp_bind. eapply ctl_indices; [exact Hc|]. apply wp_bind.
  eapply ctl_reparent_loop; [exact Hc|]. intros s1 Hc1 Hs1. unfold given_up in HQ. destruct (any_child pid es).
  - eapply ctl_wakeup; [exact Hc1|done|done|]. intros s2 Hc2 Hs2. apply HQ; [done|]. by rewrite <- Hs1.
  - apply wp_ret, HQ; [done|by rewrite Hs1].
Qed.

(** ** A lock of the function's own *)

Lemma ctl_own_lock l d pv cur held kl n es (Q : lock_t → Sys → Prop) s :
  ctl s d pv cur held kl n es → lock_held l = false → d + 17 < U32 →
  (∀ g s', ctl s' (d + 1) pv cur held kl n es → still (s_mach s) (s_mach s') → Q g s') →
  wp (lift (IntMutex_lock l)) Q s.
Proof.
  intros Hc Hl Hd HQ. pose proof Hc as (_ & _ & _ & ps & fr & Hk).
  apply (wp_done_post _ (λ _ s', kst s' (d + 1) pv cur ps fr held kl n)).
  - apply wp_wpd.
    + apply wpd_lift_raw. eapply wpd_IntMutex_lock; [apply Hk|done|]. intros g m' _ Hd' Ht Hh. by eapply kst_heap_lock.
    + apply wp_lift. unfold IntMutex_lock. apply wp_bind. eapply wp_mono; [eapply push_returns; [apply Hk|lia]|].
      intros _ m1 _. unfold spin_lock. destruct (lock_acquire_free l Hl) as (g & -> & _). by apply wp_ret.
  - intros g s' (m' & H & ->)%lift_done Hk'. assert (still (s_mach s) m') as Hst by by eapply lock_manual_still.
    apply HQ; [|done]. by eapply ctl_step; [exact Hc|exact Hk'|lia|..].
Qed.

Lemma ctl_own_unlock l d pv cur held kl n es (Q : lock_t → Sys → Prop) s :
  ctl s d pv cur held kl n es → 0 < d →
  (∀ g s', ctl s' (d - 1) pv cur held kl n es → still (s_mach s) (s_mach s') → Q g s') →
  wp (lift (IntMutexGuard_drop l)) Q s.
Proof.
  intros Hc Hd HQ. pose proof Hc as (_ & _ & Hd0 & ps & fr & Hk).
  apply (wp_done_post _ (λ _ s', kst s' (d - 1) pv cur ps fr held kl n)).
  - apply wp_wpd.
    + apply wpd_lift_raw. eapply wpd_unlock; [apply Hk|done|]. intros g m' _ Hd' Ht Hh. by eapply kst_heap_lock.
    + apply wp_lift. unfold IntMutexGuard_drop. apply wp_bind. eapply wp_mono; [eapply pop_returns; [apply Hk|lia]|].
      intros _ m1 _. by apply wp_ret.
  - intros g s' (m' & H & ->)%lift_done Hk'. assert (still (s_mach s) m') as Hst by by eapply unlock_manual_still.
    apply HQ; [|done]. by eapply ctl_step; [exact Hc|exact Hk'|lia|..].
Qed.
End exit_spec.
