(* ===== verification/KexecSpec.v ===== *)
(** What [kexec] does: the new program installed, or everything left as it was. *)
From S2P Require Export FrameSpec.

Section kexec_install.
Context {E : Env} {EL : EnvLaws E} {fails : Prop}.
Local Abbreviation wp := (wpo fails).
Implicit Types (m : Machine) (s : Sys) (F : gset Z) (tabs : gmap Z Z) (pages hi : entries) (u : Uvm).

(** The frame of a process when [kexec] returns. *)
Definition exec_frame (m : Machine) (t sp : Z) (argv : list (list Z)) (f : tf_field) : Z :=
  match f with
  | tf_a0 => Z.of_nat (length argv)
  | tf_a1 | tf_sp => sp
  | tf_epc => USER_START
  | f => tf_word m t f
  end.

(** From the finished address space on: the frame is written and the old space
    dropped. *)
Lemma kexec_install s i p v sp n u tabs F pages hi (Q : option unit → Sys → Prop) :
  let t := p_trapframe p in let m := s_mach s in
  table s !! i = Some p → p_pagetable p = u → uvm_rep m u tabs F pages hi → t ∈ F →
  is_u32 sp → is_u32 n →
  (∀ s', table s' = <[i := set_pagetable v p]> (table s) → mach_ok (s_mach s') → F ⊆ live (s_mach s') →
     m_csr (s_mach s') satp = m_csr m satp →
     agree (F ∖ {[t]}) (m_mem m) (m_mem (s_mach s')) →
     (∀ f, tf_word (s_mach s') t f = match f with
        tf_a0 => n | tf_a1 | tf_sp => sp | tf_epc => USER_START | f => tf_word m t f end) →
     Q (Some tt) s') →
  wp (lift (tf_set t tf_a0 n);; lift (tf_set t tf_a1 sp);; put_pagetable i v;;
      lift (tf_set t tf_sp sp);; lift (tf_set t tf_epc USER_START);; mret (Some tt)) Q s.
Proof.
  intros t m Hi Hpt Hu Ht Hsp Hn HQ. destruct (owned_live _ _ _ _ _ _ Hu) as [_ Hdis].
  assert (F ⊆ live m) as HF by (rewrite (uvm_rep_live _ _ _ _ _ _ Hu); set_solver +).
  pose proof (uvm_rep_ok _ _ _ _ _ _ Hu) as Hok.
  assert (page_aligned t) as Hta by (apply (live_frame_ok m); [done|set_solver]).
  apply wp_bind, wp_lift, tf_set_spec; [done|set_solver|done|]. intros m1 Hw1 Hf1.
  pose proof (wrote_frame_uvm _ _ _ _ _ _ _ _ Hu Ht Hw1) as Hu1.
  assert (t ∈ live m1) as Htl1 by (destruct Hw1 as (_ & _ & -> & _); set_solver).
  apply wp_bind, wp_lift, tf_set_spec; [apply Hw1|exact Htl1|done|]. intros m2 Hw2 Hf2; cbn [s_mach set_mach] in Hw2, Hf2.
  pose proof (wrote_frame_uvm _ _ _ _ _ _ _ _ Hu1 Ht Hw2) as Hu2.
  apply wp_bind, (wp_put_pagetable i v p); [done|]. rewrite Hpt.
  eapply Uvm_drop_spec; [exact Hu2|]. intros m3 Hok3 Hl3 Hq3 Hag3 s3 Hm3 Ht3.
  assert (∀ f, tf_word m3 t f = tf_word m2 t f) as Hf3 by (intros f; by eapply tf_word_agree).
  assert (t ∈ live m3) as Htl3 by (rewrite Hl3; set_solver).
  apply wp_bind, wp_lift. rewrite Hm3. apply tf_set_spec; [done|done|done|]. intros m4 Hw4 Hf4; cbn [s_mach set_mach] in Hw4, Hf4.
  assert (t ∈ live m4) as Htl4 by (by destruct Hw4 as (_ & _ & -> & _)).
  apply wp_bind, wp_lift, tf_set_spec; [apply Hw4|exact Htl4|done|]. intros m5 Hw5 Hf5; cbn [s_mach set_mach] in Hw5, Hf5.
  apply wp_ret, HQ; cbn [s_mach set_mach].
  - exact Ht3.
  - apply Hw5.
  - destruct Hw5 as (_ & _ & -> & _), Hw4 as (_ & _ & -> & _). rewrite Hl3. set_solver +.
  - assert (quiet m m5) as [Hcpu _]; [|apply (sc_csr _ _ Hcpu)].
    trans m1; [apply Hw1|]. trans m2; [apply Hw2|]. trans m3; [done|]. trans m4; [apply Hw4|apply Hw5].
  - eapply agree_trans; [by apply wrote_frame_agree|]. eapply agree_trans; [by apply wrote_frame_agree|].
    eapply agree_trans; [eapply agree_weaken; [|exact Hag3]; set_solver +|].
    eapply agree_trans; by apply wrote_frame_agree.
  - intros f. rewrite Hf5, Hf4, Hf3, Hf2, Hf1. by destruct f.
Qed.

End kexec_install.

Section kexec_spec.
Context {E : Env} {EL : EnvLaws E}.
Implicit Types (m : Machine) (s : Sys) (F : gset Z) (tabs : gmap Z Z) (pages hi : entries) (u : Uvm).

Lemma argv_small img argv : image_ok img → argv_ok argv → argv_fits img argv →
  is_u32 (Z.of_nat (length argv)) ∧ is_u32 (exec_sp (user_top img) argv).
Proof.
  intros (H0 & _ & _ & H3) Hargv Hfit. destruct (image_pages_bounds img H0) as (Hn & _).
  assert (Forall (λ arg, arg ≠ []) argv) as Hne by (eapply Forall_impl; [exact Hargv|]; by intros ? []).
  pose proof (args_end_count (user_top img) argv Hne). pose proof (args_end_le (user_top img) argv).
  assert (TRAPFRAME < U32 ∧ 0 < USER_START) as [HT HU] by done.
  unfold argv_fits, exec_sp, user_top, is_u32, page_size, U32 in *. lia.
Qed.

Lemma kexec_spec s i p path img argv tabs F pages hi :
  table s !! i = Some p → uvm_rep (s_mach s) (p_pagetable p) tabs F pages hi →
  p_trapframe p ∈ F → exec_image path (s_mach s) = Done img (s_mach s) →
  image_ok img → argv_ok argv →
  Z.of_nat (size (live (s_mach s))) + 1 + exec_frames img < Z.of_nat (capacity (s_mach s)) →
  wp (kexec i path argv) (λ r s',
    if decide (argv_fits img argv) then
      r = Some tt ∧ ∃ u' tabs' F' pages',
      table s' = <[i := set_pagetable u' p]> (table s) ∧
      program (s_mach s') u' tabs' F' pages' (p_trapframe p) img ∧
      stack_holds (s_mach s') pages' (user_top img) argv ∧
      (∀ f, tf_word (s_mach s') (p_trapframe p) f =
         exec_frame (s_mach s) (p_trapframe p) (exec_sp (user_top img) argv) argv f) ∧
      owned u' tabs' pages' ## F ∧
      F ⊆ live (s_mach s') ∧ m_csr (s_mach s') satp = m_csr (s_mach s) satp ∧
      agree (F ∖ {[p_trapframe p]}) (m_mem (s_mach s)) (m_mem (s_mach s'))
    else r = None ∧ table s' = table s ∧ mach_ok (s_mach s') ∧
      agree (live (s_mach s)) (m_mem (s_mach s)) (m_mem (s_mach s'))) s.
Proof.
  intros Hi Hu Ht Himage Himg Hargv Hroom. set (t := p_trapframe p) in *.
  pose proof (uvm_rep_ok _ _ _ _ _ _ Hu) as Hok. destruct (owned_live _ _ _ _ _ _ Hu) as [Hown Hdis].
  assert (F ⊆ live (s_mach s)) as HF by (rewrite (uvm_rep_live _ _ _ _ _ _ Hu); set_solver +).
  assert (t ∈ live (s_mach s)) as Htl by set_solver. pose proof (live_frame_ok _ _ Hok Htl) as Htf.
  unfold kexec. apply wp_bind, wp_lift. eapply wp_done; [exact Himage|]. eapply wp_bind, wp_proc; [exact Hi|].
  apply wp_bind, wp_lift. eapply exec_build_spec; [done..|by left|done|]. intros r m1 (Hq & Hag & Hpost).
  destruct (decide (argv_fits img argv)) as [Hfit|Hfit].
  2: { destruct Hpost as (-> & Hok1 & _). by apply wp_ret. }
  destruct Hpost as (u' & tabs' & pages' & -> & Hp & Hst & _). destruct (argv_small _ _ Himg Hargv Hfit) as [Hn Hsp].
  pose proof (pg_rep _ _ _ _ _ _ _ Hp) as Hu'. destruct (owned_live _ _ _ _ _ _ Hu') as [Hown' Hdis'].
  assert (live (s_mach s) ⊆ live m1) as Hmono by (rewrite (uvm_rep_live _ _ _ _ _ _ Hu'); set_solver +).
  assert (uvm_rep m1 (p_pagetable p) tabs (live m1 ∖ owned (p_pagetable p) tabs pages) pages hi) as Hu1.
  { eapply uvm_rep_move; [exact Hu|by eapply uvm_rep_ok|by eapply agree_weaken|by trans (live (s_mach s))]. }
  eapply (kexec_install (set_mach m1 s)); [exact Hi|done|exact Hu1|set_solver|done..|].
  intros s2 Htab Hok2 Hl2 Hsatp2 Hag2 Hf2. split; [done|].
  assert (owned u' tabs' pages' ⊆ live (s_mach s2)) as Hl2' by set_solver.
  assert (agree (owned u' tabs' pages') (m_mem m1) (m_mem (s_mach s2))) as Hag2'.
  { eapply agree_weaken; [|exact Hag2]. set_solver. }
  eexists u', tabs', _, pages'. split_and!.
  - exact Htab.
  - by eapply program_move.
  - by eapply stack_holds_move.
  - intros f. rewrite Hf2. assert (∀ g, tf_word m1 t g = tf_word (s_mach s) t g) as Hw.
    { intros g. eapply tf_word_agree; [exact Hag|done|apply Htf]. }
    destruct f; try done; apply Hw.
  - set_solver +Hdis' HF.
  - set_solver.
  - rewrite Hsatp2. apply (sc_csr _ _ (qt_cpu _ _ Hq)).
  - eapply agree_trans; [eapply agree_weaken; [|exact Hag]; set_solver|].
    eapply agree_weaken; [|exact Hag2]. set_solver.
Qed.
End kexec_spec.
