(* ===== verification/ExecAny.v ===== *)
(** [kexec] on arguments that may be empty or too large: whatever it does, it writes the
    new address space and the process's frame only. *)
From S2P Require Export TouchCode KexecSpec.

Section exec_any.
Context {E : Env} {EL : EnvLaws E}.
Implicit Types (m : Machine) (s : Sys) (F : gset Z) (tabs : gmap Z Z) (pages hi : entries) (u : Uvm).

(** Nothing to copy: at most the translation fails. *)
Lemma copy_out_nothing u va (Q : option unit → Machine → Prop) m :
  (∀ r, Q r m) → wlp (copy_out_cont_u8 u va []) Q m.
Proof.
  intros HQ. apply wlp_unfold. unfold copy_out_cont_u8. intros r m' (o & m1 & Hw & H)%bind_done.
  apply reads_walkaddr in Hw as ->. destruct o as [pa|]; [|injection H as <- <-; apply HQ].
  injection H as <- <-. apply HQ.
Qed.

(** Where the stack pointer is inside the stack page at [a]. *)
Definition in_stack (a sp : Z) : Prop := a ≤ sp ≤ a + page_size ∧ sp mod 4 = 0.

Lemma push_args_any argv m u tabs F pages hi a x sp ustack :
  uvm_rep m u tabs F pages hi → pages !! a = Some x → page_aligned a → is_u32 sp → in_stack a sp →
  wlp (push_args u a sp argv ustack) (λ r m', user_wrote m u tabs F pages hi a (a + page_size) m' ∧
    ∀ v, r = Some v → in_stack a v.1 ∧ is_u32 v.1 ∧ length v.2 = (length ustack + length argv)%nat) m.
Proof.
  revert m sp ustack. induction argv as [|arg argv IH]; intros m sp ustack Hu Hx Ha Hsp Hin; cbn [push_args].
  { apply wp_ret. split; [by apply user_wrote_refl|]. intros v [= <-]. cbn. split_and!; [done|done|lia]. }
  apply wp_bind, wp_sub32_or; [by right|]. intros Hlen. cbv zeta. destruct Hin as [[Hlo Hhi] Hmod]. unfold is_u32 in Hsp.
  rewrite align8 by (unfold is_u32; lia). set (slot := (sp - Z.of_nat (length arg)) / 8 * 8) in *.
  assert (slot + Z.of_nat (length arg) ≤ sp ∧ 0 ≤ slot ∧ slot mod 4 = 0) as (Hfit & Hpos & Hmod') by (unfold slot; Z.div_mod_to_equations; lia).
  case_decide as Hlow; [apply wp_ret; split; [by apply user_wrote_refl|done]|].
  assert (in_stack a slot ∧ is_u32 slot) as [Hin Hu32] by (unfold in_stack, is_u32; lia).
  assert (∀ m1, user_wrote m u tabs F pages hi a (a + page_size) m1 →
    wlp (push_args u a slot argv (ustack ++ [slot])) (λ r m', user_wrote m u tabs F pages hi a (a + page_size) m' ∧
      ∀ v, r = Some v → in_stack a v.1 ∧ is_u32 v.1 ∧ length v.2 = (length ustack + length (arg :: argv))%nat) m1) as Hrest.
  { intros m1 Hw. eapply wp_mono; [by eapply (IH m1); [apply Hw|..]|]. intros r m' [Hw' Hv]. split.
    - eapply user_wrote_trans; [exact Hw|exact Hw'|lia..].
    - intros v ->. destruct (Hv v eq_refl) as (H1 & H2 & H3). split_and!; [done|done|].
      rewrite H3, length_app. cbn. lia. }
  apply wp_bind. destruct arg as [|b arg].
  - apply copy_out_nothing. intros [[]|]; [apply Hrest; by apply user_wrote_refl|].
    apply wp_ret. split; [by apply user_wrote_refl|done].
  - eapply copy_out_cont_u8_spec; [exact Hu|exact Hx|done|split_and!; [done|lia..]|].
    intros m1 Hcop%copied_wrote. apply Hrest. destruct Hcop as (H1 & H2 & H3 & H4 & H5). split_and!; [done..|].
    intros b' Hb'. apply H5. lia.
Qed.

Lemma exec_stack_any argv m u tabs F pages hi a x :
  uvm_rep m u tabs F pages hi → pages !! a = Some x → user_end u = a + page_size →
  wlp (exec_stack u argv) (λ r m', user_wrote m u tabs F pages hi a (a + page_size) m' ∧
    ∀ v, r = Some v → is_u32 v ∧ is_u32 (Z.of_nat (length argv))) m.
Proof.
  intros Hu Hx Hend. destruct (uvm_end_aligned _ _ _ _ _ _ Hu) as [Hea Heu].
  assert (page_aligned a) as Ha by by eapply uvm_rep_aligned.
  destruct (ur_page _ _ _ _ _ _ Hu a x Hx) as ([Hlo _] & _). unfold USER_START in Hlo.
  unfold exec_stack, Uvm_end. rewrite (ur_begin _ _ _ _ _ _ Hu).
  apply wp_bind, wp_add32_or; [by right|]. intros _. fold (user_end u). apply wp_bind, wp_sub32_or; [by right|]. intros _.
  replace (user_end u - PAGESIZE) with a by (unfold PAGESIZE, page_size in *; lia). apply wp_bind.
  assert (in_stack a (user_end u)) as Hst.
  { split; [unfold page_size in *; lia|]. unfold page_aligned, page_size in Hea. Z.div_mod_to_equations. lia. }
  eapply wp_mono; [by eapply (push_args_any argv m u tabs F pages hi a x (user_end u) [])|].
  intros [[sp ustack]|] m1 [Hw Hv]; [|by apply wp_ret]. destruct (Hv _ eq_refl) as (Hin & Hsp & Hl). cbn [fst snd length] in *.
  apply wp_bind. unfold mul32. case_decide as Hmul; [|done]. rewrite length_app in Hmul. cbn in Hmul.
  rewrite length_app. cbn [length].
  apply wp_ret, wp_bind, wp_sub32_or; [by right|]. intros Hle. case_decide as Hlow; [by apply wp_ret|].
  pose proof Hw as (Hu1 & _). destruct Hin as [[Hl1 Hl2] Hl3]. apply wp_bind.
  eapply copy_out_cont_usize_spec; [exact Hu1|exact Hx|by destruct ustack| | |].
  { rewrite length_app. cbn [length]. split_and!; [done|lia|unfold page_size in *; lia]. }
  { Z.div_mod_to_equations. lia. }
  intros m2 Hcop%copied_wrote. apply wp_ret. split.
  - rewrite length_app in Hcop. cbn [length] in Hcop. eapply user_wrote_trans; [exact Hw|exact Hcop|lia..].
  - intros v [= <-]. unfold is_u32, U32 in *. lia.
Qed.

Lemma exec_build_any t img argv m :
  mach_ok m → frame_ok t → image_ok img →
  wlp (exec_build t img argv) (λ r m', ∀ v, r = Some v → is_u32 v.2 ∧ is_u32 (Z.of_nat (length argv)) ∧
    quiet m m' ∧ agree (live m) (m_mem m) (m_mem m') ∧
    ∃ tabs pages, uvm_rep m' v.1 tabs (live m) pages (high t)) m.
Proof.
  intros Hok Ht Himg. pose proof Himg as (Hi0 & _). destruct (image_pages_bounds img Hi0) as (Hn & _).
  unfold exec_build. apply wp_bind, Uvm_new_spec; [done|by right|]. intros u0 m1 Hu0 Hsz Hq1 Hag1.
  apply wp_bind. eapply exec_space_spec; [exact Hu0|done|done|done|by right| |].
  { intros Hf u m2. apply wpo_fails; [done|]. intros r m3 (? & ? & _ & [= <- <-])%bind_done. done. }
  intros u m2 tabs pages Hp Hq2 Hag2 _. cbn [fst snd].
  pose proof (pg_rep _ _ _ _ _ _ _ Hp) as Hu. pose proof (pg_end _ _ _ _ _ _ _ Hp) as He.
  assert (is_Some (pages !! (user_end u - page_size))) as [x Hx].
  { apply (pg_dom _ _ _ _ _ _ _ Hp). split; [|by right]. destruct (uvm_end_aligned _ _ _ _ _ _ Hu) as [Ha _].
    unfold page_aligned, page_size in *. Z.div_mod_to_equations. lia. }
  apply wp_bind. eapply wp_mono; [eapply exec_stack_any; [exact Hu|exact Hx|lia]|].
  intros [sp|] m3 [(Hu3 & Hq3 & Hag3 & Hl3 & _) Hv].
  - apply wp_ret. intros v [= <-]. destruct (Hv sp eq_refl) as [Hsp Hlen]. cbn [fst snd]. split_and!; [done|done| | |].
    + trans m1; [done|]. by trans m2.
    + eapply agree_trans; [exact Hag1|]. by eapply agree_trans.
    + by exists tabs, pages.
  - apply wpo_fails; [done|]. by intros r m4 (? & ? & _ & [= <- <-])%bind_done.
Qed.

Lemma exec_image_ok path m img : image_ok INIT → image_ok PRIME → exec_image path m = Done img m → image_ok img.
Proof. intros HI HP. unfold exec_image. repeat case_decide; by intros [= <-]. Qed.

(** The whole call: the table gets the new space, and memory outside the process's own
    frames is as before. *)
Lemma kexec_any s i p path argv tabs F pages hi :
  image_ok INIT → image_ok PRIME → table s !! i = Some p →
  uvm_rep (s_mach s) (p_pagetable p) tabs F pages hi → p_trapframe p ∈ F →
  wlp (kexec i path argv) (λ r s', r = Some tt → ∃ u' tabs' pages',
    table s' = <[i := set_pagetable u' p]> (table s) ∧
    uvm_rep (s_mach s') u' tabs' (live (s_mach s') ∖ owned u' tabs' pages') pages' (high (p_trapframe p)) ∧
    owned u' tabs' pages' ## F ∧ F ⊆ live (s_mach s') ∧ m_csr (s_mach s') satp = m_csr (s_mach s) satp ∧
    agree (F ∖ {[p_trapframe p]}) (m_mem (s_mach s)) (m_mem (s_mach s'))) s.
Proof.
  intros HI HP Hi Hu Ht. pose proof (uvm_rep_ok _ _ _ _ _ _ Hu) as Hok.
  destruct (owned_live _ _ _ _ _ _ Hu) as [Hown Hdis].
  assert (F ⊆ live (s_mach s)) as HF by (rewrite (uvm_rep_live _ _ _ _ _ _ Hu); set_solver +).
  assert (p_trapframe p ∈ live (s_mach s)) as Htl by set_solver. pose proof (live_frame_ok _ _ Hok Htl) as Htf.
  unfold kexec. apply wp_bind, wp_lift, wlp_unfold. intros img m0 Himage.
  pose proof (reads_exec_image _ _ _ _ Himage) as ->. pose proof (exec_image_ok _ _ _ HI HP Himage) as Himg.
  assert (set_mach (s_mach s) s = s) as -> by by destruct s.
  eapply wp_bind, wp_proc; [exact Hi|]. apply wp_bind, wp_lift.
  eapply wp_mono; [by apply exec_build_any|]. intros [[u' sp]|] m1 Hv; [|by apply wp_ret].
  destruct (Hv _ eq_refl) as (Hsp & Hn & Hq & Hag & tabs' & pages' & Hu'). cbn [fst snd] in *.
  destruct (owned_live _ _ _ _ _ _ Hu') as [Hown' Hdis'].
  assert (live (s_mach s) ⊆ live m1) as Hmono by (rewrite (uvm_rep_live _ _ _ _ _ _ Hu'); set_solver +).
  assert (uvm_rep m1 (p_pagetable p) tabs (live m1 ∖ owned (p_pagetable p) tabs pages) pages hi) as Hu1.
  { eapply uvm_rep_move; [exact Hu|by eapply uvm_rep_ok|by eapply agree_weaken|by trans (live (s_mach s))]. }
  eapply (kexec_install (set_mach m1 s)); [exact Hi|done|exact Hu1|set_solver|done..|].
  intros s2 Htab Hok2 Hl2 Hsatp2 Hag2 _ _.
  exists u', tabs', pages'. split_and!.
  - exact Htab.
  - eapply uvm_rep_move; [exact Hu'|done| |set_solver +Hl2 Hown' Hdis' Hown].
    eapply agree_weaken; [|exact Hag2]. set_solver +Hown' Hdis' Hown Htl.
  - set_solver +Hdis' HF.
  - set_solver +HF Hl2 Hmono Hdis.
  - rewrite Hsatp2. apply (sc_csr _ _ (qt_cpu _ _ Hq)).
  - eapply agree_trans; [eapply agree_weaken; [|exact Hag]; set_solver +HF|].
    eapply agree_weaken; [|exact Hag2]. set_solver +HF Hmono Hdis.
Qed.
End exec_any.
