(* ===== verification/BootSpec.v ===== *)
(** What boot builds: the heap, the table with an empty address space, a trap frame and
    a kernel stack for each entry. *)
From Stdlib Require Import (notations) String.
From S2P Require Export KexecSpec ForkSpec WaitSpec.

(** Two views of one run. *)
Lemma wp_both {fails : Prop} {S A} (f : M S A) (Q R : A → S → Prop) (s : S) :
  wpo fails f Q s → wpd f R s → wpo fails f (λ a x, Q a x ∧ R a x) s.
Proof. unfold wpo, wpd. by destruct (f s). Qed.

Section boot_spec.
Context {E : Env} {EL : EnvLaws E} {fails : Prop}.
Local Abbreviation wp := (wpo fails).
Implicit Types (m : Machine) (s : Sys) (F : gset Z) (tabs : gmap Z Z) (e : entries) (u : Uvm)
  (held : gset nat) (es : list Process).

(** ** The heap *)

Lemma HEAP_ALLOCATOR_init_spec (Q : unit → Machine → Prop) m :
  cpu_ok m → m_heap m = heap_new → m_heap_lock m = lock_new →
  (∀ m', mach_ok m' → same_cpu m m' → live m' = ∅ →
     m_heap m' = (heap_init heap_new (m_mem m) ekernel (RAMEND - ekernel)).1 → Q tt m') →
  wp (HEAP_ALLOCATOR_init ekernel (RAMEND - ekernel)) Q m.
Proof.
  intros Hc Hh Hl HQ. pose proof (co_stack _ Hc). unfold HEAP_ALLOCATOR_init. wp_pure. rewrite Hl.
  apply IntMutex_lock_spec; [lia|apply lock_new_free|]. intros g Hg. wp_pure.
  cbn [m_heap m_mem pushed set_heap_lock set_cpu set_csr]. rewrite Hh.
  destruct (heap_init heap_new (m_mem m) ekernel (RAMEND - ekernel)) as [h mm] eqn:Hi.
  destruct (heap_init_spec _ _ _ Hi) as (Hinv & Hlive & _). wp_pure.
  eapply IntMutexGuard_drop_spec; [done..|].
  intros l' s2 Hl' Hsame (Hmem & Hheap & _ & Huart). wp_pure. apply HQ.
  - cbn in Hmem, Hheap. split; [|cbn; by rewrite Hmem, Hheap|done].
    destruct (cpu_ok_same _ _ Hsame Hc). by split.
  - destruct Hsame. by split.
  - unfold live. cbn. by rewrite Hheap.
  - cbn. by rewrite Hheap.
Qed.

(** ** Kernel stacks *)

Lemma wp_mul32 {S} a b (Q : Z → S → Prop) (s : S) : a * b < U32 → Q (a * b) s → wp (mul32 a b) Q s.
Proof. intros. unfold mul32. by rewrite decide_True. Qed.

(** Where the stack of entry [n] starts. *)
Definition kstack_at (n : Z) : Z := TRAMPOLINE - (n + 1) * 0x3000 + 0x1000.

Lemma KSTACK_spec {S} n (Q : Z → S → Prop) (s : S) :
  0 ≤ n < 4 → Q (kstack_at n) s → wp (KSTACK n) Q s.
Proof.
  intros Hn HQ. unfold KSTACK. assert (TRAMPOLINE = 0xffffe000 ∧ PAGESIZE = 0x1000) as [HT HP] by (by vm_compute).
  apply wp_bind, wp_add32; [unfold U32; lia|]. apply wp_bind, wp_mul32; [unfold U32; lia|].
  apply wp_bind, wp_add32; [done|]. change (KERNEL_STACK_PAGES + 1) with 3.
  apply wp_bind, wp_mul32; [unfold U32; lia|]. apply wp_bind, wp_sub32; [lia|]. apply wp_add32; [unfold U32; lia|].
  revert HQ. unfold kstack_at. rewrite HP.
  by replace (TRAMPOLINE - (n + 1) * 0x1000 * 3 + 0x1000) with (TRAMPOLINE - (n + 1) * 0x3000 + 0x1000) by lia.
Qed.

(** The first [k] stacks: two writable pages each, below them nothing; the rest of the
    kernel's map is as [Kvm::init] made it. *)
Definition kstacks (k : Z) e : Prop :=
  (∀ i, 0 ≤ i < k → ∃ p0 p1, e !! kstack_at i = Some (p0, Z.lor PTE_R PTE_W) ∧
     e !! (kstack_at i + page_size) = Some (p1, Z.lor PTE_R PTE_W)) ∧
  (∀ a, (∀ i, 0 ≤ i < k → a ≠ kstack_at i ∧ a ≠ kstack_at i + page_size) → e !! a = kernel_entries !! a).

Lemma kstacks_next k p0 p1 e : 0 ≤ k → kstacks k e →
  kstacks (k + 1) (<[kstack_at k + page_size := (p1, Z.lor PTE_R PTE_W)]>
    (<[kstack_at k := (p0, Z.lor PTE_R PTE_W)]> e)).
Proof.
  intros Hk [Hs Hr]. split.
  - intros i Hi. destruct (decide (i = k)) as [->|Hne].
    + exists p0, p1. rewrite lookup_insert_ne, !lookup_insert_eq by (unfold page_size; lia). done.
    + destruct (Hs i) as (q0 & q1 & H0 & H1); [lia|]. exists q0, q1.
      rewrite !lookup_insert_ne by (unfold kstack_at, page_size; lia). done.
  - intros a Ha. destruct (Ha k); [lia|]. rewrite !lookup_insert_ne by done. apply Hr. intros i Hi. apply Ha. lia.
Qed.

(** The page below each stack catches an overflow. *)
Lemma kstacks_guard k i e : k ≤ 4 → 0 ≤ i < k → kstacks k e → e !! (kstack_at i - page_size) = None.
Proof.
  intros Hk Hi [_ Hr]. assert (TRAMPOLINE = 0xffffe000 ∧ RAMEND < 0xf0000000 ∧ UART < 0xf0000000) as (HT & HR & HU) by done.
  rewrite Hr by (intros j Hj; unfold kstack_at, page_size; lia). rewrite kernel_entries_lookup.
  - pose proof etext_before_ekernel. pose proof ekernel_before_end.
    unfold kstack_at, page_size. rewrite !decide_False; [done|lia..].
  - unfold kstack_at, page_aligned, page_size. rewrite HT. Z.div_mod_to_equations. lia.
Qed.

(** ** New entries *)

Definition new_entry (n : Z) u (t : Z) : Process :=
  mkProcess n None Unused (kstack_at n) None u Context_zero 0 None t lock_new 0.

Lemma Process_new_spec n (Q : option Process → Machine → Prop) m :
  mach_ok m → 0 ≤ n < 4 → (size (live m) + 1 < capacity m)%nat →
  (∀ u t F m', uvm_rep m' u ∅ F ∅ ∅ → t ∈ F → quiet m m' → agree (live m) (m_mem m) (m_mem m') →
     {[root (uvm_pagetable u); t]} ## live m → live m' = {[root (uvm_pagetable u); t]} ∪ live m →
     Q (Some (new_entry n u t)) m') →
  wp (Process_new n) Q m.
Proof.
  intros Hok Hn Hroom HQ. unfold Process_new. apply wp_bind, KSTACK_spec; [done|].
  apply wp_bind, Uvm_new_spec; [done|left; lia|]. intros u m1 Hu1 Hsz Hq1 Hag1.
  pose proof (uvm_rep_live _ _ _ _ _ _ Hu1) as Hl1. rewrite frames_of_empty, union_empty_l_L in Hl1.
  unfold pt_pages, pt_tables in Hl1. rewrite map_img_empty_L, union_empty_r_L in Hl1.
  destruct (owned_live _ _ _ _ _ _ Hu1) as [Ho1 Hd1]. rewrite owned_empty in Ho1, Hd1.
  apply wp_bind, Box_new_in_spec; [by eapply uvm_rep_ok| |done|by apply Forall_replicate|].
  { rewrite Hl1, (qt_cap _ _ Hq1). pose proof (size_add_le (root (uvm_pagetable u)) (live m)). lia. }
  intros t m2 Hok2 Hq2 Ht Hl2 Hag2 _. apply wp_ret.
  apply (HQ u t (live m2 ∖ owned u ∅ ∅)).
  - eapply uvm_rep_move; [exact Hu1|done| |]; rewrite owned_empty; [by eapply agree_weaken|set_solver +Hl2 Ho1].
  - rewrite owned_empty. set_solver +Hl2 Ht Ho1.
  - by trans m1.
  - eapply agree_trans; [exact Hag1|]. eapply agree_weaken; [|exact Hag2]. rewrite Hl1. set_solver +.
  - set_solver +Hd1 Ht Hl1.
  - rewrite Hl2, Hl1. set_solver +.
Qed.

Lemma ctl_push d pv cur kl n es p s :
  ctl s d pv cur ∅ kl n es → p_lock p = lock_new → unlocked p = p →
  ctl (set_kernel (set_table (process_table (s_kernel s) ++ [p]) (s_kernel s)) s) d pv cur ∅ kl n (es ++ [p]).
Proof.
  intros (Hok & <- & Hd & ps & fr & Hk) Hp Hu. split_and!; [done| |done|].
  - unfold entries_of, table. cbn. rewrite fmap_app. cbn. by rewrite Hu.
  - eexists _, _. apply kst_push; [exact Hk|]. rewrite Hp. apply lock_new_free.
Qed.

(** ** The table *)

(** The frames of an entry that has not run: its root table and its trap frame. *)
Definition own (q : Process) : gset Z := {[root (uvm_pagetable (p_pagetable q)); p_trapframe q]}.

(** The entries own what is theirs and share nothing. *)
Record slots m F es : Prop := {
  sl_own j q : es !! j = Some q → own q ⊆ F;
  sl_frame j q : es !! j = Some q → p_trapframe q ≠ root (uvm_pagetable (p_pagetable q));
  sl_space j q : es !! j = Some q → ∃ F', uvm_rep m (p_pagetable q) ∅ F' ∅ ∅;
  sl_apart i j p q : es !! i = Some p → es !! j = Some q → i ≠ j → own p ## own q;
}.

Lemma slots_move m m' F es : slots m F es → mach_ok m' → agree F (m_mem m) (m_mem m') → F ⊆ live m' → slots m' F es.
Proof.
  intros [Ho Hf Hs Ha] Hok Hag HF. split; [done..| |done]. intros j q Hq. destruct (Hs j q Hq) as [F' Hu].
  assert (owned (p_pagetable q) ∅ ∅ ⊆ F) as Hsub by (rewrite owned_empty; pose proof (Ho j q Hq) as H; set_solver +H).
  eexists. eapply uvm_rep_move; [exact Hu|done|by eapply agree_weaken|by etransitivity].
Qed.

Lemma slots_push m F es q F' :
  slots m F es → own q ## F → p_trapframe q ≠ root (uvm_pagetable (p_pagetable q)) →
  uvm_rep m (p_pagetable q) ∅ F' ∅ ∅ → slots m (own q ∪ F) (es ++ [q]).
Proof.
  intros [Ho Hf Hs Ha] Hd Hne Hu. split.
  - intros j p [Hj|[_ Hj]]%lookup_app_Some; [pose proof (Ho _ _ Hj) as H; set_solver +H|].
    apply list_lookup_singleton_Some in Hj as [_ <-]. set_solver +.
  - intros j p [Hj|[_ Hj]]%lookup_app_Some; [by eapply Hf|]. by apply list_lookup_singleton_Some in Hj as [_ <-].
  - intros j p [Hj|[_ Hj]]%lookup_app_Some; [by eapply Hs|]. apply list_lookup_singleton_Some in Hj as [_ <-]. eauto.
  - intros i j p p' [Hi|[Hi0 Hi]]%lookup_app_Some [Hj|[Hj0 Hj]]%lookup_app_Some Hij; [by eapply Ha|..].
    + apply list_lookup_singleton_Some in Hj as [_ <-]. pose proof (Ho _ _ Hi) as H. set_solver +H Hd.
    + apply list_lookup_singleton_Some in Hi as [_ <-]. pose proof (Ho _ _ Hj) as H. set_solver +H Hd.
    + apply list_lookup_singleton_Some in Hi as [Hi _], Hj as [Hj _]. lia.
Qed.

(** After [k] rounds of [initproc]. *)
Record built (k : Z) m rt es : Prop := {
  bu_length : Z.of_nat (length es) = k;
  bu_table : ∃ tabs F e, pt_rep m rt tabs F e ∧ kernel_tabs tabs ∧ kstacks k e ∧ slots m F es ∧
    Z.of_nat (size F) ≤ 4 * k;
  bu_entries j q : es !! j = Some q → ∃ u t, q = new_entry (Z.of_nat j) u t;
}.

Lemma built_next k m m1 m2 rt es u t p0 p1 tabs tabs' F F0 e :
  pt_rep m rt tabs F e → kstacks k e → 0 ≤ k → slots m F es → Z.of_nat (size F) ≤ 4 * k →
  Z.of_nat (length es) = k → (∀ j q, es !! j = Some q → ∃ u t, q = new_entry (Z.of_nat j) u t) →
  let q := new_entry k u t in
  uvm_rep m1 u ∅ F0 ∅ ∅ → t ∈ F0 → own q ## live m → agree (live m) (m_mem m) (m_mem m1) →
  pt_rep m2 rt tabs' ({[p1]} ∪ ({[p0]} ∪ (own q ∪ F)))
    (<[kstack_at k + page_size := (p1, Z.lor PTE_R PTE_W)]> (<[kstack_at k := (p0, Z.lor PTE_R PTE_W)]> e)) →
  kernel_tabs tabs' → agree (own q ∪ F) (m_mem m1) (m_mem m2) → mach_ok m1 → own q ∪ live m ⊆ live m1 →
  built (k + 1) m2 rt (es ++ [q]).
Proof.
  intros Hrep Hst Hk Hsl Hsz Hlen Hent q Hu Ht Hown Hag1 Hrep2 Htabs Hag2 Hok1 Hl1.
  pose proof (pt_rep_live _ _ _ _ _ Hrep) as Hl. pose proof (pt_rep_live _ _ _ _ _ Hrep2) as Hl2.
  assert (slots m2 (own q ∪ F) (es ++ [q])) as Hsl2.
  { eapply slots_move; [|by eapply pt_rep_ok|exact Hag2|rewrite Hl2; set_solver +].
    eapply slots_push; [|rewrite Hl in Hown; set_solver +Hown| |exact Hu].
    - eapply slots_move; [exact Hsl|done|eapply agree_weaken; [|exact Hag1]; rewrite Hl; set_solver +|].
      rewrite Hl in Hl1. set_solver +Hl1.
    - intros Heq. destruct (owned_live _ _ _ _ _ _ Hu) as [_ Hd]. rewrite owned_empty in Hd.
      cbn in Heq. rewrite <- Heq in Hd. set_solver +Hd Ht. }
  split.
  - rewrite length_app. cbn. lia.
  - eexists tabs', _, _. split_and!; [exact Hrep2|done|by apply kstacks_next| |].
    + destruct Hsl2 as [Ho Hf Hs Ha]. split; [|done..]. intros j p Hj. pose proof (Ho _ _ Hj) as H. set_solver +H.
    + pose proof (size_add_le p1 ({[p0]} ∪ (own q ∪ F))). pose proof (size_add_le p0 (own q ∪ F)).
      assert (size (own q ∪ F) ≤ size F + 2)%nat; [|lia]. unfold own. rewrite <- union_assoc_L.
      pose proof (size_add_le (root (uvm_pagetable (p_pagetable q))) ({[p_trapframe q]} ∪ F)).
      pose proof (size_add_le (p_trapframe q) F). lia.
  - intros j p [Hj|[Hj0 Hj]]%lookup_app_Some; [by eapply Hent|]. apply list_lookup_singleton_Some in Hj as [Hj <-].
    exists u, t. unfold q. f_equal. lia.
Qed.

(** The state between two rounds. *)
Record booting (k : Z) s rt d pv cur kl n es : Prop := {
  bg_ctl : ctl s d pv cur ∅ kl n es;
  bg_built : built k (s_mach s) rt es;
  bg_room : (60 < capacity (s_mach s))%nat;
  bg_kvm : k_kvm (s_kernel s) = Some (mkKvm (mkPageTable rt));
}.

Lemma initproc_step {A} (f : unit → KM (option A)) k s rt d pv cur kl n es (Q : option A → Sys → Prop) :
  booting k s rt d pv cur kl n es → 0 ≤ k < 4 →
  (∀ s' es', booting (k + 1) s' rt d pv cur kl n es' → capacity (s_mach s') = capacity (s_mach s) → wp (f tt) Q s') →
  wp (x ←? (proc ←? lift (Process_new k);
            va ← KSTACK k;
            lift (alloc_kstack (mkKvm (mkPageTable rt)) va);;
            lift (print (str "kstack: 0x" ++ fmt_hex (p_kstack proc) ++ newline));;
            kernel_modify (λ k, set_table (process_table k ++ [proc]) k);;
            mret (Some tt)); f x) Q s.
Proof.
  intros [Hc [Hlen (tabs & F & e & Hrep & Htabs & Hst & Hsl & Hsz) Hent] Hroom Hkvm] Hk HQ.
  pose proof Hc as (Hok & _). pose proof (kernel_live _ _ _ _ _ Hrep Htabs) as Hlive.
  apply wp_bind, wp_bind. eapply ctl_lift; [exact Hc|]. apply Process_new_spec; [done|done|lia|].
  intros u t F0 m1 Hu1 Ht1 Hq1 Hag1 Hown1 Hl1. split; [by eapply uvm_rep_ok|]. split; [done|]. intros Hc1.
  apply wp_bind, KSTACK_spec; [done|]. apply wp_bind. eapply ctl_lift; [exact Hc1|]. cbn [s_mach set_mach].
  set (q := new_entry k u t) in *. change ({[root (uvm_pagetable u); t]} : gset Z) with (own q) in Hown1, Hl1.
  pose proof (pt_rep_live _ _ _ _ _ Hrep) as Hl. pose proof (pt_rep_disj _ _ _ _ _ Hrep) as Hd.
  assert (size (own q ∪ F) ≤ size F + 2)%nat as Hsz1.
  { unfold own. rewrite <- union_assoc_L.
    pose proof (size_add_le (root (uvm_pagetable (p_pagetable q))) ({[p_trapframe q]} ∪ F)).
    pose proof (size_add_le (p_trapframe q) F). lia. }
  assert (pt_rep m1 rt tabs (own q ∪ F) e) as Hrep1.
  { eapply pt_rep_agree; [exact Hrep|by eapply uvm_rep_ok| | |].
    - eapply agree_weaken; [|exact Hag1]. rewrite Hl. set_solver +.
    - rewrite Hl in Hown1. set_solver +Hd Hown1.
    - rewrite Hl1, Hl. set_solver +. }
  pose proof (qt_cap _ _ Hq1) as Hcap1. assert (TRAMPOLINE = 0xffffe000) as HT by done.
  eapply alloc_kstack_spec; [exact Hrep1|done|rewrite Hcap1; lia| | | |].
  { unfold kstack_at, page_aligned, page_size. rewrite HT. Z.div_mod_to_equations. lia. }
  { unfold kstack_at. lia. }
  { unfold kstack_at, page_size. lia. }
  intros m2 tabs2 p0 p1 _ _ _ _ Hrep2 Htabs2 Hq2 Hag2. split; [by eapply pt_rep_ok|]. split; [done|]. intros Hc2.
  apply wp_bind. eapply ctl_uart_print; [exact Hc2|]. intros s3 Hc3. apply wp_bind, wp_modify, wp_ret.
  pose proof (ctl_push _ _ _ _ _ _ q _ Hc3 eq_refl eq_refl) as Hc4.
  assert (mach_ok (s_mach s3)) as Hok3 by apply Hc3.
  assert (pt_rep (s_mach s3) rt tabs2 ({[p1]} ∪ ({[p0]} ∪ (own q ∪ F)))
    (<[kstack_at k + page_size := (p1, Z.lor PTE_R PTE_W)]> (<[kstack_at k := (p0, Z.lor PTE_R PTE_W)]> e))) as Hrep3.
  { eapply pt_rep_agree; [exact Hrep2|done|done|by eapply pt_rep_disj|exact (pt_rep_live _ _ _ _ _ Hrep2)]. }
  eapply HQ; [split; [exact Hc4| |change (60 < capacity m2)%nat; rewrite (qt_cap _ _ Hq2); lia|exact Hkvm]|].
  - eapply (built_next k (s_mach s) m1); [exact Hrep|done|lia|done|done|done|done|exact Hu1|done|done|done|exact Hrep3|done|done| |].
    + by eapply uvm_rep_ok.
    + by rewrite Hl1.
  - change (capacity m2 = capacity (s_mach s)). by rewrite (qt_cap _ _ Hq2).
Qed.

Lemma initproc_spec s rt d pv cur kl n (Q : option unit → Sys → Prop) :
  booting 0 s rt d pv cur kl n [] →
  (∀ s' es, booting 4 s' rt d pv cur kl n es → capacity (s_mach s') = capacity (s_mach s) → Q (Some tt) s') →
  wp (initproc 4) Q s.
Proof.
  intros Hb HQ. pose proof Hb as [(_ & He & _) _ _ Hkvm]. unfold initproc. apply wp_bind, wp_gets.
  assert (process_table (s_kernel s) = []) as -> by by eapply fmap_nil_inv.
  cbn [length]. apply wp_bind, wp_gets. rewrite Hkvm. apply wp_bind, wp_add32; [done|].
  change (seqZ (Z.of_nat 0) (Z.of_nat 0 + 4 - Z.of_nat 0)) with [0; 1; 2; 3]. cbn [for_each_try].
  eapply initproc_step; [exact Hb|lia|]. intros s1 es1 Hb1 Hc1.
  eapply initproc_step; [exact Hb1|lia|]. intros s2 es2 Hb2 Hc2.
  eapply initproc_step; [exact Hb2|lia|]. intros s3 es3 Hb3 Hc3.
  eapply initproc_step; [exact Hb3|lia|]. intros s4 es4 Hb4 Hc4.
  apply wp_ret. eapply HQ; [exact Hb4|congruence].
Qed.

(** ** The first program *)

Lemma ctl_kexec i path img argv d pv cur held kl n es p tabs F pages hi (Q : option unit → Sys → Prop) s :
  ctl s d pv cur held kl n es → es !! i = Some p → uvm_rep (s_mach s) (p_pagetable p) tabs F pages hi →
  p_trapframe p ∈ F → exec_image path (s_mach s) = Done img (s_mach s) →
  image_ok img → argv_ok argv → argv_fits img argv →
  Z.of_nat (size (live (s_mach s))) + 1 + exec_frames img < Z.of_nat (capacity (s_mach s)) →
  (∀ s' u' tabs' F' pages', ctl s' d pv cur held kl n (<[i := set_pagetable u' p]> es) →
     program (s_mach s') u' tabs' F' pages' (p_trapframe p) img →
     stack_holds (s_mach s') pages' (user_top img) argv →
     (∀ f, tf_word (s_mach s') (p_trapframe p) f =
        exec_frame (s_mach s) (p_trapframe p) (exec_sp (user_top img) argv) argv f) →
     owned u' tabs' pages' ## F → F ⊆ live (s_mach s') → m_csr (s_mach s') satp = m_csr (s_mach s) satp →
     agree (F ∖ {[p_trapframe p]}) (m_mem (s_mach s)) (m_mem (s_mach s')) → Q (Some tt) s') →
  wp (kexec i path argv) Q s.
Proof.
  intros Hc Hp Hu Ht Himage Himg Hargv Hfit Hroom HQ. pose proof Hc as (_ & <- & Hd & ps & fr & Hk).
  pose proof Hp as Hp'. unfold entries_of in Hp'. rewrite list_lookup_fmap, fmap_Some in Hp'.
  destruct Hp' as (x & Hx & ->). cbn [p_pagetable p_trapframe unlocked set_lock] in *.
  apply (wpo_weaken False); [done|]. eapply wp_mono.
  - apply wp_both; [by eapply (kexec_spec s i x path img argv)|].
    apply (wpd_kexec i path argv _ _ _ _ _ _ _ _ (λ _ s', kst s' d pv cur ps fr held kl n) _ Hk). done.
  - intros r s' [H Hk']. rewrite decide_True in H by done.
    destruct H as (-> & u' & tabs' & F' & pages' & Htab & Hprog & Hst & Hf & Hfr & Hl & Hsatp & Hag).
    eapply (HQ s' u' tabs' F' pages'); try done. split_and!; [| |done|by exists ps, fr].
    + eapply uvm_rep_ok, pg_rep, Hprog.
    + unfold entries_of. rewrite Htab. by rewrite list_fmap_insert.
Qed.

Lemma ctl_write_csr c v d pv cur held kl n es (Q : unit → Sys → Prop) s :
  c ≠ sstatus → ctl s d pv cur held kl n es →
  (let s' := set_mach (set_csr (csr_set (m_csr (s_mach s)) c v) (s_mach s)) s in
   ctl s' d pv cur held kl n es → Q tt s') →
  wp (lift (write_csr c v)) Q s.
Proof.
  intros Hne (Hok & He & Hd & ps & fr & Hk) HQ. apply wp_lift. unfold write_csr. apply wp_modify, HQ.
  assert (sie_on (set_csr (csr_set (m_csr (s_mach s)) c v) (s_mach s)) = sie_on (s_mach s)) as Hsie.
  { unfold sie_on. cbn [m_csr set_csr]. by rewrite csr_set_ne by congruence. }
  split_and!; [|done|done|].
  - destruct Hok as [[H1 H2 H3] Hh Hlk]. split; [|done|done]. split; [|done|unfold sie_on in *; by cbn in Hsie |- *; rewrite Hsie].
    change (is_u32 (csr_set (m_csr (s_mach s)) c v sstatus)). by rewrite csr_set_ne by congruence.
  - exists ps, fr. destruct (ks_depth _ _ _ _ _ _ _ _ _ Hk) as [D1 D2 D3 D4].
    eapply kst_mach; [exact Hk| |apply Hk|apply Hk]. split; [done|done|etrans; [exact Hsie|done]|done].
Qed.
End boot_spec.
