(* ===== verification/Layout.v ===== *)
(** Who owns which frame of the heap: the kernel's page table and each entry's address
    space and trap frame, all apart; and what one process's work may change. *)
From S2P Require Export TouchCode BootSpec.

(** What an address space is a table of: its second-level tables, the pages a program
    reaches, and the kernel's pages above them. *)
Record space := mkSpace { sp_tabs : gmap Z Z; sp_pages : entries; sp_high : entries }.

(** The kernel's table, its map, and the spaces of the entries in order. *)
Record layout := mkLayout {
  lo_root : Z;
  lo_tabs : gmap Z Z;
  lo_map : entries;
  lo_spaces : list space;
}.

Section layout.
Context {E : Env} {EL : EnvLaws E}.
Implicit Types (m : Machine) (s : Sys) (es : list Process) (q : Process) (sp : space) (L : layout)
  (X : Z → Prop) (act : option nat).

Definition space_frames q sp : gset Z := owned (p_pagetable q) (sp_tabs sp) (sp_pages sp).
Definition frames q sp : gset Z := {[p_trapframe q]} ∪ space_frames q sp.
Definition kernel_frames L : gset Z := pt_pages (lo_root L) (lo_tabs L).

(** One entry: its address space, its frame, and above the program at most the
    trampoline and this frame, both once the entry has a pid. *)
Record slot_ok m q sp : Prop := {
  so_space : uvm_rep m (p_pagetable q) (sp_tabs sp) (live m ∖ space_frames q sp) (sp_pages sp) (sp_high sp);
  so_live : p_trapframe q ∈ live m;
  so_frame : p_trapframe q ∉ space_frames q sp;
  so_high : sp_high sp ⊆ high (p_trapframe q);
  so_used : p_pid q ≠ None → sp_high sp = high (p_trapframe q);
}.

(** Memory is laid out as [L] says. *)
Record laid m es L : Prop := {
  la_kernel : pt_rep m (lo_root L) (lo_tabs L) (live m ∖ kernel_frames L) (lo_map L);
  la_satp : m_csr m satp = usize_from_SATP (mkSATP 1 0 (shr32 (lo_root L) 12));
  la_length : length (lo_spaces L) = length es;
  la_slot i q sp : es !! i = Some q → lo_spaces L !! i = Some sp → slot_ok m q sp;
  la_own i q sp : es !! i = Some q → lo_spaces L !! i = Some sp → frames q sp ## kernel_frames L;
  la_apart i j q q' sp sp' : es !! i = Some q → es !! j = Some q' → lo_spaces L !! i = Some sp →
    lo_spaces L !! j = Some sp' → i ≠ j → frames q sp ## frames q' sp';
}.

Lemma laid_ok m es L : laid m es L → mach_ok m.
Proof. intros H. eapply pt_rep_ok, la_kernel, H. Qed.

Lemma laid_space m es L i q : laid m es L → es !! i = Some q → ∃ sp, lo_spaces L !! i = Some sp ∧ slot_ok m q sp.
Proof.
  intros H Hq. destruct (lookup_lt_is_Some_2 (lo_spaces L) i) as [sp Hsp].
  { rewrite (la_length _ _ _ H). by eapply lookup_lt_Some. }
  exists sp. split; [done|by eapply la_slot].
Qed.

Lemma frames_live m q sp : slot_ok m q sp → frames q sp ⊆ live m.
Proof. intros [Hu Hl _ _ _]. destruct (owned_live _ _ _ _ _ _ Hu) as [H _]. unfold frames, space_frames. set_solver +H Hl. Qed.

(** ** One process at work *)

(** The kernel's memory, and the entries in use other than that of [act], are as before. *)
Record isolated act m es L m' es' L' : Prop := {
  io_kernel : lo_root L' = lo_root L ∧ lo_tabs L' = lo_tabs L ∧ lo_map L' = lo_map L;
  io_tables : same_on (kernel_frames L) (m_mem m) (m_mem m');
  io_static a : ¬ heap_area a → ld8 (m_mem m') a = ld8 (m_mem m) a;
  io_length : length es' = length es;
  io_others j q sp : act ≠ Some j → es !! j = Some q → lo_spaces L !! j = Some sp → busy q →
    ∃ q', es' !! j = Some q' ∧ lo_spaces L' !! j = Some sp ∧ p_pagetable q' = p_pagetable q ∧
      p_trapframe q' = p_trapframe q ∧ p_context q' = p_context q ∧ busy q' ∧
      same_on (frames q sp) (m_mem m) (m_mem m');
}.

Lemma isolated_refl act m es L : isolated act m es L m es L.
Proof. split; [done..|]. intros j q sp _ Hq Hsp Hb. by exists q. Qed.

Lemma isolated_trans act m1 es1 L1 m2 es2 L2 m3 es3 L3 :
  isolated act m1 es1 L1 m2 es2 L2 → isolated act m2 es2 L2 m3 es3 L3 → isolated act m1 es1 L1 m3 es3 L3.
Proof.
  intros [(H1 & H2 & H3) H4 H5 H6 H7] [(K1 & K2 & K3) K4 K5 K6 K7].
  assert (kernel_frames L2 = kernel_frames L1) as Hk by (unfold kernel_frames; by rewrite H1, H2).
  rewrite Hk in K4. split; [split_and!; congruence|by eapply same_on_trans| |congruence|].
  - intros a Ha. by rewrite K5, H5.
  - intros j q sp Hj Hq Hsp Hb. destruct (H7 j q sp Hj Hq Hsp Hb) as (q2 & Hq2 & Hsp2 & Hu2 & Ht2 & Hc2 & Hb2 & Hs2).
    destruct (K7 j q2 sp Hj Hq2 Hsp2 Hb2) as (q3 & Hq3 & Hsp3 & Hu3 & Ht3 & Hc3 & Hb3 & Hs3).
    assert (frames q2 sp = frames q sp) as Hfr by (unfold frames, space_frames; by rewrite Hu2, Ht2). rewrite Hfr in Hs3.
    exists q3. split_and!; [done|done|congruence..|done|by eapply same_on_trans].
Qed.

(** The addresses a process's work may write: its frame and its program's pages. *)
Definition confined act es L X : Prop := ∀ a, X a →
  ∃ i q sp, act = Some i ∧ es !! i = Some q ∧ lo_spaces L !! i = Some sp ∧
    page_of a ∈ {[p_trapframe q]} ∪ frames_of (sp_pages sp).

(** A change of bytes alone. *)
Record rewritten act es es' X m m' : Prop := {
  re_ok : mach_ok m';
  re_live : live m' = live m;
  re_satp : m_csr m' satp = m_csr m satp;
  re_bytes a : ¬ X a → ld8 (m_mem m') a = ld8 (m_mem m) a;
  re_length : length es' = length es;
  re_entry j p' : es' !! j = Some p' → ∃ p, es !! j = Some p ∧ kept_entry (is_act act j) p p';
}.

Lemma confined_tables act m es L X a : laid m es L → confined act es L X → X a → page_of a ∉ kernel_frames L.
Proof.
  intros HL HX Ha. destruct (HX a Ha) as (i & q & sp & _ & Hq & Hsp & Hin).
  pose proof (la_own _ _ _ HL i q sp Hq Hsp) as Hd. unfold frames, space_frames, owned in Hd. set_solver +Hd Hin.
Qed.

Lemma confined_space act m es L X a j q sp : laid m es L → confined act es L X → X a →
  es !! j = Some q → lo_spaces L !! j = Some sp →
  (page_of a ∉ pt_pages (root (uvm_pagetable (p_pagetable q))) (sp_tabs sp)) ∧
  (act ≠ Some j → page_of a ∉ frames q sp).
Proof.
  intros HL HX Ha Hq Hsp. pose proof (la_slot _ _ _ HL _ _ _ Hq Hsp) as Hso. pose proof (frames_live _ _ _ Hso) as Hfl.
  destruct (HX a Ha) as (i & q1 & sp1 & -> & Hq1 & Hsp1 & Hin).
  destruct (decide (i = j)) as [->|Hne].
  - assert (q1 = q ∧ sp1 = sp) as [-> ->] by (split; congruence). split; [|congruence].
    pose proof (so_frame _ _ _ Hso) as Hf. pose proof (uvm_rep_disj _ _ _ _ _ _ (so_space _ _ _ Hso)) as Hd.
    unfold space_frames, owned in Hf. apply not_elem_of_union in Hf as [Hf _]. intros Hp.
    apply elem_of_union in Hin as [Ht|Hf']; [|set_solver +Hd Hp Hf'].
    apply elem_of_singleton in Ht. by rewrite Ht in Hp.
  - pose proof (la_apart _ _ _ HL _ _ _ _ _ _ Hq1 Hq Hsp1 Hsp Hne) as Hd.
    assert (page_of a ∈ frames q1 sp1) as Hin1 by (unfold frames, space_frames, owned; set_solver +Hin).
    assert (page_of a ∉ frames q sp) as Hn by set_solver +Hd Hin1.
    split; [|done]. unfold frames, space_frames, owned in Hn. set_solver +Hn.
Qed.

Lemma page_of_live m a : mach_ok m → page_of a ∈ live m → heap_area a.
Proof. intros Hok Ha. eapply frame_ok_heap_area; [by eapply live_frame_ok|done]. Qed.

(** The layout after a change of bytes. *)
Lemma laid_rewritten act m es L X m' es' :
  laid m es L → confined act es L X → rewritten act es es' X m m' →
  laid m' es' L ∧ isolated act m es L m' es' L.
Proof.
  intros HL HX [Hok Hlive Hsatp Hb Hlen Hent].
  assert (same_on (kernel_frames L) (m_mem m) (m_mem m')) as Hk.
  { intros a Ha. apply Hb. intros Hxa. by eapply confined_tables. }
  assert (∀ j p p', es !! j = Some p → es' !! j = Some p' → kept_entry (is_act act j) p p') as Hke.
  { intros j p p' Hp Hp'. destruct (Hent j p' Hp') as (p1 & Hp1 & He). by simplify_eq. }
  assert (∀ j p', es' !! j = Some p' → ∃ p, es !! j = Some p) as Hex.
  { intros j p' Hp'. destruct (Hent j p' Hp') as (p & Hp & _). by exists p. }
  assert (∀ j p p' sp, es !! j = Some p → es' !! j = Some p' → frames p' sp = frames p sp) as Hfr.
  { intros j p p' sp Hp Hp'. pose proof (Hke _ _ _ Hp Hp') as [Hu Ht _ _ _]. unfold frames, space_frames. by rewrite Hu, Ht. }
  split; split.
  - rewrite Hlive. eapply pt_rep_same; [apply HL|done|exact Hk|set_solver +|].
    rewrite Hlive. exact (pt_rep_live _ _ _ _ _ (la_kernel _ _ _ HL)).
  - by rewrite Hsatp, (la_satp _ _ _ HL).
  - by rewrite Hlen, (la_length _ _ _ HL).
  - intros i q' sp Hq' Hsp. destruct (Hex _ _ Hq') as [q Hq]. pose proof (Hke _ _ _ Hq Hq') as [Hu Ht Hun _ _].
    destruct (la_slot _ _ _ HL _ _ _ Hq Hsp) as [H1 H2 H3 H4 H5].
    assert (space_frames q' sp = space_frames q sp) as Hsf by (unfold space_frames; by rewrite Hu).
    split; rewrite ?Hsf, ?Hu, ?Ht, ?Hlive; [|done..|by rewrite Hun].
    eapply uvm_rep_same_tables; [exact H1|done| |unfold space_frames, owned; set_solver +| |].
    + intros a Ha. apply Hb. intros Hxa. destruct (confined_space _ _ _ _ _ _ _ _ _ HL HX Hxa Hq Hsp) as [Hn _]. by apply Hn.
    + pose proof (ur_disj _ _ _ _ _ _ H1). done.
    + rewrite Hlive. exact (uvm_rep_live _ _ _ _ _ _ H1).
  - intros i q' sp Hq' Hsp. destruct (Hex _ _ Hq') as [q Hq]. rewrite (Hfr _ _ _ _ Hq Hq'). by eapply la_own.
  - intros i j q1 q2 sp1 sp2 H1 H2 Hs1 Hs2 Hne. destruct (Hex _ _ H1) as [p1 Hp1], (Hex _ _ H2) as [p2 Hp2].
    rewrite (Hfr _ _ _ _ Hp1 H1), (Hfr _ _ _ _ Hp2 H2). by eapply (la_apart _ _ _ HL).
  - done.
  - done.
  - intros a Ha. apply Hb. intros Hxa. destruct (HX a Hxa) as (i & q & sp & _ & Hq & Hsp & Hin).
    apply Ha, (frame_ok_heap_area (page_of a)); [|done]. pose proof (la_slot _ _ _ HL _ _ _ Hq Hsp) as Hso.
    apply (live_frame_ok m); [by eapply laid_ok|]. apply (frames_live _ _ _ Hso). unfold frames, space_frames, owned. set_solver +Hin.
  - done.
  - intros j q sp Hj Hq Hsp Hbusy. destruct (lookup_lt_is_Some_2 es' j) as [q' Hq'].
    { rewrite Hlen. by eapply lookup_lt_Some. }
    pose proof (Hke _ _ _ Hq Hq') as [Hu Ht _ Hbu Hcx].
    assert (is_act act j = false) as Hna by (unfold is_act; by rewrite bool_decide_eq_false).
    exists q'. split_and!; [done|done|done|done|by apply Hcx|by apply Hbu|].
    intros a Ha. apply Hb. intros Hxa. destruct (confined_space _ _ _ _ _ _ _ _ _ HL HX Hxa Hq Hsp) as [_ Hn]. by apply Hn.
Qed.

(** ** One entry replaced *)

Definition set_space (i : nat) sp L : layout :=
  mkLayout (lo_root L) (lo_tabs L) (lo_map L) (<[i := sp]> (lo_spaces L)).

(** The frames a process's work may write and that are nobody's tables. *)
Definition data_frames act es L (Y : gset Z) : Prop :=
  Y = ∅ ∨ ∃ i q sp, act = Some i ∧ es !! i = Some q ∧ lo_spaces L !! i = Some sp ∧
    Y ⊆ {[p_trapframe q]} ∪ frames_of (sp_pages sp).

Lemma data_apart act m es L Y j q sp : laid m es L → data_frames act es L Y →
  es !! j = Some q → lo_spaces L !! j = Some sp →
  Y ## pt_pages (root (uvm_pagetable (p_pagetable q))) (sp_tabs sp) ∧ Y ## kernel_frames L ∧
  (act ≠ Some j → Y ## frames q sp).
Proof.
  intros HL [->|(i & q1 & sp1 & -> & Hq1 & Hsp1 & HY)] Hq Hsp; [set_solver +|].
  assert (confined (Some i) es L (λ a, page_of a ∈ Y)) as HX.
  { intros a Ha. exists i, q1, sp1. split_and!; [done..|by apply HY]. }
  assert (∀ x, x ∈ Y → page_of x = x) as Hpg.
  { intros x Hx. apply page_of_idemp. pose proof (la_slot _ _ _ HL _ _ _ Hq1 Hsp1) as Hso.
    apply (live_frame_ok m); [by eapply laid_ok|]. apply (frames_live _ _ _ Hso).
    apply HY in Hx. unfold frames, space_frames, owned. set_solver +Hx. }
  assert (∀ x, x ∈ Y → page_of x ∈ Y) as HYp by (intros x Hx; by rewrite Hpg).
  split_and!.
  - intros x Hx Hin. destruct (confined_space _ _ _ _ _ x _ _ _ HL HX (HYp x Hx) Hq Hsp) as [Hn _].
    apply Hn. by rewrite Hpg.
  - intros x Hx Hin. apply (confined_tables _ _ _ _ _ x HL HX (HYp x Hx)). by rewrite Hpg.
  - intros Hj x Hx Hin. destruct (confined_space _ _ _ _ _ x _ _ _ HL HX (HYp x Hx) Hq Hsp) as [_ Hn].
    apply Hn; [done|]. by rewrite Hpg.
Qed.

(** An entry of the one at work, or one nobody uses, gets other frames: those that were
    its own, or that nobody had. *)
Lemma laid_change act m es L i q sp m' q' sp' Y :
  laid m es L → es !! i = Some q → lo_spaces L !! i = Some sp → act = Some i ∨ ¬ busy q →
  data_frames act es L Y → m_csr m' satp = m_csr m satp →
  live m ∖ frames q sp ⊆ live m' → agree (live m ∖ frames q sp ∖ Y) (m_mem m) (m_mem m') →
  slot_ok m' q' sp' → frames q' sp' ## live m ∖ frames q sp →
  laid m' (<[i := q']> es) (set_space i sp' L) ∧ isolated act m es L m' (<[i := q']> es) (set_space i sp' L).
Proof.
  intros HL Hq Hsp Hact HY Hsatp Hlive Hag Hso' Hnew. set (old := frames q sp) in *.
  pose proof (uvm_rep_ok _ _ _ _ _ _ (so_space _ _ _ Hso')) as Hok'.
  destruct (data_apart _ _ _ _ _ _ _ _ HL HY Hq Hsp) as (_ & HYk & _).
  pose proof (la_own _ _ _ HL _ _ _ Hq Hsp) as Hko. fold old in Hko.
  assert (kernel_frames L ⊆ live m ∖ old ∖ Y) as Hkl.
  { assert (kernel_frames L ⊆ live m) as Hk by (rewrite (pt_rep_live _ _ _ _ _ (la_kernel _ _ _ HL)); apply union_subseteq_l).
    set_solver +Hk Hko HYk. }
  assert (∀ j q2 sp2, j ≠ i → es !! j = Some q2 → lo_spaces L !! j = Some sp2 →
    frames q2 sp2 ⊆ live m ∖ old ∧ pt_pages (root (uvm_pagetable (p_pagetable q2))) (sp_tabs sp2) ⊆ live m ∖ old ∖ Y ∧
    (act ≠ Some j → frames q2 sp2 ⊆ live m ∖ old ∖ Y)) as Hother.
  { intros j q2 sp2 Hj Hq2 Hsp2. pose proof (frames_live _ _ _ (la_slot _ _ _ HL _ _ _ Hq2 Hsp2)) as Hfl.
    pose proof (la_apart _ _ _ HL _ _ _ _ _ _ Hq2 Hq Hsp2 Hsp Hj) as Hd. fold old in Hd.
    destruct (data_apart _ _ _ _ _ _ _ _ HL HY Hq2 Hsp2) as (Hyt & _ & Hyf).
    assert (frames q2 sp2 ⊆ live m ∖ old) as Hsub by set_solver +Hfl Hd.
    split_and!; [done| |intros Hj2; specialize (Hyf Hj2); set_solver +Hsub Hyf].
    assert (pt_pages (root (uvm_pagetable (p_pagetable q2))) (sp_tabs sp2) ⊆ frames q2 sp2) as Hpt.
    { unfold frames, space_frames, owned. set_solver +. }
    set_solver +Hsub Hpt Hyt. }
  split; split; cbn [set_space lo_root lo_tabs lo_map lo_spaces].
  - change (kernel_frames (set_space i sp' L)) with (kernel_frames L).
    eapply pt_rep_agree; [apply HL|done|by eapply agree_weaken|unfold kernel_frames; set_solver +|].
    fold (kernel_frames L). apply union_difference_L. etransitivity; [exact Hkl|]. set_solver +Hlive.
  - by rewrite Hsatp, (la_satp _ _ _ HL).
  - by rewrite !length_insert, (la_length _ _ _ HL).
  - intros j q2 sp2 [(<- & <- & _)|[Hne Hq2]]%list_lookup_insert_Some [(He & <- & _)|[Hne' Hsp2]]%list_lookup_insert_Some; try done.
    destruct (Hother j q2 sp2) as (Hf & Hpt & _); [done..|]. destruct (la_slot _ _ _ HL _ _ _ Hq2 Hsp2) as [H1 H2 H3 H4 H5].
    assert (frames q2 sp2 ⊆ live m') as Hf' by by etransitivity.
    split; [| |done..].
    + eapply uvm_rep_same_tables; [exact H1|done|eapply agree_same, agree_weaken; [|exact Hag]; done| | |].
      * unfold space_frames, owned. set_solver +.
      * unfold space_frames, owned. set_solver +.
      * unfold frames in Hf'. change (live m' = pt_pages (root (uvm_pagetable (p_pagetable q2))) (sp_tabs sp2) ∪
          (frames_of (sp_pages sp2) ∪ live m' ∖ space_frames q2 sp2)).
        rewrite union_assoc_L. apply union_difference_L. set_solver +Hf'.
    + apply Hf'. unfold frames. set_solver +.
  - intros j q2 sp2 [(<- & <- & _)|[Hne Hq2]]%list_lookup_insert_Some [(He & <- & _)|[Hne' Hsp2]]%list_lookup_insert_Some; try done.
    + change (kernel_frames (set_space i sp' L)) with (kernel_frames L). set_solver +Hnew Hkl.
    + change (kernel_frames (set_space i sp' L)) with (kernel_frames L). by eapply la_own.
  - intros j k q2 q3 sp2 sp3 [(<- & <- & _)|[Hne Hq2]]%list_lookup_insert_Some [(Hk & <- & _)|[Hne2 Hq3]]%list_lookup_insert_Some
      [(He & <- & _)|[Hne3 Hsp2]]%list_lookup_insert_Some [(He' & <- & _)|[Hne4 Hsp3]]%list_lookup_insert_Some Hjk; try done.
    + destruct (Hother k q3 sp3) as (Hf & _ & _); [done..|]. set_solver +Hf Hnew.
    + destruct (Hother j q2 sp2) as (Hf & _ & _); [done..|]. set_solver +Hf Hnew.
    + by eapply (la_apart _ _ _ HL j k).
  - done.
  - eapply agree_same, agree_weaken; [|exact Hag]. done.
  - intros a Ha. apply Hag. by right.
  - by rewrite length_insert.
  - intros j q2 sp2 Hj Hq2 Hsp2 Hb. assert (j ≠ i) as Hne.
    { intros ->. simplify_eq. by destruct Hact. }
    exists q2. rewrite !list_lookup_insert_ne by done. split_and!; [done..|].
    destruct (Hother j q2 sp2) as (_ & _ & Hf); [done..|]. eapply agree_same, agree_weaken; [|exact Hag]. by apply Hf.
Qed.

(** ** Boundaries *)

(** The control state is in order again. *)
Definition settled s : Prop := ∃ d pv cur ps fr held kl n, d + 16 < U32 ∧ kst s d pv cur ps fr held kl n.

Lemma written_ok act m es L X s' :
  laid m es L → confined act es L X → written X m (s_mach s') → settled s' → mach_ok (s_mach s').
Proof.
  intros HL HX [Hh _ Hss Hb] (d & pv & cur & ps & fr & held & kl & n & Hd & Hk).
  pose proof (laid_ok _ _ _ HL) as Hok. destruct (ks_depth _ _ _ _ _ _ _ _ _ Hk) as [D1 D2 D3 _].
  split; [split| |apply Hk].
  - apply Hss, Hok.
  - lia.
  - rewrite D1, D3. by case_decide.
  - rewrite Hh. apply (mo_heap _ (mach_ok_write _ (m_mem (s_mach s')) Hok ltac:(intros a Ha Hn; apply Hb; intros Hxa;
      destruct (HX a Hxa) as (i & q & sp & _ & Hq & Hsp & Hin);
      apply Hn, (frames_live _ _ _ (la_slot _ _ _ HL _ _ _ Hq Hsp)); unfold frames, space_frames, owned; set_solver +Hin))).
Qed.

Lemma touch_entries act X s s' : touch act X s s' →
  length (entries_of s') = length (entries_of s) ∧
  ∀ j p', entries_of s' !! j = Some p' → ∃ p, entries_of s !! j = Some p ∧ kept_entry (is_act act j) p p'.
Proof.
  intros [_ Hl He]. split; [by rewrite !entries_length|]. intros j p' Hp'.
  unfold entries_of in *. rewrite list_lookup_fmap, fmap_Some in Hp'. destruct Hp' as (x' & Hx' & ->).
  destruct (He j x' Hx') as (x & Hx & [K1 K2 K3 K4 K5]). exists (unlocked x). split; [by rewrite list_lookup_fmap, Hx|]. by split.
Qed.

(** What [s'] is after the work of [act] on [s]. *)
Definition evolves act s L s' : Prop := ∃ L', laid (s_mach s') (entries_of s') L' ∧
  isolated act (s_mach s) (entries_of s) L (s_mach s') (entries_of s') L'.

(** Work that allocates nothing leaves the layout as it is. *)
Lemma touch_laid act s L X s' :
  laid (s_mach s) (entries_of s) L → confined act (entries_of s) L X → touch act X s s' → settled s' →
  laid (s_mach s') (entries_of s') L ∧ isolated act (s_mach s) (entries_of s) L (s_mach s') (entries_of s') L.
Proof.
  intros HL HX Ht Hs. destruct (touch_entries _ _ _ _ Ht) as [Hlen Hent]. pose proof (to_mach _ _ _ _ Ht) as Hw.
  eapply laid_rewritten; [exact HL|exact HX|]. split; [by eapply written_ok| |apply Hw|apply Hw|done|done].
  unfold live. by rewrite (wr_heap _ _ _ Hw).
Qed.
Lemma evolves_touch act s L X s' :
  laid (s_mach s) (entries_of s) L → confined act (entries_of s) L X → touch act X s s' → settled s' →
  evolves act s L s'.
Proof. intros HL HX Ht Hs. exists L. by eapply touch_laid. Qed.
End layout.
