(* ===== verification/LayoutSpec.v ===== *)
(** The code that allocates and frees, on a layout: copies to user memory, fork, exec and
    wait change what belongs to their caller, and entries that nobody uses. *)
From S2P Require Export Layout ExecAny.

Section layout_spec.
Context {E : Env} {EL : EnvLaws E}.
Implicit Types (m : Machine) (s : Sys) (es : list Process) (p q : Process) (sp : space) (L : layout) (act : option nat).

(** All that the work of [act] may write. *)
Definition work_area act es L (a : Z) : Prop :=
  ∃ i q sp, act = Some i ∧ es !! i = Some q ∧ lo_spaces L !! i = Some sp ∧
    page_of a ∈ {[p_trapframe q]} ∪ frames_of (sp_pages sp).

Lemma work_area_confined act es L : confined act es L (work_area act es L).
Proof. by intros a Ha. Qed.

Lemma in_frame_page t a : page_aligned t → in_frame t a → page_of a = t.
Proof. intros Ht Ha. by apply page_of_inside. Qed.

Lemma work_area_framed act m s L : laid m (entries_of s) L → framed act (work_area act (entries_of s) L) s.
Proof.
  intros HL i p -> Hp a Ha. assert (entries_of s !! i = Some (unlocked p)) as Hp'.
  { unfold entries_of. by rewrite list_lookup_fmap, Hp. }
  destruct (laid_space _ _ _ _ _ HL Hp') as (sp & Hsp & Hso). exists i, (unlocked p), sp. split_and!; [done..|].
  cbn [p_trapframe unlocked set_lock]. apply elem_of_union_l, elem_of_singleton, in_frame_page; [|done].
  apply (live_frame_ok m); [by eapply laid_ok|]. apply (so_live _ _ _ Hso).
Qed.

(** ** Copies to user memory *)

(** Where [walkaddr] finds a page: the program's, the trampoline, or the frame. *)
Lemma translate_space m q sp va pa : slot_ok m q sp → translate (sp_pages sp ∪ sp_high sp) va = Some pa →
  page_of pa ∈ {[p_trapframe q]} ∪ frames_of (sp_pages sp) ∨ page_of pa = trampoline.
Proof.
  intros Hso. unfold translate. destruct ((sp_pages sp ∪ sp_high sp) !! page_of va) as [[f perm]|] eqn:Hx; [|done].
  case_match; [|done]. intros [= <-]. pose proof (Z.mod_pos_bound va page_size ltac:(done)) as Hmod.
  apply lookup_union_Some_raw in Hx as [Hx|[_ Hx]].
  - destruct (ur_page _ _ _ _ _ _ (so_space _ _ _ Hso) _ _ Hx) as (_ & Hf & _). left.
    rewrite page_of_add by (done || apply Hf). apply elem_of_union_r, elem_of_frames_pages. by exists (page_of va), (f, perm).
  - pose proof (lookup_weaken _ _ _ _ Hx (so_high _ _ _ Hso)) as Hh. unfold high in Hh.
    apply lookup_insert_Some in Hh as [[_ [= <- _]]|[_ Hh]].
    + left. rewrite page_of_add; [set_solver +| |done].
      apply (live_frame_ok m); [by eapply uvm_rep_ok, so_space|apply (so_live _ _ _ Hso)].
    + apply lookup_singleton_Some in Hh as [_ [= <- _]]. right. rewrite page_of_add; [done|apply trampoline_ok|done].
Qed.

(** Translation is on, so a store that goes through is above the kernel's text. *)
Lemma laid_paging m es L : laid m es L → paging m = true.
Proof.
  intros HL. unfold paging. rewrite (la_satp _ _ _ HL). unfold usize_from_SATP.
  cbn [satp_mode satp_asid satp_ppn]. by rewrite !Z.lor_spec.
Qed.
Lemma laid_storable m es L a n : laid m es L → storable m a n → page_of a ≠ trampoline.
Proof.
  intros HL [_ Hst] Ht. specialize (Hst (laid_paging _ _ _ HL)).
  pose proof (page_of_range a). pose proof trampoline_last. lia.
Qed.

Lemma copy_out_written m es L i p va data r m' :
  laid m es L → es !! i = Some p → p_pid p ≠ None → is_u32 va →
  copy_out (p_pagetable p) va data m = Done r m' → written (work_area (Some i) es L) m m'.
Proof.
  intros HL Hp Hpid Hva Hdone. destruct (laid_space _ _ _ _ _ HL Hp) as (sp & Hsp & Hso).
  pose proof (ur_pt _ _ _ _ _ _ (so_space _ _ _ Hso)) as Hpt.
  assert (wlp (copy_out (p_pagetable p) va data) (λ _ m', written (work_area (Some i) es L) m m') m) as H.
  { unfold copy_out. apply wp_bind. destruct (uvm_pagetable (p_pagetable p)) as [rt].
    eapply walkaddr_spec; [exact Hpt|done|]. destruct (translate _ va) as [pa|] eqn:Hpa; [|by apply wp_ret].
    apply (translate_space _ _ _ _ _ Hso) in Hpa. apply wp_bind, wlp_unfold. intros ? m1. unfold write32.
    case_decide as Hal; [|done]. intros [= <- <-]. apply wp_ret. split; try done. intros b Hb. cbn [m_mem set_mem].
    rewrite ld8_st32. case_decide as Hin; [|done]. exfalso. apply Hb.
    assert (page_of b = page_of pa) as Hpg.
    { destruct Hal as [_ Hal]. unfold page_of, page_size in *. Z.div_mod_to_equations. lia. }
    unfold work_area. rewrite Hpg. destruct Hpa as [Hpa|Hpa]; [by exists i, p, sp|].
    by destruct (laid_storable _ _ _ _ _ HL (proj1 Hal)). }
  rewrite wlp_unfold in H. by eapply H.
Qed.

Lemma copy_out_mem u va data m r m' : copy_out u va data m = Done r m' → ∃ f, m' = set_mem f m.
Proof.
  unfold copy_out. intros (o & m1 & Hw & H)%bind_done. apply reads_walkaddr in Hw as ->.
  destruct o as [pa|]; [|injection H as _ <-; exists (m_mem m); by destruct m].
  apply bind_done in H as (? & m1 & H & [= _ <-]). unfold write32 in H. case_decide; [|done]. injection H as _ <-. by eexists.
Qed.

(** ** The process at work *)

(** Process [i] runs in the kernel, with no lock held. *)
Record at_work s L (i : nat) p pv n : Prop := {
  aw_ctl : ctl s 0 pv (Some i) ∅ false n (entries_of s);
  aw_laid : laid (s_mach s) (entries_of s) L;
  aw_entry : entries_of s !! i = Some p;
  aw_state : p_state p = Running;
  aw_pid : p_pid p ≠ None;
}.

Lemma evolves_refl act s L : laid (s_mach s) (entries_of s) L → evolves act s L s.
Proof. intros HL. exists L. split; [done|apply isolated_refl]. Qed.
Lemma evolves_trans act s1 L s2 s3 :
  evolves act s1 L s2 → (∀ L2, laid (s_mach s2) (entries_of s2) L2 → evolves act s2 L2 s3) → evolves act s1 L s3.
Proof.
  intros (L2 & HL2 & H12) H. destruct (H L2 HL2) as (L3 & HL3 & H23). exists L3. split; [done|]. by eapply isolated_trans.
Qed.

(** Locks, messages, and a change of the entry at work that keeps its space and frame. *)
Lemma evolves_still i p p' s L s' :
  laid (s_mach s) (entries_of s) L → mach_ok (s_mach s') → still (s_mach s) (s_mach s') → entries_of s !! i = Some p →
  entries_of s' = <[i := p']> (entries_of s) → kept_entry true p p' → evolves (Some i) s L s'.
Proof.
  intros HL Hok Hst Hp He Hk. pose proof Hst as (Hmem & Hheap & Hsatp & _). exists L.
  eapply (laid_rewritten (Some i) _ _ _ (λ _, False)); [exact HL|by intros a ?|]. split; [done| |done| | |].
  - unfold live. by rewrite Hheap.
  - intros a _. by rewrite Hmem.
  - by rewrite He, length_insert.
  - intros j q. rewrite He. intros [(<- & <- & _)|[_ Hj]]%list_lookup_insert_Some.
    + exists p. split; [done|]. unfold is_act. by rewrite bool_decide_eq_true_2.
    + exists q. split; [done|apply kept_entry_refl].
Qed.

(** ** exec *)

Lemma kexec_evolves s L i p pv n path argv :
  image_ok INIT → image_ok PRIME → at_work s L i p pv n →
  wlp (kexec i path argv) (λ r s', r = Some tt → evolves (Some i) s L s') s.
Proof.
  intros HI HP [Hc HL Hp Hrun Hpid]. destruct (laid_space _ _ _ _ _ HL Hp) as (sp & Hsp & Hso).
  pose proof Hp as Hp'. unfold entries_of in Hp'. rewrite list_lookup_fmap, fmap_Some in Hp'. destruct Hp' as (x & Hx & Hpx).
  assert (p_pagetable x = p_pagetable p ∧ p_trapframe x = p_trapframe p) as [Hxu Hxt] by by subst p.
  pose proof (so_space _ _ _ Hso) as Hu. set (m := s_mach s) in *. set (F := live m ∖ space_frames p sp) in *.
  assert (p_trapframe p ∈ F) as Ht by (apply elem_of_difference; split; apply Hso).
  eapply wp_mono; [eapply (kexec_any s i x path argv); [done|done|exact Hx|rewrite Hxu; exact Hu|by rewrite Hxt]|].
  rewrite Hxt. intros r s' H Hr. destruct (H Hr) as (u' & tabs' & pages' & Htab & Hu' & Hfr & Hl & Hsatp & Hag). fold m in Hsatp, Hag.
  destruct (owned_live _ _ _ _ _ _ Hu') as [Hown' _].
  assert (entries_of s' = <[i := set_pagetable u' p]> (entries_of s)) as He.
  { unfold entries_of. rewrite Htab, list_fmap_insert. by subst p. }
  assert (live m ∖ frames p sp = F ∖ {[p_trapframe p]}) as Hold by (unfold F, frames; set_solver +).
  unfold evolves. rewrite He. exists (set_space i (mkSpace tabs' pages' (high (p_trapframe p))) L).
  eapply (laid_change (Some i) m (entries_of s) L i p sp _ _ _ ∅); [exact HL|exact Hp|exact Hsp|by left|by left|done|..].
  - rewrite Hold. set_solver +Hl.
  - rewrite Hold, difference_empty_L. exact Hag.
  - split; unfold space_frames; cbn [sp_tabs sp_pages sp_high p_pagetable p_trapframe set_pagetable]; [exact Hu'|by apply Hl| |done..].
    set_solver +Hfr Ht.
  - rewrite Hold. unfold frames, space_frames. cbn [sp_tabs sp_pages p_pagetable p_trapframe set_pagetable]. set_solver +Hfr.
Qed.

(** ** fork *)

Lemma laid_fork m es L i c p q sp spq : laid m es L → i ≠ c → es !! i = Some p → es !! c = Some q →
  lo_spaces L !! i = Some sp → lo_spaces L !! c = Some spq →
  fork_apart m p q (sp_tabs sp) (live m ∖ space_frames p sp) (sp_pages sp) (sp_high sp)
    (sp_tabs spq) (live m ∖ space_frames q spq) (sp_pages spq) (sp_high spq).
Proof.
  intros HL Hic Hp Hq Hsp Hspq. pose proof (la_slot _ _ _ HL _ _ _ Hp Hsp) as Hso. pose proof (la_slot _ _ _ HL _ _ _ Hq Hspq) as Hsq.
  pose proof (la_apart _ _ _ HL _ _ _ _ _ _ Hp Hq Hsp Hspq Hic) as Hd. unfold frames in Hd.
  pose proof (so_frame _ _ _ Hso) as H1. pose proof (so_frame _ _ _ Hsq) as H2.
  pose proof (so_live _ _ _ Hso) as H3. pose proof (so_live _ _ _ Hsq) as H4.
  destruct (owned_live _ _ _ _ _ _ (so_space _ _ _ Hsq)) as [H5 _]. fold (space_frames q spq) in H5.
  split; [apply Hso|apply Hsq|fold (space_frames q spq)| |]; set_solver +Hd H1 H2 H3 H4 H5.
Qed.

Lemma kfork_evolves s L i p pv n : at_work s L i p pv n → 0 ≤ n →
  wlp (kfork i) (λ r s', r ≠ None → evolves (Some i) s L s') s.
Proof.
  intros [Hc HL Hp Hrun Hpid] Hn. destruct (free_entry (entries_of s)) as [c|] eqn:Hfree.
  2: { unfold kfork. apply wp_bind. eapply ctl_KERNEL_lock; [exact Hc|done|]. intros s1 Hc1 _. apply wp_bind.
    eapply allocproc_none; [exact Hc1|done|]. apply wp_bind, wp_ret, wp_bind.
    eapply ctl_KERNEL_unlock; [exact Hc1|done|]. intros s2 _ _. by apply wp_ret. }
  destruct (free_entry_first _ _ Hfree) as [(q & Hq & Hst) _]. assert (i ≠ c) as Hic by (intros ->; congruence).
  destruct (laid_space _ _ _ _ _ HL Hp) as (sp & Hsp & Hso), (laid_space _ _ _ _ _ HL Hq) as (spq & Hspq & Hsq).
  set (m := s_mach s) in *.
  eapply kfork_spec; [exact Hc|exact Hp|done|by right|done|exact Hq|done|by apply (laid_fork m (entries_of s) L i c)|by right|done|].
  intros t vm s' Hc' [(tabs & F & pc & Hu & Ht & Hfr & _) _ _ Hl Hag Hsatp] Hnew _. fold m in Hsatp, Hl, Hag, Hnew, Hfr.
  change ({[p_trapframe q]} ∪ owned (p_pagetable q) (sp_tabs spq) (sp_pages spq)) with (frames q spq) in *.
  destruct (owned_live _ _ _ _ _ _ Hu) as [Hul Hud].
  unfold evolves. rewrite (ctl_entries _ _ _ _ _ _ _ _ Hc'). exists (set_space c (mkSpace tabs pc (high t)) L).
  eapply (laid_change (Some i) m (entries_of s) L c q spq _ _ _ {[p_trapframe p]}); [exact HL|exact Hq|exact Hspq| | |exact Hsatp|exact Hl|..].
  - right. by intros [H _].
  - right. exists i, p, sp. split_and!; [done..|]. set_solver +.
  - eapply agree_weaken; [|exact Hag]. set_solver +Hnew.
  - split; unfold space_frames; cbn [sp_tabs sp_pages sp_high p_pagetable p_trapframe fork_entry set_state set_parent set_pagetable set_trapframe]; [| |set_solver +Hud Ht|done..].
    + eapply uvm_rep_move; [exact Hu|by eapply uvm_rep_ok|done|done].
    + rewrite (uvm_rep_live _ _ _ _ _ _ Hu). set_solver +Ht.
  - unfold frames, space_frames. cbn [sp_tabs sp_pages p_pagetable p_trapframe fork_entry set_state set_parent set_pagetable set_trapframe].
    fold (space_frames q spq). fold (frames q spq). set_solver +Hnew Hfr.
Qed.

(** ** wait *)

(** Frames given back, and an empty address space for the entry. *)
Lemma laid_recycled act m es L j q spq m' u t :
  laid m es L → es !! j = Some q → lo_spaces L !! j = Some spq → ¬ busy q →
  recycled_memory m (frames q spq) ∅ (sp_pages spq) m' u t →
  laid m' (<[j := recycled q u t]> es) (set_space j (mkSpace ∅ ∅ ∅) L) ∧
  isolated act m es L m' (<[j := recycled q u t]> es) (set_space j (mkSpace ∅ ∅ ∅) L).
Proof.
  intros HL Hq Hspq Hb [(F & Hu & Ht) Hsz Hl Hfr Hag _ Hsatp]. destruct (owned_live _ _ _ _ _ _ Hu) as [Hul Hud].
  pose proof (uvm_rep_live _ _ _ _ _ _ Hu) as Hlive.
  assert (frames (recycled q u t) (mkSpace ∅ ∅ ∅) = {[root (uvm_pagetable u); t]}) as Hnew.
  { unfold frames, space_frames. cbn [p_pagetable p_trapframe recycled sp_tabs sp_pages]. rewrite owned_empty. set_solver +. }
  eapply (laid_change act m es L j q spq _ _ _ ∅); [exact HL|exact Hq|exact Hspq|by right|by left|exact Hsatp|exact Hl|exact Hag| |].
  - split; unfold space_frames; cbn [sp_tabs sp_pages sp_high p_pagetable p_trapframe recycled p_pid]; [| |set_solver +Hud Ht|apply map_empty_subseteq|done].
    + eapply uvm_rep_move; [exact Hu|by eapply uvm_rep_ok|done|done].
    + rewrite Hlive. set_solver +Ht.
  - rewrite Hnew. exact Hfr.
Qed.

Lemma kwait_scan_evolves s L i p pv n :
  at_work s L i p pv n → (∀ j q, entries_of s !! j = Some q → p_pid q = p_pid p → j = i) →
  (∀ j q, entries_of s !! j = Some q → p_state q = Zombie → p_pid q ≠ None) →
  wlp (kwait_scan i) (λ _ s', evolves (Some i) s L s') s.
Proof.
  intros [Hc HL Hp Hrun Hpid] Huniq Hzp. destruct (zombie_child (p_pid p) (entries_of s)) as [j|] eqn:Hz.
  - destruct (lookup_lt_is_Some_2 (entries_of s) j) as [q Hq].
    { unfold zombie_child in Hz. apply fmap_Some in Hz as ([? ?] & Hf & ->). apply list_find_Some in Hf as (Hf & _).
      by eapply lookup_lt_Some. }
    destruct (zombie_child_state _ _ _ _ Hz Hq) as [_ Hqz].
    destruct (p_pid q) as [pid|] eqn:Hqp; [|by destruct (Hzp j q Hq Hqz)].
    destruct (laid_space _ _ _ _ _ HL Hq) as (spq & Hspq & Hsq).
    eapply (kwait_scan_zombie s i p pid _ _ _ _ _ j q); [exact Hc|exact Hp|done|exact Hz|exact Hq|exact Hqp|apply Hsq| |by right|].
    { apply elem_of_difference; split; apply Hsq. }
    intros u t s2 Hc2 Hm2. pose proof (ctl_entries _ _ _ _ _ _ _ _ Hc2) as He2.
    destruct (laid_recycled (Some i) _ _ _ _ _ _ _ _ _ HL Hq Hspq ltac:(by intros [_ ?]) Hm2) as [HL2 Hiso].
    eexists. rewrite He2. split; [exact HL2|exact Hiso].
  - eapply wp_mono; [by apply (kwait_scan_alive _ _ _ _ _ _ Hc Hp Huniq Hz)|]. intros r s' [Hst H].
    destruct (any_child _ _); destruct H as [_ Hc']; pose proof (ctl_entries _ _ _ _ _ _ _ _ Hc') as He.
    + eapply (evolves_still i p); [exact HL|apply Hc'|done|exact Hp|exact He|by split].
    + eapply (evolves_still i p p); [exact HL|apply Hc'|done|exact Hp|by rewrite He, list_insert_id|apply kept_entry_refl].
Qed.

(** The status is stored in the caller's own memory. *)
Lemma store_status_evolves s L i p pv n addr x :
  at_work s L i p pv n → is_u32 addr → wlp (store_status i addr x) (λ _ s', evolves (Some i) s L s') s.
Proof.
  intros [Hc HL Hp _ Hpid] Haddr. unfold store_status. case_decide as Hz; [|by apply wp_ret, evolves_refl].
  apply wlp_unfold. intros r s3 (self & s4 & Hself & H)%bind_done. apply proc_done in Hself as [-> Hself].
  assert (p_pagetable self = p_pagetable p) as Hsp.
  { unfold entries_of in Hp. rewrite list_lookup_fmap, Hself in Hp. by injection Hp as <-. }
  apply bind_done in H as (o & s4 & (m' & Hcopy & ->)%lift_done & H).
  destruct o as [[]|]; [|done]. injection H as <- <-. rewrite Hsp in Hcopy.
  apply (evolves_touch _ _ _ (work_area (Some i) (entries_of s) L)); [done|apply work_area_confined| |].
  - apply touch_same; [|done]. by eapply copy_out_written.
  - destruct (copy_out_mem _ _ _ _ _ _ Hcopy) as [f ->]. destruct Hc as (_ & _ & _ & ps & fr & Hk).
    exists 0, pv, (Some i), ps, fr, ∅, false, n. split; [done|].
    eapply kst_mach; [exact Hk| |apply Hk|apply Hk]. by destruct (ks_depth _ _ _ _ _ _ _ _ _ Hk).
Qed.
End layout_spec.
