(* ===== verification/LayoutCode.v ===== *)
(** Every stretch of kernel code keeps memory laid out and changes only what belongs to the
    process it runs for. *)
From S2P Require Export LayoutSpec Refine.

Section layout_code.
Context {E : Env} {EL : EnvLaws E}.
Implicit Types (m : Machine) (s : Sys) (es : list Process) (p q : Process) (L : layout) (act : option nat)
  (ps : list aproc) (fr : list bool) (th : gmap nat resume).

(** ** What the control state says of memory's users *)

Lemma entries_view s d pv cur ps fr held kl n i q :
  kst s d pv cur ps fr held kl n → entries_of s !! i = Some q → ps !! i = Some (view q).
Proof.
  intros Hk Hq. unfold entries_of in Hq. rewrite list_lookup_fmap, fmap_Some in Hq. destruct Hq as (x & Hx & ->).
  by destruct (kst_lookup _ _ _ _ _ _ _ _ _ _ _ Hk Hx) as [-> _].
Qed.

(** The process at work, and the facts about pids that its system calls rely on. *)
Record caller s L (i : nat) p pv n : Prop := {
  cl_work : at_work s L i p pv n;
  cl_next : 0 ≤ n;
  cl_unique j q : entries_of s !! j = Some q → p_pid q = p_pid p → j = i;
  cl_zombie j q : entries_of s !! j = Some q → p_state q = Zombie → p_pid q ≠ None;
}.

Lemma caller_of s L i ps fr pv n :
  laid (s_mach s) (entries_of s) L → kst s 0 pv (Some i) ps fr ∅ false n → a_inv (mkAstate ps n (Some i)) →
  ∃ p, caller s L i p pv n.
Proof.
  intros HL Hk Ha. destruct (ai_run_in _ Ha i eq_refl) as [a Hi]. cbn [a_procs] in Hi.
  assert (∃ p, entries_of s !! i = Some p) as [p Hp].
  { apply lookup_lt_is_Some_2. rewrite entries_length, (kst_length _ _ _ _ _ _ _ _ _ Hk). by eapply lookup_lt_Some. }
  pose proof (entries_view _ _ _ _ _ _ _ _ _ _ _ Hk Hp) as Hv.
  destruct (a_running _ i _ Ha eq_refl Hv) as (Hrun & _ & c0 & Hpid).
  exists p. split; [split|..].
  - split_and!; [by eapply laid_ok|done|done|by exists ps, fr].
  - done.
  - done.
  - done.
  - intros H. cbn in Hpid. congruence.
  - destruct (ai_init _ Ha) as (k & z & Hz & Hz0 & _). apply (ai_pid _ Ha k z 0 Hz) in Hz0. cbn in Hz0. lia.
  - intros j q Hq Heq. pose proof (entries_view _ _ _ _ _ _ _ _ _ _ _ Hk Hq) as Hvq.
    apply (ai_uniq _ Ha j i _ _ c0 Hvq Hv); [cbn in *; congruence|exact Hpid].
  - intros j q Hq Hz Hn. pose proof (entries_view _ _ _ _ _ _ _ _ _ _ _ Hk Hq) as Hvq.
    pose proof (ai_unused _ Ha j _ Hvq) as [_ H]. cbn in H. rewrite (H Hn) in Hz. done.
Qed.

Lemma kst_settled s d pv cur ps fr held kl n : d + 16 < U32 → kst s d pv cur ps fr held kl n → settled s.
Proof. intros Hd Hk. by exists d, pv, cur, ps, fr, held, kl, n. Qed.

Lemma touch_evolves act s L s' :
  laid (s_mach s) (entries_of s) L → touch act (work_area act (entries_of s) L) s s' → settled s' → evolves act s L s'.
Proof. intros HL. eapply evolves_touch; [exact HL|apply work_area_confined]. Qed.

(** ** System calls *)

(** What a system call and a suspended thread remember, and later write to the hart or
    give to [copy_out]. *)
Fixpoint place_ok (r : running) : Prop :=
  match r with
  | RunInside _ (InWait addr | InReaped addr _ _) => is_u32 addr
  | RunKtrap back => place_ok back
  | _ => True
  end.
Definition saved_ok (r : resume) : Prop :=
  match r with
  | ResKernel _ _ sstatus_v back => is_u32 sstatus_v ∧ place_ok back
  | ResWait status_addr _ => is_u32 status_addr
  | _ => True
  end.
Definition saved_next (nx : next) : Prop := match nx with Switch _ r => saved_ok r | Goto r => place_ok r end.

(** The result of work on behalf of [act]. *)
Definition lays act s L (nx : next) s' : Prop := (settled s' → evolves act s L s') ∧ saved_next nx.

Lemma tf_get_u32 t f m v m' : tf_get t f m = Done v m' → is_u32 v ∧ m' = m.
Proof. unfold tf_get, read32. case_decide; [|done]. intros [= <- <-]. split; [apply ld32_range|done]. Qed.

Lemma lift_reads {A} (f : MM A) s a s' : Reads f → lift f s = Done a s' → f (s_mach s) = Done a (s_mach s) ∧ s' = s.
Proof. intros Hf (m' & H & ->)%lift_done. pose proof (Hf _ _ _ H) as ->. split; [done|]. by destruct s. Qed.

(** Code of process [i] that allocates nothing. *)
Lemma touch_lays s L i {A} (f : KM A) (Q : A → Prop) :
  laid (s_mach s) (entries_of s) L → Touch (Some i) (work_area (Some i) (entries_of s) L) f →
  (∀ a s', f s = Done a s' → Q a) →
  wlp f (λ a s', (settled s' → evolves (Some i) s L s') ∧ Q a) s.
Proof.
  intros HL Ht HQ. apply wlp_unfold. intros a s' H. split; [|by eapply HQ]. intros Hset.
  eapply touch_evolves; [done| |done]. eapply Ht; [by eapply work_area_framed|exact H].
Qed.

(** How the pieces that only read end. *)
Lemma sys_return_done i ret s r s' : sys_return i ret s = Done r s' → r = SysDone.
Proof. unfold sys_return. intros (? & ? & _ & H)%bind_done. by apply bind_done in H as (? & ? & _ & [= <- _]). Qed.
Lemma sys_write_enter_done i s r s' : sys_write_enter i s = Done r s' → ∃ msg, r = SysMore (InPrint msg 0).
Proof.
  unfold sys_write_enter. intros (? & ? & _ & H)%bind_done. do 3 apply bind_done in H as (? & ? & _ & H).
  case_decide; [done|]. do 3 apply bind_done in H as (? & ? & _ & H). injection H as <- _. by eexists.
Qed.
Lemma sys_exec_enter_done fuel i s r s' :
  sys_exec_enter fuel i s = Done r s' → ∃ path a, r = SysMore (InArgs path [] a).
Proof.
  unfold sys_exec_enter. intros (? & ? & _ & H)%bind_done. do 4 apply bind_done in H as (? & ? & _ & H).
  injection H as <- _. by eexists _, _.
Qed.
Lemma sys_exec_arg_done fuel i path argv a s r s' : sys_exec_arg fuel i path argv a s = Done r s' →
  ∃ argv', r = SysMore (InExec path argv') ∨ ∃ a', r = SysMore (InArgs path argv' a').
Proof.
  unfold sys_exec_arg. intros (? & ? & _ & H)%bind_done. do 2 apply bind_done in H as (? & ? & _ & H).
  case_decide; [injection H as <- _; eexists; by left|].
  do 3 apply bind_done in H as (? & ? & _ & H). injection H as <- _. eexists. right. by eexists.
Qed.

Lemma syscall_enter_lays fuel s L i p pv n :
  caller s L i p pv n → wlp (syscall_enter fuel i) (λ r, lays (Some i) s L (after_syscall i r)) s.
Proof.
  intros Hcl. pose proof (cl_work _ _ _ _ _ _ Hcl) as Hw. pose proof (aw_laid _ _ _ _ _ _ Hw) as HL.
  unfold syscall_enter. apply wlp_unfold. intros r s' (self & s1 & [-> Hself]%proc_done & H)%bind_done.
  apply bind_done in H as (num & s1 & [_ ->]%(lift_reads _ _ _ _ (reads_tf_get _ _)) & H).
  assert (∀ f : KM sys_next, Touch (Some i) (work_area (Some i) (entries_of s) L) f →
    (∀ a s', f s = Done a s' → saved_next (after_syscall i a)) → f s = Done r s' → lays (Some i) s L (after_syscall i r) s') as Htouch.
  { intros f Ht HQ Hf. pose proof (touch_lays s L i f _ HL Ht HQ) as Hl. rewrite wlp_unfold in Hl. by apply Hl. }
  repeat case_decide.
  - apply (Htouch _ (touch_sys_write_enter i _)); [|done]. by intros a s1 [msg ->]%sys_write_enter_done.
  - apply bind_done in H as (? & s2 & H & [= <- <-]). split; [|done]. intros _.
    apply bind_done in H as (o & s3 & H & H3). destruct o as [pid|]; [|done]. injection H3 as _ <-.
    pose proof (kfork_evolves s L i p pv n Hw (cl_next _ _ _ _ _ _ Hcl)) as Hk. rewrite wlp_unfold in Hk. by eapply Hk.
  - apply (Htouch _ (touch_sys_exec_enter fuel i _)); [|done]. by intros a s1 (path & va & ->)%sys_exec_enter_done.
  - apply bind_done in H as (? & s1 & [-> _]%proc_done & H).
    apply bind_done in H as (addr & s1 & [Ha ->]%(lift_reads _ _ _ _ (reads_tf_get _ _)) & H). apply tf_get_u32 in Ha as [Ha _].
    injection H as <- <-. split; [|done]. intros _. by apply evolves_refl.
  - apply (Htouch _ (touch_sys_exit_enter i _)); [|done]. unfold sys_exit_enter. intros a s1 (? & ? & _ & Ha)%bind_done.
    do 2 apply bind_done in Ha as (? & ? & _ & Ha). by injection Ha as <- _.
  - done.
Qed.

Lemma syscall_more_lays fuel s L i p pv n k :
  image_ok INIT → image_ok PRIME → caller s L i p pv n → place_ok (RunInside i k) →
  wlp (syscall_more fuel i k) (λ r, lays (Some i) s L (after_syscall i r)) s.
Proof.
  intros HI HP [Hw Hn Hu Hz] Hk. pose proof (aw_laid _ _ _ _ _ _ Hw) as HL.
  destruct k as [[|b text] ret|path argv a|path argv|addr|addr pid x]; cbn [syscall_more].
  - eapply wp_mono; [apply (touch_lays s L i _ (λ r, r = SysDone) HL); [apply touch_sys_return|]|].
    { intros r s'. apply sys_return_done. }
    by intros r s' [H ->].
  - apply (touch_lays s L i _ (λ r, saved_next (after_syscall i r)) HL).
    + apply touch_bind; [apply touch_lift, writes_uart_write|intros _; apply touch_ret].
    + by intros r s' (? & ? & _ & [= <- _])%bind_done.
  - apply (touch_lays s L i _ (λ r, saved_next (after_syscall i r)) HL); [apply touch_sys_exec_arg|].
    by intros r s' [argv' [->|[a' ->]]]%sys_exec_arg_done.
  - apply wlp_unfold. intros r s' (o & s1 & He & H)%bind_done. apply bind_done in H as ([] & s2 & H2 & [= <- <-]).
    destruct o as [[]|]; [|done]. injection H2 as <-. split; [intros _|done].
    pose proof (kexec_evolves s L i p pv n path argv HI HP Hw) as Hx. rewrite wlp_unfold in Hx. by eapply Hx.
  - apply wp_bind. eapply wp_mono; [by eapply kwait_scan_evolves|]. intros r s1 H1. apply wp_ret.
    split; [done|by destruct r].
  - apply wp_bind. eapply wp_mono; [by eapply store_status_evolves|]. intros [] s1 H1.
    apply wlp_unfold. intros r s2 H. pose proof (sys_return_done _ _ _ _ _ H) as ->. split; [|done].
    intros Hset. eapply evolves_trans; [exact H1|]. intros L1 HL1. eapply touch_evolves; [exact HL1| |exact Hset].
    eapply touch_sys_return; [by eapply work_area_framed|exact H].
Qed.

(** ** Traps and switches *)

Lemma kerneltrap_saved s r s' : kerneltrap_enter s = Done r s' →
  match r with KtrapDone _ w | KtrapYield _ _ w _ => w = m_csr (s_mach s) sstatus end.
Proof.
  unfold kerneltrap_enter. intros (? & s1 & [-> ->]%read_csr_lift & H)%bind_done.
  do 3 apply bind_done in H as (? & ? & [-> ->]%read_csr_lift & H).
  case_decide; [done|]. apply bind_done in H as (on & ? & _ & H). destruct on; [done|].
  apply bind_done in H as (cur & ? & _ & H). do 2 apply bind_done in H as (? & ? & _ & H).
  case_decide; [|done]. do 4 apply bind_done in H as (? & ? & _ & H).
  destruct cur; [|by injection H as <- _]. do 2 apply bind_done in H as (? & ? & _ & H). by injection H as <- _.
Qed.

(** Code that allocates nothing and saves nothing. *)
Lemma lays_touch act s L {A} (f : KM A) (k : A → next) nx s' :
  laid (s_mach s) (entries_of s) L → Touch act (work_area act (entries_of s) L) f → (∀ a, saved_next (k a)) →
  (a ← f; mret (k a)) s = Done nx s' → lays act s L nx s'.
Proof.
  intros HL Hf Hk (a & s1 & H & [= <- <-])%bind_done. split; [|done].
  apply touch_evolves; [done|]. eapply Hf; [by eapply work_area_framed|exact H].
Qed.

Definition threads_saved th : Prop := ∀ i r, th !! i = Some r → saved_ok r.

Lemma resume_thread_lays th i ps fr pv n s L :
  image_ok INIT → image_ok PRIME → laid (s_mach s) (entries_of s) L →
  kst s 1 pv (Some i) ps fr {[i]} false n → a_inv (mkAstate ps n (Some i)) → threads_saved th →
  wlp (resume_thread th i) (lays (Some i) s L) s.
Proof.
  intros HI HP HL Hk Ha Hth. pose proof (work_area_framed (Some i) _ _ _ HL) as Hf.
  apply wlp_unfold. unfold resume_thread. intros nx s' (self & s1 & [-> _]%proc_done & H)%bind_done.
  case_decide.
  { apply bind_done in H as (? & s1 & H1 & H). apply bind_done in H as (? & s2 & H2 & [= <- <-]). split; [|done].
    pose proof (touch_forkret _ _ _ _ _ (ks_cur _ _ _ _ _ _ _ _ _ Hk) Hf H1) as Ht.
    apply touch_evolves; [done|]. trans s1; [done|]. eapply touch_sret; [by eapply touch_framed|exact H2]. }
  destruct (th !! i) as [res|] eqn:Hi; [|done]. pose proof (Hth i res Hi) as Hs.
  destruct res as [prev|prev sepc_v sstatus_v back|addr prev|prev].
  - assert (Touch (Some i) (work_area (Some i) (entries_of s) L) (yeld_leave i prev;; usertrap_leave i;; sret)) as Ht.
    { apply touch_bind; [apply touch_yeld_leave|intros _]. apply touch_bind; [apply touch_usertrap_leave|intros _; apply touch_sret]. }
    eapply (lays_touch _ _ _ _ (λ _, Goto (RunUser i))); [done|exact Ht|done|].
    apply bind_done in H as (? & s1 & H1 & H). apply bind_done in H as (? & s2 & H2 & H).
    unfold mbind, M_bind in *. by rewrite H1, H2.
  - destruct Hs as [Hs Hback]. assert (Touch (Some i) (work_area (Some i) (entries_of s) L) (yeld_leave i prev;; kerneltrap_leave sepc_v sstatus_v;; sret)) as Ht.
    { apply touch_bind; [apply touch_yeld_leave|intros _]. apply touch_bind; [by apply touch_kerneltrap_leave|intros _; apply touch_sret]. }
    eapply (lays_touch _ _ _ _ (λ _, Goto back)); [done|exact Ht|done|].
    apply bind_done in H as (? & s1 & H1 & H). apply bind_done in H as (? & s2 & H2 & H).
    unfold mbind, M_bind in *. by rewrite H1, H2.
  - apply (lays_touch (Some i) s L (kwait_leave i prev) (λ _, Goto (RunInside i (InWait addr)))); [done|apply touch_kwait_leave|done|exact H].
  - unfold kexit_leave in H. by apply bind_done in H as (? & ? & _ & H).
Qed.

(** The kernel code of a step. *)
Lemma code_lays fuel regs th r a s L :
  image_ok INIT → image_ok PRIME → represents (mkConfig s th r) a → a_inv a →
  laid (s_mach s) (entries_of s) L → threads_saved th → place_ok r →
  wlp (code fuel regs th r) (lays (a_run a) s L) s.
Proof.
  intros HI HP (fr & _ & Hloc) Ha HL Hth Hpl. cbn [c_sys c_threads c_run] in Hloc.
  pose proof (work_area_framed (a_run a) _ _ _ HL) as Hf.
  destruct a as [ps n run]. cbn [a_procs a_next a_run] in *. apply wlp_unfold. intros nx s' H.
  destruct r as [| |i|i| |i|i k|i|back]; cbn [located code] in *.
  - eapply (lays_touch _ _ _ scheduler_open (λ _, Goto RunWindow)); [done|apply touch_scheduler_open|done|exact H].
  - apply bind_done in H as (found & s1 & H1 & H). pose proof (touch_scheduler_pick run _ _ _ _ Hf H1) as Ht.
    pose proof (touch_framed _ _ _ _ Ht Hf) as Hf1. destruct found as [i|].
    + apply bind_done in H as (? & s2 & H2 & H). apply bind_done in H as (? & s3 & H3 & [= <- <-]). split; [|done].
      pose proof (touch_scheduler_dispatch run _ i _ _ _ Hf1 H2) as Ht2.
      apply touch_evolves; [done|]. trans s1; [done|]. trans s2; [done|].
      eapply touch_save_cpu_context; [by eapply touch_framed|exact H3].
    + apply bind_done in H as (? & s2 & H2 & [= <- <-]). split; [|done].
      apply touch_evolves; [done|]. trans s1; [done|]. by eapply touch_scheduler_idle.
  - destruct Hloc as (-> & _ & pv & Hk). pose proof (resume_thread_lays th i ps fr pv n s L HI HP HL Hk Ha Hth) as Hr.
    rewrite wlp_unfold in Hr. by apply Hr.
  - done.
  - destruct Hloc as (_ & i & -> & Hk). apply bind_done in H as ([j t] & s1 & H1 & [= <- <-]). split; [|by destruct t].
    apply touch_evolves; [done|]. eapply touch_usertrap_enter; [apply (ks_cur _ _ _ _ _ _ _ _ _ Hk)|exact Hf|exact H1].
  - destruct Hloc as (-> & pv & Hk). destruct (caller_of _ _ _ _ _ _ _ HL Hk Ha) as [p Hcl].
    apply bind_done in H as (r & s1 & H1 & [= <- <-]).
    pose proof (syscall_enter_lays fuel s L i p pv n Hcl) as Hsys. rewrite wlp_unfold in Hsys. by apply Hsys.
  - destruct Hloc as (-> & pv & Hk). destruct (caller_of _ _ _ _ _ _ _ HL Hk Ha) as [p Hcl].
    apply bind_done in H as (r & s1 & H1 & [= <- <-]).
    pose proof (syscall_more_lays fuel s L i p pv n k HI HP Hcl Hpl) as Hsys. rewrite wlp_unfold in Hsys. by apply Hsys.
  - destruct Hloc as (-> & pv & Hk). apply bind_done in H as (? & s1 & H1 & H).
    apply bind_done in H as (? & s2 & H2 & [= <- <-]). split; [|done].
    pose proof (touch_usertrap_leave i _ _ _ _ Hf H1) as Ht. apply touch_evolves; [done|]. trans s1; [done|].
    eapply touch_sret; [by eapply touch_framed|exact H2].
  - apply bind_done in H as (r & s1 & H1 & H). pose proof (kerneltrap_saved _ _ _ H1) as Hr.
    pose proof (touch_kerneltrap_enter run _ _ _ _ Hf H1) as Ht. pose proof (co_u32 _ (mo_cpu _ (laid_ok _ _ _ HL))) as Hu.
    destruct r as [w v|i w v prev]; subst v.
    + apply bind_done in H as (? & s2 & H2 & H). apply bind_done in H as (? & s3 & H3 & [= <- <-]). split; [|done].
      pose proof (touch_framed _ _ _ _ Ht Hf) as Hf1.
      pose proof (touch_kerneltrap_leave run _ w _ Hu _ _ _ Hf1 H2) as Ht2.
      apply touch_evolves; [done|]. trans s1; [done|]. trans s2; [done|].
      eapply touch_sret; [by eapply touch_framed|exact H3].
    + injection H as <- <-. split; [|done]. by apply touch_evolves.
Qed.
End layout_code.
