(* ===== verification/BootRun.v ===== *)
(** Boot: from power-on to the scheduler. *)
From Stdlib Require Import (notations) String.
From S2P Require Export Layout.

Section boot_run.
Context {E : Env} {EL : EnvLaws E}.
Implicit Types (m : Machine) (s : Sys) (F : gset Z) (tabs : gmap Z Z) (pages : entries) (e : entries) (es : list Process).

(** What [main] hands to the scheduler: memory is laid out, and the page table in use maps
    the kernel and the four kernel stacks, each above an unmapped page; entry 0 is init,
    about to enter its program for the first time; the other entries are free, each with
    an empty address space; no lock is held. *)
Record booted s : Prop := {
  bd_memory : ∃ L, laid (s_mach s) (entries_of s) L ∧ kstacks 4 (lo_map L) ∧
    ∀ i, 0 ≤ i < 4 → lo_map L !! (kstack_at i - page_size) = None;
  bd_init : ∃ p tabs F pages, entries_of s !! 0%nat = Some p ∧ p_pid p = Some 0 ∧ p_state p = Runnable ∧
    ctx_ra (p_context p) = forkret_addr ∧ ctx_sp (p_context p) = kstack_at 0 + KSTACK_SIZE ∧
    p_kstack p = kstack_at 0 ∧
    program (s_mach s) (p_pagetable p) tabs F pages (p_trapframe p) INIT ∧
    stack_holds (s_mach s) pages (user_top INIT) [str "10"] ∧
    tf_word (s_mach s) (p_trapframe p) tf_epc = USER_START ∧
    tf_word (s_mach s) (p_trapframe p) tf_sp = exec_sp (user_top INIT) [str "10"];
  bd_free : ∀ j, (1 ≤ j < 4)%nat → ∃ q F, entries_of s !! j = Some q ∧ p_pid q = None ∧ p_state q = Unused ∧
    p_kstack q = kstack_at (Z.of_nat j) ∧ uvm_rep (s_mach s) (p_pagetable q) ∅ F ∅ ∅ ∧ p_trapframe q ∈ live (s_mach s);
  bd_locks : ctl s 0 false None ∅ false 1 (entries_of s);
}.

Lemma exec_frames_nonneg img : image_ok img → 0 ≤ exec_frames img.
Proof. intros (Hi & _). destruct (image_pages_bounds img Hi) as (Hn & _). unfold exec_frames. lia. Qed.

(** The first process, from the complete table on. *)
Lemma boot_first {A} s rt es q0 (k : nat → KM A) (Q : A → Sys → Prop) :
  booting 4 s rt 1 false None true 0 es → es !! 0%nat = Some q0 →
  image_ok INIT → argv_fits INIT [str "10"] → 60 + exec_frames INIT < Z.of_nat (capacity (s_mach s)) →
  (∀ s' t u tabs F pages, let p := set_pagetable u (claimed q0 t 0) in
     ctl s' 1 false None ∅ true 1 (<[0%nat := p]> es) →
     program (s_mach s') u tabs F pages t INIT → stack_holds (s_mach s') pages (user_top INIT) [str "10"] →
     (∀ f, f = tf_epc ∨ f = tf_sp → tf_word (s_mach s') t f =
        if decide (f = tf_epc) then USER_START else exec_sp (user_top INIT) [str "10"]) →
     t ∈ live (s_mach s') → t ∉ owned u tabs pages → {[t]} ∪ owned u tabs pages ## live (s_mach s) ∖ own q0 →
     live (s_mach s) ∖ own q0 ⊆ live (s_mach s') →
     agree (live (s_mach s) ∖ own q0) (m_mem (s_mach s)) (m_mem (s_mach s')) →
     m_csr (s_mach s') satp = m_csr (s_mach s) satp → wp (k 0%nat) Q s') →
  wp (o ← allocproc; user_p0 ← unwrap o; unlock_proc user_p0;;
      r ← kexec user_p0 (str "init") [str "10"]; unwrap r;; k user_p0) Q s.
Proof.
  intros [Hc [Hlen (tabs & F & e & Hrep & Htabs & Hst & Hsl & Hsz) Hent] _ Hkvm] Hq Himg Hfit Hroom HQ.
  pose proof (kernel_live _ _ _ _ _ Hrep Htabs) as Hlive. pose proof (pt_rep_live _ _ _ _ _ Hrep) as Hl.
  destruct (Hent _ _ Hq) as (u0 & t0 & Hq0). destruct (sl_space _ _ _ Hsl _ _ Hq) as [F0 Hu0].
  pose proof (sl_own _ _ _ Hsl _ _ Hq) as Hown. pose proof (sl_frame _ _ _ Hsl _ _ Hq) as Hne. set (ru := root (uvm_pagetable (p_pagetable q0))) in *.
  assert (own q0 ⊆ live (s_mach s)) as Hol by (rewrite Hl; set_solver +Hown).
  assert (own q0 = {[ru; p_trapframe q0]}) as Ho by done.
  assert (ru ∈ live (s_mach s) ∧ p_trapframe q0 ∈ live (s_mach s)) as [Hrl Htl] by (rewrite Ho in Hol; set_solver +Hol).
  pose proof (exec_frames_nonneg _ Himg) as Hef.
  apply wp_bind. eapply allocproc_spec; [exact Hc| |].
  { split; [exists q0; by subst q0|intros; lia]. }
  eapply (claim_spec 0 q0); [exact Hc|exact Hq|set_solver +|done|by left|left; by subst q0|exact Htl|left; lia|].
  intros t s1 _ Hc1 Ht Hl1 [[Hcap1 Hsatp1] Hag1]. apply wp_bind, (wp_unwrap _ 0%nat); [done|]. apply wp_bind.
  eapply ctl_unlock_proc; [exact Hc1|set_solver +|rewrite length_insert; by eapply lookup_lt_Some|done|].
  intros s2 Hc2 Hs2. destruct (still_kept (live (s_mach s) ∖ {[p_trapframe q0]}) _ _ Hs2) as [[[Hcap2 Hsatp2] Hag2] Hl2].
  assert (agree (live (s_mach s) ∖ {[p_trapframe q0]}) (m_mem (s_mach s)) (m_mem (s_mach s2))) as Hag by by eapply agree_trans.
  assert (t ≠ ru) as Htr by (intros ->; done).
  apply wp_bind. eapply (ctl_kexec 0 _ INIT [str "10"] _ _ _ _ _ _ _ (claimed q0 t 0) ∅
    (live (s_mach s2) ∖ owned (p_pagetable q0) ∅ ∅) ∅ ∅); [exact Hc2|apply list_lookup_insert_eq; by eapply lookup_lt_Some| | | |exact Himg| |exact Hfit| |].
  { eapply uvm_rep_move; [exact Hu0|apply Hc2| |]; rewrite owned_empty; fold ru.
    - eapply agree_weaken; [|exact Hag]. set_solver +Hrl Hne.
    - rewrite Hl2, Hl1. set_solver +Hrl Hne. }
  { rewrite owned_empty. fold ru. cbn. rewrite Hl2, Hl1. set_solver +Htr. }
  { reflexivity. }
  { repeat constructor; [done|by vm_compute]. }
  { rewrite Hcap2, Hcap1, Hl2, Hl1. pose proof (size_swap _ t _ Htl). lia. }
  intros s3 u tabs3 F3 pages3 Hc3 Hprog Hstk Hw Hfr3 Hl3 Hsatp3 Hag3. rewrite list_insert_insert_eq in Hc3.
  cbn [p_trapframe p_pagetable claimed set_context set_trapframe set_state set_pid] in Hprog, Hw, Hfr3, Hl3, Hag3.
  rewrite owned_empty in Hfr3, Hl3, Hag3. fold ru in Hfr3, Hl3, Hag3.
  assert (t ∈ live (s_mach s2) ∖ {[ru]}) as Ht3 by (rewrite Hl2, Hl1; set_solver +Htr).
  assert (live (s_mach s) ∖ own q0 ⊆ live (s_mach s2) ∖ {[ru]}) as Hl03 by (rewrite Ho, Hl2, Hl1; set_solver +).
  apply wp_bind, (wp_unwrap _ tt); [done|]. eapply HQ; [exact Hc3|exact Hprog|exact Hstk| | | | | | |].
  - intros f [-> | ->]; rewrite Hw; done.
  - by apply Hl3.
  - set_solver +Ht3 Hfr3.
  - clear -Ht Hfr3 Hl03. set_solver +Ht Hfr3 Hl03.
  - by etransitivity.
  - rewrite Ho. eapply agree_trans; (eapply agree_weaken; [|eassumption]); [set_solver +|].
    rewrite Hl2, Hl1. set_solver +Ht.
  - congruence.
Qed.

(** Setting the trap vector and enabling the interrupt sources. *)
Lemma init_trap_spec (Q : unit → Machine → Prop) m :
  mach_ok m →
  (∀ f, mach_ok (set_csr f m) → f sstatus = m_csr m sstatus → Q tt (set_csr f m)) → wp init_trap Q m.
Proof.
  intros Hok HQ. unfold init_trap. apply wp_bind, wp_write_csr. apply wp_bind, wp_read_csr. apply wp_write_csr.
  assert (∀ a b, csr_set (csr_set (m_csr m) stvec a) sie b sstatus = m_csr m sstatus) as Hs
    by (intros; by rewrite !csr_set_ne).
  cbn [m_csr set_csr]. apply (HQ (csr_set (csr_set (m_csr m) stvec _) sie _)); [|apply Hs].
  apply mach_ok_csr; [done|apply Hs].
Qed.

(** The kernel object as [main] creates it. *)
Lemma ctl_created m :
  mach_ok m → stack m = 0 → sie_on m = false → current (m_cpu m) = None →
  ctl (mkSys m Kernel_default IntMutex_new true) 0 false None ∅ false 0 [].
Proof.
  intros Hok Hst Hsie Hcur. split_and!; [done|done|done|]. exists [], []. split; try done.
  - apply Hok.
  - apply lock_new_free.
Qed.

(** [Kernel::init], before any entry exists. *)
Lemma Kernel_init_boot d pv cur kl n (Q : option unit → Sys → Prop) s :
  ctl s d pv cur ∅ kl n [] → live (s_mach s) = ∅ → (60 < capacity (s_mach s))%nat →
  (∀ s' rt, booting 0 s' rt d pv cur kl n [] → capacity (s_mach s') = capacity (s_mach s) → Q (Some tt) s') →
  wp Kernel_init Q s.
Proof.
  intros Hc Hl Hcap HQ. unfold Kernel_init. pose proof Hc as (Hok & _). apply wp_bind.
  eapply ctl_lift; [exact Hc|]. apply Kvm_init_spec; [done|rewrite Hl, size_empty; lia|].
  intros rt tabs m1 Hrep Htabs Hq _. rewrite Hl in Hrep. split; [by eapply pt_rep_ok|]. split; [done|].
  intros (Hok1 & He & Hd & ps & fr & Hk). apply wp_bind, wp_modify, wp_ret. pose proof (qt_cap _ _ Hq) as Hcap1.
  eapply (HQ _ rt); [|exact Hcap1]. split; [|split|change (60 < capacity m1)%nat; lia|done].
  - split_and!; [done|done|done|]. exists ps, fr. by destruct Hk.
  - done.
  - exists tabs, ∅, kernel_entries. split_and!; [exact Hrep|done|split; [intros i Hi; lia|done]| |done].
    split; intros; set_solver.
  - done.
Qed.

(** Up to the kernel's page table. *)
Lemma boot_start {A} s (k : unit → KM A) (Q : A → Sys → Prop) :
  power_on s → is_u32 (m_csr (s_mach s) sstatus) →
  (60 < heap_capacity (heap_init heap_new (m_mem (s_mach s)) ekernel (RAMEND - ekernel)).1)%nat →
  (∀ s' rt, booting 0 s' rt 1 false None true 0 [] →
     capacity (s_mach s') = heap_capacity (heap_init heap_new (m_mem (s_mach s)) ekernel (RAMEND - ekernel)).1 →
     wp (k tt) Q s') →
  wp (size ← sub32 RAMEND ekernel; lift (HEAP_ALLOCATOR_init ekernel size);; lift init_trap;;
      KERNEL_call_once;; KERNEL_lock;; r ← Kernel_init; x ← unwrap r; k x) Q s.
Proof.
  intros (Honce & Hcpu & Hheap & Hlock & Hsie) Hu Hcap HQ.
  apply wp_bind, wp_sub32; [pose proof ekernel_before_end; lia|]. apply wp_bind, wp_lift.
  apply HEAP_ALLOCATOR_init_spec; [|done|done|].
  { split; [done|unfold stack; rewrite Hcpu; by split|by rewrite Hsie]. }
  intros m1 Hok1 Hsame Hlive1 Hheap1. apply wp_bind, wp_lift. cbn [s_mach set_mach].
  apply init_trap_spec; [done|]. intros f Hok2 Hf. apply wp_bind. unfold KERNEL_call_once.
  apply wp_bind, wp_gets. cbn [s_once set_mach]. rewrite Honce. apply wp_modify. cbn [s_mach set_mach].
  assert (sie_on (set_csr f m1) = false) as Hsie2.
  { unfold sie_on. cbn [m_csr set_csr]. rewrite Hf. rewrite <- Hsie. exact (same_cpu_sie _ _ Hsame). }
  apply wp_bind. eapply ctl_KERNEL_lock; [apply ctl_created; [done| |done|]|done|].
  { change (stack m1 = 0). rewrite (sc_stack _ _ Hsame). unfold stack. by rewrite Hcpu. }
  { change (current (m_cpu m1) = None). rewrite (sc_current _ _ Hsame). by rewrite Hcpu. }
  intros s3 Hc3 (Hm3 & Hh3 & _). assert (m_heap (s_mach s3) = m_heap m1) as Hh by done.
  assert (capacity (s_mach s3) = heap_capacity (m_heap m1)) as Hcap3 by (unfold capacity; by rewrite Hh).
  apply wp_bind. eapply Kernel_init_boot; [exact Hc3| |rewrite Hcap3, Hheap1; exact Hcap|].
  { unfold live in *. by rewrite Hh. }
  intros s4 rt Hb Hcap4. apply wp_bind, (wp_unwrap _ tt); [done|]. eapply HQ; [exact Hb|].
  by rewrite Hcap4, Hcap3, Hheap1.
Qed.

Lemma booting_csr f k s rt d pv cur kl n es :
  booting k s rt d pv cur kl n es → f (Named sstatus) = m_csr (s_mach s) sstatus →
  ctl (set_mach (set_csr f (s_mach s)) s) d pv cur ∅ kl n es →
  booting k (set_mach (set_csr f (s_mach s)) s) rt d pv cur kl n es.
Proof.
  intros [_ [Hlen (tabs & F & e & Hrep & Htabs & Hst & Hsl & Hsz) Hent] Hroom Hkvm] Hf Hc. split; [done| |done|done].
  pose proof (mach_ok_csr f _ (pt_rep_ok _ _ _ _ _ Hrep) Hf) as Hok. pose proof (pt_rep_live _ _ _ _ _ Hrep) as Hl.
  split; [done| |done]. exists tabs, F, e. split_and!; [|done|done| |done].
  - eapply pt_rep_agree; [exact Hrep|done|done|by eapply pt_rep_disj|done].
  - eapply slots_move; [exact Hsl|done|done|]. change (F ⊆ live (s_mach s)). rewrite Hl. set_solver +.
Qed.

(** The layout once [initproc] is done: every entry has an empty address space. *)
Definition built_layout rt tabs e es : layout := mkLayout rt tabs e ((λ _, mkSpace ∅ ∅ ∅) <$> es).

Lemma frames_own q : frames q (mkSpace ∅ ∅ ∅) = own q.
Proof. unfold frames, space_frames, own. cbn. rewrite owned_empty. set_solver +. Qed.

Lemma laid_built s rt d pv cur kl n es :
  booting 4 s rt d pv cur kl n es → m_csr (s_mach s) satp = usize_from_SATP (mkSATP 1 0 (shr32 rt 12)) →
  ∃ tabs e, laid (s_mach s) es (built_layout rt tabs e es) ∧ kstacks 4 e.
Proof.
  intros [_ [Hlen (tabs & F & e & Hrep & Htabs & Hst & Hsl & Hsz) Hent] _ _] Hsatp.
  pose proof (pt_rep_live _ _ _ _ _ Hrep) as Hlive. pose proof (pt_rep_disj _ _ _ _ _ Hrep) as Hdisj.
  assert (∀ i sp, ((λ _, mkSpace ∅ ∅ ∅) <$> es) !! i = Some sp → sp = mkSpace ∅ ∅ ∅) as Hsp0.
  { intros i sp. rewrite list_lookup_fmap, fmap_Some. by intros (? & _ & ->). }
  exists tabs, e. split; [|done]. split; unfold kernel_frames; cbn [built_layout lo_root lo_tabs lo_map lo_spaces].
  - assert (live (s_mach s) ∖ pt_pages rt tabs = F) as -> by (rewrite Hlive; set_solver +Hdisj). exact Hrep.
  - done.
  - by rewrite length_fmap.
  - intros i q sp Hq ->%Hsp0. destruct (sl_space _ _ _ Hsl _ _ Hq) as [F' Hu]. pose proof (sl_own _ _ _ Hsl _ _ Hq) as Ho.
    assert (own q ⊆ live (s_mach s)) as Hol by (rewrite Hlive; set_solver +Ho).
    destruct (Hent _ _ Hq) as (u & t & Hn). split; unfold space_frames; cbn [sp_tabs sp_pages sp_high].
    + eapply uvm_rep_move; [exact Hu|by eapply pt_rep_ok|done|]. by eapply owned_live.
    + apply Hol. unfold own. set_solver +.
    + rewrite owned_empty. pose proof (sl_frame _ _ _ Hsl _ _ Hq). set_solver.
    + apply map_empty_subseteq.
    + by subst q.
  - intros i q sp Hq ->%Hsp0. rewrite frames_own. pose proof (sl_own _ _ _ Hsl _ _ Hq) as Ho. set_solver +Ho Hdisj.
  - intros i j q q' sp sp' Hq Hq' ->%Hsp0 ->%Hsp0 Hij. rewrite !frames_own. by eapply sl_apart.
Qed.

(** The layout once [init] is loaded. *)
Lemma laid_first s rt d pv cur kl n es q0 p m t u tabs F pages :
  booting 4 s rt d pv cur kl n es → m_csr (s_mach s) satp = usize_from_SATP (mkSATP 1 0 (shr32 rt 12)) →
  es !! 0%nat = Some q0 → p_pagetable p = u → p_trapframe p = t → program m u tabs F pages t INIT →
  t ∈ live m → t ∉ owned u tabs pages → {[t]} ∪ owned u tabs pages ## live (s_mach s) ∖ own q0 →
  live (s_mach s) ∖ own q0 ⊆ live m → agree (live (s_mach s) ∖ own q0) (m_mem (s_mach s)) (m_mem m) →
  m_csr m satp = m_csr (s_mach s) satp →
  ∃ L, laid m (<[0%nat := p]> es) L ∧ kstacks 4 (lo_map L) ∧ lo_spaces L !! 0%nat = Some (mkSpace tabs pages (high t)) ∧
    ∀ j, (1 ≤ j < 4)%nat → lo_spaces L !! j = Some (mkSpace ∅ ∅ ∅).
Proof.
  intros Hb Hsatp Hq <- <- Hprog Ht Hto Hnew Hl Hag Hsatp'. pose proof Hb as [_ [Hlen _ Hent] _ _].
  destruct (laid_built _ _ _ _ _ _ _ _ Hb Hsatp) as (tabs' & e & HL & Hst).
  destruct (Hent _ _ Hq) as (u0 & t0 & Hq0). pose proof (pg_rep _ _ _ _ _ _ _ Hprog) as Hu.
  assert (∀ j, (j < 4)%nat → lo_spaces (built_layout rt tabs' e es) !! j = Some (mkSpace ∅ ∅ ∅)) as Hspaces.
  { intros j Hj. destruct (lookup_lt_is_Some_2 es j) as [q Hqj]; [lia|]. cbn. by rewrite list_lookup_fmap, Hqj. }
  exists (set_space 0 (mkSpace tabs pages (high (p_trapframe p))) (built_layout rt tabs' e es)). split_and!.
  - eapply (laid_change None (s_mach s) es _ 0 q0 (mkSpace ∅ ∅ ∅) m p _ ∅); [exact HL|exact Hq|apply Hspaces; lia| |by left|done| | | |].
    + right. subst q0. intros [H _]. done.
    + by rewrite frames_own.
    + by rewrite frames_own, difference_empty_L.
    + split; unfold space_frames; cbn [sp_tabs sp_pages sp_high]; [|done..].
      destruct (owned_live _ _ _ _ _ _ Hu). by eapply uvm_rep_move; [exact Hu|eapply uvm_rep_ok| |].
    + rewrite frames_own. exact Hnew.
  - done.
  - cbn. apply list_lookup_insert_eq. rewrite length_fmap. lia.
  - intros j Hj. cbn [set_space lo_spaces]. rewrite list_lookup_insert_ne by lia. apply Hspaces. lia.
Qed.

(** What [main] needs of the machine and of the embedded program. *)
Record boots s : Prop := {
  bs_on : power_on s;
  bs_status : is_u32 (m_csr (s_mach s) sstatus);
  bs_image : image_ok INIT;
  bs_argv : argv_fits INIT [str "10"];
  bs_room : 60 + exec_frames INIT <
    Z.of_nat (heap_capacity (heap_init heap_new (m_mem (s_mach s)) ekernel (RAMEND - ekernel)).1);
}.

Lemma main_boot_booted s : boots s → wp main_boot (λ _ s', booted s') s.
Proof.
  intros [Hon Hu Himg Hfit Hroom]. pose proof (exec_frames_nonneg _ Himg).
  unfold main_boot. apply boot_start; [done|done|lia|]. intros s1 rt Hb1 Hcap1. apply wp_bind.
  eapply initproc_spec; [exact Hb1|]. intros s2 es Hb2 Hcap2. apply wp_bind, (wp_unwrap _ tt); [done|].
  apply wp_bind, wp_gets. rewrite (bg_kvm _ _ _ _ _ _ _ _ _ Hb2). apply wp_bind, (wp_unwrap _ (mkKvm (mkPageTable rt))); [done|].
  apply wp_bind. unfold start_kvm. eapply ctl_write_csr; [done|apply Hb2|]. cbv zeta. intros Hc3.
  eapply booting_csr in Hc3 as Hb3; [|exact Hb2|by rewrite csr_set_ne].
  destruct (lookup_lt_is_Some_2 es 0) as [q0 Hq]; [pose proof (bu_length _ _ _ _ (bg_built _ _ _ _ _ _ _ _ _ Hb2)); lia|].
  destruct (bu_entries _ _ _ _ (bg_built _ _ _ _ _ _ _ _ _ Hb2) _ _ Hq) as (u0 & t0 & Hnew).
  eapply boot_first; [exact Hb3|exact Hq|done|done|change (60 + exec_frames INIT < Z.of_nat (capacity (s_mach s2))); by rewrite Hcap2, Hcap1|].
  intros s4 t u tabs F pages p Hc4 Hprog Hstk Hw Ht4 Hto4 Hnew4 Hl4 Hag4 Hsatp4.
  set (s3 := set_mach _ s2) in *. apply wp_bind.
  eapply (ctl_update 0 _ _ _ _ _ _ _ _ p); [exact Hc4|apply list_lookup_insert_eq; by eapply lookup_lt_Some|done|done|].
  intros s5 Hc5 Hs5. rewrite list_insert_insert_eq in Hc5. eapply ctl_KERNEL_unlock; [exact Hc5|done|]. intros s6 Hc6 Hst6.
  pose proof Hst6 as (Hm6 & Hh6 & Hsatp6 & _). rewrite Hs5 in Hm6, Hh6, Hsatp6.
  assert (live (s_mach s6) = live (s_mach s4)) as Hl6 by (unfold live; by rewrite Hh6).
  assert (mach_ok (s_mach s6)) as Hok6 by apply Hc6.
  assert (∀ X, agree X (m_mem (s_mach s4)) (m_mem (s_mach s6))) as Hag6 by (intros X a _; by rewrite Hm6).
  pose proof (pg_rep _ _ _ _ _ _ _ Hprog) as Hu4. destruct (owned_live _ _ _ _ _ _ Hu4) as [Hsub4 _].
  pose proof (ctl_entries _ _ _ _ _ _ _ _ Hc6) as He6.
  assert (program (s_mach s6) u tabs (live (s_mach s6) ∖ owned u tabs pages) pages t INIT) as Hprog6.
  { eapply program_move; [exact Hprog|done|done|apply Hag6|by rewrite Hl6]. }
  destruct (laid_first _ _ _ _ _ _ _ _ q0 (set_state Runnable p) (s_mach s6) t u tabs (live (s_mach s6) ∖ owned u tabs pages) pages Hb3) as (L & HL & Hst & _ & Hsp);
    [unfold s3; cbn; by rewrite csr_set_eq|exact Hq|done|done|exact Hprog6|by rewrite Hl6|done|done|by rewrite Hl6| |congruence|].
  { eapply agree_trans; [exact Hag4|apply Hag6]. }
  split.
  - exists L. rewrite He6. split_and!; [done|done|]. intros i Hi. by eapply kstacks_guard.
  - eexists _, tabs, _, pages. rewrite He6. split_and!; [apply list_lookup_insert_eq; by eapply lookup_lt_Some| | | | | | | | |].
    all: subst q0 p; try done.
    + eapply stack_holds_move; [exact Hu4|apply Hag6|done].
    + unfold tf_word in *. cbn. rewrite Hm6. apply (Hw tf_epc). by left.
    + unfold tf_word in *. cbn. rewrite Hm6. apply (Hw tf_sp). by right.
  - intros j Hj. rewrite He6, list_lookup_insert_ne by lia.
    pose proof (bu_length _ _ _ _ (bg_built _ _ _ _ _ _ _ _ _ Hb3)) as Hlen.
    destruct (lookup_lt_is_Some_2 es j) as [q Hqj]; [lia|].
    destruct (bu_entries _ _ _ _ (bg_built _ _ _ _ _ _ _ _ _ Hb3) _ _ Hqj) as (uq & tq & Hqn).
    destruct (la_slot _ _ _ HL j q (mkSpace ∅ ∅ ∅)) as [Hrepq Htq _ _ _]; [rewrite list_lookup_insert_ne by lia; exact Hqj|apply Hsp; lia|].
    eexists q, _. split; [done|]. subst q. split_and!; [done..|exact Hrepq|exact Htq].
  - by rewrite He6.
Qed.
End boot_run.
