(* ===== verification/Isolation.v ===== *)
(** The running system with its programs held to what the hart lets them do, and the
    invariant of its memory. *)
From S2P Require Export LayoutCode BootRun Sv32.

Section isolation.
Context {E : Env} {EL : EnvLaws E}.
Implicit Types (m : Machine) (s : Sys) (p q : Process) (sp : space) (L : layout) (c : Config).

(** ** User mode *)

(** The satp value with which a process runs. *)
Definition user_satp (p : Process) : Z := usize_from_SATP (get_satp (p_pagetable p)).

(** Where an access in user mode leads, by the process's page table. *)
Definition user_access m (p : Process) (sum : bool) (k : access) (va pa : Z) : Prop :=
  is_u32 va ∧ sv32_access (m_mem m) (user_satp p) true sum k va = Some pa.

(** A step of the system in which the program of the running process is held to its page
    table: it stores bytes where the hart's translation lets it, and a trap writes its
    frame only. *)
Inductive cstep : Config → Config → Prop :=
  | cstep_kernel c c' :
      (∀ i, c_run c ≠ RunUser i) → step c c' → cstep c c'
  | cstep_store s th i p sum va pa b :
      table s !! i = Some p → user_access (s_mach s) p sum Store va pa →
      cstep (mkConfig s th (RunUser i))
        (mkConfig (set_mach (set_mem (st8 (m_mem (s_mach s)) pa b) (s_mach s)) s) th (RunUser i))
  | cstep_trap s th i p g t :
      table s !! i = Some p →
      (∀ a, ¬ in_frame (p_trapframe p) a → ld8 g a = ld8 (m_mem (s_mach s)) a) →
      cstep (mkConfig s th (RunUser i))
        (mkConfig (set_mach (trap_entry true t (set_mem g (s_mach s))) s) th RunTrap).

(** What the system can reach in this way. *)
Definition creachable c : Prop := ∃ s s', boots s ∧ image_ok PRIME ∧
  main_boot s = Done tt s' ∧ rtc cstep (boot_config s') c.

(** ** What a program reaches *)

Lemma table_entry s i p : table s !! i = Some p → entries_of s !! i = Some (unlocked p).
Proof. intros Hp. unfold entries_of. by rewrite list_lookup_fmap, Hp. Qed.

Lemma user_access_page m q sp sum k va pa :
  slot_ok m q sp → user_access m q sum k va pa →
  ∃ x perm, sp_pages sp !! page_of va = Some (x, perm) ∧ pa = x + va mod page_size ∧ frame_ok x.
Proof.
  intros Hso [Hva Hacc]. pose proof (ur_pt _ _ _ _ _ _ (so_space _ _ _ Hso)) as Hpt.
  unfold user_satp, get_satp in Hacc. destruct (uvm_pagetable (p_pagetable q)) as [rt]. cbn [root] in *.
  change (usize_from_SATP (mkSATP 1 0 (shr32 rt 12))) with (satp_of rt) in Hacc.
  destruct ((sp_pages sp ∪ sp_high sp) !! page_of va) as [[x perm]|] eqn:Hx.
  2: { by rewrite (sv32_access_none _ _ _ _ _ _ _ _ _ Hpt Hva Hx) in Hacc. }
  assert (Z.testbit perm 1 = true ∨ (Z.testbit perm 2 = false ∧ Z.testbit perm 3 = true)) as Hrwx.
  { unfold sv32_access in Hacc. rewrite (sv32_walk_rep _ _ _ _ _ _ Hpt Hva), Hx in Hacc.
    destruct (Z.testbit perm 1), (Z.testbit perm 2), (Z.testbit perm 3); auto; done. }
  rewrite (sv32_access_some _ _ _ _ _ _ _ _ _ _ _ Hpt Hva Hx Hrwx) in Hacc. case_match eqn:Hb; [|done].
  injection Hacc as <-. apply andb_true_iff in Hb as [_ Hu].
  apply lookup_union_Some_raw in Hx as [Hx|[_ Hx]].
  - exists x, perm. split_and!; [done|done|]. apply (ur_page _ _ _ _ _ _ (so_space _ _ _ Hso) _ _ Hx).
  - destruct (ur_hi _ _ _ _ _ _ (so_space _ _ _ Hso) _ _ Hx) as [_ Hp]. cbn [snd] in Hp. congruence.
Qed.

Lemma user_access_frame m q sp sum k va pa :
  slot_ok m q sp → user_access m q sum k va pa → page_of pa ∈ frames_of (sp_pages sp).
Proof.
  intros Hso (x & perm & Hp & -> & Hf)%(user_access_page m q sp); [|done].
  rewrite page_of_add; [|apply Hf|by apply Z.mod_pos_bound]. apply elem_of_frames_pages. by exists (page_of va), (x, perm).
Qed.

(** The trampoline in a process's table. *)
Lemma space_trampoline m q sp :
  slot_ok m q sp → p_pid q ≠ None → sp_pages sp !! TRAMPOLINE = None ∧
  (sp_pages sp ∪ sp_high sp) !! TRAMPOLINE = Some (trampoline, Z.lor PTE_R PTE_X).
Proof.
  intros Hso Hpid. pose proof (so_space _ _ _ Hso) as Hu. assert (sp_pages sp !! TRAMPOLINE = None) as Hno.
  { apply eq_None_not_Some. intros [x Hx]. destruct (ur_page _ _ _ _ _ _ Hu _ _ Hx) as ([_ Hlt] & _).
    destruct (ur_size _ _ _ _ _ _ Hu) as (_ & _ & Hle). by assert (TRAPFRAME < TRAMPOLINE) by done; lia. }
  split; [done|]. rewrite lookup_union_r, (so_used _ _ _ Hso Hpid) by done. unfold high.
  by rewrite lookup_insert_ne, lookup_singleton_eq.
Qed.

(** Memory is laid out as before after a store to a program's page. *)
Lemma laid_store s L i p sp sum k va pa b :
  laid (s_mach s) (entries_of s) L → table s !! i = Some p → lo_spaces L !! i = Some sp →
  user_access (s_mach s) p sum k va pa →
  let m' := set_mem (st8 (m_mem (s_mach s)) pa b) (s_mach s) in laid m' (entries_of s) L.
Proof.
  intros HL Hp Hsp Hacc m'. pose proof (table_entry _ _ _ Hp) as He. pose proof (la_slot _ _ _ HL _ _ _ He Hsp) as Hso.
  pose proof (user_access_frame _ _ _ _ _ _ _ Hso Hacc) as Hin. pose proof (laid_ok _ _ _ HL) as Hok.
  assert (page_of pa ∈ live (s_mach s)) as Hl.
  { apply (frames_live _ _ _ Hso). unfold frames, space_frames, owned. set_solver +Hin. }
  assert (∀ a, a ≠ pa → ld8 (m_mem m') a = ld8 (m_mem (s_mach s)) a) as Hm'.
  { intros a Ha. cbn. rewrite ld8_st8, decide_False; done. }
  apply (laid_rewritten (Some i) (s_mach s) (entries_of s) _ (λ a, a = pa) m' (entries_of s)); [done| |split; try done].
  - intros a ->. exists i, (unlocked p), sp. split_and!; [done..|]. by apply elem_of_union_r.
  - apply mach_ok_write_frame with (page_of pa); [done|done|]. intros a Ha. apply Hm'. congruence.
  - intros j q Hq. exists q. split; [done|apply kept_entry_refl].
Qed.
(** Nobody's frame is a page of a program. *)
Lemma user_page_not_frame s L i j p q sp a :
  laid (s_mach s) (entries_of s) L → table s !! i = Some p → table s !! j = Some q → lo_spaces L !! i = Some sp →
  page_of a ∈ frames_of (sp_pages sp) → page_of a ≠ p_trapframe q.
Proof.
  intros HL Hp Hq Hsp Hin Heq. pose proof (table_entry _ _ _ Hp) as He. pose proof (table_entry _ _ _ Hq) as Hf.
  pose proof (la_slot _ _ _ HL _ _ _ He Hsp) as Hso. destruct (laid_space _ _ _ _ _ HL Hf) as (sq & Hsq & Hsoq).
  destruct (decide (i = j)) as [->|Hne].
  - simplify_eq. pose proof (so_frame _ _ _ Hso) as H. unfold space_frames, owned in H. cbn [p_trapframe unlocked set_lock] in H.
    rewrite <- Heq in H. set_solver +H Hin.
  - pose proof (la_apart _ _ _ HL _ _ _ _ _ _ He Hf Hsp Hsq Hne) as Hd. unfold frames, space_frames, owned in Hd.
    cbn [p_trapframe unlocked set_lock] in Hd. rewrite <- Heq in Hd. set_solver +Hd Hin.
Qed.

(** The hart translates as the layout says. *)
Lemma laid_walk m m' s L st va :
  laid m (entries_of s) L → laid m' (entries_of s) L → is_u32 va →
  st = m_csr m satp ∨ (∃ j q, table s !! j = Some q ∧ st = user_satp q) →
  sv32_walk (m_mem m') st va = sv32_walk (m_mem m) st va.
Proof.
  intros HL HL' Hva [->|(j & q & Hq & ->)].
  - rewrite (la_satp _ _ _ HL). change (usize_from_SATP (mkSATP 1 0 (shr32 (lo_root L) 12))) with (satp_of (lo_root L)).
    by rewrite (sv32_walk_rep _ _ _ _ _ _ (la_kernel _ _ _ HL) Hva), (sv32_walk_rep _ _ _ _ _ _ (la_kernel _ _ _ HL') Hva).
  - pose proof (table_entry _ _ _ Hq) as He. destruct (laid_space _ _ _ _ _ HL He) as (sq & Hsq & Hso).
    pose proof (la_slot _ _ _ HL' _ _ _ He Hsq) as Hso'.
    pose proof (ur_pt _ _ _ _ _ _ (so_space _ _ _ Hso)) as H1. pose proof (ur_pt _ _ _ _ _ _ (so_space _ _ _ Hso')) as H2.
    unfold user_satp, get_satp. cbn [p_pagetable unlocked set_lock] in H1, H2. destruct (uvm_pagetable (p_pagetable q)) as [rt]. cbn [root] in *.
    change (usize_from_SATP (mkSATP 1 0 (shr32 rt 12))) with (satp_of rt).
    by rewrite (sv32_walk_rep _ _ _ _ _ _ H1 Hva), (sv32_walk_rep _ _ _ _ _ _ H2 Hva).
Qed.

(** ** The invariant *)

(** What is saved is well formed. *)
Definition config_saved c : Prop := threads_saved (c_threads c) ∧ place_ok (c_run c).

(** A reachable configuration with its abstract state and its layout. *)
Record sound c (a : astate) L : Prop := {
  so_repr : represents c a;
  so_reach : areachable a;
  so_laid : laid (s_mach (c_sys c)) (entries_of (c_sys c)) L;
  so_saved : config_saved c;
}.

Lemma represents_settled c a : represents c a → settled (c_sys c).
Proof.
  intros Hr. destruct (represents_control _ _ Hr) as (d & pv & fr & held & Hk & Hd).
  exists d, pv, (a_run a), (a_procs a), fr, held, false, (a_next a). split; [|done].
  destruct (c_run c); destruct Hd as [-> _]; done.
Qed.
Lemma represents_cur c a : represents c a → current (m_cpu (s_mach (c_sys c))) = a_run a.
Proof. intros Hr. destruct (represents_control _ _ Hr) as (d & pv & fr & held & Hk & _). apply Hk. Qed.

(** The process at work in a configuration. *)
Definition worker c : option nat := current (m_cpu (s_mach (c_sys c))).

Lemma written_trap X g user t m :
  (∀ a, ¬ X a → ld8 g a = ld8 (m_mem m) a) → written X m (trap_entry user t (set_mem g m)).
Proof.
  intros Hg. split; [done| | |exact Hg]; cbn [trap_entry m_csr set_csr set_mem].
  - by rewrite !csr_set_ne by done.
  - intros Hu. rewrite !csr_set_ne, csr_set_eq by done. unfold trap_sstatus.
    apply is_u32_lor; [by apply is_u32_land_l|]. apply is_u32_lor; by case_match.
Qed.

Lemma trap_same user t s : trap_entry user t (s_mach s) = trap_entry user t (set_mem (m_mem (s_mach s)) (s_mach s)).
Proof. by destruct s as [[] ? ? ?]. Qed.

(** Kernel code that keeps the hart, or gives it up. *)
Lemma goto_lays fuel regs s th r a L r' s' :
  image_ok INIT → image_ok PRIME → sound (mkConfig s th r) a L → code fuel regs th r s = Done (Goto r') s' →
  settled s' → evolves (a_run a) s L s' ∧ place_ok r'.
Proof.
  intros HI HP [Hr Ha HL [Hth Hpl]] Hcode Hset.
  pose proof (code_lays fuel regs th r a s L HI HP Hr (areachable_inv _ Ha) HL Hth Hpl) as H.
  rewrite wlp_unfold in H. destruct (H _ _ Hcode) as [Hev Hs]. by split; [apply Hev|].
Qed.

Lemma switch_lays fuel regs s th r a L i res s1 out s2 :
  image_ok INIT → image_ok PRIME → sound (mkConfig s th r) a L → code fuel regs th r s = Done (Switch i res) s1 →
  (save_context i out;; scheduler_return i) s1 = Done tt s2 → settled s2 →
  evolves (a_run a) s L s2 ∧ saved_ok res.
Proof.
  intros HI HP [Hr Ha HL [Hth Hpl]] Hcode Hsw Hset. pose proof (areachable_inv _ Ha) as Hinv.
  pose proof (code_lays fuel regs th r a s L HI HP Hr Hinv HL Hth Hpl) as H. rewrite wlp_unfold in H.
  destruct (H _ _ Hcode) as [Hev Hs]. split; [|done].
  pose proof (wpd_code fuel regs _ _ _ _ Hr Hinv) as Hp. eapply wpd_done in Hp; [|exact Hcode].
  destruct Hp as (Hrun & pv & ps' & fr' & n' & Hk & _). eapply evolves_trans.
  { apply Hev. eapply (kst_settled s1 1); [done|exact Hk]. }
  intros L1 HL1. eapply touch_evolves; [exact HL1| |exact Hset].
  assert (Touch (a_run a) (work_area (a_run a) (entries_of s1) L1) (save_context i out;; scheduler_return i)) as Ht.
  { rewrite Hrun. apply touch_bind; [apply touch_save_context|intros _; apply touch_scheduler_return]. }
  eapply Ht; [by eapply work_area_framed|exact Hsw].
Qed.

(** A change of memory inside the work area, by the hart. *)
Lemma hart_lays s th r a L m' :
  sound (mkConfig s th r) a L → written (work_area (a_run a) (entries_of s) L) (s_mach s) m' →
  settled (set_mach m' s) → evolves (a_run a) s L (set_mach m' s).
Proof. intros [_ _ HL _] Hw Hset. eapply touch_evolves; [exact HL|by apply touch_same|done]. Qed.

(** What a step makes of the abstract state. *)
Lemma cstep_refines c c' a : represents c a → areachable a → cstep c c' → ∃ a', represents c' a' ∧ areachable a'.
Proof.
  intros Hr Ha Hstep. assert (step c c' → ∃ a', represents c' a' ∧ areachable a') as Hst.
  { intros H. eapply represents_rtc; [exact Hr|exact Ha|by apply rtc_once]. }
  destruct Hstep as [c c' _ H|s th i p sum va pa b Hp Hacc|s th i p g t Hp Hg].
  - by apply Hst.
  - exists a. split; [|done]. destruct Hr as (fr & Hth & Hrun & pv & Hk). exists fr. split; [done|]. split; [done|].
    exists pv. eapply kst_mach; [exact Hk| |apply Hk|apply Hk]. by destruct (ks_depth _ _ _ _ _ _ _ _ _ Hk).
  - apply Hst, step_user.
Qed.

Lemma user_run s th i a : represents (mkConfig s th (RunUser i)) a → a_run a = Some i.
Proof. by intros (fr & _ & Hrun & _). Qed.

(** Every step keeps the invariant and changes what belongs to the process at work. *)
Lemma cstep_lays c c' a L :
  image_ok INIT → image_ok PRIME → sound c a L → cstep c c' →
  evolves (worker c) (c_sys c) L (c_sys c') ∧ config_saved c'.
Proof.
  intros HI HP Hs Hstep. pose proof Hs as [Hr Ha HL [Hth Hpl]].
  destruct (cstep_refines _ _ _ Hr Ha Hstep) as (a' & Hr' & Ha').
  pose proof (represents_settled _ _ Hr') as Hset. unfold worker. rewrite (represents_cur _ _ Hr).
  destruct Hstep as [c c' Hnu H|s th i p sum va pa b Hp Hacc|s th i p g t Hp Hg].
  - destruct H as [fuel regs s s' th r r' Hcode|fuel regs s s1 s2 th r i res out Hcode Hout Hsw
      |s th i m t|s th r t Hint Hsie]; cbn [c_sys c_threads] in *.
    + destruct (goto_lays _ _ _ _ _ _ _ _ _ HI HP Hs Hcode Hset) as [Hev Hpl']. done.
    + destruct (switch_lays _ _ _ _ _ _ _ _ _ _ _ _ HI HP Hs Hcode Hsw Hset) as [Hev Hsv]. split; [done|]. split; [|done].
      cbn [c_threads]. intros j x [[_ <-]|[_ Hj]]%lookup_insert_Some; [done|by eapply Hth].
    + by destruct (Hnu i).
    + split; [|done]. eapply hart_lays; [exact Hs| |done]. rewrite trap_same. by apply written_trap.
  - split; [|done]. eapply hart_lays; [exact Hs| |done]. split; try done. intros x Hx. cbn [m_mem set_mem].
    rewrite ld8_st8. case_decide; [|done]. subst x. destruct Hx. cbn [c_sys] in HL. rewrite (user_run _ _ _ _ Hr).
    pose proof (table_entry _ _ _ Hp) as He. destruct (laid_space _ _ _ _ _ HL He) as (sp & Hsp & Hso).
    exists i, (unlocked p), sp. split_and!; [done..|]. apply elem_of_union_r. by eapply user_access_frame.
  - split; [|done]. eapply hart_lays; [exact Hs| |done]. apply written_trap. intros x Hx. apply Hg. intros Hin. apply Hx.
    rewrite (user_run _ _ _ _ Hr). eapply (work_area_framed (Some i)); [exact HL|done|exact Hp|exact Hin].
Qed.

Lemma cstep_sound c c' a L :
  image_ok INIT → image_ok PRIME → sound c a L → cstep c c' → ∃ a' L', sound c' a' L' ∧
    isolated (worker c) (s_mach (c_sys c)) (entries_of (c_sys c)) L (s_mach (c_sys c')) (entries_of (c_sys c')) L'.
Proof.
  intros HI HP Hs Hstep. destruct (cstep_lays _ _ _ _ HI HP Hs Hstep) as [(L' & HL' & Hiso) Hth].
  destruct (cstep_refines _ _ _ (so_repr _ _ _ Hs) (so_reach _ _ _ Hs) Hstep) as (a' & Hr' & Ha').
  exists a', L'. by split.
Qed.

(** The kernel's own map: its four stacks, each above a page that is not mapped. *)
Definition stacks_mapped L : Prop :=
  kstacks 4 (lo_map L) ∧ ∀ i, 0 ≤ i < 4 → lo_map L !! (kstack_at i - page_size) = None.

Lemma creachable_sound c : creachable c → image_ok INIT ∧ image_ok PRIME ∧ ∃ a L, sound c a L ∧ stacks_mapped L.
Proof.
  intros (s & s' & Hb & HP & Hboot & Hsteps). pose proof (bs_image _ Hb) as HI. split; [done|]. split; [done|].
  assert (wpd main_boot (λ _ s', represents (boot_config s') a_initial) s) as Hr by (apply wpd_main_boot; [apply Hb|done]).
  eapply wpd_done in Hr; [|exact Hboot].
  assert (booted s') as [(L & HL & Hst) _ _ _].
  { pose proof (main_boot_booted s Hb) as Hm. unfold wpo in Hm. by rewrite Hboot in Hm. }
  assert (∃ a L, sound (boot_config s') a L ∧ stacks_mapped L) as H0.
  { exists a_initial, L. split; [|done]. split; [done|constructor|done|by split; [intros i r|]]. }
  clear -HI HP H0 Hsteps. induction Hsteps as [c|c1 c2 c3 H12 _ IH]; [done|]. apply IH.
  destruct H0 as (a & L & Hs & Hst). destruct (cstep_sound _ _ _ _ HI HP Hs H12) as (a' & L' & Hs' & Hiso).
  exists a', L'. split; [done|]. destruct (io_kernel _ _ _ _ _ _ _ Hiso) as (_ & _ & Hm). unfold stacks_mapped. by rewrite Hm.
Qed.
End isolation.
