(* ===== verification/Fixtures.v ===== *)
(** Concrete states on the example machine, for the witnesses of properties about a
    process with a trap frame and an address space. *)
From S2P Require Import SimpleEnv.
From S2P Require Export MemSpec UvmProps.

#[export] Existing Instance simple_env.
#[export] Existing Instance simple_laws.

(** A process with a trap frame and an empty address space. *)
Definition bare_process (u : Uvm) (t : Z) : Process :=
  mkProcess 0 (Some 1) Runnable 0 None u Context_zero 0 None t lock_new 0.
Definition bare_sys (m : Machine) (p : Process) : Sys := mkSys m (mkKernel None [p] 2) lock_new true.

Lemma bare_exists : ∃ (m : Machine) (t : Z) (u : Uvm), uvm_rep m u ∅ {[t]} ∅ ∅ ∧ uvm_size u = 0 ∧
  (size (live m) ≤ 2)%nat ∧ (100 < capacity m)%nat.
Proof.
  assert (wp (LockedHeap_alloc PAGE_LAYOUT) (λ t m, ∃ m' u, uvm_rep m' u ∅ {[t]} ∅ ∅ ∧ uvm_size u = 0 ∧
    (size (live m') ≤ 2)%nat ∧ (100 < capacity m')%nat) boot_machine) as H.
  { apply LockedHeap_alloc_spec; [apply boot_ok|]. intros t m (Hok & Hq & _ & Hr).
    assert (live boot_machine = ∅) as Hl0 by done. assert (0 < capacity boot_machine)%nat as Hc0 by by apply Nat.leb_le.
    destruct Hr as [(_ & _ & Hc)|(_ & _ & Hl)].
    { rewrite Hl0, size_empty in Hc. lia. }
    rewrite Hl0, union_empty_r_L in Hl.
    assert (wp Uvm_new (λ o m', ∃ u, uvm_rep m' u ∅ {[t]} ∅ ∅ ∧ uvm_size u = 0 ∧
      (size (live m') ≤ 2)%nat ∧ (100 < capacity m')%nat) m) as Hnew.
    { apply Uvm_new_spec; [done| |].
      - left. rewrite Hl, size_singleton, (qt_cap _ _ Hq). by apply Nat.leb_le.
      - intros u m' Hu Hsz Hq' _. rewrite Hl in Hu. exists u. split; [done|]. split; [done|]. split.
        + rewrite (uvm_rep_live _ _ _ _ _ _ Hu), frames_of_empty. unfold pt_pages, pt_tables.
          rewrite map_img_empty_L, !union_empty_r_L, union_empty_l_L.
          pose proof (size_add_le (root (uvm_pagetable u)) {[t]}) as Hs. by rewrite size_singleton in Hs.
        + rewrite (qt_cap _ _ Hq'), (qt_cap _ _ Hq). by apply Nat.leb_le. }
    apply wp_unfold in Hnew as (o & m' & _ & u & Hu). by exists m', u. }
  apply wp_unfold in H as (t & m & _ & m' & u & H). by exists m', t, u.
Qed.

(** The same process with a page of memory that holds [bytes], and three words in its
    frame. *)
Lemma caller_exists bytes f0 v0 f1 v1 f2 v2 :
  bytes ≠ [] → Z.of_nat (length bytes) ≤ 0xff0 → Forall (λ b, 0 ≤ b < 256) bytes →
  f0 ≠ f1 → f0 ≠ f2 → f1 ≠ f2 → is_u32 v0 → is_u32 v1 → is_u32 v2 →
  ∃ (m : Machine) (t : Z) (u : Uvm) tabs x,
  uvm_rep m u tabs {[t]} {[USER_START := x]} ∅ ∧
  tf_word m t f0 = v0 ∧ tf_word m t f1 = v1 ∧ tf_word m t f2 = v2 ∧
  (∀ k b, bytes !! k = Some b →
     user_byte (m_mem m) {[USER_START := x]} (0x10010 + Z.of_nat k) = Some b) ∧
  (size (live m) ≤ 4)%nat ∧ (100 < capacity m)%nat.
Proof.
  intros Hne Hlen Hbs H01 H02 H12 Hv0 Hv1 Hv2. destruct bare_exists as (m & t & u & Hu & Hsz & Hsize & Hcap).
  assert (wp (r ← Uvm_alloc u 0x1000 6; _ ← copy_out_cont_u8 r.1 0x10010 bytes;
              tf_set t f0 v0;; tf_set t f1 v1;; tf_set t f2 v2;; mret r.1)
    (λ u' m', ∃ tabs x, uvm_rep m' u' tabs {[t]} {[USER_START := x]} ∅ ∧
      tf_word m' t f0 = v0 ∧ tf_word m' t f1 = v1 ∧ tf_word m' t f2 = v2 ∧
      (∀ k b, bytes !! k = Some b →
        user_byte (m_mem m') {[USER_START := x]} (0x10010 + Z.of_nat k) = Some b) ∧
      (size (live m') ≤ 4)%nat ∧ (100 < capacity m')%nat) m) as H.
  2: { apply wp_unfold in H as (u' & m' & _ & tabs & x & H). by exists m', t, u', tabs, x. }
  apply wp_bind. eapply first_page_spec; [exact Hu|done|lia|].
  intros u1 m1 tabs x Hu1 _ _ Hq1 _ Hs1. cbn [fst].
  apply wp_bind. eapply (copy_out_cont_u8_spec _ _ _ _ _ _ USER_START x); [exact Hu1|by apply lookup_singleton_eq|done| |].
  { by split; [|unfold USER_START, page_size; lia]. }
  intros m2 (Hu2 & Hq2 & _ & Hl2 & Hb2). destruct (owned_live _ _ _ _ _ _ Hu2) as [_ Hdis].
  assert (∀ m, uvm_rep m u1 tabs {[t]} {[USER_START := x]} ∅ → t ∈ live m) as Htl.
  { intros m' Hu'. rewrite (uvm_rep_live _ _ _ _ _ _ Hu'). set_solver +. }
  assert (t ∈ ({[t]} : gset Z)) as Htt by set_solver +.
  apply wp_bind, tf_set_spec; [by eapply uvm_rep_ok|by apply Htl|done|]. intros m3 Hw3 Hf3.
  pose proof (wrote_frame_uvm _ _ _ _ _ _ _ _ Hu2 Htt Hw3) as Hu3.
  apply wp_bind, tf_set_spec; [by eapply uvm_rep_ok|by apply Htl|done|]. intros m4 Hw4 Hf4.
  pose proof (wrote_frame_uvm _ _ _ _ _ _ _ _ Hu3 Htt Hw4) as Hu4.
  apply wp_bind, tf_set_spec; [by eapply uvm_rep_ok|by apply Htl|done|]. intros m5 Hw5 Hf5.
  pose proof (wrote_frame_uvm _ _ _ _ _ _ _ _ Hu4 Htt Hw5) as Hu5. apply wp_ret.
  assert (wrote_frame m2 t m5) as (_ & Hq5 & Hl5 & Hag) by (do 2 (eapply wrote_frame_trans; [done|]); done).
  exists tabs, x. split; [done|]. split_and!.
  - by rewrite Hf5, Hf4, Hf3, !decide_False, decide_True by done.
  - by rewrite Hf5, Hf4, decide_False, decide_True by done.
  - by rewrite Hf5, decide_True by done.
  - intros k b Hk. rewrite (user_byte_move m2 m5 u1 tabs {[t]} _ ∅); [|done|apply Hag; clear -Hdis; set_solver +Hdis].
    pose proof (lookup_lt_Some _ _ _ Hk). rewrite Hb2, decide_True by lia.
    replace (0x10010 + Z.of_nat k - 0x10010) with (Z.of_nat k) by lia. rewrite Nat2Z.id, (list_lookup_total_correct _ _ _ Hk).
    f_equal. apply Z.mod_small. by eapply (Forall_lookup_1 _ _ _ _ Hbs).
  - rewrite Hl5, Hl2. lia.
  - rewrite (qt_cap _ _ Hq5), (qt_cap _ _ Hq2), (qt_cap _ _ Hq1). done.
Qed.

(** A process about to write a text. *)
Lemma writer_exists : ∃ (m : Machine) (t : Z) (u : Uvm) tabs x,
  uvm_rep m u tabs {[t]} {[USER_START := x]} ∅ ∧
  tf_word m t tf_a0 = 1 ∧ tf_word m t tf_a1 = 0x10010 ∧ tf_word m t tf_a2 = 2 ∧
  (∀ k b, [104; 105] !! k = Some b →
     user_byte (m_mem m) {[USER_START := x]} (0x10010 + Z.of_nat k) = Some b).
Proof.
  destruct (caller_exists [104; 105] tf_a0 1 tf_a1 0x10010 tf_a2 2) as (m & t & u & tabs & x & Hu & H0 & H1 & H2 & Hb & _);
    [done|cbn; lia|repeat constructor; lia|done..|]. by exists m, t, u, tabs, x.
Qed.

(** ** Two processes *)

(** Two address spaces, the first with a page, and a frame for each. *)
Record two_spaces (m : Machine) u t uq tq tabs F x Fq : Prop := {
  tw_quiet : quiet boot_machine m;
  tw_first : uvm_rep m u tabs F {[USER_START := x]} ∅;
  tw_size : uvm_size u = 0x1000;
  tw_covered : covered u tabs;
  tw_second : uvm_rep m uq ∅ Fq ∅ ∅;
  tw_apart : owned uq ∅ ∅ ⊆ F;
  tw_frames : {[t; tq]} ⊆ F ∩ Fq;
  tw_frame : t ≠ tq;
  tw_room : (size (live m) ≤ 6)%nat ∧ (100 < capacity m)%nat;
}.

Lemma two_exists : ∃ (m : Machine) u t uq tq tabs F x Fq, two_spaces m u t uq tq tabs F x Fq.
Proof.
  assert (wp (t ← LockedHeap_alloc PAGE_LAYOUT; tq ← LockedHeap_alloc PAGE_LAYOUT;
      oq ← Uvm_new; uq ← unwrap oq; o ← Uvm_new; u ← unwrap o; r ← Uvm_alloc u 0x1000 6; mret (r.1, t, uq, tq))
    (λ r m, ∃ tabs F x Fq, two_spaces m r.1.1.1 r.1.1.2 r.1.2 r.2 tabs F x Fq) boot_machine) as H.
  2: { rewrite wp_unfold in H. destruct H as ([[[u t] uq] tq] & m & _ & tabs & F & x & Fq & H).
       exists m, u, t, uq, tq, tabs, F, x, Fq. exact H. }
  assert (live boot_machine = ∅) as Hl0 by done.
  assert (100 < capacity boot_machine)%nat as Hcap by by apply Nat.leb_le.
  apply wp_bind, LockedHeap_alloc_spec; [apply boot_ok|]. intros t m1 (Hok1 & Hq1 & _ & Hr1).
  destruct Hr1 as [(_ & _ & Hc)|(_ & _ & Hl1)]; [rewrite Hl0, size_empty in Hc; lia|]. rewrite Hl0, union_empty_r_L in Hl1.
  pose proof (qt_cap _ _ Hq1) as Hcap1.
  apply wp_bind, LockedHeap_alloc_spec; [done|]. intros tq m2 (Hok2 & Hq2 & _ & Hr2).
  destruct Hr2 as [(_ & _ & Hc)|(_ & Hnq & Hl2)]; [rewrite Hl1, size_singleton in Hc; lia|].
  rewrite Hl1 in Hnq, Hl2. pose proof (qt_cap _ _ Hq2) as Hcap2.
  assert (size (live m2) ≤ 2)%nat as Hs2.
  { rewrite Hl2. pose proof (size_add_le tq {[t]}) as Hs. by rewrite size_singleton in Hs. }
  apply wp_bind, Uvm_new_spec; [done|left; lia|]. intros uq m3 Huq Hszq Hq3 Hag3.
  apply wp_bind, (wp_unwrap _ uq); [done|]. pose proof (qt_cap _ _ Hq3) as Hcap3.
  assert (∀ u : Uvm, owned u ∅ ∅ = {[root (uvm_pagetable u)]}) as Hown.
  { intros u. unfold owned, pt_pages, pt_tables. by rewrite frames_of_empty, map_img_empty_L, !union_empty_r_L. }
  destruct (owned_live _ _ _ _ _ _ Huq) as [Hlq Hdq]. rewrite Hown in Hlq, Hdq.
  pose proof (uvm_rep_live _ _ _ _ _ _ Huq) as Hl3. rewrite frames_of_empty, union_empty_l_L in Hl3.
  unfold pt_pages, pt_tables in Hl3. rewrite map_img_empty_L, union_empty_r_L in Hl3.
  assert (size (live m3) ≤ 3)%nat as Hs3.
  { rewrite Hl3. pose proof (size_add_le (root (uvm_pagetable uq)) (live m2)). lia. }
  apply wp_bind, Uvm_new_spec; [by eapply uvm_rep_ok|left; lia|]. intros u m4 Hu Hsz Hq4 Hag4.
  apply wp_bind, (wp_unwrap _ u); [done|]. pose proof (qt_cap _ _ Hq4) as Hcap4.
  pose proof (uvm_rep_live _ _ _ _ _ _ Hu) as Hl4. rewrite frames_of_empty, union_empty_l_L in Hl4.
  unfold pt_pages, pt_tables in Hl4. rewrite map_img_empty_L, union_empty_r_L in Hl4.
  assert (size (live m4) ≤ 4)%nat as Hs4.
  { rewrite Hl4. pose proof (size_add_le (root (uvm_pagetable u)) (live m3)). lia. }
  apply wp_bind. eapply first_page_spec; [exact Hu|done|lia|].
  intros u' m5 tabs x Hu5 Hsz5 Hcov Hq5 Hag5 Hs5. apply wp_ret. cbn [fst snd].
  assert (live m3 ⊆ live m5) as Hl5 by (rewrite (uvm_rep_live _ _ _ _ _ _ Hu5); set_solver +).
  exists tabs, (live m3), x, (live m5 ∖ {[root (uvm_pagetable uq)]}). split; [|done|done|done| | | | |].
  - trans m1; [done|]. trans m2; [done|]. trans m3; [done|]. by trans m4.
  - rewrite <- Hown. eapply uvm_rep_move; [exact Huq|by eapply uvm_rep_ok| |rewrite Hown; set_solver +Hlq Hl5].
    rewrite Hown. eapply agree_trans; eapply agree_weaken; [|exact Hag4| |exact Hag5]; set_solver +Hlq.
  - by rewrite Hown.
  - assert ({[t; tq]} ⊆ live m2) as Ht by (rewrite Hl2; set_solver +).
    set_solver +Ht Hdq Hl3 Hl5.
  - intros ->. set_solver +Hnq.
  - rewrite (qt_cap _ _ Hq5). split; lia.
Qed.

(** The first process runs, with both locks free. *)
Definition on_hart (m : Machine) : Machine :=
  set_cpu (mkCpu (Some 0%nat) (context (m_cpu m)) (interrupt_off_stack (m_cpu m)) (interrupt_prev_state (m_cpu m))) m.
Definition two_sys (m : Machine) (p q : Process) : Sys := mkSys (on_hart m) (mkKernel None [p; q] 5) lock_new true.

Lemma on_hart_ok m : mach_ok m → mach_ok (on_hart m).
Proof. intros [[] Hh Hl]. by split. Qed.

Lemma on_hart_uvm m u tabs F pages hi : uvm_rep m u tabs F pages hi → uvm_rep (on_hart m) u tabs F pages hi.
Proof. intros Hu. eapply uvm_rep_same; [exact Hu|by eapply on_hart_ok, uvm_rep_ok|done|done]. Qed.

Lemma two_sys_ctl (m : Machine) p q :
  mach_ok m → quiet boot_machine m → p_lock p = lock_new → p_lock q = lock_new →
  ctl (two_sys m p q) 0 (sie_on m) (Some 0%nat) ∅ false 5 [p; q].
Proof.
  intros Hok [Hcpu _] Hp Hq. assert (∀ x : Process, p_lock x = lock_new → unlocked x = x) as Hul.
  { intros [] Hx. unfold unlocked, set_lock. cbn in *. by rewrite Hx. }
  split_and!; [by apply on_hart_ok| |done|].
  { unfold entries_of. cbn. by rewrite !Hul. }
  exists (view <$> [p; q]), (never_run <$> [p; q]).
  split; [|apply Hok|done|done|done| |done|done|done].
  - split; [exact (sc_stack _ _ Hcpu)|done|done|done].
  - intros [|[|j]] x Hx; [..|done]; injection Hx as <-; by rewrite ?Hp, ?Hq.
Qed.
