(* ===== verification/ExecProps.v ===== *)
(** Properties of [kexec]. *)
From Stdlib Require Import (notations) String.
From S2P Require Import SimpleEnv Fixtures.
From S2P Require Export KexecSpec.

Section properties.
Context {E : Env} {EL : EnvLaws E}.
Implicit Types (m : Machine) (s : Sys) (F : gset Z) (tabs : gmap Z Z) (pages hi : entries) (u : Uvm).


(** An empty first argument is not an empty string on the stack: its place is the end of
    the stack page, which is not mapped, and [kexec] fails although it fits. *)
Lemma first_argument_empty m u tabs F pages hi a argv ustack :
  uvm_rep m u tabs F pages hi → user_end u < TRAPFRAME → a ≤ user_end u →
  wp (push_args u a (user_end u) ([] :: argv) ustack) (λ r m', r = None ∧ m' = m) m.
Proof.
  intros Hu Htop Hle. destruct (uvm_end_aligned _ _ _ _ _ _ Hu) as [Ha Hu32].
  cbn [push_args length]. apply wp_bind, wp_sub32; [unfold is_u32 in Hu32; lia|].
  rewrite align8 by (replace (user_end u - Z.of_nat 0) with (user_end u) by lia; done).
  assert ((user_end u - Z.of_nat 0) / 8 * 8 = user_end u) as ->
    by (unfold page_aligned, page_size in Ha; Z.div_mod_to_equations; lia).
  rewrite decide_False by lia. apply wp_bind. unfold copy_out_cont_u8. apply wp_bind.
  eapply walkaddr_spec; [exact (ur_pt _ _ _ _ _ _ Hu)|done|]. unfold translate.
  assert (page_of (user_end u) = user_end u) as -> by (unfold page_of, page_aligned in *; lia).
  rewrite lookup_union, (uvm_end_free _ _ _ _ _ _ _ Hu), (hi_low _ _ _ _ _ _ _ Hu Htop) by lia.
  by apply wp_ret, wp_ret.
Qed.

(** An argument longer than the stack pointer is not reported: the subtraction
    overflows. *)
Lemma argument_too_long m u a sp arg argv ustack :
  sp < Z.of_nat (length arg) → push_args u a sp (arg :: argv) ustack m = Panic POverflow.
Proof. intros H. cbn [push_args]. unfold sub32, mbind, M_bind. by rewrite decide_False by lia. Qed.
End properties.

(** ** Witnesses, on the example machine *)

