(* ===== verification/ForkProps.v ===== *)
(** Properties of [kfork]. *)
From S2P Require Import SimpleEnv Fixtures.
From S2P Require Export ForkSpec.

Section properties.
Context {E : Env} {EL : EnvLaws E}.
Implicit Types (m : Machine) (s : Sys) (F : gset Z) (tabs : gmap Z Z) (pages hi : entries) (es : list Process).

(** C7. [kfork] copies the parent.  When the table has a free entry, the first one
    becomes the child: runnable, with the next pid and the caller as its parent, a new
    trap frame equal to the caller's but for the result 0, and an address space of its
    own with the same pages, permissions and bytes; the caller gets the child's pid in
    its frame and as the result, and its own memory, its frame otherwise and everything
    else in use are as before; no lock is left held.  When there is no free entry, it
    reports the error and nothing has changed. *)
Theorem kfork_copies s i p n pv cur es :
  ctl s 0 pv cur ∅ false n es → es !! i = Some p → 0 ≤ n → n + 1 < U32 →
  match free_entry es with
  | None => wp (kfork i) (λ r s', r = None ∧ ctl s' 0 pv cur ∅ false n es ∧ still (s_mach s) (s_mach s')) s
  | Some c => ∀ q tabs F pages hi tabsq Fq pagesq hiq,
      es !! c = Some q → c ≠ i →
      fork_apart (s_mach s) p q tabs F pages hi tabsq Fq pagesq hiq → fork_enough (s_mach s) p q tabs →
      let old := {[p_trapframe q]} ∪ owned (p_pagetable q) tabsq pagesq in
      wp (kfork i) (λ r s', r = Some n ∧ ∃ t vm,
        ctl s' 0 pv cur ∅ false (n + 1) (<[c := fork_entry p (claimed q t n) t vm]> es) ∧
        fork_memory (s_mach s) (p_trapframe p) pages old (s_mach s') t vm n ∧
        (∃ F', uvm_rep (s_mach s') (p_pagetable p) tabs F' pages hi) ∧
        (∀ va, user_byte (m_mem (s_mach s')) pages va = user_byte (m_mem (s_mach s)) pages va)) s
  end.
Proof.
  intros Hc Hp Hn0 Hn. destruct (free_entry es) as [c|] eqn:Hfree.
  - intros q tabs F pages hi tabsq Fq pagesq hiq Hq Hci Hr Hen.
    eapply kfork_spec; [exact Hc|exact Hp|done|by left|exact Hfree|exact Hq|done|exact Hr|by left|done|].
    intros t vm s3 Hc3 Hm Ht. split; [done|]. exists t, vm. split; [exact Hc3|]. split; [exact Hm|].
    destruct Hr as [Hu Huq Hap Hfr _]. destruct (owned_live _ _ _ _ _ _ Hu) as [Hpl Hpd].
    eapply fork_memory_parent; [exact Hu| | | |apply Hc3|exact Hm]; [set_solver +Hap Hfr..|set_solver +Hpl Hpd Ht Hap Hfr].
  - unfold kfork. apply wp_bind. eapply ctl_KERNEL_lock; [exact Hc|done|]. intros s1 Hc1 Hs1. apply wp_bind.
    eapply allocproc_none; [exact Hc1|done|]. apply wp_bind, wp_ret, wp_bind.
    eapply ctl_KERNEL_unlock; [exact Hc1|done|]. intros s2 Hc2 Hs2. apply wp_ret.
    split; [done|]. split; [exact Hc2|by trans (s_mach s1)].
Qed.
End properties.

(** ** Witness, on the example machine *)

(** A process with a page of memory, about to fork, and a free entry. *)
Definition fork_parent (u : Uvm) (t : Z) : Process :=
  mkProcess 0 (Some 0) Running 0x80400000 None u Context_zero 0 None t lock_new 1.
Definition fork_slot (u : Uvm) (t : Z) : Process :=
  mkProcess 1 None Unused 0x80403000 None u Context_zero 0 None t lock_new 0.

Lemma fork_slot_ready m u t uq tq tabs F x Fq :
  two_spaces m u t uq tq tabs F x Fq →
  fork_apart (on_hart m) (fork_parent u t) (fork_slot uq tq) tabs F {[USER_START := x]} ∅ ∅ Fq ∅ ∅ ∧
  fork_enough (on_hart m) (fork_parent u t) (fork_slot uq tq) tabs.
Proof.
  intros [Hq Hu Hsz Hcov Huq Hap Hfr Hne [Hs Hcap]].
  split; [split; [by apply on_hart_uvm|by apply on_hart_uvm|done..]|]. split; [done|done|].
  cbn [p_pagetable fork_parent]. unfold clone_room. rewrite Hsz. change (0x1000 / page_size) with 1.
  change (live (on_hart m)) with (live m). change (capacity (on_hart m)) with (capacity m). lia.
Qed.

Lemma kfork_copies_witness : ∃ (m : Machine) u t uq tq pages, is_Some (pages !! USER_START) ∧
  wp (kfork 0) (λ r s', r = Some 5 ∧ ∃ old t' vm, fork_memory (on_hart m) t pages old (s_mach s') t' vm 5)
    (two_sys m (fork_parent u t) (fork_slot uq tq)).
Proof.
  destruct two_exists as (m & u & t & uq & tq & tabs & F & x & Fq & Htw). destruct (fork_slot_ready _ _ _ _ _ _ _ _ _ Htw) as [Hr Hen].
  destruct Htw as [Hq Hu _ _ _ _ _ _ _].
  exists m, u, t, uq, tq, {[USER_START := x]}. split; [by rewrite lookup_singleton_eq|].
  pose proof (kfork_copies (two_sys m (fork_parent u t) (fork_slot uq tq)) 0 (fork_parent u t) 5 (sie_on m) (Some 0%nat)
    [fork_parent u t; fork_slot uq tq] (two_sys_ctl m (fork_parent u t) (fork_slot uq tq) (uvm_rep_ok _ _ _ _ _ _ Hu) Hq eq_refl eq_refl)
    eq_refl ltac:(done) ltac:(done)) as H.
  assert (free_entry [fork_parent u t; fork_slot uq tq] = Some 1%nat) as Hf by reflexivity. rewrite Hf in H.
  specialize (H (fork_slot uq tq) tabs F {[USER_START := x]} ∅ ∅ Fq ∅ ∅ eq_refl ltac:(done) Hr Hen).
  eapply wp_mono; [exact H|]. intros r s' (Hres & t' & vm & _ & Hm & _). split; [exact Hres|].
  eexists _, t', vm. exact Hm.
Defined.
