(* ===== verification/WaitProps.v ===== *)
(** Properties of [kwait]. *)
From Stdlib Require Import (notations) String.
From S2P Require Import SimpleEnv Fixtures.
From S2P Require Export WaitSpec.

Section properties.
Context {E : Env} {EL : EnvLaws E}.
Implicit Types (m : Machine) (s : Sys) (F : gset Z) (tabs : gmap Z Z) (pages hi : entries) (es : list Process).

(** Memory when the parent [p] finds the zombie [q]: their address spaces, which share
    nothing, and room for the page table of the free entry. *)
Record reap_ready m (p q : Process) tabs F pages hi tabsq Fq pagesq hiq : Prop := {
  rr_parent : uvm_rep m (p_pagetable p) tabs F pages hi;
  rr_zombie : uvm_rep m (p_pagetable q) tabsq Fq pagesq hiq;
  rr_apart : {[p_trapframe q]} ∪ owned (p_pagetable q) tabsq pagesq ⊆ F;
  rr_frame : p_trapframe q ∈ Fq;
  rr_room : (size (live m) + 1 < capacity m)%nat;
}.

(** Where the status goes: nowhere, or to a word of the parent's memory. *)
Definition status_ok pages (addr : Z) : Prop :=
  addr = 0 ∨ addr mod 4 = 0 ∧ ∃ a x, pages !! a = Some x ∧ in_page a addr 4.

Definition with_status pages m (addr status va : Z) : option Z :=
  if decide (addr ≠ 0 ∧ addr ≤ va < addr + 4) then Some (word_byte status (va - addr))
  else user_byte (m_mem m) pages va.

(** Storing the status writes the caller's memory, if it writes at all. *)
Lemma store_status_spec s i p tabs F pages hi addr x d pv cur held kl n es :
  ctl s d pv cur held kl n es → es !! i = Some p → uvm_rep (s_mach s) (p_pagetable p) tabs F pages hi →
  status_ok pages addr →
  wp (store_status i addr x) (λ _ s', ctl s' d pv cur held kl n es ∧ live (s_mach s') = live (s_mach s) ∧
    agree F (m_mem (s_mach s)) (m_mem (s_mach s')) ∧ m_csr (s_mach s') satp = m_csr (s_mach s) satp ∧
    ∀ va, user_byte (m_mem (s_mach s')) pages va = with_status pages (s_mach s) addr x va) s.
Proof.
  intros Hc Hp Hu Hst. unfold store_status, with_status. case_decide as Haddr.
  - destruct Hst as [?|(Hal & a & y & Hy & Hin)]; [done|].
    apply wp_bind. eapply ctl_proc; [exact Hc|exact Hp|].
    intros self _ Hself. assert (p_pagetable self = p_pagetable p) as -> by by subst p.
    apply wp_bind. eapply ctl_lift; [exact Hc|]. eapply copy_out_spec; [exact Hu|exact Hy|done|done|].
    intros m (Hu' & Hq & Hag & Hl & Hb). split; [by eapply uvm_rep_ok|]. split; [done|]. intros Hc'.
    apply (wp_unwrap _ tt); [done|]. split_and!; [exact Hc'|done|done|apply (sc_csr _ _ (qt_cpu _ _ Hq))|].
    intros va. cbn [s_mach set_mach]. rewrite Hb.
    destruct (decide (addr ≤ va < addr + 4)); [by rewrite decide_True|by rewrite decide_False by tauto].
  - apply wp_ret. split_and!; [exact Hc|done|done|done|]. intros va. by rewrite decide_False by tauto.
Qed.

(** C9. [kwait] collects a dead child, or sleeps, or says that there is none.  When a
    child is a zombie, the first one in the table is reaped: the caller gets its pid,
    and its exit status at the address it gave; the entry is free again, with an empty
    address space and a new frame; the child's user frames are back in the heap, and the
    rest of memory is as before.  When all children are alive, the caller is marked as
    sleeping on its own pid, its lock is held and the others are free, ready for the
    switch.  When there are no children the result is -1.  In the last two cases memory
    and the heap have not changed. *)
Theorem kwait_collects s i p n pv es addr :
  ctl s 0 pv (Some i) ∅ false n es → es !! i = Some p → p_state p = Running →
  (∀ j q, es !! j = Some q → p_pid q = p_pid p → j = i) →
  match zombie_child (p_pid p) es with
  | Some j => ∀ q pid tabs F pages hi tabsq Fq pagesq hiq,
      es !! j = Some q → p_pid q = Some pid →
      reap_ready (s_mach s) p q tabs F pages hi tabsq Fq pagesq hiq → status_ok pages addr →
      wp (kwait_iter i addr) (λ r s', r = WaitDone pid ∧ ∃ u t,
        ctl s' 0 pv (Some i) ∅ false n (<[j := recycled q u t]> es) ∧
        recycled_memory (s_mach s) ({[p_trapframe q]} ∪ owned (p_pagetable q) tabsq pagesq)
          (owned (p_pagetable p) tabs pages) pagesq (s_mach s') u t ∧
        ∀ va, user_byte (m_mem (s_mach s')) pages va =
          with_status pages (s_mach s) addr (p_xstatus q) va) s
  | None =>
      wp (kwait_iter i addr) (λ r s', still (s_mach s) (s_mach s') ∧
        if any_child (p_pid p) es
        then r = WaitSleep pv ∧
          ctl s' 1 pv (Some i) {[i]} false n (<[i := set_state Sleeping (set_channel (p_pid p) p)]> es)
        else r = WaitDone (-1) ∧ ctl s' 0 pv (Some i) ∅ false n es) s
  end.
Proof.
  intros Hc Hp Hrun Huniq. destruct (zombie_child (p_pid p) es) as [j|] eqn:Hz.
  - intros q pid tabs F pages hi tabsq Fq pagesq hiq Hq Hqp [Hu Huq Hap Hfr Hroom] Hst. set (m := s_mach s) in *.
    set (old := {[p_trapframe q]} ∪ owned (p_pagetable q) tabsq pagesq) in *.
    set (mine := owned (p_pagetable p) tabs pages).
    destruct (owned_live _ _ _ _ _ _ Hu) as [Hpl Hpd]. fold mine in Hpl, Hpd.
    assert (mine ⊆ live m ∖ old) as Hmine by set_solver +Hpl Hpd Hap.
    unfold kwait_iter. apply wp_bind.
    eapply kwait_scan_zombie; [exact Hc|exact Hp|by split|exact Hz|exact Hq|exact Hqp|exact Huq|exact Hfr|by left|].
    fold m old. intros u t s3 Hc3 Hm3. cbn [kwait_end].
    assert (uvm_rep (s_mach s3) (p_pagetable p) tabs (live (s_mach s3) ∖ mine) pages hi) as Hu3.
    { destruct Hm3 as [_ _ Hl _ Hag _ _]. rewrite difference_empty_L in Hag.
      eapply uvm_rep_move; [exact Hu|apply Hc3|by eapply agree_weaken|by etransitivity]. }
    assert (∀ va, user_byte (m_mem (s_mach s3)) pages va = user_byte (m_mem m) pages va) as Hb3.
    { intros va. eapply user_byte_move; [exact Hu|]. eapply agree_weaken; [|apply Hm3]. rewrite difference_empty_L. done. }
    apply wp_bind. eapply wp_mono.
    { eapply store_status_spec; [exact Hc3| |exact Hu3|exact Hst]. rewrite list_lookup_insert_ne; [exact Hp|].
      intros ->. destruct (zombie_child_state _ _ _ _ Hz Hp). congruence. }
    intros [] s4 (Hc4 & Hl4 & Hag4 & Hsa4 & Hb4). apply wp_ret. split; [done|]. exists u, t. split; [exact Hc4|]. split.
    + eapply recycled_memory_write; [exact Hm3|apply Hc4|done..].
    + intros va. rewrite Hb4. unfold with_status. by rewrite Hb3.
  - unfold kwait_iter. apply wp_bind. eapply wp_mono; [by apply kwait_scan_alive|].
    intros r s1 [Hs1 H]. destruct (any_child _ _); destruct H as [-> Hc1]; [by apply wp_ret|].
    apply wp_bind. eapply ctl_println; [exact Hc1|]. intros s2 Hc2 Hs2. apply wp_ret.
    split; [by trans (s_mach s1)|by split].
Qed.
End properties.

(** ** Witness, on the example machine *)

(** A process that waits and its child, which has exited with status 7. *)
Definition wait_parent (u : Uvm) (t : Z) : Process :=
  mkProcess 0 (Some 0) Running 0x80400000 None u Context_zero 0 None t lock_new 1.
Definition wait_child (u : Uvm) (t : Z) : Process :=
  mkProcess 1 (Some 4) Zombie 0x80403000 (Some 0) u Context_zero 7 None t lock_new 3.

Lemma wait_child_ready m u t uq tq tabs F x Fq :
  two_spaces m u t uq tq tabs F x Fq →
  reap_ready (on_hart m) (wait_parent u t) (wait_child uq tq) tabs F {[USER_START := x]} ∅ ∅ Fq ∅ ∅.
Proof.
  intros [Hq Hu Hsz Hcov Huq Hap Hfr Hne [Hs Hcap]].
  split; [by apply on_hart_uvm|by apply on_hart_uvm| | |].
  - cbn [p_pagetable p_trapframe wait_child]. set_solver +Hap Hfr.
  - cbn [p_trapframe wait_child]. set_solver +Hfr.
  - change (live (on_hart m)) with (live m). change (capacity (on_hart m)) with (capacity m). lia.
Qed.

Lemma kwait_collects_witness : ∃ (m : Machine) u t uq tq pages,
  wp (kwait_iter 0 0x10010) (λ r s', r = WaitDone 4 ∧
    ∀ k, 0 ≤ k < 4 → user_byte (m_mem (s_mach s')) pages (0x10010 + k) = Some (word_byte 7 k))
    (two_sys m (wait_parent u t) (wait_child uq tq)).
Proof.
  destruct two_exists as (m & u & t & uq & tq & tabs & F & x & Fq & Htw). pose proof (wait_child_ready _ _ _ _ _ _ _ _ _ Htw) as Hr.
  destruct Htw as [Hq Hu _ _ _ _ _ _ _]. exists m, u, t, uq, tq, {[USER_START := x]}.
  pose proof (kwait_collects (two_sys m (wait_parent u t) (wait_child uq tq)) 0 (wait_parent u t) 5 (sie_on m)
    [wait_parent u t; wait_child uq tq] 0x10010 (two_sys_ctl m (wait_parent u t) (wait_child uq tq) (uvm_rep_ok _ _ _ _ _ _ Hu) Hq eq_refl eq_refl)
    eq_refl eq_refl ltac:(intros [|[|j]] q Hj Hpid; [done|by injection Hj as <-|done])) as H.
  assert (zombie_child (p_pid (wait_parent u t)) [wait_parent u t; wait_child uq tq] = Some 1%nat) as Hf by reflexivity.
  rewrite Hf in H.
  specialize (H (wait_child uq tq) 4 tabs F {[USER_START := x]} ∅ ∅ Fq ∅ ∅ eq_refl eq_refl Hr).
  eapply wp_mono; [apply H|].
  { right. split; [done|]. exists USER_START, x. split; [apply lookup_singleton_eq|apply one_page_in]. }
  intros r s' (Hres & u' & t' & _ & _ & Hb). split; [exact Hres|]. intros k Hk. rewrite Hb. unfold with_status.
  rewrite decide_True by (split; [done|lia]). do 2 f_equal. cbn [p_xstatus wait_child]. lia.
Defined.
