(* ===== verification/ExitProps.v ===== *)
(** Properties of [kexit]. *)
From S2P Require Import SimpleEnv Fixtures WaitProps.
From S2P Require Export ExitSpec.

Section properties.
Context {E : Env} {EL : EnvLaws E}.
Implicit Types (m : Machine) (s : Sys) (p q : Process) (es : list Process).

Lemma woken_running ch p : p_state p = Running → woken ch p = p.
Proof. intros Hp. unfold woken. rewrite decide_False; [done|]. intros [H _]. congruence. Qed.

(** Giving up the children changes nothing of the process itself. *)
Lemma given_up_self i p es :
  es !! i = Some p → p_state p = Running → p_parent p ≠ p_pid p → given_up (p_pid p) es !! i = Some p.
Proof.
  intros Hp Hr Hpar. assert (orphaned (p_pid p) p = p) as Ho by (unfold orphaned; by rewrite decide_False).
  unfold given_up. case_match; rewrite !list_lookup_fmap, Hp; cbn; rewrite Ho; [|done]. by rewrite woken_running.
Qed.

Lemma length_given_up pid es : length (given_up pid es) = length es.
Proof. unfold given_up. case_match; by rewrite !length_fmap. Qed.

(** C10. [kexit] ends a process.  Init may not exit.  Any other process becomes a zombie with
    the exit status it gave, its address space, frame and pid untouched until it is
    collected; its children go to init, which is woken if it waits and there are any; its
    parent is woken if it waits; no other entry changes and no byte of memory does.  The
    process then holds its own lock and no other and is ready for the switch, with the
    interrupt state it came with saved. *)
Theorem kexit_dies s i p n pv es xstatus :
  ctl s 0 pv (Some i) ∅ false n es → es !! i = Some p → p_state p = Running → p_parent p ≠ p_pid p →
  if decide (p_pid p = Some 0) then kexit_enter i xstatus s = Panic PInitExit
  else wp (kexit_enter i xstatus) (λ prev s', prev = pv ∧ still (s_mach s) (s_mach s') ∧
    ctl s' 1 pv (Some i) {[i]} false n (exited i xstatus p es)) s.
Proof.
  intros Hc Hp Hr Hpar. pose proof (lookup_lt_Some _ _ _ Hp) as Hlt. case_decide as H0.
  { assert (wp (proc i) (λ self s', p_pid self = Some 0 ∧ s' = s) s) as H.
    { eapply ctl_proc; [exact Hc|exact Hp|]. intros self _ <-. done. }
    apply wp_unfold in H as (self & s' & H & Hpid & ->). unfold kexit_enter, mbind, M_bind. rewrite H. by rewrite decide_True. }
  unfold kexit_enter. apply wp_bind. eapply ctl_proc; [exact Hc|exact Hp|]. intros self _ Hself.
  assert (p_pid self = p_pid p) as -> by by subst p. rewrite decide_False by done.
  apply wp_bind. eapply ctl_own_lock; [exact Hc|apply lock_new_free|done|]. intros g s1 Hc1 Hs1.
  apply wp_bind. eapply ctl_KERNEL_lock; [exact Hc1|done|]. intros s2 Hc2 Hs2.
  apply wp_bind. eapply ctl_proc; [exact Hc2|exact Hp|]. intros self2 _ Hself2.
  assert (p_pid self2 = p_pid p) as -> by (by rewrite <- Hself2).
  apply wp_bind. eapply ctl_reparent; [exact Hc2|done|done|]. intros s3 Hc3 Hs3.
  apply wp_bind. eapply ctl_KERNEL_unlock; [exact Hc3|done|]. intros s4 Hc4 Hs4.
  pose proof (given_up_self i p es Hp Hr Hpar) as Hg.
  apply wp_bind. eapply ctl_KERNEL_lock; [exact Hc4|done|]. intros s5 Hc5 Hs5.
  apply wp_bind. eapply ctl_proc; [exact Hc5|exact Hg|]. intros self3 _ Hself3.
  assert (p_parent self3 = p_parent p) as -> by (by rewrite <- Hself3).
  apply wp_bind. eapply ctl_wakeup; [exact Hc5|done|done|]. intros s6 Hc6 Hs6.
  assert ((woken (p_parent p) <$> given_up (p_pid p) es) !! i = Some p) as Hw.
  { rewrite list_lookup_fmap, Hg. cbn. by rewrite woken_running. }
  apply wp_bind. eapply ctl_KERNEL_unlock; [exact Hc6|done|]. intros s7 Hc7 Hs7.
  apply wp_bind. eapply ctl_lock_proc; [exact Hc7|set_solver +|by eapply lookup_lt_Some|done|]. intros s8 Hc8 Hs8.
  rewrite union_empty_r_L in Hc8. apply wp_bind. eapply ctl_update; [exact Hc8|exact Hw|done|done|]. intros s9 Hc9 Hs9.
  apply wp_bind. eapply ctl_update; [exact Hc9|apply list_lookup_insert_eq; by eapply lookup_lt_Some|done|done|].
  intros s10 Hc10 Hs10. rewrite list_insert_insert_eq in Hc10. fold (dead xstatus p) in Hc10.
  apply wp_bind. eapply ctl_own_unlock; [exact Hc10|done|]. intros _ s11 Hc11 Hs11.
  eapply ctl_sched_enter; [exact Hc11|apply list_lookup_insert_eq; by eapply lookup_lt_Some|done|].
  split; [done|]. split; [|exact Hc11]. rewrite Hs10, Hs9 in Hs11.
  repeat (etransitivity; [eassumption|]). done.
Qed.
End properties.

(** ** Witness, on the example machine *)

#[local] Existing Instance simple_env.
#[local] Existing Instance simple_laws.

(** A child of init that exits while init waits. *)
Definition exit_child : Process :=
  mkProcess 0 (Some 4) Running 0x80403000 (Some 0) (mkUvm USER_START 0 (mkPageTable 0)) Context_zero 0 None 0 lock_new 3.
Definition exit_parent : Process :=
  mkProcess 1 (Some 0) Sleeping 0x80400000 None (mkUvm USER_START 0 (mkPageTable 0)) Context_zero 0 (Some 0) 0 lock_new 1.

Lemma kexit_dies_witness :
  wp (kexit_enter 0 7) (λ _ s', ∃ q p, entries_of s' = [q; p] ∧
    p_state q = Zombie ∧ p_xstatus q = 7 ∧ p_pid q = Some 4 ∧ p_state p = Runnable)
    (two_sys boot_machine exit_child exit_parent).
Proof.
  assert (p_pid exit_child ≠ Some 0) as Hne by done.
  pose proof (kexit_dies (two_sys boot_machine exit_child exit_parent) 0 exit_child 5 (sie_on boot_machine)
    [exit_child; exit_parent] 7 (two_sys_ctl boot_machine exit_child exit_parent boot_ok ltac:(done) eq_refl eq_refl)
    eq_refl eq_refl ltac:(done)) as H.
  rewrite (decide_False (P := p_pid exit_child = Some 0) _ _ Hne) in H. eapply wp_mono; [exact H|]. intros prev s' (_ & _ & Hc).
  rewrite (ctl_entries _ _ _ _ _ _ _ _ Hc). eexists _, _. split; [reflexivity|]. split_and!; reflexivity.
Defined.
