(* ===== verification/SyscallProps.v ===== *)
(** Properties of the system calls: [write], and [exec] from the words in the caller's
    registers to the new program. *)
From Stdlib Require Import (notations) String.
From S2P Require Import SimpleEnv Fixtures.
From S2P Require Export KexecSpec Trap.

Section properties.
Context {E : Env} {EL : EnvLaws E}.
Implicit Types (m : Machine) (s : Sys) (F : gset Z) (tabs : gmap Z Z) (pages hi : entries) (u : Uvm).

(** C39. [sys_write] prints what the program wrote: for the standard output and a run
    of user bytes inside one page that is well-formed UTF-8, exactly these bytes go
    to the UART, in order, the call returns 0 in the caller's frame, and the rest of
    the frame, the program's memory and the table are as before.  Any other
    descriptor panics the kernel. *)
Theorem sys_write_prints s i p tabs F pages hi a x addr bytes :
  table s !! i = Some p → uvm_rep (s_mach s) (p_pagetable p) tabs F pages hi →
  p_trapframe p ∈ F →
  let word := tf_word (s_mach s) (p_trapframe p) in
  word tf_a1 = addr → word tf_a2 = Z.of_nat (length bytes) →
  bytes ≠ [] → pages !! a = Some x → in_page a addr (Z.of_nat (length bytes)) → utf8_valid bytes = true →
  (∀ k b, bytes !! k = Some b → user_byte (m_mem (s_mach s)) pages (addr + Z.of_nat k) = Some b) →
  if decide (word tf_a0 = 1) then
    wp (sys_write i) (λ _ s', table s' = table s ∧
      m_uart (s_mach s') = m_uart (s_mach s) ++ bytes ∧
      (∀ f, tf_word (s_mach s') (p_trapframe p) f = if decide (f = tf_a0) then 0 else word f) ∧
      uvm_rep (s_mach s') (p_pagetable p) tabs F pages hi ∧
      (∀ va, user_byte (m_mem (s_mach s')) pages va = user_byte (m_mem (s_mach s)) pages va)) s
  else sys_write i s = Panic PWriteFd.
Proof.
  intros Hi Hu Ht word Ha1 Ha2 Hne Hx Hin Hutf Hbytes. set (t := p_trapframe p) in *.
  pose proof (uvm_rep_ok _ _ _ _ _ _ Hu) as Hok.
  assert (t ∈ live (s_mach s)) as Htl by (rewrite (uvm_rep_live _ _ _ _ _ _ Hu); set_solver).
  assert (0 < Z.of_nat (length bytes)) as Hlen by (destruct bytes; cbn; [done|lia]).
  case_decide as Hfd.
  - unfold sys_write. eapply wp_bind, wp_proc; [exact Hi|]. apply wp_lift.
    do 3 (apply wp_bind, tf_get_spec; [done|done|]). fold t word. rewrite Hfd, Ha1, Ha2.
    rewrite decide_False by (intros H; by apply H). apply wp_bind.
    eapply copy_in_cont_user; [exact Hu|exact Hx|done|done|]. intros l Hl Hlb.
    assert (l = bytes) as ->.
    { apply list_eq. intros k. destruct (bytes !! k) as [b|] eqn:Hk.
      - rewrite <- (Nat2Z.id k), Hlb; [by apply Hbytes|]. apply lookup_lt_Some in Hk. lia.
      - apply lookup_ge_None_2. apply lookup_ge_None_1 in Hk. lia. }
    apply wp_bind, (wp_unwrap _ bytes); [done|]. unfold from_utf8. rewrite Hutf.
    apply wp_bind, (wp_unwrap _ bytes); [done|]. apply wp_bind, uart_print_spec.
    apply tf_set_spec; [|done|done|].
    { destruct Hok as [[] Hh Hlk]. by split. }
    intros m' Hw Hf. pose proof Hw as (_ & [[] _] & _ & _).
    split; [done|]. split; [done|]. split; [exact Hf|].
    assert (uvm_rep (put_uart bytes (s_mach s)) (p_pagetable p) tabs F pages hi) as Hu'.
    { eapply uvm_rep_same; [exact Hu| |done..]. destruct Hok as [[] Hh Hlk]. by split. }
    split; [by eapply wrote_frame_uvm|]. intros va. destruct (owned_live _ _ _ _ _ _ Hu') as [_ Hdis].
    eapply (user_byte_move (put_uart bytes (s_mach s))); [exact Hu'|]. apply Hw. set_solver.
  - pose proof (λ f, tf_get_done t f _ Hok Htl) as Hget. unfold sys_write, proc, lift, mbind, M_bind, gets.
    fold (table s). rewrite Hi. unfold mret, M_ret. fold t. rewrite !Hget. by rewrite decide_True.
Qed.

(** ** exec *)

(** A zero-terminated string, an aligned word, and a null-terminated vector of pointers
    to strings, as the program sees them in its memory. *)
Definition user_string m pages (va : Z) (l : list Z) : Prop := ∃ a x,
  pages !! a = Some x ∧ in_page a va (Z.of_nat (length l) + 1) ∧ Forall (λ b, b ≠ 0) l ∧ utf8_valid l = true ∧
  ∀ k b, (l ++ [0]) !! k = Some b → user_byte (m_mem m) pages (va + Z.of_nat k) = Some b.
Definition user_word m pages (va w : Z) : Prop := is_u32 w ∧ va mod 4 = 0 ∧ ∃ a x,
  pages !! a = Some x ∧ in_page a va 4 ∧
  ∀ k, 0 ≤ k < 4 → user_byte (m_mem m) pages (va + k) = Some (word_byte w k).
Fixpoint user_vector m pages (va : Z) (argv : list (list Z)) : Prop :=
  match argv with
  | [] => user_word m pages va 0
  | l :: argv => va + 4 < U32 ∧ ∃ w, w ≠ 0 ∧ user_word m pages va w ∧ user_string m pages w l ∧
      user_vector m pages (va + 4) argv
  end.

Lemma copy_in_word {fails : Prop} m u tabs F pages hi va w (Q : option Z → Machine → Prop) :
  uvm_rep m u tabs F pages hi → user_word m pages va w → Q (Some w) m → wpo fails (copy_in u va) Q m.
Proof.
  intros Hu (Hw & Hal & a & x & Hx & Hin & Hb) HQ. eapply copy_in_spec; [exact Hu|exact Hx|done|done|].
  intros w' Hw' Hb'. rewrite (word_byte_inj w' w); [done|done|done|]. intros k Hk.
  specialize (Hb k Hk). rewrite (Hb' k Hk) in Hb. by injection Hb.
Qed.
Lemma copy_in_string {fails : Prop} m u tabs F pages hi va l fuel (Q : option (list Z) → Machine → Prop) :
  uvm_rep m u tabs F pages hi → user_string m pages va l → (length l < fuel)%nat → Q (Some l) m →
  wpo fails (copy_in_str fuel u va) Q m.
Proof.
  intros Hu (a & x & Hx & Hin & Hnz & Hutf & Hb) Hf HQ. eapply copy_in_str_spec; [exact Hu|exact Hx|done..|].
  unfold from_utf8. by rewrite Hutf.
Qed.

Lemma read_argv_spec {fails : Prop} n fuel m u tabs F pages hi va argv (Q : list (list Z) → Machine → Prop) :
  uvm_rep m u tabs F pages hi → user_vector m pages va argv → 0 ≤ va →
  (length argv < n)%nat → Forall (λ l, length l < fuel)%nat argv → Q argv m → wpo fails (read_argv n fuel u va) Q m.
Proof.
  intros Hu. revert n va Q. induction argv as [|l argv IH]; intros [|n] va Q Hv Hva Hn Hf HQ; cbn [length] in Hn; try lia;
    cbn [read_argv user_vector] in *.
  - apply wp_bind. eapply copy_in_word; [exact Hu|exact Hv|]. apply wp_bind, (wp_unwrap _ 0); [done|].
    rewrite decide_True by done. by apply wp_ret.
  - destruct Hv as (Hlt & w & Hw0 & Hw & Hl & Hv). apply Forall_cons in Hf as [Hfl Hf].
    apply wp_bind. eapply copy_in_word; [exact Hu|exact Hw|]. apply wp_bind, (wp_unwrap _ w); [done|].
    rewrite decide_False by done. apply wp_bind. eapply copy_in_string; [exact Hu|exact Hl|done|].
    apply wp_bind, (wp_unwrap _ l); [done|]. apply wp_bind, wp_add32; [lia|].
    apply wp_bind, IH; [done|lia|lia|done|]. by apply wp_ret.
Qed.

(** The system call [exec] up to [kexec]: the path and the vector are read as the program
    sees them. *)
Lemma syscall_exec s i p tabs F pages hi fuel path argv :
  table s !! i = Some p → uvm_rep (s_mach s) (p_pagetable p) tabs F pages hi → p_trapframe p ∈ F →
  let word := tf_word (s_mach s) (p_trapframe p) in
  word tf_a7 = SYS_EXEC → user_string (s_mach s) pages (word tf_a0) path → user_vector (s_mach s) pages (word tf_a1) argv →
  Forall (λ l, length l < fuel)%nat (path :: argv) → (length argv < fuel)%nat →
  syscall fuel i s = (r ← kexec i path argv; unwrap r;; mret SysDone) s.
Proof.
  intros Hi Hu Ht word Ha7 Hpath Hargv [Hfp Hfa]%Forall_cons Hn. set (t := p_trapframe p) in *.
  pose proof (uvm_rep_ok _ _ _ _ _ _ Hu) as Hok.
  assert (t ∈ live (s_mach s)) as Htl by (rewrite (uvm_rep_live _ _ _ _ _ _ Hu); set_solver).
  assert (∀ {A} (f : MM A) a, wp f (λ r m', r = a ∧ m' = s_mach s) (s_mach s) → lift f s = Done a s) as Hlift.
  { intros A f a (r & m' & Hrun & -> & ->)%wp_unfold. unfold lift. rewrite Hrun. by destruct s. }
  assert (∀ f, lift (tf_get t f) s = Done (word f) s) as Hget by (intros f; by apply Hlift, tf_get_spec).
  assert (proc i s = Done p s) as Hproc by (unfold proc, mbind, M_bind, gets; fold (table s); by rewrite Hi).
  assert (lift (copy_in_str fuel (p_pagetable p) (word tf_a0)) s = Done (Some path) s) as Hp.
  { apply Hlift. by eapply copy_in_string. }
  assert (lift (read_argv fuel fuel (p_pagetable p) (word tf_a1)) s = Done argv s) as Ha.
  { apply Hlift. eapply read_argv_spec; [exact Hu|exact Hargv| |done..]. apply ld32_range. }
  unfold syscall, sys_exec, mbind, M_bind. rewrite Hproc. fold t. rewrite Hget, Ha7. rewrite !decide_False, decide_True by done.
  rewrite Hproc. fold t. rewrite !Hget, Hp. cbn [unwrap mret M_ret]. rewrite Ha. by destruct (kexec i path argv s) as [[[]|]| | | |].
Qed.

End properties.

(** ** Witnesses, on the example machine *)

Lemma sys_write_prints_witness : ∃ s, 
  wp (sys_write 0) (λ _ s', m_uart (s_mach s') = m_uart (s_mach s) ++ [104; 105]) s.
Proof.
  destruct writer_exists as (m & t & u & tabs & x & Hu & Ha0 & Ha1 & Ha2 & Hb).
  exists (bare_sys m (bare_process u t)).
  pose proof (sys_write_prints (bare_sys m (bare_process u t)) 0 (bare_process u t) tabs {[t]} _ ∅ USER_START x
    0x10010 [104; 105] eq_refl Hu ltac:(by apply elem_of_singleton) Ha1 Ha2 ltac:(done)
    ltac:(by apply lookup_singleton_eq) ltac:(by split; [|unfold USER_START, page_size; cbn; lia])
    eq_refl Hb) as H.
  rewrite decide_True in H by exact Ha0. eapply wp_mono; [exact H|]. intros [] s' (_ & Hu' & _). exact Hu'.
Defined.

