(* ===== verification/Scenario.v ===== *)
(** The system run on the concrete environment of SimpleEnv.v: an executable driver for
    the steps of Isolation.v, and the configurations that the witnesses use, all reached
    by one computation. *)
From Stdlib Require Import (notations) String.
From S2P Require Import SimpleEnv.
From S2P Require Export Isolation.

(** ** A driver *)

(** What happens next: kernel code runs, the process makes a system call with the
    given registers, or the timer fires. *)
Inductive move := MCode | MSyscall (num v0 v1 v2 : Z) | MTimer (now : Z).

Section drive.
Context {E : Env} {EL : EnvLaws E}.

(** What [switch] saves for a process: a return address inside [sched]. *)
Definition sched_context : Context := mkContext (forkret_addr + 4) 0 0 0 0 0 0 0 0 0 0 0 0 0.

(** The memory after [uservec] has saved the registers of process [i]. *)
Definition call_memory (s : Sys) (i : nat) (num v0 v1 v2 : Z) : mem :=
  match table s !! i with
  | None => m_mem (s_mach s)
  | Some p =>
      let t := p_trapframe p in
      let m := st32 (m_mem (s_mach s)) (t + tf_offset tf_a7) num in
      let m := st32 m (t + tf_offset tf_a0) v0 in
      let m := st32 m (t + tf_offset tf_a1) v1 in
      st32 m (t + tf_offset tf_a2) v2
  end.

Definition trap_config (user : bool) (t : trap_info) (m : mem) (s : Sys) (th : gmap nat resume)
    (r : running) : Config :=
  mkConfig (set_mach (trap_entry user t (set_mem m (s_mach s))) s) th r.

Definition drive1 (fuel : nat) (mv : move) (c : Config) : option Config :=
  let 'mkConfig s th r := c in
  match mv, r with
  | MCode, _ =>
      match code fuel Context_zero th r s with
      | Done (Goto r') s' => Some (mkConfig s' th r')
      | Done (Switch i res) s' =>
          match (save_context i sched_context;; scheduler_return i) s' with
          | Done _ s'' => Some (mkConfig s'' (<[i := res]> th) RunLoop)
          | _ => None
          end
      | _ => None
      end
  | MSyscall num v0 v1 v2, RunUser i =>
      Some (trap_config true (mkTrapInfo USER_START 8 0 0) (call_memory s i num v0 v1 v2) s th RunTrap)
  | MTimer now, RunUser i =>
      Some (trap_config true (mkTrapInfo USER_START 0x80000005 0 now) (m_mem (s_mach s)) s th RunTrap)
  | MTimer now, _ =>
      if interruptible r && sie_on (s_mach s)
      then Some (trap_config false (mkTrapInfo 0 0x80000005 0 now) (m_mem (s_mach s)) s th (RunKtrap r))
      else None
  | _, _ => None
  end.

Lemma trap_config_same user t s th r :
  trap_config user t (m_mem (s_mach s)) s th r = mkConfig (set_mach (trap_entry user t (s_mach s)) s) th r.
Proof. by destruct s as [[] ? ? ?]. Qed.

Lemma drive1_step fuel mv c c' : drive1 fuel mv c = Some c' → step c c'.
Proof.
  destruct c as [s th r]. destruct mv as [|num v0 v1 v2|now]; cbn [drive1].
  - destruct (code fuel Context_zero th r s) as [[r'|i res] s'| | | |] eqn:Hc; try done.
    + intros [= <-]. by eapply step_goto.
    + destruct ((save_context i sched_context;; scheduler_return i) s') as [[] s''| | | |] eqn:H2; try done.
      intros [= <-]. eapply step_switch; [exact Hc| |exact H2]. cbn. lia.
  - destruct r; try done. intros [= <-]. apply step_user.
  - destruct r; cbn [interruptible andb]; try done; [| |intros [= <-]; apply step_user|..].
    all: destruct (sie_on (s_mach s)) eqn:Hs; [intros [= <-]|done];
      rewrite trap_config_same; by apply step_interrupt.
Qed.

(** Whether the running process, if a program runs, is in the table. *)
Definition user_ready (c : Config) : bool :=
  match c_run c with
  | RunUser i => bool_decide (is_Some (table (c_sys c) !! i))
  | _ => true
  end.

Lemma st32_in_frame m t g v a : ¬ in_frame t a → ld8 (st32 m (t + tf_offset g) v) a = ld8 m a.
Proof.
  intros Ha. rewrite ld8_st32, decide_False; [done|]. intros H. apply Ha.
  destruct (tf_offset_range g) as (H0 & H1 & _). unfold in_frame, page_size. lia.
Qed.

Lemma drive1_cstep fuel mv c c' : user_ready c = true → drive1 fuel mv c = Some c' → cstep c c'.
Proof.
  intros Hready Hd. pose proof (drive1_step _ _ _ _ Hd) as Hstep. destruct c as [s th r].
  destruct r as [| | |i| | | | |]; try by apply cstep_kernel.
  unfold user_ready in Hready. cbn [c_run c_sys] in Hready. apply bool_decide_eq_true in Hready as [p Hp].
  destruct mv as [|num v0 v1 v2|now]; cbn [drive1 code] in Hd; [done| |]; injection Hd as <-.
  - apply (cstep_trap s th i p); [done|]. intros a Ha. unfold call_memory. rewrite Hp. by rewrite !st32_in_frame.
  - by apply (cstep_trap s th i p).
Qed.

Fixpoint cdrive (fuel : nat) (l : list move) (c : Config) : option Config :=
  match l with
  | [] => Some c
  | mv :: l => if user_ready c then c' ← drive1 fuel mv c; cdrive fuel l c' else None
  end.
Lemma cdrive_steps fuel l c c' :
  cdrive fuel l c = Some c' → rtc step c c' ∧ rtc cstep c c'.
Proof.
  revert c. induction l as [|mv l IH]; intros c; cbn [cdrive]; [by intros [= <-]|].
  destruct (user_ready c) eqn:Hu; [|done]. destruct (drive1 fuel mv c) as [c1|] eqn:Hc; [|done].
  intros [H1 H2]%IH. split; (eapply rtc_l; [|done]); [by eapply drive1_step|by eapply drive1_cstep].
Qed.

(** The moves, and a test of where they lead. *)
Definition then_test (l : list move) (k : Config → bool) (c : Config) : bool :=
  match cdrive 10 l c with Some c' => k c' | None => false end.

(** Configurations of a run from the power-on state [s0]. *)
Definition ran (s0 : Sys) (c : Config) : Prop := ∃ s,
  main_boot s0 = Done tt s ∧ rtc step (boot_config s) c ∧ rtc cstep (boot_config s) c.

Lemma ran_reachable s0 c : power_on s0 → ran s0 c → reachable c.
Proof. intros Hon (s & Hb & Hs & _). by exists s0, s. Qed.
Lemma ran_creachable s0 c : boots s0 → image_ok PRIME → ran s0 c → creachable c.
Proof. intros Hb HP (s & Hm & _ & Hs). by exists s0, s. Qed.
Lemma ran_then s0 l k c : ran s0 c → then_test l k c = true → ∃ c', ran s0 c' ∧ k c' = true.
Proof.
  intros (s & Hb & H1 & H2). unfold then_test. destruct (cdrive 10 l c) as [c'|] eqn:Hc; [|done].
  intros Hk. apply cdrive_steps in Hc as [H3 H4]. exists c'. split; [|done]. exists s.
  split_and!; [done|by etrans|by etrans].
Qed.

Lemma ran_one s0 mv k c : ran s0 c → then_test [mv] k c = true →
  ∃ c', ran s0 c' ∧ drive1 10 mv c = Some c' ∧ cstep c c' ∧ k c' = true.
Proof.
  intros Hr Ht. pose proof Ht as Ht'. unfold then_test in Ht. cbn [cdrive] in Ht.
  destruct (user_ready c) eqn:Hu; [|done]. destruct (drive1 10 mv c) as [c'|] eqn:Hd; [|done]. cbn in Ht.
  exists c'. split_and!; [|done|by eapply drive1_cstep|done].
  destruct Hr as (s & Hb & H1 & H2). exists s.
  split_and!; [done|eapply rtc_r; [done|by eapply drive1_step]|eapply rtc_r; [done|by eapply drive1_cstep]].
Qed.

(** [main], and then a test of the first configuration. *)
Definition boot_test (s0 : Sys) (k : Config → bool) : bool :=
  match main_boot s0 with Done tt s => k (boot_config s) | _ => false end.
Lemma boot_test_ran s0 k : boot_test s0 k = true → ∃ c, ran s0 c ∧ k c = true.
Proof.
  unfold boot_test. destruct (main_boot s0) as [[] s| | | |] eqn:Hm; try done.
  intros Hk. exists (boot_config s). split; [|done]. by exists s.
Qed.

End drive.

(** ** A run *)

#[export] Existing Instance simple_env.
#[export] Existing Instance simple_laws.

(** The machine as it comes out of reset, with empty memory. *)
Definition boot_sys : Sys :=
  mkSys (mkMachine ∅ heap_new lock_new Cpu_new (λ _, 0) []) Kernel_default lock_new false.

Lemma boot_sys_power_on : power_on boot_sys.
Proof. done. Qed.

Lemma boot_sys_boots : boots boot_sys ∧ image_ok PRIME.
Proof. split; [split; [apply boot_sys_power_on|done|..]|]; split_and?; by vm_compute. Qed.

Definition states (c : Config) : list ProcState := p_state <$> table (c_sys c).
(** Init sleeps with a runnable child, and the scheduler is about to search. *)
Definition waiting (c : Config) : bool :=
  bool_decide (states c = [Sleeping; Runnable; Unused; Unused]) &&
  bool_decide (p_pid <$> table (c_sys c) = [Some 0; Some 1; None; None]) &&
  match c_run c with RunWindow => true | _ => false end.

(** Two processes that have both run once: the next dispatch takes the first one,
    and the second one waits. *)
Definition overtaking (c : Config) : bool :=
  bool_decide (states c = [Runnable; Runnable; Unused; Unused]) &&
  bool_decide (p_quants <$> table (c_sys c) = [1; 1; 0; 0]) &&
  match c_run c, drive1 10 MCode c with
  | RunWindow, Some c' =>
      bool_decide (states c' = [Running; Runnable; Unused; Unused]) &&
      match c_run c' with RunSwitch 0 => true | _ => false end
  | _, _ => false
  end.

(** Whether the next step starts the child's program. *)
Definition child_starts (c : Config) : bool :=
  match c_run c, drive1 10 MCode c with
  | RunSwitch 1, Some c' => user_ready c && match c_run c' with RunUser 1 => true | _ => false end
  | _, _ => false
  end.
(** The child is about to run its program, which is allowed to store to its first page, while
    init sleeps. *)
Definition child_stores (c : Config) : bool :=
  match c_run c, table (c_sys c) !! 1%nat, table (c_sys c) !! 0%nat with
  | RunUser 1, Some p, Some q =>
      bool_decide (p_pid q = Some 0) && bool_decide (p_state q = Sleeping) &&
      bool_decide (is_Some (sv32_access (m_mem (s_mach (c_sys c))) (user_satp p) true false Store USER_START))
  | _, _, _ => false
  end.

(** A system call is about to start, and returns when nothing interrupts it. *)
Definition calls (c : Config) : bool :=
  match c_run c with
  | RunSyscall 0 => match syscall 10 0 (c_sys c) with Done SysDone _ => true | _ => false end
  | _ => false
  end.

(** A system call has printed two bytes of its answer ... *)
Definition printing (c : Config) : bool :=
  match c_run c with
  | RunInside 0 (InPrint text _) => bool_decide (text = str " kids" ++ newline)
  | _ => false
  end.
(** ... its process is off the hart, or about to be switched to ... *)
Definition off_hart (c : Config) : bool := bool_decide (worker c = None).
Definition switched_to (c : Config) : bool := bool_decide (worker c = Some 0%nat).
(** ... and later the call ends: the rest is on the console, and -1 is what it returns. *)
Definition completed (c : Config) : bool :=
  match c_run c, table (c_sys c) !! 0%nat with
  | RunReturn 0, Some p =>
      bool_decide (take 6 (reverse (m_uart (s_mach (c_sys c)))) = reverse (str " kids" ++ newline)) &&
      bool_decide (ld32 (m_mem (s_mach (c_sys c))) (p_trapframe p + tf_offset tf_a0) = wrap32 (-1))
  | _, _ => false
  end.

(** ** The computation *)

(** Init is dispatched and forks. *)
Definition forks : list move := [MCode; MCode; MCode; MSyscall SYS_FORK 0 0 0; MCode; MCode; MCode].
(** It waits, up to the scheduler's search. *)
Definition waits : list move := [MSyscall SYS_WAIT 0 0 0; MCode; MCode; MCode; MCode].
(** It is preempted, the child runs, and is preempted too. *)
Definition preempted : list move := [MTimer 1000; MCode; MCode; MCode; MCode; MTimer 2000; MCode; MCode].
(** It waits without a child, and prints two bytes of the answer. *)
Definition waits_alone : list move := [MCode; MCode; MCode; MSyscall SYS_WAIT 0 0 0; MCode].
Definition two_bytes : list move := [MCode; MCode; MCode; MCode].

Definition scenario (c : Config) : bool :=
  then_test forks (λ c,
    then_test waits (λ c1, waiting c1 && then_test [MCode] (λ c2,
      child_starts c2 && then_test [MCode] (child_stores) c2) c1) c &&
    then_test preempted overtaking c) c &&
  then_test waits_alone (λ c, calls c && then_test two_bytes (λ c, printing c &&
    then_test [MTimer 1000] (then_test [MCode] (λ c, off_hart c && then_test [MCode] (λ c, off_hart c &&
    then_test [MCode] (λ c, switched_to c && then_test [MCode] (λ _, true) c &&
      then_test (replicate 8 MCode) completed c) c) c)) c) c) c.

Lemma scenario_run : boot_test boot_sys scenario = true.
Proof. vm_cast_no_check (eq_refl true). Qed.

(** The timer fires inside a call, its process is switched to again, and the call ends. *)
Definition interrupted_run s0 : Prop := ∃ c0 c1 c2 c3 c4 c5 c6,
  ran s0 c0 ∧ printing c0 = true ∧ drive1 10 (MTimer 1000) c0 = Some c1 ∧ cstep c1 c2 ∧
  off_hart c2 = true ∧ cstep c2 c3 ∧ off_hart c3 = true ∧ cstep c3 c4 ∧ switched_to c4 = true ∧
  cstep c4 c5 ∧ ran s0 c6 ∧ completed c6 = true.

(** The configurations that the computation tests. *)
Lemma scenario_configs s0 : boot_test s0 scenario = true →
  (∃ c, ran s0 c ∧ waiting c = true) ∧ (∃ c, ran s0 c ∧ child_starts c = true) ∧
  (∃ c, ran s0 c ∧ child_stores c = true) ∧ (∃ c, ran s0 c ∧ overtaking c = true) ∧
  (∃ c, ran s0 c ∧ calls c = true) ∧
  interrupted_run s0.
Proof.
  intros (c & Hc & [H1 H2]%andb_true_iff)%boot_test_ran.
  destruct (ran_then _ _ _ _ Hc H1) as (c0 & Hc0 & [H3 H4]%andb_true_iff).
  destruct (ran_then _ _ _ _ Hc0 H3) as (c1 & Hc1 & [Hw H5]%andb_true_iff).
  destruct (ran_then _ _ _ _ Hc1 H5) as (c2 & Hc2 & [Hs H6]%andb_true_iff).
  destruct (ran_then _ _ _ _ Hc2 H6) as (c3 & Hc3 & Hst).
  destruct (ran_then _ _ _ _ Hc0 H4) as (c4 & Hc4 & Ho).
  destruct (ran_then _ _ _ _ Hc H2) as (c7 & Hc7 & [Hca H8]%andb_true_iff).
  split_and!; [by exists c1|by exists c2|by exists c3|by exists c4|by exists c7|].
  destruct (ran_then _ _ _ _ Hc7 H8) as (d0 & Hd0 & [Hp H9]%andb_true_iff).
  destruct (ran_one _ _ _ _ Hd0 H9) as (d1 & Hd1 & Hdr & _ & Ha1).
  destruct (ran_one _ _ _ _ Hd1 Ha1) as (d2 & Hd2 & _ & Hs2 & [Ho2 Ha2]%andb_true_iff).
  destruct (ran_one _ _ _ _ Hd2 Ha2) as (d3 & Hd3 & _ & Hs3 & [Ho3 Ha3]%andb_true_iff).
  destruct (ran_one _ _ _ _ Hd3 Ha3) as (d4 & Hd4 & _ & Hs4 & [[Ho4 Ha4]%andb_true_iff Ha5]%andb_true_iff).
  destruct (ran_one _ _ _ _ Hd4 Ha4) as (d5 & _ & _ & Hs5 & _).
  destruct (ran_then _ _ _ _ Hd4 Ha5) as (d6 & Hd6 & Hcm).
  by exists d0, d1, d2, d3, d4, d5, d6.
Qed.

Lemma waiting_reachable : ∃ c, reachable c ∧ waiting c = true.
Proof.
  destruct (scenario_configs boot_sys scenario_run) as ((c & Hc & Hw) & _). exists c. split; [|done].
  eapply ran_reachable; [apply boot_sys_power_on|exact Hc].
Qed.
Lemma overtaking_exists : ∃ c, overtaking c = true.
Proof. destruct (scenario_configs boot_sys scenario_run) as (_ & _ & _ & (c & _ & Ho) & _). by exists c. Qed.

Lemma calls_reachable : ∃ c, reachable c ∧ calls c = true.
Proof.
  destruct (scenario_configs boot_sys scenario_run) as (_ & _ & _ & _ & (c & Hc & H) & _). exists c. split; [|done].
  eapply ran_reachable; [apply boot_sys_power_on|exact Hc].
Qed.

(** An interrupt inside a system call, and the end of that call. *)
Lemma interrupted_reachable : interrupted_run boot_sys.
Proof. by destruct (scenario_configs boot_sys scenario_run) as (_ & _ & _ & _ & _ & H). Qed.

Lemma child_starts_reachable : ∃ c c', creachable c ∧ cstep c c' ∧ c_run c' = RunUser 1 ∧ c_run c = RunSwitch 1.
Proof.
  destruct (scenario_configs boot_sys scenario_run) as (_ & (c & Hc & H) & _). destruct boot_sys_boots as [Hbs HP].
  apply (ran_creachable _ _ Hbs HP) in Hc.
  unfold child_starts in H. destruct (c_run c) as [| |[|[|]]| | | | | |] eqn:H1; try done.
  destruct (drive1 10 MCode c) as [c'|] eqn:Hd; [|done]. apply andb_true_iff in H as [Hu H2].
  destruct (c_run c') as [| | |[|[|]]| | | | |] eqn:H3; try done.
  exists c, c'. split; [done|]. split; [by eapply drive1_cstep|done].
Qed.

Lemma child_stores_reachable : ∃ c th p q pa, creachable c ∧ c = mkConfig (c_sys c) th (RunUser 1) ∧
  table (c_sys c) !! 1%nat = Some p ∧ table (c_sys c) !! 0%nat = Some q ∧ p_pid q = Some 0 ∧ p_state q = Sleeping ∧
  user_access (s_mach (c_sys c)) p false Store USER_START pa.
Proof.
  destruct (scenario_configs boot_sys scenario_run) as (_ & _ & (c & Hc & H) & _). destruct boot_sys_boots as [Hbs HP].
  pose proof (ran_creachable _ _ Hbs HP Hc) as Hcr. clear Hc.
  unfold child_stores in H. destruct c as [s th r]. cbn [c_run c_sys] in *. destruct r as [| | |[|[|]]| | | | |]; try done.
  destruct (table s !! 1%nat) as [p|] eqn:Hp; [|done]. destruct (table s !! 0%nat) as [q|] eqn:Hq; [|done].
  rewrite !andb_true_iff, !bool_decide_eq_true in H. destruct H as [[Hpid Hst] [pa Hpa]].
  by exists (mkConfig s th (RunUser 1)), th, p, q, pa.
Qed.
