(* ===== verification/SyscallRun.v ===== *)
(** The system calls in pieces: with no interrupt between them, the pieces of Trap.v are
    the system call of the source, and the running system goes through them. *)
From S2P Require Export TouchCode.
From S2P Require Import SimpleEnv Scenario.

Section pieces.
Context {E : Env}.
Implicit Types (s : Sys) (n fuel : nat) (i : nat).

(** The pieces one after the other, at most [n] of them. *)
Fixpoint settle (n fuel : nat) (i : nat) (r : sys_next) : KM sys_next :=
  match n, r with
  | S n, SysMore k => r ← syscall_more fuel i k; settle n fuel i r
  | _, _ => mret r
  end.

(** A family of computations has the outcome of [g] from some member on. *)
Definition agrees {A} (f : nat → KM A) (g : KM A) s : Prop := g s ≠ OutOfFuel → ∃ n, f n s = g s.

Lemma bind_bind {T A B C} (m : M T A) (k : A → M T B) (h : B → M T C) (s : T) :
  ((m ≫= k) ≫= h) s = (m ≫= λ a, k a ≫= h) s.
Proof. unfold mbind, M_bind. by destruct (m s). Qed.
Lemma bind_ret_r {T A} (m : M T A) (s : T) : (m ≫= mret) s = m s.
Proof. unfold mbind, M_bind. by destruct (m s). Qed.
Lemma lift_bind {A B} (m : MM A) (k : A → MM B) s : lift (m ≫= k) s = (lift m ≫= λ a, lift (k a)) s.
Proof. unfold lift, mbind, M_bind. destruct (m (s_mach s)) as [a m1| | | |]; [|done..]. cbn. by destruct (k a m1). Qed.

Lemma agrees_r {A} (f : nat → KM A) g g' s : g s = g' s → agrees f g' s → agrees f g s.
Proof. unfold agrees. by intros ->. Qed.
Lemma agrees_l {A} (f f' : nat → KM A) g s : (∀ n, f n s = f' n s) → agrees f' g s → agrees f g s.
Proof. intros Hf H Hg. destruct (H Hg) as [n Hn]. exists n. by rewrite Hf. Qed.

(** The same first computation. *)
Lemma agrees_bind {A B} (m : KM A) (f : A → nat → KM B) (g : A → KM B) s :
  (∀ a s', m s = Done a s' → agrees (f a) (g a) s') → agrees (λ n, m ≫= λ a, f a n) (m ≫= g) s.
Proof.
  unfold agrees, mbind, M_bind. destruct (m s) as [a s1| | | |]; [|by exists 0%nat..]. intros H. by apply (H a s1).
Qed.
Lemma agrees_step {A B C D} (m : KM A) (k : A → KM B) (K : nat → B → KM C) (k' : A → KM D) (h : D → KM C) s :
  (∀ a s', m s = Done a s' → agrees (λ n, k a ≫= K n) (k' a ≫= h) s') →
  agrees (λ n, (m ≫= k) ≫= K n) ((m ≫= k') ≫= h) s.
Proof.
  intros H. eapply agrees_r; [apply bind_bind|].
  apply (agrees_l _ (λ n, m ≫= λ a, k a ≫= K n)); [intros n; apply bind_bind|].
  by apply (agrees_bind m (λ a n, k a ≫= K n)).
Qed.
Lemma agrees_lift {A B C D} (m : MM A) (k : A → KM B) (K : nat → B → KM C) (k' : A → MM D) (h : D → KM C) s :
  (∀ a s', lift m s = Done a s' → agrees (λ n, k a ≫= K n) (lift (k' a) ≫= h) s') →
  agrees (λ n, (lift m ≫= k) ≫= K n) (lift (m ≫= k') ≫= h) s.
Proof.
  intros H. apply (agrees_r _ _ ((lift m ≫= λ a, lift (k' a)) ≫= h)).
  { unfold mbind at 1 3, M_bind at 1 3. by rewrite lift_bind. }
  by apply agrees_step.
Qed.
Lemma agrees_unwrap {A B C D} (o : option A) (k : A → KM B) (K : nat → B → KM C) (k' : A → MM D) (h : D → KM C) s :
  (∀ a, o = Some a → agrees (λ n, k a ≫= K n) (lift (k' a) ≫= h) s) →
  agrees (λ n, (unwrap o ≫= k) ≫= K n) (lift (unwrap o ≫= k') ≫= h) s.
Proof. intros H. destruct o as [a|]; [by apply (H a)|by exists 0%nat]. Qed.

(** The last piece, and a piece before others. *)
Lemma agrees_last fuel i (m : KM sys_next) s : agrees (λ n, m ≫= settle n fuel i) m s.
Proof. intros _. exists 0%nat. apply bind_ret_r. Qed.
Lemma agrees_more fuel i k (g : KM sys_next) s :
  agrees (λ n, syscall_more fuel i k ≫= settle n fuel i) g s → agrees (λ n, settle n fuel i (SysMore k)) g s.
Proof. intros H Hg. destruct (H Hg) as [n Hn]. by exists (S n). Qed.

(** ** Printing *)

Lemma uart_print_done text s : lift (uart_print text) s = Done tt (set_mach (put_uart text (s_mach s)) s).
Proof.
  revert s. induction text as [|b text IH]; intros s.
  - unfold put_uart. rewrite app_nil_r. by destruct s as [[] ? ? ?].
  - change (uart_print (b :: text)) with (uart_write b;; uart_print text). rewrite lift_bind.
    unfold mbind, M_bind. change (lift (uart_write b) s) with (Done tt (set_mach (set_uart (m_uart (s_mach s) ++ [b]) (s_mach s)) s)).
    cbn iota. rewrite IH. unfold put_uart. cbn. by rewrite <- app_assoc.
Qed.

Lemma agrees_print fuel i text ret s :
  agrees (λ n, settle n fuel i (SysMore (InPrint text ret))) (lift (uart_print text);; sys_return i ret) s.
Proof.
  revert s. induction text as [|b text IH]; intros s; apply agrees_more; cbn [syscall_more].
  - apply (agrees_r _ _ (sys_return i ret)); [|apply agrees_last]. unfold mbind at 1, M_bind. rewrite uart_print_done.
    unfold put_uart. rewrite app_nil_r. by destruct s as [[] ? ? ?].
  - change (uart_print (b :: text)) with (uart_write b;; uart_print text).
    apply (agrees_r _ _ ((lift (uart_write b);; lift (uart_print text));; sys_return i ret)).
    { unfold mbind at 1 3, M_bind at 1 3. by rewrite lift_bind. }
    apply agrees_step. intros [] s1 _. apply IH.
Qed.

(** ** Each system call *)

Lemma lift_table {A} (f : MM A) s a s' : lift f s = Done a s' → table s' = table s.
Proof. by intros (m' & _ & ->)%lift_done. Qed.
Lemma proc_eq i s p : table s !! i = Some p → proc i s = Done p s.
Proof. intros Hp. unfold proc, mbind, M_bind, gets. fold (table s). by rewrite Hp. Qed.

(** The result goes where the piece of [write] that reads the entry again puts it. *)
Lemma print_return i p msg s :
  table s !! i = Some p →
  (lift (uart_print msg;; tf_set (p_trapframe p) tf_a0 0);; mret SysDone) s = (lift (uart_print msg);; sys_return i 0) s.
Proof.
  intros Hp. unfold mbind at 1 3, M_bind at 1 3. rewrite lift_bind, uart_print_done.
  unfold mbind at 1, M_bind at 1. rewrite uart_print_done. set (s1 := set_mach _ s).
  unfold sys_return. unfold mbind at 1, M_bind at 1. by rewrite (proc_eq i s1 p).
Qed.

(** A computation that does nothing comes first. *)
Lemma agrees_head fuel i r (g : KM sys_next) s :
  agrees (λ n, settle n fuel i r) g s → agrees (λ n, mret r ≫= settle n fuel i) g s.
Proof. by apply agrees_l. Qed.

Lemma agrees_write fuel i s :
  agrees (λ n, sys_write_enter i ≫= settle n fuel i) (sys_write i;; mret SysDone) s.
Proof.
  unfold sys_write_enter, sys_write. apply agrees_step. intros p s1 [-> Hp]%proc_done.
  apply agrees_lift. intros fd s2 H2%lift_table. apply agrees_lift. intros addr s3 H3%lift_table.
  apply agrees_lift. intros size s4 H4%lift_table. case_decide; [by exists 0%nat|].
  apply agrees_lift. intros o s5 H5%lift_table. apply agrees_unwrap. intros bytes _.
  apply agrees_unwrap. intros msg _. apply agrees_head.
  eapply agrees_r; [apply print_return; by rewrite H5, H4, H3, H2|apply agrees_print].
Qed.

Lemma agrees_wait fuel i addr s :
  agrees (λ n, settle n fuel i (SysMore (InWait addr))) (sys_wait_loop i addr) s.
Proof.
  apply agrees_more. unfold sys_wait_loop, kwait_iter. cbn [syscall_more].
  eapply agrees_r; [apply bind_bind|].
  apply (agrees_l _ (λ n, kwait_scan i ≫= λ r, mret (match r with
    | ScanReaped pid xstatus => SysMore (InReaped addr pid xstatus)
    | ScanSleep prev => SysWait addr prev
    | ScanNone => SysMore (InPrint (no_kids ++ newline) (-1))
    end) ≫= settle n fuel i)); [intros n; apply bind_bind|].
  apply (agrees_bind (kwait_scan i) (λ r n, mret _ ≫= settle n fuel i)). intros [pid x|prev|] s1 _; apply agrees_head; cbn [kwait_end].
  - apply agrees_more. cbn [syscall_more]. apply (agrees_r _ _ (store_status i addr x;; sys_return i pid)); [apply bind_bind|].
    apply agrees_last.
  - by exists 0%nat.
  - apply (agrees_r _ _ (lift (uart_print (no_kids ++ newline));; sys_return i (-1))); [apply bind_bind|]. apply agrees_print.
Qed.

(** Reading the vector: the arguments read so far, and those to come. *)
Lemma agrees_args m fuel i p path acc a s :
  table s !! i = Some p →
  agrees (λ n, settle n fuel i (SysMore (InArgs path acc a)))
    (argv ← lift (read_argv m fuel (p_pagetable p) a); r ← kexec i path (acc ++ argv); unwrap r;; mret SysDone) s.
Proof.
  revert acc a s. induction m as [|m IH]; intros acc a s Hp; [by intros []|].
  apply agrees_more. cbn [syscall_more read_argv]. unfold sys_exec_arg.
  apply (agrees_l _ (λ n, (o ← lift (copy_in (p_pagetable p) a); arg_addr ← unwrap o;
    if decide (arg_addr = 0) then mret (SysMore (InExec path acc))
    else o ← lift (copy_in_str fuel (p_pagetable p) arg_addr); arg_str ← unwrap o; a ← add32 a 4;
      mret (SysMore (InArgs path (acc ++ [arg_str]) a))) ≫= settle n fuel i)).
  { intros n. unfold mbind at 1 2, M_bind at 1 2. by rewrite (proc_eq i s p). }
  apply agrees_lift. intros o s1 [_ ->]%(lift_reads _ _ _ _ (reads_copy_in _ _)). apply agrees_unwrap. intros w _.
  case_decide.
  - apply agrees_head, agrees_more. cbn [syscall_more].
    apply (agrees_r _ _ (r ← kexec i path acc; unwrap r;; mret SysDone)); [|apply agrees_last].
    unfold mbind at 1, M_bind at 1. cbn. rewrite app_nil_r. by destruct s.
  - apply agrees_lift. intros o' s1 [_ ->]%(lift_reads _ _ _ _ (reads_copy_in_str _ _ _)). apply agrees_unwrap. intros arg _.
    unfold add32. case_decide; [|by exists 0%nat]. apply agrees_head.
    eapply agrees_r; [|by apply (IH (acc ++ [arg]) (a + 4) s)].
    unfold mbind, M_bind, lift. cbn. destruct (read_argv m fuel (p_pagetable p) (a + 4) (s_mach s)); [|done..].
    cbn. by rewrite <- app_assoc.
Qed.

Lemma agrees_exec fuel i s :
  agrees (λ n, sys_exec_enter fuel i ≫= settle n fuel i) (sys_exec fuel i;; mret SysDone) s.
Proof.
  unfold sys_exec_enter, sys_exec. apply agrees_step. intros p s1 [-> Hp]%proc_done.
  apply agrees_step. intros pa s1 [_ ->]%(lift_reads _ _ _ _ (reads_tf_get _ _)).
  apply agrees_step. intros va s1 [_ ->]%(lift_reads _ _ _ _ (reads_tf_get _ _)).
  apply agrees_step. intros o s1 [_ ->]%(lift_reads _ _ _ _ (reads_copy_in_str _ _ _)).
  apply agrees_step. intros path s1 Hs1. destruct o as [?|]; [injection Hs1 as -> <-|done].
  apply agrees_head. eapply agrees_r; [apply bind_bind|]. eapply agrees_r; [|by apply (agrees_args fuel fuel i p path [] va s)].
  unfold mbind, M_bind. destruct (lift _ s); [|done..]. by destruct (kexec i path _ _).
Qed.

Lemma agrees_syscall fuel i s : agrees (λ n, syscall_enter fuel i ≫= settle n fuel i) (syscall fuel i) s.
Proof.
  unfold syscall_enter, syscall.
  apply (agrees_r _ _ (syscall fuel i ≫= mret)); [by rewrite bind_ret_r|]. unfold syscall.
  apply agrees_step. intros p s1 _. apply agrees_step. intros num s2 _.
  repeat case_decide; (eapply agrees_r; [apply bind_ret_r|]).
  - apply agrees_write.
  - apply agrees_last.
  - apply agrees_exec.
  - unfold sys_wait_enter. apply (agrees_r _ _ (sys_wait_enter i ≫= mret)); [by rewrite bind_ret_r|]. unfold sys_wait_enter.
    apply agrees_step. intros p' s3 _. apply agrees_step. intros addr s4 _. apply agrees_head.
    eapply agrees_r; [apply bind_ret_r|]. apply agrees_wait.
  - apply agrees_last.
  - by exists 0%nat.
Qed.

(** ** The running system goes through the pieces *)

Definition ends (r : sys_next) : Prop := match r with SysMore _ => False | _ => True end.

Lemma settle_runs n fuel regs th i k s r s' :
  settle n fuel i (SysMore k) s = Done r s' → ends r → ∃ s1 place,
    rtc step (mkConfig s th (RunInside i k)) (mkConfig s1 th place) ∧
    code fuel regs th place s1 = Done (after_syscall i r) s'.
Proof.
  intros H Hr. revert k s H. induction n as [|n IH]; intros k s H; cbn [settle] in H; [by injection H as <- _|].
  apply bind_done in H as (r1 & s1 & H1 & H).
  assert (code fuel regs th (RunInside i k) s = Done (after_syscall i r1) s1) as Hc.
  { cbn [code]. unfold mbind, M_bind. by rewrite H1. }
  destruct r1 as [|k1|a prev|prev].
  2: { destruct (IH k1 s1 H) as (s2 & place & Hs & Hp). exists s2, place. split; [|done].
       eapply rtc_l; [|exact Hs]. by eapply step_goto. }
  all: exists s, (RunInside i k); split; [done|]; by destruct n; injection H as <- <-.
Qed.

Lemma sys_return_ends i ret s r s' : sys_return i ret s = Done r s' → ends r.
Proof. by intros ->%sys_return_done. Qed.
Lemma syscall_ends fuel i s r s' : syscall fuel i s = Done r s' → ends r.
Proof.
  unfold syscall. intros (? & ? & _ & H)%bind_done. apply bind_done in H as (num & ? & _ & H). repeat case_decide.
  1-3: by apply bind_done in H as (? & ? & _ & [= <- _]).
  - unfold sys_wait_enter, sys_wait_loop in H. do 3 apply bind_done in H as (? & ? & _ & H).
    case_match; [by eapply sys_return_ends|by injection H as <- _].
  - unfold sys_exit_enter in H. do 3 apply bind_done in H as (? & ? & _ & H). by injection H as <- _.
  - done.
Qed.

(** Cut at the places where interrupts are let in, a system call is still the system
    call of the source.  Whatever [syscall] does at a state - its result and the state it
    leaves, or its panic or fault - the pieces do when nothing comes between them; and
    whenever it returns, or ends in a switch, the steps of the running system lead from
    its start to a place whose code ends in the same way and in the same state. *)
Theorem syscall_in_pieces fuel i s :
  syscall fuel i s ≠ OutOfFuel →
  (∃ n, (r ← syscall_enter fuel i; settle n fuel i r) s = syscall fuel i s) ∧
  ∀ r s' regs th, syscall fuel i s = Done r s' → ∃ s1 place,
    rtc step (mkConfig s th (RunSyscall i)) (mkConfig s1 th place) ∧
    code fuel regs th place s1 = Done (after_syscall i r) s'.
Proof.
  intros Hs. destruct (agrees_syscall fuel i s Hs) as [n Hn]. split; [by exists n|].
  intros r s' regs th H. pose proof (syscall_ends _ _ _ _ _ H) as Hr. rewrite H in Hn.
  apply bind_done in Hn as (r1 & s1 & H1 & H2).
  assert (code fuel regs th (RunSyscall i) s = Done (after_syscall i r1) s1) as Hc.
  { cbn [code]. unfold mbind, M_bind. by rewrite H1. }
  destruct r1 as [|k|a prev|prev].
  2: { destruct (settle_runs n fuel regs th i k s1 r s' H2 Hr) as (s2 & place & Hst & Hp). exists s2, place.
       split; [|done]. eapply rtc_l; [|exact Hst]. by eapply step_goto. }
  all: exists s, (RunSyscall i); split; [done|]; by destruct n; injection H2 as <- <-.
Qed.
End pieces.

(** Init waits without a child: the answer is printed byte by byte. *)
Lemma syscall_in_pieces_witness : ∃ c s', reachable c ∧ c_run c = RunSyscall 0 ∧
  syscall 10 0 (c_sys c) = Done SysDone s' ∧ ∃ c' place, rtc step c c' ∧ c_run c' = place ∧
  code 10 Context_zero (c_threads c) place (c_sys c') = Done (Goto (RunReturn 0)) s'.
Proof.
  destruct calls_reachable as (c & Hc & H). unfold calls in H. destruct c as [s th r]. cbn [c_run c_sys c_threads] in *.
  destruct r as [| | | | |[|]| | |]; try done. destruct (syscall 10 0 s) as [[] s'| | | |] eqn:Hs; try done.
  exists (mkConfig s th (RunSyscall 0)), s'. split; [exact Hc|]. split; [done|]. split; [exact Hs|].
  assert (syscall 10 0 s ≠ OutOfFuel) as Hne by (rewrite Hs; discriminate).
  destruct (proj2 (syscall_in_pieces 10 0 s Hne) SysDone s' Context_zero th Hs) as (s1 & place & Hst & Hp).
  exists (mkConfig s1 th place), place. split; [exact Hst|]. split; [done|exact Hp].
Defined.
