(* ===== verification/SysProps.v ===== *)
(** Properties of the running system: every configuration it can reach, from
    power-on through [main] and any interleaving of processes, traps and interrupts. *)
From S2P Require Export Refine.
From S2P Require Import Scenario.

Section properties.
Context {E : Env} {EL : EnvLaws E}.
Implicit Types (c : Config).

(** A process of the table that is neither free nor a zombie. *)
Definition alive (p : Process) : Prop := p_state p ≠ Unused ∧ p_state p ≠ Zombie.

(** Reading a fact about the abstract table back in the real one. *)
Lemma table_view c a i p :
  represents c a → table (c_sys c) !! i = Some p → a_procs a !! i = Some (view p).
Proof.
  intros Hr Hi. destruct (represents_kst _ _ Hr) as (d & pv & cur & fr & held & Hk).
  by destruct (kst_lookup _ _ _ _ _ _ _ _ _ _ _ Hk Hi).
Qed.
Lemma table_view_inv c a i q :
  represents c a → a_procs a !! i = Some q → ∃ p, table (c_sys c) !! i = Some p ∧ q = view p.
Proof.
  intros Hr Hi. destruct (represents_kst _ _ Hr) as (d & pv & cur & fr & held & Hk).
  rewrite <- (ks_view _ _ _ _ _ _ _ _ _ Hk), list_lookup_fmap in Hi.
  destruct (table (c_sys c) !! i) as [p|] eqn:Hp; [|done]. exists p. by injection Hi.
Qed.

(** C1. The kernel implements the abstract machine of processes: every reachable
    configuration represents a state the abstract machine reaches from its initial
    table, and whatever the next step is (scheduler, system call, trap, switch, user
    code or interrupt), the abstract machine matches it with zero or more of its
    steps. *)
Theorem kernel_refines c :
  reachable c → ∃ a, areachable a ∧ represents c a ∧
    ∀ c', step c c' → ∃ a', rtc astep a a' ∧ represents c' a'.
Proof.
  intros (a & Hr & Ha)%reachable_represents. exists a. split_and!; [done..|].
  intros c' Hs. eapply step_refines; [done| |done]. by apply areachable_inv.
Qed.

(** C11. The locking and interrupt discipline holds throughout: from a reachable
    configuration neither the kernel's code nor the switch that ends it spins on a
    lock the hart itself holds, and none of the panics that would reveal a broken
    discipline is raised: a pop without push, [sched] with interrupts on, with more
    than one lock or by a running process, a dead process that runs again, a trap from
    the wrong mode or with interrupts on, a null current process. *)
Theorem kernel_disciplined c fuel regs :
  reachable c →
  disciplined (code fuel regs (c_threads c) (c_run c) (c_sys c)) ∧
  ∀ i res s1 out, code fuel regs (c_threads c) (c_run c) (c_sys c) = Done (Switch i res) s1 →
    ctx_ra out ≠ forkret_addr → disciplined ((save_context i out;; scheduler_return i) s1).
Proof.
  intros (a & Hr & Ha)%reachable_represents. destruct c as [s th r]. cbn [c_sys c_threads c_run].
  pose proof (wpd_code fuel regs _ _ _ _ Hr (areachable_inv _ Ha)) as H. split; [by eapply wpd_disciplined|].
  intros i res s1 out Hc Hout. eapply wpd_done in H; [|exact Hc].
  destruct H as (_ & pv & ps & fr & n & Hk & _). apply (wpd_disciplined _ (λ _ _, True)).
  by eapply (wpd_switch_out i out 0); [exact Hk|..].
Qed.

(** C12. No wakeup is lost: in every reachable configuration a process that sleeps
    waits on its own pid, has a child, and none of its children is a zombie; so the
    exit that will wake it is still to come. *)
Theorem no_lost_wakeup c :
  reachable c → ∀ i p, table (c_sys c) !! i = Some p → p_state p = Sleeping →
    p_sleep_channel p = p_pid p ∧
    (∃ j q, table (c_sys c) !! j = Some q ∧ p_parent q = p_pid p) ∧
    (∀ j q, table (c_sys c) !! j = Some q → p_parent q = p_pid p → p_state q ≠ Zombie).
Proof.
  intros (a & Hr & Ha)%reachable_represents i p Hi Hs. apply areachable_inv in Ha.
  destruct (ai_sleep _ Ha i (view p) (table_view _ _ _ _ Hr Hi) Hs) as (Hch & (j & q & Hj & Hq) & Hno).
  split_and!; [done| |].
  - destruct (table_view_inv _ _ _ _ Hr Hj) as (q' & Hq' & ->). by exists j, q'.
  - intros k r Hk Hp. by apply (Hno k (view r)); [eapply table_view|].
Qed.

(** C31. The process table is a tree of living parents: in every reachable
    configuration the pids in use are distinct and below the next one, an entry has a
    pid exactly when it is in use, init exists and is alive, and every other process,
    zombies included, has a parent that is alive.  A process is [Running] exactly when
    it is the hart's current one. *)
Theorem process_tree c :
  reachable c → let t := table (c_sys c) in
  (∀ i j p q n, t !! i = Some p → t !! j = Some q → p_pid p = Some n → p_pid q = Some n → i = j) ∧
  (∀ i p n, t !! i = Some p → p_pid p = Some n → 0 ≤ n < k_pid (s_kernel (c_sys c))) ∧
  (∀ i p, t !! i = Some p → p_state p = Unused ↔ p_pid p = None) ∧
  (∃ i p, t !! i = Some p ∧ p_pid p = Some 0 ∧ alive p) ∧
  (∀ j q, t !! j = Some q → p_state q ≠ Unused → p_pid q ≠ Some 0 →
     ∃ i p, t !! i = Some p ∧ p_parent q = p_pid p ∧ alive p) ∧
  (∀ i p, t !! i = Some p → p_state p = Running ↔ current (m_cpu (s_mach (c_sys c))) = Some i).
Proof.
  intros (a & Hr & Ha)%reachable_represents t. apply areachable_inv in Ha.
  destruct (represents_control _ _ Hr) as (d & pv & fr & held & Hk & _).
  assert (∀ i p, t !! i = Some p → a_procs a !! i = Some (view p)) as Hv by (intros ??; by eapply table_view).
  split_and!.
  - intros i j p q n Hi Hj Hp Hq. by apply (ai_uniq _ Ha i j (view p) (view q) n); [apply Hv|apply Hv|..].
  - intros i p n Hi Hp. rewrite (ks_next _ _ _ _ _ _ _ _ _ Hk). by apply (ai_pid _ Ha i (view p)); [apply Hv|].
  - intros i p Hi. by apply (ai_unused _ Ha i (view p)), Hv.
  - destruct (ai_init _ Ha) as (i & q & Hi & Hp & Hal).
    destruct (table_view_inv _ _ _ _ Hr Hi) as (p & Hip & ->). by exists i, p.
  - intros j q Hj Hu Hz. destruct (ai_tree _ Ha j (view q)) as (i & r & Hi & Hc & Hal); [by apply Hv|done..|].
    destruct (table_view_inv _ _ _ _ Hr Hi) as (p & Hip & ->). by exists i, p.
  - intros i p Hi. rewrite (ks_cur _ _ _ _ _ _ _ _ _ Hk). by apply (ai_run _ Ha i (view p)), Hv.
Qed.

(** C32. Locks and interrupt nesting are balanced at every boundary: in a reachable
    configuration the [KERNEL] lock and the heap lock are free; the disable stack is
    empty and every process's lock is free, except in the switch to a process, where
    the stack is one deep, exactly that process's lock is held, and it is the hart's
    current one. *)
Theorem locks_balanced c :
  reachable c →
  lock_held (s_klock (c_sys c)) = false ∧ lock_held (m_heap_lock (s_mach (c_sys c))) = false ∧
  match c_run c with
  | RunSwitch i => stack (s_mach (c_sys c)) = 1 ∧ current (m_cpu (s_mach (c_sys c))) = Some i ∧
      ∀ j p, table (c_sys c) !! j = Some p → lock_held (p_lock p) = bool_decide (j = i)
  | _ => stack (s_mach (c_sys c)) = 0 ∧
      ∀ j p, table (c_sys c) !! j = Some p → lock_held (p_lock p) = false
  end.
Proof.
  intros (a & Hr & Ha)%reachable_represents.
  destruct (represents_control _ _ Hr) as (d & pv & fr & held & Hk & Hd).
  pose proof (ks_locks _ _ _ _ _ _ _ _ _ Hk) as Hl. pose proof (ks_depth _ _ _ _ _ _ _ _ _ Hk) as [Hst _ _ _].
  split; [apply Hk|]. split; [apply Hk|].
  destruct (c_run c) as [| |i|i| |i|i k|i|back]; [| |destruct Hd as (Hd1 & -> & Hrun)|..];
    try (destruct Hd as [Hd ->]; split; [congruence|]; intros j p Hj; rewrite (Hl j p Hj);
         apply bool_decide_eq_false_2; set_solver +).
  split_and!; [congruence|by rewrite (ks_cur _ _ _ _ _ _ _ _ _ Hk)|]. intros j p Hj. rewrite (Hl j p Hj).
  apply bool_decide_ext. set_solver +.
Qed.
End properties.

(** ** Witnesses: init forks and waits *)

Lemma kernel_refines_witness : ∃ c, reachable c ∧ ∃ a, areachable a ∧ represents c a ∧
  ∀ c', step c c' → ∃ a', rtc astep a a' ∧ represents c' a'.
Proof.
  destruct waiting_reachable as (c & Hc & _). exists c. split; [exact Hc|exact (kernel_refines c Hc)].
Defined.

Lemma kernel_disciplined_witness : ∃ c, reachable c ∧
  disciplined (code 10 Context_zero (c_threads c) (c_run c) (c_sys c)).
Proof.
  destruct waiting_reachable as (c & Hc & _). exists c.
  split; [exact Hc|exact (proj1 (kernel_disciplined c 10 Context_zero Hc))].
Defined.

Lemma waiting_sleeps c : waiting c = true →
  ∃ p, table (c_sys c) !! 0%nat = Some p ∧ p_state p = Sleeping ∧ p_pid p = Some 0.
Proof.
  unfold waiting, states. rewrite !andb_true_iff, !bool_decide_eq_true. intros [[Hs Hp] _].
  destruct (table (c_sys c)) as [|p l]; [done|]. injection Hs as ? _. injection Hp as ? _. by exists p.
Qed.

Lemma no_lost_wakeup_witness : ∃ c p, reachable c ∧ table (c_sys c) !! 0%nat = Some p ∧
  p_state p = Sleeping ∧ p_sleep_channel p = p_pid p.
Proof.
  destruct waiting_reachable as (c & Hc & Hw). destruct (waiting_sleeps c Hw) as (p & Hp & Hs & _).
  exists c, p. split; [exact Hc|]. split; [exact Hp|]. split; [exact Hs|].
  exact (proj1 (no_lost_wakeup c Hc 0%nat p Hp Hs)).
Defined.

Lemma process_tree_witness : ∃ c p, reachable c ∧ table (c_sys c) !! 0%nat = Some p ∧
  p_state p = Sleeping ∧ current (m_cpu (s_mach (c_sys c))) ≠ Some 0%nat.
Proof.
  destruct waiting_reachable as (c & Hc & Hw). destruct (waiting_sleeps c Hw) as (p & Hp & Hs & _).
  exists c, p. split; [exact Hc|]. split; [exact Hp|]. split; [exact Hs|]. intros Hcur.
  apply (proj2 (proj2 (proj2 (proj2 (proj2 (process_tree c Hc)))))  _ _ Hp) in Hcur. congruence.
Defined.

Lemma locks_balanced_witness : ∃ c, reachable c ∧ lock_held (s_klock (c_sys c)) = false.
Proof.
  destruct waiting_reachable as (c & Hc & _). exists c. split; [exact Hc|exact (proj1 (locks_balanced c Hc))].
Defined.
