(* ===== verification/SchedProps.v ===== *)
(** Properties of the scheduler: what it picks, and that nobody waits forever. *)
From S2P Require Export SchedSpec.
From S2P Require Import Scenario.

Section properties.
Context {E : Env} {EL : EnvLaws E}.
Implicit Types (c : Config).

(** C33. The scheduler picks the runnable process that has been scheduled least, the
    first in the table among equals, and changes nothing but its state; it reports
    that there is none exactly when no process is runnable.  In a reachable
    configuration the search always returns. *)
Theorem scheduler_picks_least c :
  reachable c → c_run c = RunWindow →
  ∃ r s', scheduler_pick (c_sys c) = Done r s' ∧
  match r with
  | Some i => ∃ p, table (c_sys c) !! i = Some p ∧ p_state p = Runnable ∧
      (∀ j q, table (c_sys c) !! j = Some q → p_state q = Runnable →
         p_quants p < p_quants q ∨ p_quants p = p_quants q ∧ (i ≤ j)%nat) ∧
      entries_of s' = <[i := set_state Running (unlocked p)]> (entries_of (c_sys c))
  | None => (∀ j q, table (c_sys c) !! j = Some q → p_state q ≠ Runnable) ∧
      entries_of s' = entries_of (c_sys c)
  end.
Proof.
  intros (a & (fr & _ & Hloc) & _)%reachable_represents Hrun. rewrite Hrun in Hloc.
  destruct Hloc as (_ & pv & Hk). pose proof (scheduler_pick_returns _ _ _ _ _ Hk) as (r & s' & Hs & _)%wp_unfold.
  exists r, s'. split; [exact Hs|]. by apply scheduler_pick_done in Hs.
Qed.

(** ** Waiting *)

Definition is_dispatch c c' : bool :=
  match c_run c, c_run c' with RunWindow, RunSwitch _ => true | _, _ => false end.
Definition waits_at (i : nat) c : Prop := ∃ p, table (c_sys c) !! i = Some p ∧ p_state p = Runnable.

(** Runs on which process [i] stays runnable while [n] others are dispatched. *)
Inductive overtakes (i : nat) : nat → Config → Config → Prop :=
  | overtakes_refl c : overtakes i 0 c c
  | overtakes_step n c c1 c2 :
      step c c1 → waits_at i c1 → overtakes i n c1 c2 →
      overtakes i (if is_dispatch c c1 then S n else n) c c2.

(** How often the entries of a table can be dispatched before their count exceeds [q]. *)
Fixpoint turns (q : Z) (counts : list Z) : Z :=
  match counts with [] => 0 | x :: l => Z.max 0 (q + 1 - x) + turns q l end.
Definition counts_of (s : Sys) : list Z := p_quants <$> table s.

Lemma counts_entries s : counts_of s = p_quants <$> entries_of s.
Proof. unfold counts_of, entries_of. by rewrite <- list_fmap_compose. Qed.

Lemma turns_nonneg q l : 0 ≤ turns q l.
Proof. induction l as [|x l IH]; cbn [turns]; lia. Qed.
Lemma turns_entry l i q : l !! i = Some q → 1 ≤ turns q l.
Proof.
  revert i. induction l as [|x l IH]; intros [|i]; cbn [turns lookup list_lookup]; [done..| |].
  - intros [= ->]. pose proof (turns_nonneg q l). lia.
  - intros H%IH. lia.
Qed.
Lemma turns_dispatch q l j x :
  l !! j = Some x → x ≤ q → turns q (<[j := x + 1]> l) = turns q l - 1.
Proof.
  revert j. induction l as [|y l IH]; intros [|j]; [done..| |].
  - intros [= ->] Hx. cbn. lia.
  - intros Hj Hx. change (<[S j:=x + 1]> (y :: l)) with (y :: <[j:=x + 1]> l). cbn [turns].
    rewrite (IH j); [lia|done..].
Qed.

(** What a step does to the scheduling counts. *)
Lemma step_counts c c1 :
  step c c1 →
  if is_dispatch c c1 then ∃ j p, table (c_sys c) !! j = Some p ∧
    (∀ k q, table (c_sys c) !! k = Some q → p_state q = Runnable → p_quants p ≤ p_quants q) ∧
    counts_of (c_sys c1) = <[j := p_quants p + 1]> (counts_of (c_sys c)) ∧
    (∀ q, table (c_sys c1) !! j = Some q → p_state q = Running)
  else counts_of (c_sys c1) = counts_of (c_sys c).
Proof.
  unfold is_dispatch.
  intros [fuel regs s s' th r r' Hcode|fuel regs s sa sb th r i res out Hcode Hout Hsw|s th i m t|s th r t Hint _];
    cbn [c_run c_sys].
  - destruct (run_window_dec r) as [->|Hr].
    2: { assert (counts_of s' = counts_of s) as Heq by by eapply (keeps_code fuel regs th r).
         by destruct r. }
    cbn [code] in Hcode. apply bind_done in Hcode as (o & sa & Hpick & H).
    apply scheduler_pick_done in Hpick.
    destruct o as [j|].
    + apply bind_done in H as (u & sb & Hd & (u2 & sc & Hs & [= <- <-])%bind_done).
      destruct Hpick as (p & Hp & Hr & Hleast & He). exists j, p.
      apply scheduler_dispatch_done in Hd as (p1 & Hp1 & Ht).
      assert (table sc = <[j := set_quants (p_quants p1 + 1) p1]> (table sa)) as Hsd.
      { rewrite <- Ht, <- (list_fmap_id (table sc)), <- (list_fmap_id (table sb)). by eapply (keeps_lift id). }
      assert (unlocked p1 = set_state Running (unlocked p)) as Hp2u.
      { assert (entries_of sa !! j = Some (unlocked p1)) as Hl.
        { unfold entries_of. by rewrite list_lookup_fmap, Hp1. }
        rewrite He in Hl. apply list_lookup_insert_Some in Hl as [(_ & Hl & _)|[? _]]; done. }
      assert (p_quants p1 = p_quants p ∧ p_state p1 = Running) as [Hq2 Hst2].
      { split; [by apply (f_equal p_quants) in Hp2u|by apply (f_equal p_state) in Hp2u]. }
      split_and!; [done| | |].
      * intros k q Hk Hkr. destruct (Hleast k q Hk Hkr); lia.
      * unfold counts_of. rewrite Hsd, list_fmap_insert. cbn [p_quants set_quants]. rewrite Hq2. f_equal.
        change (counts_of sa = counts_of s). rewrite (counts_entries sa), He, list_fmap_insert, <- counts_entries.
        apply list_insert_id. cbn. unfold counts_of. by rewrite list_lookup_fmap, Hp.
      * intros q. rewrite Hsd. intros [(_ & <- & _)|[? _]]%list_lookup_insert_Some; done.
    + apply bind_done in H as (u & sb & Hd & [= <- <-]). destruct Hpick as [_ He].
      trans (counts_of sa); [|by rewrite !counts_entries, He].
      eapply (keeps_bind p_quants); [| |exact Hd]; [apply keeps_lift|intros; apply keeps_lift].
  - assert (counts_of sb = counts_of s) as Heq; [|by destruct r].
    trans (counts_of sa); [by eapply keeps_switch_out|].
    destruct (run_window_dec r) as [->|Hr]; [|by eapply (keeps_code fuel regs th r)].
    cbn [code] in Hcode. apply bind_done in Hcode as ([j|] & sd & _ & H).
    + by apply bind_done in H as (u & se & _ & (u2 & sf & _ & [=])%bind_done).
    + by apply bind_done in H as (u & se & _ & [=]).
  - done.
  - by destruct r.
Qed.

(** C13. No runnable process starves: from any configuration on, while process [i]
    stays runnable, the number of times other processes are dispatched is bounded by
    how many turns the table has left before every count exceeds that of [i].  (Only
    the dispatch changes the counts, forks and exits included.) *)
Theorem no_starvation i p c c' n :
  table (c_sys c) !! i = Some p → p_state p = Runnable → overtakes i n c c' →
  Z.of_nat n < turns (p_quants p) (counts_of (c_sys c)).
Proof.
  intros Hi Hr Hov. revert p Hi Hr.
  induction Hov as [c|n c c1 c2 Hstep (p1 & Hp1 & Hr1) _ IH]; intros p Hi Hr.
  { apply (Z.lt_le_trans _ 1); [done|]. apply (turns_entry _ i). unfold counts_of. by rewrite list_lookup_fmap, Hi. }
  specialize (IH p1 Hp1 Hr1). pose proof (step_counts _ _ Hstep) as Hc.
  assert (counts_of (c_sys c) !! i = Some (p_quants p) ∧ counts_of (c_sys c1) !! i = Some (p_quants p1)) as [H0 H1].
  { unfold counts_of. by rewrite !list_lookup_fmap, Hi, Hp1. }
  destruct (is_dispatch c c1).
  - destruct Hc as (j & q & Hj & Hleast & Hc & Hrun). rewrite Hc in H1, IH.
    assert (j ≠ i) as Hji by (intros ->; specialize (Hrun p1 Hp1); congruence).
    rewrite list_lookup_insert_ne, H0 in H1 by done. injection H1 as H1. rewrite <- H1 in IH.
    rewrite turns_dispatch in IH; [lia| |by eapply Hleast].
    unfold counts_of. by rewrite list_lookup_fmap, Hj.
  - rewrite Hc in H1, IH. rewrite H0 in H1. injection H1 as H1. by rewrite <- H1 in IH.
Qed.
End properties.

Lemma scheduler_picks_least_witness : ∃ c, reachable c ∧ c_run c = RunWindow ∧
  ∃ r s', scheduler_pick (c_sys c) = Done r s'.
Proof.
  destruct waiting_reachable as (c & Hc & Hw). assert (c_run c = RunWindow) as Hr.
  { unfold waiting in Hw. rewrite andb_true_iff in Hw. destruct Hw as [_ Hw]. by destruct (c_run c). }
  exists c. split; [exact Hc|]. split; [exact Hr|].
  destruct (scheduler_picks_least c Hc Hr) as (r & s' & Hs & _). by exists r, s'.
Defined.

Lemma overtaking_step c : overtaking c = true → ∃ c' p,
  table (c_sys c) !! 1%nat = Some p ∧ p_state p = Runnable ∧ overtakes 1 1 c c'.
Proof.
  unfold overtaking. rewrite !andb_true_iff, !bool_decide_eq_true. intros [[Hs _] H].
  destruct (c_run c) eqn:Hr; try done. destruct (drive1 10 MCode c) as [c'|] eqn:Hd; [|done].
  rewrite andb_true_iff, bool_decide_eq_true in H. destruct H as [Hs' Hr'].
  unfold states in *. destruct (table (c_sys c)) as [|p0 [|p1 l]] eqn:Ht; try done.
  destruct (table (c_sys c')) as [|p0' [|p1' l']] eqn:Ht'; try done.
  exists c', p1. split; [done|]. split; [by injection Hs|].
  assert (is_dispatch c c' = true) as Hdis.
  { unfold is_dispatch. rewrite Hr. by destruct (c_run c'). }
  pose proof (overtakes_step 1 0 c c' c' (drive1_step _ _ _ _ Hd)) as H. rewrite Hdis in H. apply H.
  - exists p1'. rewrite Ht'. split; [done|]. by injection Hs'.
  - constructor.
Qed.

Lemma no_starvation_witness : ∃ c c' p, table (c_sys c) !! 1%nat = Some p ∧ p_state p = Runnable ∧
  overtakes 1 1 c c' ∧ 1 < turns (p_quants p) (counts_of (c_sys c)).
Proof.
  destruct overtaking_exists as (c & Hc). destruct (overtaking_step c Hc) as (c' & p & Hp & Hr & Hov).
  exists c, c', p. split; [exact Hp|]. split; [exact Hr|]. split; [exact Hov|].
  exact (no_starvation 1 p c c' 1 Hp Hr Hov).
Defined.
