(* ===== verification/BootProps.v ===== *)
(** Properties of boot. *)
From Stdlib Require Import (notations) String.
From S2P Require Import SimpleEnv Scenario.
From S2P Require Export BootRun.

Section properties.
Context {E : Env} {EL : EnvLaws E}.
Implicit Types (s : Sys).

(** C5. Booting from power-on ends with [init] ready to run. *)
Theorem boot_runs_init s :
  power_on s → is_u32 (m_csr (s_mach s) sstatus) → image_ok INIT → argv_fits INIT [str "10"] →
  60 + exec_frames INIT <
    Z.of_nat (heap_capacity (heap_init heap_new (m_mem (s_mach s)) ekernel (RAMEND - ekernel)).1) →
  wp main_boot (λ _ s', booted s') s.
Proof. intros. by apply main_boot_booted. Qed.
End properties.

(** ** Witness, on the example machine *)

(** At the end of boot the example machine has init ready and the hart's page table
    set. *)
Lemma boot_runs_init_witness :
  wp main_boot (λ _ s', ∃ p, entries_of s' !! 0%nat = Some p ∧ p_state p = Runnable ∧ p_pid p = Some 0) boot_sys.
Proof.
  eapply wp_mono; [apply (boot_runs_init boot_sys boot_sys_power_on)|].
  - done.
  - split_and!; by vm_compute.
  - by vm_compute.
  - by vm_compute.
  - intros _ s' [_ (p & tabs & F & pages & Hp & Hpid & Hst & _) _ _]. by exists p.
Defined.
