(* ===== verification/TrapReady.v ===== *)
(** The way back to user mode in the running system: what [prepare_return] leaves for
    [userret] and for the next [uservec], and that it is there whenever a program runs. *)
From S2P Require Export Isolation Keeps AsmSpec.

(** ** Fields of the frame *)

Lemma tf_word_st32 (m : mem) t f g v :
  is_u32 v → ld32 (st32 m (t + tf_offset f) v) (t + tf_offset g) = if decide (g = f) then v else ld32 m (t + tf_offset g).
Proof.
  intros Hv. destruct (decide (g = f)) as [->|Hne]; [by apply ld32_st32_same|]. apply ld32_st32_other.
  assert (tf_offset g ≠ tf_offset f) by (intros Heq; by apply Hne, tf_offset_inj).
  destruct (tf_offset_range f) as (_ & _ & H4), (tf_offset_range g) as (_ & _ & G4). Z.div_mod_to_equations. lia.
Qed.

Lemma add32_bound {S} a b (s : S) r s' : add32 a b s = Done r s' → r = a + b ∧ s' = s ∧ a + b < U32.
Proof. unfold add32. case_decide; [|done]. by intros [= <- <-]. Qed.

Section trap_return.
Context {E : Env} {EL : EnvLaws E}.
Implicit Types (m : Machine) (s : Sys) (p q : Process) (sp : space) (L : layout) (c : Config).

Lemma tf_set_done t f v m a m' :
  tf_set t f v m = Done a m' → m' = set_mem (st32 (m_mem m) (t + tf_offset f) v) m.
Proof. unfold tf_set, write32. case_decide; [|done]. by intros [= _ <-]. Qed.

Lemma tf_get_word t f m v m' : tf_get t f m = Done v m' → v = tf_word m t f ∧ m' = m.
Proof. unfold tf_get, read32. case_decide; [|done]. by intros [= <- <-]. Qed.

(** What is ready for a process in user mode: the hart traps to [uservec] in the
    trampoline, the frame has the kernel's page table, the top of the process's kernel
    stack, the handler and the hart, and the saved pc and mode are the program's. *)
Record frame_ready m p : Prop := {
  rd_stvec : m_csr m stvec = TRAMPOLINE + (uservec_addr - trampoline);
  rd_satp : tf_word m (p_trapframe p) tf_kernel_satp = m_csr m satp;
  rd_sp : tf_word m (p_trapframe p) tf_kernel_sp = p_kstack p + KSTACK_SIZE;
  rd_handler : tf_word m (p_trapframe p) tf_trap_handler = usertrap_addr;
  rd_hartid : tf_word m (p_trapframe p) tf_hartid = 0;
  rd_sepc : m_csr m sepc = tf_word m (p_trapframe p) tf_epc;
  rd_mode : Z.testbit (m_csr m sstatus) 8 = false;
}.

(** Readiness depends on the frame and four registers. *)
Lemma frame_ready_ext m m' p p' :
  p_trapframe p' = p_trapframe p → p_kstack p' = p_kstack p →
  (∀ a, in_frame (p_trapframe p) a → ld8 (m_mem m') a = ld8 (m_mem m) a) →
  m_csr m' stvec = m_csr m stvec → m_csr m' satp = m_csr m satp → m_csr m' sepc = m_csr m sepc →
  Z.testbit (m_csr m' sstatus) 8 = Z.testbit (m_csr m sstatus) 8 →
  frame_ready m p → frame_ready m' p'.
Proof.
  intros Ht Hk Hm H1 H2 H3 H4 [R1 R2 R3 R4 R5 R6 R7].
  assert (∀ f, tf_word m' (p_trapframe p') f = tf_word m (p_trapframe p) f) as Hf.
  { intros f. unfold tf_word. rewrite Ht. apply ld32_ext. intros b Hb. apply Hm.
    destruct (tf_offset_range f) as (? & ? & _). unfold in_frame, page_size. lia. }
  split; rewrite ?Hf, ?Hk; congruence.
Qed.

Lemma spp_cleared w : Z.testbit (Z.lor (Z.land w (not32 SSTATUS_SPP)) SSTATUS_SPIE) 8 = false.
Proof. rewrite Z.lor_spec, Z.land_spec. change (Z.testbit (not32 SSTATUS_SPP) 8) with false. by rewrite andb_false_r. Qed.

(** The mode bit after [sret]. *)
Lemma sret_mode w : Z.testbit (sret_sstatus w) 8 = false.
Proof.
  unfold sret_sstatus. rewrite Z.lor_spec, Z.land_spec.
  change (Z.testbit (not32 (Z.lor SSTATUS_SPP (Z.lor SSTATUS_SPIE SSTATUS_SIE))) 8) with false.
  rewrite andb_false_r. by destruct (Z.testbit w 5).
Qed.

Lemma sret_done s a s' : sret s = Done a s' →
  s' = set_mach (set_csr (csr_set (m_csr (s_mach s)) sstatus (sret_sstatus (m_csr (s_mach s) sstatus))) (s_mach s)) s.
Proof.
  unfold sret. intros (w & s1 & [-> ->]%read_csr_lift & (m' & [= _ <-] & ->)%lift_done)%bind_done. done.
Qed.

(** ** prepare_return *)

Lemma prepare_return_ready i s a s' :
  prepare_return i s = Done a s' → is_u32 (m_csr (s_mach s) satp) → (∀ p, table s !! i = Some p → 0 ≤ p_kstack p) →
  ∃ p, table s !! i = Some p ∧ table s' = table s ∧ frame_ready (s_mach s') p.
Proof.
  intros (p & s1 & [-> Hp]%proc_done & H)%bind_done Hsatp Hks. specialize (Hks p Hp). exists p. split; [done|].
  apply lift_done in H as (m' & H & ->). split; [done|]. cbn [s_mach set_mach].
  set (m0 := s_mach s) in *. set (t := p_trapframe p) in *.
  apply bind_done in H as ([] & m1 & H1 & H).
  assert (m_csr m1 satp = m_csr m0 satp) as Hs1.
  { unfold interrupt_off in H1. apply bind_done in H1 as (w & ? & [= <- <-] & [= <-]). cbn. by rewrite csr_set_ne. }
  clear H1. apply bind_done in H as (off & ? & [-> ->]%sub32_done & H). apply bind_done in H as (v & ? & [-> ->]%add32_done & H).
  apply bind_done in H as (? & m2 & [= _ <-] & H). apply bind_done in H as (ks & ? & [= <- <-] & H).
  apply bind_done in H as ([] & m3 & ->%tf_set_done & H).
  apply bind_done in H as (size & ? & [-> ->]%mul32_done & H). apply bind_done in H as (top & ? & (-> & -> & Htop)%add32_bound & H).
  change (KERNEL_STACK_PAGES * PAGESIZE) with KSTACK_SIZE in *. subst.
  apply bind_done in H as ([] & m4 & ->%tf_set_done & H). apply bind_done in H as ([] & m5 & ->%tf_set_done & H).
  apply bind_done in H as ([] & m6 & ->%tf_set_done & H). apply bind_done in H as (w & ? & [= <- <-] & H).
  apply bind_done in H as ([] & m7 & [= <-] & H). apply bind_done in H as (epc & ? & Hepc & [= _ <-]).
  apply tf_get_word in Hepc as [-> ->].
  cbn [m_csr m_mem set_csr set_mem]. rewrite (csr_set_ne _ _ satp) by done.
  assert (is_u32 (p_kstack p + KSTACK_SIZE)) as Hsp by (assert (0 < KSTACK_SIZE) by done; unfold is_u32; lia).
  rewrite <- Hs1 in Hsatp.
  split; unfold tf_word; fold t; cbn [m_csr m_mem set_csr set_mem].
  all: rewrite ?tf_word_st32 by first [done|apply usertrap_u32].
  all: repeat rewrite ?csr_set_eq, ?csr_set_ne by done; try done.
  apply spp_cleared.
Qed.

(** ** The code that goes back to user mode *)

(** The end of [usertrap], or [forkret], has run for process [i] from [s0] to [s1], and
    passes [v] to [userret]. *)
Inductive returning (i : nat) s0 (v : Z) s1 : Prop :=
  | returning_trap : usertrap_leave i s0 = Done v s1 → returning i s0 v s1
  | returning_fork : forkret s0 = Done (TRAMPOLINE + (userret_addr - trampoline), v) s1 → returning i s0 v s1.

Lemma usertrap_leave_ready i s0 v s1 :
  usertrap_leave i s0 = Done v s1 → is_u32 (m_csr (s_mach s0) satp) → (∀ p, table s0 !! i = Some p → 0 ≤ p_kstack p) →
  ∃ p, table s1 !! i = Some p ∧ v = user_satp p ∧ frame_ready (s_mach s1) p.
Proof.
  unfold usertrap_leave. intros ([] & s2 & H & (q & s3 & [-> Hq]%proc_done & [= <- <-])%bind_done)%bind_done Hsatp Hks.
  destruct (prepare_return_ready _ _ _ _ H Hsatp Hks) as (p & Hp & Ht & Hr). exists q. split; [done|].
  rewrite Ht, Hp in Hq. injection Hq as <-. by split.
Qed.

Lemma forkret_target s0 w v s1 : forkret s0 = Done (w, v) s1 → w = TRAMPOLINE + (userret_addr - trampoline).
Proof.
  unfold forkret. intros (cur & s2 & _ & H)%bind_done. destruct cur as [i|]; [|done].
  do 3 apply bind_done in H as (? & ? & _ & H). apply bind_done in H as (off & ? & [-> ->]%sub32_done & H).
  by apply bind_done in H as (w' & ? & [-> ->]%add32_done & [= <- _ _]).
Qed.

Lemma forkret_ready i s0 w v s1 :
  forkret s0 = Done (w, v) s1 → current (m_cpu (s_mach s0)) = Some i → is_u32 (m_csr (s_mach s0) satp) →
  (∀ p, table s0 !! i = Some p → 0 ≤ p_kstack p) →
  ∃ p, table s1 !! i = Some p ∧ v = user_satp p ∧ frame_ready (s_mach s1) p.
Proof.
  unfold forkret. intros (cur & s2 & [= <- <-] & H)%bind_done Hcur Hsatp Hks. rewrite Hcur in H.
  apply bind_done in H as ([] & s2 & Hu & H). pose proof (unlock_proc_still _ _ _ _ Hu) as (_ & _ & Hs2 & _).
  assert (p_kstack <$> table s2 = p_kstack <$> table s0) as Hk by by eapply (keeps_unlock_proc p_kstack).
  apply bind_done in H as ([] & s3 & H & Hrest).
  destruct (prepare_return_ready _ _ _ _ H) as (p & Hp & Ht & Hr).
  { by rewrite Hs2. }
  { intros p Hp. apply (f_equal (.!! i)) in Hk. rewrite !list_lookup_fmap, Hp in Hk. cbn in Hk.
    destruct (table s0 !! i) as [q|] eqn:Hq; [|done]. injection Hk as ->. by apply Hks. }
  apply bind_done in Hrest as (q & s4 & [-> Hq]%proc_done & Hrest).
  apply bind_done in Hrest as (off & s4 & [-> ->]%sub32_done & Hrest).
  apply bind_done in Hrest as (w' & s4 & [-> ->]%add32_done & [= _ <- <-]).
  rewrite Ht, Hp in Hq. injection Hq as <-. exists p. by rewrite Ht.
Qed.

Lemma returning_ready i s0 v s1 :
  returning i s0 v s1 → current (m_cpu (s_mach s0)) = Some i → is_u32 (m_csr (s_mach s0) satp) →
  (∀ p, table s0 !! i = Some p → 0 ≤ p_kstack p) →
  ∃ p, table s1 !! i = Some p ∧ v = user_satp p ∧ frame_ready (s_mach s1) p.
Proof. intros [H|H] Hcur; [by apply usertrap_leave_ready|by eapply forkret_ready]. Qed.

(** A stretch of kernel code, from [s], that ends with process [i] in user mode. *)
Definition to_user (i : nat) s L s' : Prop := ∃ s0 s1 v,
  returning i s0 v s1 ∧ sret s1 = Done tt s' ∧ evolves (Some i) s L s1 ∧
  current (m_cpu (s_mach s0)) = Some i ∧ m_csr (s_mach s0) satp = m_csr (s_mach s) satp ∧
  p_kstack <$> table s0 = p_kstack <$> table s.

Lemma trap_to_user i pv ps fr n s L v s1 s' :
  laid (s_mach s) (entries_of s) L → kst s 0 pv (Some i) ps fr ∅ false n →
  usertrap_leave i s = Done v s1 → sret s1 = Done tt s' → to_user i s L s'.
Proof.
  intros HL Hk H1 H2. exists s, s1, v. split_and!; [by constructor|done| |apply Hk|done..].
  assert (wpd (usertrap_leave i) (λ _ s', kst s' 0 false (Some i) ps fr ∅ false n) s) as Hw by (eapply wpd_usertrap_leave; [exact Hk|done]).
  pose proof (wpd_done _ _ _ _ _ Hw H1) as Hk1. cbn beta in Hk1.
  eapply touch_evolves; [done| |by eapply (kst_settled s1 0)]. by eapply touch_usertrap_leave; [by eapply work_area_framed|].
Qed.

(** A thread that is switched to and goes to user mode. *)
Lemma resume_to_user th i j ps fr pv n s L s' :
  laid (s_mach s) (entries_of s) L → kst s 1 pv (Some i) ps fr {[i]} false n → has_thread th fr i →
  resume_thread th i s = Done (Goto (RunUser j)) s' → j = i ∧ to_user i s L s'.
Proof.
  intros HL Hk Hth. pose proof (work_area_framed (Some i) _ _ _ HL) as Hf.
  unfold resume_thread. intros (self & s0 & [-> Hself]%proc_done & H)%bind_done.
  destruct (kst_lookup _ _ _ _ _ _ _ _ _ _ _ Hk Hself) as [_ Hfr]. case_decide as Hra.
  { apply bind_done in H as ([w v] & s1 & H1 & H). apply bind_done in H as ([] & s2 & H2 & [= <- <-]). split; [done|].
    pose proof (ks_cur _ _ _ _ _ _ _ _ _ Hk) as Hcur. pose proof (touch_forkret _ _ _ _ _ Hcur Hf H1) as Ht.
    assert (wpd forkret (λ _ s', kst s' 0 false (Some i) ps fr ∅ false n) s) as Hw by (eapply wpd_forkret; [exact Hk|done]).
    pose proof (wpd_done _ _ _ _ _ Hw H1) as Hk1. cbn beta in Hk1. pose proof (forkret_target _ _ _ _ H1) as ->.
    exists s, s1, v. split_and!; [by constructor 2|done|eapply touch_evolves; [done|exact Ht|by eapply (kst_settled s1 0)]|done..]. }
  destruct Hth as [Hi|(res & Hres & Hok)]; [rewrite Hfr in Hi; injection Hi as Hi; by apply bool_decide_eq_true in Hi|].
  rewrite Hres in H. destruct res as [prev|prev sepc_v sstatus_v back|addr prev|prev]; cbn in Hok.
  - apply bind_done in H as ([] & s0 & H0 & H). apply bind_done in H as (v & s1 & H1 & H).
    apply bind_done in H as ([] & s2 & H2 & [= <- <-]). split; [done|].
    assert (wpd (yeld_leave i prev) (λ _ s', kst s' 0 prev (Some i) ps fr ∅ false n) s) as Hw by (eapply wpd_yeld_leave; [exact Hk|done]).
    pose proof (wpd_done _ _ _ _ _ Hw H0) as Hk0. cbn beta in Hk0.
    pose proof (touch_yeld_leave (Some i) _ i prev _ _ _ Hf H0) as Ht.
    assert (evolves (Some i) s L s0) as (L0 & HL0 & Hiso0) by (eapply touch_evolves; [done|exact Ht|by eapply (kst_settled s0 0)]).
    destruct (trap_to_user _ _ _ _ _ _ _ _ _ _ HL0 Hk0 H1 H2) as (sa & sb & w & Hret & Hsr & (L1 & HL1 & Hiso1) & Hc & Hs & Hks).
    exists sa, sb, w. split_and!; [done|done| |done| |].
    + exists L1. split; [done|]. by eapply isolated_trans.
    + rewrite Hs. apply (to_mach _ _ _ _ Ht).
    + rewrite Hks. eapply (keeps_part fst); [|exact H0]. apply keeps_yeld_leave.
  - do 3 apply bind_done in H as (? & ? & _ & H). injection H as -> _. done.
  - by apply bind_done in H as (? & ? & _ & [= ]).
  - unfold kexit_leave in H. by apply bind_done in H as (? & ? & _ & H).
Qed.

(** A step of the kernel's code that ends in user mode. *)
Lemma code_to_user fuel regs th r a s L j s' :
  represents (mkConfig s th r) a → laid (s_mach s) (entries_of s) L →
  code fuel regs th r s = Done (Goto (RunUser j)) s' → to_user j s L s'.
Proof.
  intros (fr & _ & Hloc) HL H. cbn [c_sys c_threads c_run] in Hloc.
  destruct r as [| |i|i| |i|i k|i|back]; cbn [located code] in *.
  - by apply bind_done in H as (? & ? & _ & [= ]).
  - apply bind_done in H as ([i|] & ? & _ & H); [|by apply bind_done in H as (? & ? & _ & [= ])].
    by do 2 apply bind_done in H as (? & ? & _ & H).
  - destruct Hloc as (_ & Hth & pv & Hk). by destruct (resume_to_user _ _ _ _ _ _ _ _ _ _ HL Hk Hth H) as [-> ?].
  - done.
  - by apply bind_done in H as ([k []] & ? & _ & [= ]).
  - apply bind_done in H as (r & ? & _ & [= Hr _]). by destruct r.
  - apply bind_done in H as (r & ? & _ & [= Hr _]). by destruct r.
  - destruct Hloc as (_ & pv & Hk). apply bind_done in H as (v & s1 & H1 & H). apply bind_done in H as ([] & s2 & H2 & [= <- <-]).
    by eapply trap_to_user.
  - destruct Hloc as (_ & Hown & _). apply bind_done in H as ([v w|k v w prev] & s1 & _ & H); [|done].
    do 2 apply bind_done in H as (? & ? & _ & H). injection H as -> _. done.
Qed.

(** ** The invariant *)

(** What holds at boot and is kept by every step, of configurations that are sound,
    holds of all that can be reached. *)
Lemma creachable_invariant (P : Config → Prop) c :
  (∀ s', represents (boot_config s') a_initial → booted s' → P (boot_config s')) →
  (∀ c c' a L, creachable c → sound c a L → P c → cstep c c' → P c') →
  creachable c → P c.
Proof.
  intros Hboot Hstep (s & s' & Hb & HP & Hm & Hsteps).
  assert (wpd main_boot (λ _ s', represents (boot_config s') a_initial) s) as Hr by (apply wpd_main_boot; [apply Hb|done]).
  pose proof (wpd_done _ _ _ _ _ Hr Hm) as Hr'. cbn beta in Hr'.
  assert (booted s') as Hbd.
  { pose proof (main_boot_booted s Hb) as H. unfold wpo in H. by rewrite Hm in H. }
  revert c Hsteps. apply rtc_ind_r; [by apply Hboot|]. intros c1 c2 Hsteps H12 IH.
  assert (creachable c1) as Hc1 by by exists s, s'.
  destruct (creachable_sound c1 Hc1) as (_ & _ & a & L & Hs & _). by eapply Hstep.
Qed.

Definition stacks_at s : Prop :=
  ∀ j q, table s !! j = Some q → (j < 4)%nat ∧ p_kstack q = kstack_at (Z.of_nat j).

Lemma stacks_at_kept s s' : p_kstack <$> table s' = p_kstack <$> table s → stacks_at s → stacks_at s'.
Proof.
  intros Hk Hst j q Hq. apply (f_equal (.!! j)) in Hk. rewrite !list_lookup_fmap, Hq in Hk. cbn in Hk.
  destruct (table s !! j) as [p|] eqn:Hp; [|done]. injection Hk as ->. by apply Hst.
Qed.
Lemma stacks_at_nonneg s i p : stacks_at s → table s !! i = Some p → 0 ≤ p_kstack p.
Proof.
  intros Hst [Hi ->]%Hst. assert (TRAMPOLINE = 0xffffe000) as HT by done. unfold kstack_at. lia.
Qed.

Lemma cstep_stacks c c' : cstep c c' → stacks_at (c_sys c) → stacks_at (c_sys c').
Proof.
  intros Hstep. apply stacks_at_kept. destruct Hstep as [c1 c2 _ H| |]; [by apply step_kstack|done..].
Qed.

Lemma creachable_stacks c : creachable c → stacks_at (c_sys c).
Proof.
  apply (creachable_invariant (λ c, stacks_at (c_sys c))).
  - intros s (fr & _ & _ & pv & Hk) [_ (p0 & _ & _ & _ & Hp0 & _ & _ & _ & _ & Hk0 & _) Hfree _] j q Hq. cbn [c_sys boot_config] in *.
    assert (j < 4)%nat as Hj.
    { apply lookup_lt_Some in Hq. by rewrite (kst_length _ _ _ _ _ _ _ _ _ Hk) in Hq. }
    split; [done|]. apply table_entry in Hq. destruct j as [|j].
    + rewrite Hp0 in Hq. injection Hq as Hq. apply (f_equal p_kstack) in Hq. by rewrite Hk0 in Hq.
    + destruct (Hfree (S j)) as (q' & F & Hq' & _ & _ & Hkq & _); [lia|]. rewrite Hq' in Hq. injection Hq as Hq.
      apply (f_equal p_kstack) in Hq. by rewrite Hkq in Hq.
  - intros c1 c2 a L _ _ Hst Hstep. by eapply cstep_stacks.
Qed.

(** A process in user mode has what its next trap needs. *)
Definition users_ready c : Prop :=
  ∀ i, c_run c = RunUser i → ∃ p, table (c_sys c) !! i = Some p ∧ frame_ready (s_mach (c_sys c)) p.

Lemma frame_ready_sret s a s' p : sret s = Done a s' → frame_ready (s_mach s) p → frame_ready (s_mach s') p.
Proof.
  intros ->%sret_done Hr. eapply frame_ready_ext; [..|exact Hr]; try done; cbn [s_mach set_mach m_csr set_csr].
  all: rewrite ?csr_set_eq, ?csr_set_ne by done; try done. rewrite sret_mode. symmetry. apply Hr.
Qed.

Lemma to_user_ready i s L s' :
  to_user i s L s' → stacks_at s → is_u32 (m_csr (s_mach s) satp) →
  ∃ p, table s' !! i = Some p ∧ frame_ready (s_mach s') p.
Proof.
  intros (s0 & s1 & v & Hret & Hsr & _ & Hcur & Hsatp & Hks) Hst Hu.
  destruct (returning_ready _ _ _ _ Hret Hcur) as (p & Hp & _ & Hr); [by rewrite Hsatp| |].
  { intros p. apply stacks_at_nonneg. by eapply stacks_at_kept. }
  exists p. split; [|by eapply frame_ready_sret]. by rewrite (sret_done _ _ _ Hsr).
Qed.

Lemma laid_satp_u32 m es L : laid m es L → is_u32 (m_csr m satp).
Proof.
  intros HL. rewrite (la_satp _ _ _ HL). pose proof (pw_root _ _ _ (po_wf _ _ _ _ (pr_own _ _ _ _ _ (la_kernel _ _ _ HL)))) as Hf.
  destruct (frame_quot _ Hf) as (q & Hq & ->).
  change (is_u32 (satp_of (Z.shiftl q 12))). rewrite satp_of_eq by done. apply is_u32_lor; unfold is_u32, U32; lia.
Qed.

Lemma cstep_users_ready c c' a L :
  sound c a L → stacks_at (c_sys c) → users_ready c → cstep c c' → users_ready c'.
Proof.
  intros [Hr _ HL _] Hst Hrd Hstep i Hi. destruct Hstep as [c c' _ H|s th j p sum va pa b Hp Hacc|s th j p g t Hp Hg]; [|..|done].
  - destruct H as [fuel regs s s' th r r' H|fuel regs s s1 s2 th r j res out _ _ _|s th j m t|s th r t _ _]; try done.
    cbn [c_sys c_run] in *. subst r'. eapply to_user_ready; [by eapply code_to_user|done|by eapply laid_satp_u32].
  - injection Hi as ->. destruct (Hrd i eq_refl) as (q & Hq & Hqr). cbn [c_sys] in *. rewrite Hp in Hq. injection Hq as <-.
    exists p. split; [done|]. apply (frame_ready_ext (s_mach s) _ p p); [done|done| |done..]. intros x Hx. cbn [m_mem set_mem set_mach s_mach].
    rewrite ld8_st8. case_decide as Hpa; [|done]. subst x. exfalso.
    destruct (laid_space _ _ _ _ _ HL (table_entry _ _ _ Hp)) as (sp & Hsp & Hso).
    apply (user_page_not_frame s L i i p p sp pa HL Hp Hp Hsp); [by eapply user_access_frame|].
    assert (frame_ok (p_trapframe p)) as [Hal _] by (eapply live_frame_ok; [by eapply laid_ok|apply Hso]).
    by apply page_of_inside.
Qed.

Lemma creachable_ready c : creachable c → users_ready c.
Proof.
  apply (creachable_invariant users_ready); [by intros s _ _ i|].
  intros c1 c2 a L Hc Hs Hr Hstep. eapply cstep_users_ready; [exact Hs|by apply creachable_stacks|done|done].
Qed.

(** ** The process behind the trampoline *)

Lemma slot_process h g m q sp :
  slot_ok m q sp → p_pid q ≠ None → h_m h = set_csr g m → g sstatus = m_csr m sstatus →
  process_space h (p_pagetable q) (sp_tabs sp) (live m ∖ space_frames q sp) (sp_pages sp) (p_trapframe q).
Proof.
  intros Hso Hpid Hm Hs. pose proof (uvm_rep_ok _ _ _ _ _ _ (so_space _ _ _ Hso)) as Hok. split.
  - rewrite Hm, <- (so_used _ _ _ Hso Hpid). apply uvm_rep_csr; [apply Hso|done].
  - pose proof (so_live _ _ _ Hso) as H1. pose proof (so_frame _ _ _ Hso) as H2. set_solver +H1 H2.
  - eapply live_frame_ok; [exact Hok|apply Hso].
Qed.

(** The process in user mode has a pid. *)
Lemma user_pid c a i p :
  represents c a → areachable a → c_run c = RunUser i → table (c_sys c) !! i = Some p → p_pid p ≠ None.
Proof.
  intros (fr & _ & Hloc) Ha Hrun Hp. rewrite Hrun in Hloc. destruct Hloc as (Hr & pv & Hk).
  destruct (kst_lookup _ _ _ _ _ _ _ _ _ _ _ Hk Hp) as [Hv _].
  destruct (a_running _ _ _ (areachable_inv _ Ha) Hr Hv) as (_ & _ & x & Hx). cbn in Hx. congruence.
Qed.

(** The stack of process [i] in the kernel's table. *)
Lemma stack_access m es L i va sum :
  laid m es L → stacks_mapped L → (i < 4)%nat → kstack_at (Z.of_nat i) ≤ va < kstack_at (Z.of_nat i) + KSTACK_SIZE →
  is_Some (sv32_access (m_mem m) (m_csr m satp) false sum Store va).
Proof.
  intros HL [[Hst _] _] Hi Hva. assert (TRAMPOLINE = 0xffffe000 ∧ KSTACK_SIZE = 0x2000) as [HT HK] by done.
  destruct (Hst (Z.of_nat i)) as (p0 & p1 & H0 & H1); [lia|]. rewrite (la_satp _ _ _ HL).
  change (usize_from_SATP (mkSATP 1 0 (shr32 (lo_root L) 12))) with (satp_of (lo_root L)).
  assert (page_aligned (kstack_at (Z.of_nat i))) as Hal.
  { unfold page_aligned, kstack_at, page_size. rewrite HT. Z.div_mod_to_equations. lia. }
  assert (∃ x, lo_map L !! page_of va = Some (x, Z.lor PTE_R PTE_W)) as [x Hx].
  { destruct (decide (va < kstack_at (Z.of_nat i) + page_size)).
    - exists p0. rewrite (page_of_inside (kstack_at (Z.of_nat i))); [done|done|lia].
    - exists p1. rewrite (page_of_inside (kstack_at (Z.of_nat i) + page_size)); [done| |unfold page_size in *; lia].
      unfold page_aligned, page_size in *. Z.div_mod_to_equations. lia. }
  assert (is_u32 va) as Hu by (unfold is_u32, U32, kstack_at in *; lia).
  rewrite (sv32_access_some _ _ _ _ _ _ _ _ _ _ _ (la_kernel _ _ _ HL) Hu Hx); [by eexists|by left].
Qed.

(** The page below a stack is not mapped, and [kernelvec] keeps its frame on the stack it
    interrupts: on a stack that has run into that page its first store faults, so the
    hart traps to [kernelvec] again. *)
Lemma overflow_faults m es L i h f link :
  laid m es L → stacks_mapped L → (i < 4)%nat → h_m h = m → h_user h = false →
  kstack_at (Z.of_nat i) - page_size ≤ wrap32 (rget h sp - 128) < kstack_at (Z.of_nat i) →
  run (kernelvec_call f link) h = None.
Proof.
  intros HL [_ Hguard] Hi Hm Hus Hsp. set (v := wrap32 (rget h sp - 128)) in *.
  assert (is_u32 v) as Hv by apply wrap32_range.
  assert (word_pa (rset sp v h) Store (wrap32 (v + 0)) = None) as Hw.
  { rewrite Z.add_0_r, wrap32_small by done. unfold word_pa. cbn [h_m h_user rset]. rewrite Hm, Hus, (la_satp _ _ _ HL).
    change (usize_from_SATP (mkSATP 1 0 (shr32 (lo_root L) 12))) with (satp_of (lo_root L)).
    rewrite (sv32_access_none _ _ _ _ _ _ _ _ _ (la_kernel _ _ _ HL) Hv); [done|].
    assert (TRAMPOLINE = 0xffffe000) as HT by done.
    rewrite (page_of_inside (kstack_at (Z.of_nat i) - page_size)); [apply Hguard; lia| |lia].
    unfold page_aligned, kstack_at, page_size. rewrite HT. Z.div_mod_to_equations. lia. }
  unfold kernelvec_call, kernelvec_save. cbn [app run exec]. change (rget h sp + -128) with (rget h sp - 128). fold v.
  change (rget (rset sp v h) sp) with v. by rewrite Hw.
Qed.

(** The trampoline in a process's table. *)
Lemma trampoline_fetch m q sp off sum :
  slot_ok m q sp → p_pid q ≠ None → 0 ≤ off < page_size →
  sv32_access (m_mem m) (user_satp q) false sum Fetch (TRAMPOLINE + off) = Some (trampoline + off).
Proof.
  intros Hso Hpid Hoff. pose proof (so_space _ _ _ Hso) as Hu. pose proof (ur_pt _ _ _ _ _ _ Hu) as Hpt.
  unfold user_satp, get_satp. destruct (uvm_pagetable (p_pagetable q)) as [rt]. cbn [root] in *.
  change (usize_from_SATP (mkSATP 1 0 (shr32 rt 12))) with (satp_of rt).
  assert (page_of (TRAMPOLINE + off) = TRAMPOLINE) as Hpg by (apply page_of_inside; [done|lia]).
  assert ((sp_pages sp ∪ sp_high sp) !! page_of (TRAMPOLINE + off) = Some (trampoline, Z.lor PTE_R PTE_X)) as Hx by (rewrite Hpg; by apply (space_trampoline m q sp)).
  assert (TRAMPOLINE + page_size < U32 ∧ 0 ≤ TRAMPOLINE) as [H1 H2] by done.
  assert (is_u32 (TRAMPOLINE + off)) as Hva by (unfold is_u32; lia).
  rewrite (sv32_access_some _ _ _ _ _ _ _ _ _ _ _ Hpt Hva Hx); [|by left].
  cbn [access_bit]. change (Z.testbit (Z.lor PTE_R PTE_X) 3) with true. change (Z.testbit (Z.lor PTE_R PTE_X) 4) with false.
  cbn [negb orb andb]. do 2 f_equal. unfold page_of in Hpg. lia.
Qed.
End trap_return.
