(* ===== verification/Interrupts.v ===== *)
(** An interrupt inside a system call: from the moment it is taken until the call goes on,
    whatever other processes do in between. *)
From S2P Require Import SimpleEnv Scenario.
From S2P Require Export TrapReady.

Section interrupts.
Context {E : Env} {EL : EnvLaws E}.
Implicit Types (m : Machine) (s : Sys) (p q : Process) (sp : space) (L : layout) (c : Config) (i j : nat).

(** Code that writes no memory at all. *)
Definition nowhere (a : Z) : Prop := False.

Lemma nobody_framed s : framed None nowhere s.
Proof. by intros i p. Qed.
Lemma nowhere_confined act es L : confined act es L nowhere.
Proof. by intros a. Qed.
Lemma touch_same_on X act s s' : touch act nowhere s s' → same_on X (m_mem (s_mach s)) (m_mem (s_mach s')).
Proof. intros Ht a _. apply (wr_bytes _ _ _ (to_mach _ _ _ _ Ht)). by intros []. Qed.

(** The entry of a process, before and after. *)
Lemma touch_forward act X s s' i p :
  touch act X s s' → table s !! i = Some p → ∃ p', table s' !! i = Some p' ∧ kept_entry (is_act act i) p p'.
Proof.
  intros Ht Hp. destruct (lookup_lt_is_Some_2 (table s') i) as [p' Hp'].
  { rewrite (to_length _ _ _ _ Ht). by eapply lookup_lt_Some. }
  exists p'. split; [done|]. destruct (to_entry _ _ _ _ Ht i p' Hp') as (p0 & Hp0 & Hk). by simplify_eq.
Qed.

(** ** Taking the interrupt *)

Definition interrupted_by (t : trap_info) c : Config :=
  mkConfig (set_mach (trap_entry false t (s_mach (c_sys c))) (c_sys c)) (c_threads c) (RunKtrap (c_run c)).

Lemma kerneltrap_done s r s' : kerneltrap_enter s = Done r s' →
  match r with
  | KtrapDone w v => current (m_cpu (s_mach s)) = None
  | KtrapYield i w v _ => current (m_cpu (s_mach s)) = Some i ∧
      w = m_csr (s_mach s) sepc ∧ v = m_csr (s_mach s) sstatus
  end.
Proof.
  unfold kerneltrap_enter. intros (? & s1 & [-> ->]%read_csr_lift & H)%bind_done.
  do 3 apply bind_done in H as (? & ? & [-> ->]%read_csr_lift & H).
  case_decide; [done|]. apply bind_done in H as (on & s1 & H1 & H). destruct on; [done|].
  assert (s1 = s) as -> by (unfold interrupt_read in H1; injection H1 as _ <-; by destruct s).
  apply bind_done in H as (cur & s1 & [= <- <-] & H). do 2 apply bind_done in H as (? & ? & _ & H).
  case_decide; [|done]. do 4 apply bind_done in H as (? & ? & _ & H).
  destruct (current _); [|by injection H as <- _]. do 2 apply bind_done in H as (? & ? & _ & H). by injection H as <- _.
Qed.

(** The kernel puts the interrupted place aside, and writes no memory ... *)
Lemma ktrap_switch s th r i fuel regs nx s1 :
  current (m_cpu (s_mach s)) = Some i → code fuel regs th (RunKtrap r) s = Done nx s1 →
  ∃ prev, nx = Switch i (ResKernel prev (m_csr (s_mach s) sepc) (m_csr (s_mach s) sstatus) r) ∧ touch None nowhere s s1.
Proof.
  intros Hcur. cbn [code]. intros (k & s2 & H1 & H)%bind_done. pose proof (kerneltrap_done _ _ _ H1) as Hk.
  destruct k as [w v|j w v prev]; [congruence|]. destruct Hk as (Hj & -> & ->). rewrite Hcur in Hj. injection Hj as <-.
  injection H as <- <-. exists prev. split; [done|]. by eapply touch_kerneltrap_enter; [apply nobody_framed|].
Qed.

(** ... and the switch saves the context of the process and nothing else. *)
Lemma switch_touch i out s s2 p :
  (save_context i out;; scheduler_return i) s = Done tt s2 → table s !! i = Some p →
  touch (Some i) nowhere s s2 ∧ ∃ q, table s2 !! i = Some q ∧ p_pagetable q = p_pagetable p ∧
    p_trapframe q = p_trapframe p ∧ p_context q = out ∧ (busy p → busy q).
Proof.
  intros ([] & s1 & H1 & H2)%bind_done Hp. unfold save_context in H1.
  assert (touch (Some i) nowhere s s1) as Ht1.
  { eapply update_touch; [|exact H1]. intros x. split; try done; unfold is_act; by rewrite bool_decide_eq_false. }
  apply update_done in H1 as (p0 & Hp0 & Ht). simplify_eq.
  pose proof (touch_scheduler_return None nowhere i _ _ _ (nobody_framed s1) H2) as Ht2.
  split; [trans s1; [done|by apply touch_nobody]|].
  destruct (touch_forward _ _ _ _ i (set_context out p0) Ht2) as (q & Hq & [K1 K2 _ K4 K5]).
  { rewrite Ht. apply list_lookup_insert_eq. by eapply lookup_lt_Some. }
  exists q. split_and!; [done|by rewrite K1|by rewrite K2|by rewrite K5|]. intros Hb. by apply K4.
Qed.

(** ** While others run *)

(** A step of the system with process [i] off the hart. *)
Definition elsewhere i c c' : Prop := worker c ≠ Some i ∧ cstep c c'.

(** Its thread stays suspended until it is dispatched. *)
Lemma cstep_parked_thread c c' a i res :
  represents c a → areachable a → worker c ≠ Some i → cstep c c' → c_threads c !! i = Some res →
  c_threads c' !! i = Some res ∧ (worker c' ≠ Some i ∨ c_run c' = RunSwitch i).
Proof.
  intros Hr Ha Hw Hstep Hres. destruct (cstep_refines _ _ _ Hr Ha Hstep) as (a2 & Hr2 & _).
  unfold worker in Hw. rewrite (represents_cur _ _ Hr) in Hw.
  destruct Hstep as [c c' Hnu H|s th j p sum va pa b _ _|s th j p g t _ _].
  2-3: split; [done|]; left; unfold worker; rewrite <- (represents_cur _ _ Hr) in Hw; exact Hw.
  destruct H as [fuel regs s s' th r r' Hc|fuel regs s s1 s2 th r j x out Hc Hout Hsw|s th j m t|s th r t Hint Hsie]; cbn [c_threads c_run] in *.
  - split; [done|]. pose proof (wpd_done _ _ _ _ _ (wpd_code fuel regs th r a s Hr (areachable_inv _ Ha)) Hc) as (a' & _ & Hr' & Hor).
    unfold worker. rewrite (represents_cur _ _ Hr'). destruct Hor as [->|[j ->]]; [by left|].
    destruct Hr' as (fr & _ & Hrun & _). rewrite Hrun. destruct (decide (j = i)) as [->|Hne]; [by right|left; congruence].
  - pose proof (wpd_done _ _ _ _ _ (wpd_code fuel regs th r a s Hr (areachable_inv _ Ha)) Hc) as (Hrun & _).
    rewrite lookup_insert_ne by congruence. split; [done|]. left. unfold worker. rewrite (represents_cur _ _ Hr2).
    destruct Hr2 as (fr & _ & -> & _). done.
  - by destruct (Hnu j).
  - split; [done|]. left. unfold worker. rewrite <- (represents_cur _ _ Hr) in Hw. exact Hw.
Qed.

(** Process [i] as it was left: its thread, its entry and, byte for byte, its memory. *)
Record parked i res out p sp (f0 : mem) c : Prop := {
  pk_thread : c_threads c !! i = Some res;
  pk_place : worker c ≠ Some i ∨ c_run c = RunSwitch i;
  pk_state : ∃ a L q, sound c a L ∧ entries_of (c_sys c) !! i = Some q ∧ lo_spaces L !! i = Some sp ∧
    p_pagetable q = p_pagetable p ∧ p_trapframe q = p_trapframe p ∧ p_context q = out ∧ busy q ∧
    same_on (frames p sp) f0 (m_mem (s_mach (c_sys c)));
}.

Lemma parked_step i res out p sp f0 c c' :
  image_ok INIT → image_ok PRIME → parked i res out p sp f0 c → elsewhere i c c' → parked i res out p sp f0 c'.
Proof.
  intros HI HP [Hth _ (a & L & q & Hs & Hq & Hsp & Hu & Ht & Hcx & Hb & Hm)] [Hw Hstep].
  destruct (cstep_parked_thread _ _ _ _ _ (so_repr _ _ _ Hs) (so_reach _ _ _ Hs) Hw Hstep Hth) as [Hth' Hpl].
  destruct (cstep_sound _ _ _ _ HI HP Hs Hstep) as (a' & L' & Hs' & Hiso).
  destruct (io_others _ _ _ _ _ _ _ Hiso i q sp Hw Hq Hsp Hb) as (q' & Hq' & Hsp' & Hu' & Ht' & Hcx' & Hb' & Hm').
  split; [done|done|]. exists a', L', q'. split_and!; [done..|congruence|congruence|congruence|done|].
  eapply same_on_trans; [exact Hm|]. unfold frames, space_frames in *. by rewrite Hu, Ht in Hm'.
Qed.

Lemma parked_steps i res out p sp f0 c c' :
  image_ok INIT → image_ok PRIME → parked i res out p sp f0 c → rtc (elsewhere i) c c' → parked i res out p sp f0 c'.
Proof. intros HI HP Hp Hsteps. induction Hsteps as [|c c1 c2 H _ IH]; [done|]. apply IH. by eapply parked_step. Qed.

(** ** Going on *)

Lemma resume_ktrap th i prev w v r s nx s1 p :
  table s !! i = Some p → ctx_ra (p_context p) ≠ forkret_addr → th !! i = Some (ResKernel prev w v r) → is_u32 v →
  resume_thread th i s = Done nx s1 → nx = Goto r ∧ touch None nowhere s s1 ∧
    m_csr (s_mach s1) sepc = w ∧ m_csr (s_mach s1) sstatus = sret_sstatus v.
Proof.
  intros Hp Hra Hth Hv. unfold resume_thread. intros (q & s0 & [-> Hq]%proc_done & H)%bind_done. simplify_eq.
  rewrite decide_False, Hth in H by done. apply bind_done in H as ([] & s2 & H1 & H).
  apply bind_done in H as ([] & s3 & H2 & H). apply bind_done in H as ([] & s4 & H3 & [= <- <-]). split; [done|].
  pose proof (touch_yeld_leave None nowhere i prev _ _ _ (nobody_framed s) H1) as T1.
  pose proof (touch_kerneltrap_leave None nowhere w v Hv _ _ _ (nobody_framed s2) H2) as T2.
  pose proof (touch_sret None nowhere _ _ _ (nobody_framed s3) H3) as T3.
  split; [trans s2; [done|]; by trans s3|]. rewrite (sret_done _ _ _ H3). cbn [s_mach set_mach m_csr set_csr].
  unfold kerneltrap_leave in H2. apply bind_done in H2 as (? & s5 & (m5 & [= _ <-] & ->)%lift_done & (m6 & [= <-] & ->)%lift_done).
  cbn [s_mach set_mach m_csr set_csr]. rewrite csr_set_ne, csr_set_eq by done. split; [by rewrite csr_set_ne, csr_set_eq|].
  by rewrite csr_set_eq.
Qed.

(** [sret] undoes what the trap did to the interrupt state. *)
Lemma trap_sret_sie w : Z.testbit w 1 = true → Z.testbit (sret_sstatus (trap_sstatus false w)) 1 = true.
Proof.
  intros Hw. assert (Z.testbit (trap_sstatus false w) 5 = true) as H5.
  { unfold trap_sstatus. rewrite Hw. by rewrite !Z.lor_spec, orb_true_r. }
  unfold sret_sstatus. rewrite H5. by rewrite !Z.lor_spec, !orb_true_r.
Qed.

(** ** From the interrupt to the return *)

Lemma ktrap_cstep s th r i c2 :
  current (m_cpu (s_mach s)) = Some i → cstep (mkConfig s th (RunKtrap r)) c2 → ∃ prev out s1 s2,
    c2 = mkConfig s2 (<[i := ResKernel prev (m_csr (s_mach s) sepc) (m_csr (s_mach s) sstatus) r]> th) RunLoop ∧
    touch None nowhere s s1 ∧ ctx_ra out ≠ forkret_addr ∧ (save_context i out;; scheduler_return i) s1 = Done tt s2.
Proof.
  intros Hcur Hstep. inversion Hstep as [c c' _ H| |]; subst. inversion H; subst; [|..|done].
  - match goal with H : code _ _ _ _ _ = _ |- _ => by destruct (ktrap_switch _ _ _ _ _ _ _ _ Hcur H) as (? & ? & _) end.
  - match goal with H : code _ _ _ _ _ = _ |- _ => destruct (ktrap_switch _ _ _ _ _ _ _ _ Hcur H) as (prev & [= -> ->] & Ht) end.
    by exists prev, out, s1, s2.
Qed.

Lemma resume_cstep s th i prev w v r p c2 :
  table s !! i = Some p → ctx_ra (p_context p) ≠ forkret_addr → th !! i = Some (ResKernel prev w v r) → is_u32 v →
  cstep (mkConfig s th (RunSwitch i)) c2 → c_run c2 = r ∧ touch None nowhere s (c_sys c2) ∧
    m_csr (s_mach (c_sys c2)) sepc = w ∧ m_csr (s_mach (c_sys c2)) sstatus = sret_sstatus v.
Proof.
  intros Hp Hra Hth Hv Hstep. inversion Hstep as [c c' _ H| |]; subst. inversion H; subst; [..|done].
  all: match goal with H : code _ _ _ _ _ = _ |- _ =>
    destruct (resume_ktrap _ _ _ _ _ _ _ _ _ _ Hp Hra Hth Hv H) as ([= ->] & Ht & Hw & Hs) end.
  done.
Qed.

(** Inside its system call a process runs. *)
Lemma inside_running c a i p :
  represents c a → areachable a → inside i (c_run c) → table (c_sys c) !! i = Some p →
  worker c = Some i ∧ busy p ∧ interruptible (c_run c) = true ∧ ∀ j, c_run c ≠ RunUser j.
Proof.
  intros Hr Ha Hin Hp. unfold worker. rewrite (represents_cur _ _ Hr).
  assert (a_run a = Some i) as Hrun.
  { destruct Hr as (fr & _ & Hloc). destruct (c_run c); try done; cbn in Hin; subst; by destruct Hloc as [-> _]. }
  destruct (represents_control _ _ Hr) as (d & pv & fr & held & Hk & _).
  destruct (kst_lookup _ _ _ _ _ _ _ _ _ _ _ Hk Hp) as [Hv _].
  destruct (a_running _ _ _ (areachable_inv _ Ha) Hrun Hv) as (Hst & _). cbn in Hst.
  split; [done|]. split; [by split; rewrite Hst|]. by destruct (c_run c).
Qed.

Lemma interrupt_parks t c0 c2 a i L p sp :
  image_ok INIT → image_ok PRIME → sound c0 a L → inside i (c_run c0) → sie_on (s_mach (c_sys c0)) = true →
  table (c_sys c0) !! i = Some p → lo_spaces L !! i = Some sp → cstep (interrupted_by t c0) c2 →
  ∃ prev out, ctx_ra out ≠ forkret_addr ∧
    parked i (ResKernel prev (ti_pc t) (trap_sstatus false (m_csr (s_mach (c_sys c0)) sstatus)) (c_run c0))
      out p sp (m_mem (s_mach (c_sys c0))) c2.
Proof.
  intros HI HP Hs Hin Hsie Hp Hsp Hstep. pose proof Hs as [Hr Ha HL _].
  destruct (inside_running _ _ _ _ Hr Ha Hin Hp) as (Hw & Hb & Hint & Hnu).
  assert (cstep c0 (interrupted_by t c0)) as Hstep0.
  { apply cstep_kernel; [done|]. destruct c0 as [s th r]. by apply step_interrupt. }
  destruct (cstep_sound _ _ _ _ HI HP Hs Hstep0) as (a1 & L1 & Hs1 & _).
  destruct (cstep_sound _ _ _ _ HI HP Hs1 Hstep) as (a2 & L2 & [Hr2 Ha2 _ Hsv2] & _).
  destruct (ktrap_cstep (c_sys (interrupted_by t c0)) (c_threads c0) (c_run c0) i c2 Hw Hstep) as (prev & out & s1 & s2 & -> & Ht1 & Hout & Hsw).
  assert (touch None nowhere (c_sys c0) s1) as Ht.
  { etrans; [|exact Ht1]. apply touch_same; [|done]. cbn [interrupted_by c_sys s_mach set_mach]. rewrite trap_same. by apply written_trap. }
  destruct (touch_forward _ _ _ _ i p Ht Hp) as (p1 & Hp1 & [K1 K2 _ K4 _]).
  destruct (switch_touch _ _ _ _ _ Hsw Hp1) as (Ht2 & q & Hq & Hqu & Hqt & Hqc & Hqb).
  assert (touch (Some i) nowhere (c_sys c0) s2) as Htt by (trans s1; [by apply touch_nobody|done]).
  destruct (touch_laid _ _ _ _ _ HL (nowhere_confined _ _ _) Htt (represents_settled _ _ Hr2)) as [HL2 _].
  exists prev, out. split; [done|]. split.
  - apply lookup_insert_eq.
  - left. unfold worker. rewrite (represents_cur _ _ Hr2). by destruct Hr2 as (fr & _ & -> & _).
  - exists a2, L, (unlocked q). split_and!; [by split|by apply table_entry|done|cbn; congruence|cbn; congruence|done| |].
    + apply Hqb. by apply K4.
    + by eapply touch_same_on.
Qed.

Lemma parked_resumes i prev w v r out p sp f0 c c' :
  parked i (ResKernel prev w v r) out p sp f0 c → ctx_ra out ≠ forkret_addr → worker c = Some i → cstep c c' →
  c_run c' = r ∧ m_csr (s_mach (c_sys c')) sepc = w ∧ m_csr (s_mach (c_sys c')) sstatus = sret_sstatus v ∧
  ∃ p', table (c_sys c') !! i = Some p' ∧ p_pagetable p' = p_pagetable p ∧ p_trapframe p' = p_trapframe p ∧
    same_on (frames p sp) f0 (m_mem (s_mach (c_sys c'))).
Proof.
  intros [Hth [Hpl|Hpl] (a & L & q & Hs & Hq & _ & Hu & Ht & Hcx & _ & Hm)] Hout Hw Hstep; [done|].
  destruct (so_saved _ _ _ Hs) as [Hsv _]. destruct (Hsv _ _ Hth) as [Hv _].
  unfold entries_of in Hq. rewrite list_lookup_fmap, fmap_Some in Hq. destruct Hq as (x & Hx & ->).
  destruct c as [s th r0]. cbn [c_run c_sys c_threads] in *. subst r0.
  destruct (resume_cstep s th i prev w v r x c' Hx) as (Hr & Htch & Hpc & Hst); [by rewrite <- Hcx in Hout|done|done|done|].
  destruct (touch_forward _ _ _ _ i x Htch Hx) as (x' & Hx' & [K1 K2 _ _ _]).
  split_and!; [done|done|done|]. exists x'. split_and!; [done|by rewrite K1|by rewrite K2|].
  eapply same_on_trans; [exact Hm|]. by eapply touch_same_on.
Qed.

(** C14. An interrupt is invisible to the system call it interrupts.  From any reachable
    configuration with process [i] inside a system call and interrupts on, let an
    interrupt come, the kernel preempt [i], other processes do whatever they do, and [i]
    be dispatched again: it goes on at the very place, with the locals of the call, at
    the pc of the interrupt and with interrupts on, in the address space it had, and
    every byte of its page tables, of its pages and of its trap frame is as it was. *)
Theorem interrupt_transparent t c0 c2 c3 c4 i L p sp :
  creachable c0 → inside i (c_run c0) → sie_on (s_mach (c_sys c0)) = true →
  laid (s_mach (c_sys c0)) (entries_of (c_sys c0)) L → table (c_sys c0) !! i = Some p → lo_spaces L !! i = Some sp →
  cstep (interrupted_by t c0) c2 → rtc (elsewhere i) c2 c3 → worker c3 = Some i → cstep c3 c4 →
  c_run c4 = c_run c0 ∧ m_csr (s_mach (c_sys c4)) sepc = ti_pc t ∧ sie_on (s_mach (c_sys c4)) = true ∧
  ∃ p', table (c_sys c4) !! i = Some p' ∧ p_pagetable p' = p_pagetable p ∧ p_trapframe p' = p_trapframe p ∧
    same_on (frames p sp) (m_mem (s_mach (c_sys c0))) (m_mem (s_mach (c_sys c4))).
Proof.
  intros (HI & HP & a & L0 & [Hr Ha _ Hsv] & _)%creachable_sound Hin Hsie HL Hp Hsp H12 H23 Hw H34.
  destruct (interrupt_parks t c0 c2 a i L p sp HI HP) as (prev & out & Hout & Hpk); [by split|done..|].
  pose proof (parked_steps _ _ _ _ _ _ _ _ HI HP Hpk H23) as Hpk3.
  destruct (parked_resumes _ _ _ _ _ _ _ _ _ _ _ Hpk3 Hout Hw H34) as (Hr4 & Hpc & Hst & Hrest).
  split_and!; [done|done| |done]. unfold sie_on. rewrite Hst. by apply trap_sret_sie.
Qed.
End interrupts.

(** ** Witness: the timer fires between two bytes that init's [wait] prints *)

#[local] Existing Instance simple_env.
#[local] Existing Instance simple_laws.

Lemma interrupt_transparent_witness : ∃ c0 c5 p p', creachable c0 ∧ c_run c5 = c_run c0 ∧
  sie_on (s_mach (c_sys c5)) = true ∧ table (c_sys c0) !! 0%nat = Some p ∧ table (c_sys c5) !! 0%nat = Some p' ∧
  same_on {[p_trapframe p]} (m_mem (s_mach (c_sys c0))) (m_mem (s_mach (c_sys c5))).
Proof.
  destruct interrupted_reachable as (c0 & c1 & c2 & c3 & c4 & c5 & c6 & H0 & Hp & Hd & H12 & O2 & H23 & O3 & H34 & O4 & H45 & _).
  destruct boot_sys_boots as [Hbs HPR]. pose proof (ran_creachable _ _ Hbs HPR H0) as Hc. clear H0.
  pose proof (creachable_sound _ Hc) as (_ & _ & a & L & Hs & _).
  destruct c0 as [s th r]. unfold printing in Hp. cbn [c_run] in Hp. destruct r as [| | | | | |[|] k| |]; try done.
  cbn [drive1 interruptible andb] in Hd. destruct (sie_on (s_mach s)) eqn:Hsie; [|done]. injection Hd as Hd.
  rewrite trap_config_same in Hd. subst c1.
  unfold off_hart in *. apply bool_decide_eq_true in O2, O3, O4.
  destruct (lookup_lt_is_Some_2 (table s) 0) as [p Htab].
  { destruct (represents_control _ _ (so_repr _ _ _ Hs)) as (d & pv & fr & held & Hk & _).
    cbn [c_sys] in Hk. rewrite (kst_length _ _ _ _ _ _ _ _ _ Hk). destruct Hs as [(fr2 & _ & Hrun & _) Ha _ _].
    destruct (ai_run_in _ (areachable_inv _ Ha) 0%nat Hrun) as [x Hx]. by eapply lookup_lt_Some. }
  destruct (laid_space _ _ _ _ _ (so_laid _ _ _ Hs) (table_entry _ _ _ Htab)) as (sp & Hsp & _).
  destruct (interrupt_transparent (mkTrapInfo 0 0x80000005 0 1000) (mkConfig s th (RunInside 0 k)) c2 c4 c5 0 L p sp)
    as (Hr & _ & Hon & p' & Hp' & _ & _ & Hm); [exact Hc|done|exact Hsie|apply Hs|exact Htab|exact Hsp|exact H12| |exact O4|exact H45|].
  { eapply rtc_l; [split; [by rewrite O2|exact H23]|]. apply rtc_once. split; [by rewrite O3|exact H34]. }
  exists (mkConfig s th (RunInside 0 k)), c5, p, p'. split; [exact Hc|]. split; [exact Hr|]. split; [exact Hon|].
  split; [exact Htab|]. split; [exact Hp'|]. intros b Hb. apply Hm. unfold frames. set_solver +Hb.
Defined.
