(* ===== verification/IsolProps.v ===== *)
(** Properties of the memory of the running system: who owns what, what a program reaches,
    what one step may change, and what the page tables keep from it. *)
From S2P Require Import Scenario.
From S2P Require Export Isolation KernelProps.

Section properties.
Context {E : Env} {EL : EnvLaws E}.
Implicit Types (m : Machine) (s : Sys) (p q : Process) (sp : space) (L : layout) (c : Config).

(** C3. Memory stays well formed.  In every configuration the system can reach, satp
    selects the kernel's page table, which maps the four kernel stacks above unmapped
    pages; every entry of the process table has an address space, whose tables and pages
    are frames of the heap in use, mapped below the trampoline and the trap frame, and a
    trap frame; and no frame belongs to two of them. *)
Theorem memory_laid_out c :
  creachable c → ∃ L, laid (s_mach (c_sys c)) (entries_of (c_sys c)) L ∧ stacks_mapped L.
Proof. intros (_ & _ & a & L & Hs & Hst)%creachable_sound. exists L. by split; [apply Hs|]. Qed.

(** C2. Processes are isolated.  Whatever the next step is (a store of the running
    program, a trap, a system call, fork, exec, wait, exit, a switch), the memory is well
    formed again, and the tables of the kernel, its static memory, and the frames, the
    tables and the pages of every live process but the one at work are byte for byte what
    they were. *)
Theorem processes_isolated c c' L :
  creachable c → cstep c c' → laid (s_mach (c_sys c)) (entries_of (c_sys c)) L →
  ∃ L', laid (s_mach (c_sys c')) (entries_of (c_sys c')) L' ∧
    isolated (worker c) (s_mach (c_sys c)) (entries_of (c_sys c)) L
      (s_mach (c_sys c')) (entries_of (c_sys c')) L'.
Proof.
  intros (HI & HP & a & L0 & [Hr Ha _ Hth] & _)%creachable_sound Hstep HL.
  destruct (cstep_sound c c' a L HI HP) as (? & L' & Hs & Hiso); [by split|done|]. exists L'. by split; [apply Hs|].
Qed.

(** C4. A program reaches its own memory and nothing else.  In every reachable
    configuration, whatever access in user mode the page table of a process allows, the
    physical address is in the heap, in no trap frame, and in no page that the table of
    another process lets its program reach; and storing any byte there changes the
    translation of no address, for the kernel or for any process. *)
Theorem user_access_private c i p sum k va pa :
  creachable c → table (c_sys c) !! i = Some p → user_access (s_mach (c_sys c)) p sum k va pa →
  heap_area pa ∧
  (∀ j q, table (c_sys c) !! j = Some q → page_of pa ≠ p_trapframe q) ∧
  (∀ j q sum' k' va' pa', j ≠ i → table (c_sys c) !! j = Some q →
     user_access (s_mach (c_sys c)) q sum' k' va' pa' → page_of pa' ≠ page_of pa) ∧
  (∀ b st va', is_u32 va' →
     st = m_csr (s_mach (c_sys c)) satp ∨ (∃ j q, table (c_sys c) !! j = Some q ∧ st = user_satp q) →
     sv32_walk (st8 (m_mem (s_mach (c_sys c))) pa b) st va' = sv32_walk (m_mem (s_mach (c_sys c))) st va').
Proof.
  intros (_ & _ & a & L & [_ _ HL _] & _)%creachable_sound Hp Hacc. set (s := c_sys c) in *.
  destruct (laid_space _ _ _ _ _ HL (table_entry _ _ _ Hp)) as (sp & Hsp & Hso).
  pose proof (user_access_frame _ _ _ _ _ _ _ Hso Hacc) as Hin. split_and!.
  - eapply page_of_live; [by eapply laid_ok|]. apply (frames_live _ _ _ Hso). unfold frames, space_frames, owned. set_solver +Hin.
  - intros j q Hq Heq. by eapply (user_page_not_frame s L i j).
  - intros j q sum' k' va' pa' Hji Hq Hacc' Heq. destruct (laid_space _ _ _ _ _ HL (table_entry _ _ _ Hq)) as (sq & Hsq & Hsoq).
    pose proof (user_access_frame _ _ _ _ _ _ _ Hsoq Hacc') as Hin'. rewrite Heq in Hin'.
    pose proof (la_apart _ _ _ HL _ _ _ _ _ _ (table_entry _ _ _ Hq) (table_entry _ _ _ Hp) Hsq Hsp Hji) as Hd.
    unfold frames, space_frames, owned in Hd. set_solver +Hd Hin Hin'.
  - intros b st va' Hva Hst. pose proof (laid_store s L i p sp sum k va pa b HL Hp Hsp Hacc) as HL'. cbv zeta in HL'.
    exact (laid_walk _ _ _ _ _ _ HL HL' Hva Hst).
Qed.

(** The kernel's own accesses to RAM, by the table that satp selects. *)
Lemma laid_kernel_access m es L k sum a :
  laid m es L → stacks_mapped L → RAMSTART ≤ a < RAMEND →
  sv32_access (m_mem m) (m_csr m satp) false sum k a = if kernel_may k a then Some a else None.
Proof.
  intros HL [[_ Hrest] _] Ha. rewrite (la_satp _ _ _ HL).
  change (usize_from_SATP (mkSATP 1 0 (shr32 (lo_root L) 12))) with (satp_of (lo_root L)).
  assert (TRAMPOLINE = 0xffffe000 ∧ RAMEND < 0xf0000000 ∧ RAMSTART = KERNEL_START ∧ 0 < RAMSTART) as (HT & HR & HK & H0) by done.
  rewrite (kernel_access _ _ _ _ _ _ _ _ (la_kernel _ _ _ HL)); [| |unfold is_u32, U32; lia].
  - unfold kernel_pa, PAGESIZE. rewrite decide_False, decide_True by lia. done.
  - apply Hrest. intros i Hi. pose proof (page_of_range a). unfold kstack_at, page_size in *. lia.
Qed.

Lemma laid_storable_iff m es L a :
  laid m es L → RAMSTART ≤ a < RAMEND → storable m a 1 ↔ etext ≤ a.
Proof. intros HL Ha. unfold storable, in_ram. rewrite (laid_paging _ _ _ HL). naive_solver lia. Qed.

Lemma laid_write8 m es L sum a v :
  laid m es L → stacks_mapped L → RAMSTART ≤ a < RAMEND →
  write8 a v m = match sv32_access (m_mem m) (m_csr m satp) false sum Store a with
                 | Some pa => Done tt (set_mem (st8 (m_mem m) pa v) m) | None => Fault end.
Proof.
  intros HL Hst Ha. rewrite (laid_kernel_access m es L) by done. cbn [kernel_may]. unfold write8.
  pose proof (laid_storable_iff m es L a HL Ha). assert (UART + PAGESIZE < RAMSTART) as HU by done.
  case_bool_decide; case_decide; first [done | exfalso; naive_solver lia].
Qed.

(** C15. The kernel's text is write-protected and never changes.  In every reachable
    configuration the kernel's own load from an address of RAM reads that byte; its
    store succeeds exactly where the hart, by the table that satp selects, lets
    supervisor mode store, and then changes that byte, and it faults everywhere in the
    text; and whatever steps follow, of the kernel and of programs, every byte of the
    text stays what it was. *)
Theorem kernel_text_protected c c' :
  creachable c → rtc cstep c c' → let m := s_mach (c_sys c) in
  (∀ a sum, RAMSTART ≤ a < RAMEND →
     read8 a m = match sv32_access (m_mem m) (m_csr m satp) false sum Load a with
                 | Some pa => Done (ld8 (m_mem m) pa) m | None => Fault end ∧
     ∀ v, write8 a v m = match sv32_access (m_mem m) (m_csr m satp) false sum Store a with
                         | Some pa => Done tt (set_mem (st8 (m_mem m) pa v) m) | None => Fault end ∧
          (write8 a v m = Fault ↔ a < etext)) ∧
  ∀ a, KERNEL_START ≤ a < etext → ld8 (m_mem (s_mach (c_sys c'))) a = ld8 (m_mem m) a.
Proof.
  intros (HI & HP & a & L & Hs & Hst)%creachable_sound Hsteps m. split.
  - intros x sum Hx. pose proof (so_laid _ _ _ Hs) as HL. fold m in HL. split.
    + rewrite (laid_kernel_access m _ L) by done. unfold read8. by rewrite decide_True by (unfold in_ram; lia).
    + intros v. split; [by eapply laid_write8|]. unfold write8. pose proof (laid_storable_iff m _ L x HL Hx) as Hiff.
      case_decide as Hs'; rewrite Hiff in Hs'; (split; [done || lia|intros; done || lia]).
  - intros x Hx. subst m. revert a L Hs Hst. induction Hsteps as [c|c c1 c2 H _ IH]; intros a L Hs Hst; [done|].
    destruct (cstep_sound _ _ _ _ HI HP Hs H) as (a1 & L1 & Hs1 & Hiso). rewrite (IH a1 L1 Hs1).
    + apply (io_static _ _ _ _ _ _ _ Hiso). pose proof etext_before_ekernel. unfold heap_area. lia.
    + destruct (io_kernel _ _ _ _ _ _ _ Hiso) as (_ & _ & Hm). unfold stacks_mapped. by rewrite Hm.
Qed.

(** The two pages above a program, in the kernel's table and in the process's. *)
Lemma laid_high m s L i p va :
  m = s_mach s → laid m (entries_of s) L → stacks_mapped L → table s !! i = Some p → p_pid p ≠ None →
  TRAPFRAME ≤ va < TRAMPOLINE + PAGESIZE →
  (TRAMPOLINE ≤ va → ∀ sum,
     sv32_access (m_mem m) (m_csr m satp) false sum Fetch va = Some (trampoline + (va - TRAMPOLINE)) ∧
     sv32_access (m_mem m) (user_satp p) false sum Fetch va = Some (trampoline + (va - TRAMPOLINE))) ∧
  (va < TRAMPOLINE → ∀ sum k, k ≠ Fetch →
     sv32_access (m_mem m) (user_satp p) false sum k va = Some (p_trapframe p + (va - TRAPFRAME))) ∧
  ∀ sum k pa, ¬ user_access m p sum k va pa.
Proof.
  intros -> HL [[_ Hrest] _] Hp Hpid Hva.
  destruct (laid_space _ _ _ _ _ HL (table_entry _ _ _ Hp)) as (sp & _ & Hso).
  pose proof (so_space _ _ _ Hso) as Hu. rewrite (so_used _ _ _ Hso Hpid) in Hu.
  assert (lo_map L !! TRAMPOLINE = kernel_entries !! TRAMPOLINE) as He.
  { apply Hrest. intros j Hj. unfold kstack_at, page_size. lia. }
  destruct (high_translations _ _ _ _ _ _ _ _ _ _ va (la_kernel _ _ _ HL) He Hu Hva) as (H1 & H2 & H3).
  rewrite (la_satp _ _ _ HL). change (usize_from_SATP (mkSATP 1 0 (shr32 (lo_root L) 12))) with (satp_of (lo_root L)).
  split_and!; [exact H1|exact H2|]. intros sum k pa [_ Hacc]. unfold user_satp in Hacc.
  change (p_pagetable (unlocked p)) with (p_pagetable p) in H3. by rewrite H3 in Hacc.
Qed.

(** C22. The trap path survives the change of address space: in every reachable
    configuration and for every process in use, each address of the trampoline page
    translates to the same physical address, fetchable from supervisor mode, through the
    kernel's table, which satp selects, and through the process's; the trap frame page
    leads supervisor mode to the process's own trap frame; and from user mode neither page
    can be read, written or executed. *)
Theorem trampoline_shared c i p va :
  creachable c → table (c_sys c) !! i = Some p → p_pid p ≠ None →
  TRAPFRAME ≤ va < TRAMPOLINE + PAGESIZE → let m := s_mach (c_sys c) in
  (TRAMPOLINE ≤ va → ∀ sum,
     sv32_access (m_mem m) (m_csr m satp) false sum Fetch va = Some (trampoline + (va - TRAMPOLINE)) ∧
     sv32_access (m_mem m) (user_satp p) false sum Fetch va = Some (trampoline + (va - TRAMPOLINE))) ∧
  (va < TRAMPOLINE → ∀ sum k, k ≠ Fetch →
     sv32_access (m_mem m) (user_satp p) false sum k va = Some (p_trapframe p + (va - TRAPFRAME))) ∧
  ∀ sum k pa, ¬ user_access m p sum k va pa.
Proof.
  intros (_ & _ & a & L & [_ _ HL _] & Hst)%creachable_sound Hp Hpid Hva m. by eapply (laid_high m).
Qed.

(** Where [copy_out] stores when it is given an address above the program. *)
Lemma copy_out_high m q sp base x perm off data :
  slot_ok m q sp → p_pid q ≠ None → high (p_trapframe q) !! base = Some (x, perm) → Z.testbit perm 1 = true →
  0 ≤ off < page_size → copy_out (p_pagetable q) (base + off) data m = (write32 (x + off) data;; mret (Some tt)) m.
Proof.
  intros Hso Hpid Hx Hperm Hoff. pose proof (so_space _ _ _ Hso) as Hu. pose proof (ur_pt _ _ _ _ _ _ Hu) as Hpt.
  rewrite <- (so_used _ _ _ Hso Hpid) in Hx.
  assert (base = TRAMPOLINE ∨ base = TRAPFRAME) as Hbase.
  { destruct (ur_hi _ _ _ _ _ _ Hu _ _ Hx) as [[]  _]; auto. }
  assert (TRAPFRAME + page_size = TRAMPOLINE ∧ TRAMPOLINE + page_size < U32 ∧ 0 < TRAPFRAME) as (HT & HU & H0) by done.
  assert (page_aligned base) as Hal by by destruct Hbase as [-> | ->].
  assert (page_of (base + off) = base ∧ (base + off) mod page_size = off) as [Hpg Hmod].
  { assert (page_of (base + off) = base) as Hpg by (apply page_of_inside; [done|lia]). split; [done|]. unfold page_of in Hpg. lia. }
  assert (sp_pages sp !! base = None) as Hno.
  { apply eq_None_not_Some. intros [y Hy]. destruct (ur_page _ _ _ _ _ _ Hu _ _ Hy) as ([_ Hlt] & _).
    destruct (ur_size _ _ _ _ _ _ Hu) as (_ & _ & Hle). destruct Hbase; subst; unfold page_size in *; lia. }
  destruct (uvm_pagetable (p_pagetable q)) as [rt] eqn:Hrt.
  assert (wp (walkaddr (mkPageTable rt) (base + off)) (λ r m', r = Some (x + off) ∧ m' = m) m) as H.
  { eapply walkaddr_spec; [exact Hpt|unfold is_u32; destruct Hbase; subst; unfold page_size in *; lia|].
    unfold translate. rewrite Hpg, lookup_union_r, Hx, Hperm, Hmod by done. done. }
  apply wp_unfold in H as (r & m' & Hrun & -> & ->). unfold copy_out. rewrite Hrt. unfold mbind at 1, M_bind at 1. by rewrite Hrun.
Qed.

Lemma proc_run s i p : table s !! i = Some p → proc i s = Done p s.
Proof. intros Hp. unfold proc, mbind, M_bind, gets. fold (table s). by rewrite Hp. Qed.

(** A program that stores through [wait] where the trap code is: the kernel's own store
    faults, and the trap it takes then is one that [kerneltrap] panics on. *)
Lemma page_fault_panics s i p t :
  current (m_cpu (s_mach s)) = Some i → table s !! i = Some p → ti_cause t = 15 →
  kerneltrap_enter (set_mach (trap_entry false t (s_mach s)) s) = Panic PTrapCause.
Proof.
  intros Hcur Hp Ht. set (s1 := set_mach _ s).
  assert (∀ x : csr_name, lift (read_csr x) s1 = Done (m_csr (s_mach s1) x) s1) as Hread by done.
  assert (m_csr (s_mach s1) sstatus = trap_sstatus false (m_csr (s_mach s) sstatus) ∧ m_csr (s_mach s1) scause = 15) as [Hst Hca].
  { unfold s1. cbn. by rewrite !csr_set_ne, csr_set_eq, !csr_set_ne, csr_set_eq by done. }
  assert (lift interrupt_read s1 = Done false s1) as Hoff.
  { assert (wp interrupt_read (λ b m', b = false ∧ m' = s_mach s1) (s_mach s1)) as H.
    { apply interrupt_read_spec. split; [|done]. unfold sie_on. rewrite Hst. apply trap_sstatus_sie. }
    apply wp_unfold in H as (b & m' & Hrun & -> & ->). unfold lift. by rewrite Hrun. }
  assert (Z.land (m_csr (s_mach s1) sstatus) SSTATUS_SPP ≠ 0) as Hspp by (rewrite Hst; by intros H%trap_sstatus_spp).
  unfold kerneltrap_enter, mbind, M_bind. rewrite !Hread, decide_False, Hoff by done.
  assert (get_current s1 = Done (Some i) s1) as -> by (unfold get_current, gets; by rewrite <- Hcur).
  assert (proc i s1 = Done p s1) as -> by by apply proc_run.
  cbn [mret M_ret]. unfold lift at 1. rewrite kprintln_run. by rewrite Hca.
Qed.

(** The process at work is in use. *)
Lemma worker_pid c i p : creachable c → worker c = Some i → table (c_sys c) !! i = Some p → p_pid p ≠ None.
Proof.
  intros (_ & _ & a & L & [Hr Ha _ _] & _)%creachable_sound Hw Hp. unfold worker in Hw. rewrite (represents_cur _ _ Hr) in Hw.
  destruct (represents_control _ _ Hr) as (d & pv & fr & held & Hk & _).
  destruct (kst_lookup _ _ _ _ _ _ _ _ _ _ _ Hk Hp) as [Hv _].
  destruct (a_running _ _ _ (areachable_inv _ Ha) Hw Hv) as (_ & _ & x & Hx). cbn in Hx. congruence.
Qed.

(** C40. The status address of [wait] is not checked like an access of the program.  The
    hart refuses a program every access to the pages of the trap code and of its trap
    frame; but [copy_out], which [kwait] gives the address that the program passed, checks
    only that the process's table maps the page.  At an aligned address in the trap frame
    page the kernel stores the program's word in the trap frame, at that offset, and
    changes no other byte; at one in the trampoline page its store to its own text takes a
    store page fault, on which [kerneltrap] panics: the program has stopped the kernel. *)
Theorem wait_status_unchecked c i p off x :
  creachable c → worker c = Some i → table (c_sys c) !! i = Some p →
  0 ≤ off < page_size → off mod 4 = 0 → is_u32 x →
  let s := c_sys c in let m := s_mach s in
  (∀ va sum k pa, TRAPFRAME ≤ va < TRAMPOLINE + PAGESIZE → ¬ user_access m p sum k va pa) ∧
  wp (store_status i (TRAPFRAME + off) x) (λ _ s',
    ld32 (m_mem (s_mach s')) (p_trapframe p + off) = x ∧
    ∀ a, ¬ (p_trapframe p + off ≤ a < p_trapframe p + off + 4) → ld8 (m_mem (s_mach s')) a = ld8 (m_mem m) a) s ∧
  store_status i (TRAMPOLINE + off) x s = Fault ∧
  (∀ sum, sv32_access (m_mem m) (m_csr m satp) false sum Store (trampoline + off) = None) ∧
  ∀ t, ti_cause t = 15 → kerneltrap_enter (set_mach (trap_entry false t m) s) = Panic PTrapCause.
Proof.
  intros Hc Hw Hp Hoff Hal Hx s m. pose proof (worker_pid c i p Hc Hw Hp) as Hpid.
  pose proof (creachable_sound _ Hc) as (_ & _ & a & L & [_ _ HL _] & Hst). fold s m in HL.
  destruct (laid_space _ _ _ _ _ HL (table_entry _ _ _ Hp)) as (sp & _ & Hso).
  assert (frame_ok (p_trapframe p)) as Hfr by (eapply live_frame_ok; [by eapply laid_ok|apply (so_live _ _ _ Hso)]).
  assert (TRAPFRAME ≠ 0 ∧ TRAMPOLINE ≠ 0 ∧ 0 < TRAPFRAME ∧ 0 < TRAMPOLINE ∧ TRAPFRAME ≠ TRAMPOLINE) as (HT & HU & H0 & H1 & Hne) by done.
  pose proof (λ base y perm, copy_out_high m (unlocked p) sp base y perm off x Hso Hpid) as Hcopy.
  change (p_pagetable (unlocked p)) with (p_pagetable p) in Hcopy.
  split_and!.
  - intros va sum k' pa Hva. by eapply (laid_high m s L i p va eq_refl HL).
  - unfold store_status. rewrite decide_True by lia. eapply wp_bind, wp_proc; [exact Hp|].
    apply wp_bind, wp_lift. unfold wpo. fold m. rewrite (Hcopy TRAPFRAME (p_trapframe p) (Z.lor PTE_R PTE_W)); [|by apply lookup_insert_eq|done|done].
    assert (wp (write32 (p_trapframe p + off) x;; mret (Some tt)) (λ r m', r = Some tt ∧ m' = set_mem (st32 (m_mem m) (p_trapframe p + off) x) m) m) as H.
    { apply wp_bind, wp_write32; [apply frame_ok_in_data; [done|lia|]| |by apply wp_ret].
      - unfold page_size in *. Z.div_mod_to_equations. lia.
      - destruct Hfr as [Hfa _]. unfold page_aligned, page_size in Hfa. Z.div_mod_to_equations. lia. }
    apply wp_unfold in H as (r & m' & -> & -> & ->). cbn [unwrap mret M_ret s_mach set_mach m_mem set_mem]. split.
    + by apply ld32_st32_same.
    + intros b Hb. rewrite ld8_st32, decide_False; [done|]. lia.
  - unfold store_status. rewrite decide_True by lia. unfold mbind, M_bind. rewrite (proc_run s i p Hp). unfold lift. fold m.
    rewrite (Hcopy TRAMPOLINE trampoline (Z.lor PTE_R PTE_X)); [| |done|done].
    + unfold mbind, M_bind, write32. rewrite decide_False; [done|]. intros [Hsb _].
      eapply (laid_storable m); [exact HL|exact Hsb|]. apply page_of_inside; [apply trampoline_ok|lia].
    + unfold high. by rewrite lookup_insert_ne, lookup_singleton_eq.
  - intros sum. pose proof trampoline_last. pose proof text_after_start. pose proof etext_before_ekernel. pose proof ekernel_before_end.
    pose proof etext_aligned as Hea. assert (page_aligned KERNEL_START ∧ KERNEL_START = RAMSTART ∧ UART + PAGESIZE < RAMSTART) as (Hka & HK & HUA) by done.
    assert (RAMSTART ≤ trampoline + off < etext) as Hr.
    { unfold page_aligned, page_size in *. Z.div_mod_to_equations. lia. }
    rewrite (laid_kernel_access m (entries_of s) L) by (done || lia). cbn [kernel_may]. by rewrite bool_decide_eq_false_2 by lia.
  - intros t Ht. by eapply page_fault_panics.
Qed.
End properties.

(** ** Witnesses *)

Lemma memory_laid_out_witness : ∃ c, creachable c ∧ ∃ L, laid (s_mach (c_sys c)) (entries_of (c_sys c)) L ∧
  length (lo_spaces L) = length (table (c_sys c)) ∧ stacks_mapped L.
Proof.
  destruct child_stores_reachable as (c & th & p & q & pa & Hc & _). exists c. split; [exact Hc|].
  destruct (memory_laid_out c Hc) as (L & HL & Hst). exists L. split; [exact HL|]. split; [|exact Hst].
  rewrite (la_length _ _ _ HL). apply entries_length.
Defined.

Lemma user_worker c i : creachable c → c_run c = RunUser i → worker c = Some i.
Proof.
  intros (_ & _ & a & L & [Hr _ _ _] & _)%creachable_sound Hrun. unfold worker. rewrite (represents_cur _ _ Hr).
  destruct c as [s th r]. cbn in Hrun. subst r. by eapply user_run.
Qed.

(** The child stores a byte, and init's trap frame is as it was. *)
Lemma processes_isolated_witness : ∃ c c' q pa, creachable c ∧ cstep c c' ∧
  table (c_sys c) !! 0%nat = Some q ∧ p_state q = Sleeping ∧ ld8 (m_mem (s_mach (c_sys c'))) pa = 7 ∧
  same_on {[p_trapframe q]} (m_mem (s_mach (c_sys c))) (m_mem (s_mach (c_sys c'))).
Proof.
  destruct child_stores_reachable as (c & th & p & q & pa & Hc & Heq & Hp & Hq & Hpid & Hst & Hacc).
  pose proof (user_worker c 1 Hc ltac:(by rewrite Heq)) as Hw. rewrite Heq in *. cbn [c_sys] in *. set (s := c_sys c) in *.
  set (c' := mkConfig (set_mach (set_mem (st8 (m_mem (s_mach s)) pa 7) (s_mach s)) s) th (RunUser 1)).
  assert (cstep (mkConfig s th (RunUser 1)) c') as Hstep by by eapply cstep_store.
  destruct (creachable_sound _ Hc) as (_ & _ & a & L & [_ _ HL _] & _).
  destruct (processes_isolated _ c' L Hc Hstep HL) as (L' & _ & Hiso).
  exists (mkConfig s th (RunUser 1)), c', q, pa. split_and!; [exact Hc|exact Hstep|exact Hq|exact Hst| |].
  - cbn. by rewrite ld8_st8, decide_True.
  - destruct (laid_space _ _ _ _ _ HL (table_entry _ _ _ Hq)) as (sq & Hsq & _).
    destruct (io_others _ _ _ _ _ _ _ Hiso 0%nat (unlocked q) sq) as (q' & _ & _ & _ & _ & _ & _ & Hs);
      [by rewrite Hw|by apply table_entry|exact Hsq|split; cbn; congruence|].
    intros b Hb. apply Hs. unfold frames. cbn [p_trapframe unlocked set_lock]. set_solver +Hb.
Defined.

(** The page init's child stores to is in the heap, and no store there changes where the
    kernel's or a program's accesses lead. *)
Lemma user_access_private_witness : ∃ c p pa, creachable c ∧ table (c_sys c) !! 1%nat = Some p ∧
  user_access (s_mach (c_sys c)) p false Store USER_START pa ∧ heap_area pa ∧ page_of pa ≠ p_trapframe p.
Proof.
  destruct child_stores_reachable as (c & th & p & q & pa & Hc & _ & Hp & _ & _ & _ & Hacc).
  destruct (user_access_private c 1 p false Store USER_START pa Hc Hp Hacc) as (Hh & Hf & _).
  exists c, p, pa. split_and!; [exact Hc|exact Hp|exact Hacc|exact Hh|by eapply Hf].
Defined.

(** The child's program, in the third word of its own frame, where the kernel keeps the
    address of its trap handler, and in the second word of the trap code. *)
Lemma wait_status_unchecked_witness : ∃ c p, creachable c ∧ table (c_sys c) !! 1%nat = Some p ∧
  wp (store_status 1 (TRAPFRAME + 8) 42) (λ _ s', ld32 (m_mem (s_mach s')) (p_trapframe p + 8) = 42) (c_sys c) ∧
  store_status 1 (TRAMPOLINE + 8) 42 (c_sys c) = Fault.
Proof.
  destruct child_stores_reachable as (c & th & p & q & pa & Hc & Heq & Hp & _).
  pose proof (user_worker c 1 Hc ltac:(by rewrite Heq)) as Hw.
  destruct (wait_status_unchecked c 1 p 8 42 Hc Hw Hp) as (_ & H1 & H2 & _); [done|done|done|].
  exists c, p. split; [exact Hc|]. split; [exact Hp|]. split; [|exact H2]. eapply wp_mono; [exact H1|]. by intros r s' [H _].
Defined.

Lemma trampoline_shared_witness : ∃ c p, creachable c ∧ table (c_sys c) !! 0%nat = Some p ∧
  sv32_access (m_mem (s_mach (c_sys c))) (m_csr (s_mach (c_sys c)) satp) false false Fetch TRAMPOLINE = Some trampoline ∧
  sv32_access (m_mem (s_mach (c_sys c))) (user_satp p) false false Fetch TRAMPOLINE = Some trampoline.
Proof.
  destruct child_stores_reachable as (c & th & p & q & pa & Hc & _ & _ & Hq & Hpid & _).
  exists c, q. split; [exact Hc|]. split; [exact Hq|].
  destruct (trampoline_shared c 0 q TRAMPOLINE Hc Hq) as (H & _); [congruence|done|].
  destruct (H ltac:(done) false) as [H1 H2]. rewrite Z.sub_diag, Z.add_0_r in H1, H2. split; [exact H1|exact H2].
Defined.

(** While the child runs, the kernel's text cannot be stored to. *)
Lemma kernel_text_protected_witness : ∃ c, creachable c ∧ write8 KERNEL_START 7 (s_mach (c_sys c)) = Fault ∧
  write8 etext 7 (s_mach (c_sys c)) ≠ Fault.
Proof.
  destruct child_stores_reachable as (c & th & p & q & pa & Hc & _). exists c. split; [exact Hc|].
  destruct (kernel_text_protected c c Hc (rtc_refl _ _)) as (H & _).
  destruct (H KERNEL_START false) as [_ H1]; [done|]. destruct (H etext false) as [_ H2]; [by vm_compute|]. split.
  - destruct (H1 7) as [_ Hf]. apply Hf, text_after_start.
  - intros Hf. destruct (H2 7) as [_ [Hlt _]]. specialize (Hlt Hf). lia.
Defined.
