(* ===== verification/TrapProps.v ===== *)
(** Properties of the way into and out of user mode in the running system: the steps of
    the system are what the trampoline's code does. *)
From S2P Require Import SimpleEnv Scenario AsmProps IsolProps.
From S2P Require Export TrapReady.

Section properties.
Context {E : Env} {EL : EnvLaws E}.
Implicit Types (m : Machine) (s : Sys) (p q : Process) (sp : space) (L : layout) (c : Config).

(** The hart at the entry of the trap handler's code: the trap [t] has been taken from
    the program of [p], whose page table is installed. *)
Definition trapped_hart m p (regs : reg → Z) (t : trap_info) : Hart :=
  mkHart regs (m_csr m stvec) false
    (set_csr (csr_set (m_csr (trap_entry true t m)) satp (user_satp p)) (trap_entry true t m)).

(** The configuration in which [usertrap] starts, [g] being memory. *)
Definition usertrap_config c (t : trap_info) (g : mem) : Config :=
  mkConfig (set_mach (trap_entry true t (set_mem g (s_mach (c_sys c)))) (c_sys c)) (c_threads c) RunTrap.

(** The state of a program that runs, and the trap taken from it. *)
Lemma trap_sound c a i L p t :
  image_ok INIT → image_ok PRIME → sound c a L → c_run c = RunUser i → table (c_sys c) !! i = Some p →
  ∃ L' sp, slot_ok (trap_entry true t (s_mach (c_sys c))) (unlocked p) sp ∧ p_pid p ≠ None ∧
    laid (trap_entry true t (s_mach (c_sys c))) (entries_of (c_sys c)) L'.
Proof.
  intros HI HP Hs Hrun Hp. set (s := c_sys c). destruct c as [s0 th r]. cbn in *. subst r.
  assert (cstep (mkConfig s th (RunUser i)) (usertrap_config (mkConfig s th (RunUser i)) t (m_mem (s_mach s)))) as Hstep.
  { by eapply cstep_trap. }
  destruct (cstep_sound _ _ _ _ HI HP Hs Hstep) as (a' & L' & [_ _ HL' _] & _).
  cbn [usertrap_config c_sys s_mach set_mach] in HL'. rewrite <- trap_same in HL'.
  destruct (laid_space _ _ _ _ _ HL' (table_entry _ _ _ Hp)) as (sp & _ & Hso). exists L', sp.
  split; [exact Hso|]. split; [|exact HL']. by eapply user_pid; [apply Hs|apply Hs|..].
Qed.

(** C17. A program's trap enters the kernel as the kernel expects it.  In every reachable
    configuration in which a program runs, stvec leads, by the process's own page table, to
    [uservec]; and whatever the registers and the trap are, [uservec] runs to the end, the
    hart is then at [usertrap] with the kernel's page table, on top of the stack of this
    very process, which is mapped, every user register is in its field of the frame, and
    memory and the control registers, but for sscratch, are those of the system's own step
    to [usertrap]. *)
Theorem uservec_enters c i :
  creachable c → c_run c = RunUser i → ∃ p, table (c_sys c) !! i = Some p ∧
  let m := s_mach (c_sys c) in
  (∀ sum, sv32_access (m_mem m) (user_satp p) false sum Fetch (m_csr m stvec) = Some uservec_addr) ∧
  ∀ regs t link, (∀ r, is_u32 (regs r)) →
    let h := trapped_hart m p regs t in
    ∃ h', run (uservec_code link) h = Some h' ∧ h_pc h' = usertrap_addr ∧ rget h' ra = link ∧
      rget h' sp = kstack_at (Z.of_nat i) + KSTACK_SIZE ∧ rget h' tp = 0 ∧
      (∀ va sum, kstack_at (Z.of_nat i) ≤ va < kstack_at (Z.of_nat i) + KSTACK_SIZE →
         is_Some (sv32_access (m_mem (h_m h')) (m_csr (h_m h') satp) false sum Store va)) ∧
      (∀ r o, (r, o) ∈ (a0, 56) :: saved_regs → ld32 (m_mem (h_m h')) (p_trapframe p + o) = rget h r) ∧
      let c' := usertrap_config c t (m_mem (h_m h')) in
      (∀ x : csr_name, x ≠ sscratch → m_csr (h_m h') x = m_csr (s_mach (c_sys c')) x) ∧
      cstep c c'.
Proof.
  intros Hc Hrun. pose proof (creachable_ready _ Hc _ Hrun) as (p & Hp & [R1 R2 R3 R4 R5 _ _]).
  pose proof (creachable_stacks _ Hc _ _ Hp) as [Hi Hks]. exists p. split; [done|]. cbv zeta.
  pose proof (creachable_sound _ Hc) as (HI & HP & a & L & Hs & Hst). split.
  { intros sum. destruct (laid_space _ _ _ _ _ (so_laid _ _ _ Hs) (table_entry _ _ _ Hp)) as (sp & _ & Hso).
    assert (p_pid p ≠ None) as Hpid by (by eapply user_pid; [apply Hs|apply Hs|..]).
    rewrite R1. pose proof uservec_inside. rewrite (trampoline_fetch _ _ _ _ _ Hso Hpid) by lia. f_equal. lia. }
  intros regs t link Hregs. set (h := trapped_hart (s_mach (c_sys c)) p regs t).
  destruct (trap_sound _ _ _ _ _ t HI HP Hs Hrun Hp) as (L1 & sp1 & Hso & Hpid & _).
  destruct (run_uservec h (p_pagetable p) (sp_tabs sp1)
    (live (trap_entry true t (s_mach (c_sys c))) ∖ space_frames (unlocked p) sp1) (sp_pages sp1) (p_trapframe p) link)
    as (h' & Hr & (T1 & _ & T3 & T4 & T5 & T6 & T7 & _ & T9 & T10) & _).
  { by eapply (slot_process h _ _ (unlocked p)). }
  { by split. }
  { intros r. unfold rget. case_decide; [done|apply Hregs]. }
  assert (cstep c (usertrap_config c t (m_mem (h_m h')))) as Hstep.
  { unfold usertrap_config. destruct c as [s th r]. cbn in *. subst r. eapply cstep_trap; [done|].
    intros a' Ha'. apply T10. intros Hpg. apply Ha'. pose proof (page_of_range a') as Hpr. rewrite Hpg in Hpr. exact Hpr. }
  assert (m_csr (h_m h') satp = m_csr (s_mach (c_sys c)) satp) as Hsatp by (rewrite T7; exact R2).
  exists h'. split_and!; [done| | | | | |done| |done].
  - rewrite T6. exact R4.
  - done.
  - rewrite T3, <- Hks. exact R3.
  - rewrite T4. exact R5.
  - intros va sum Hva. destruct (cstep_sound _ _ _ _ HI HP Hs Hstep) as (a' & L' & [_ _ HL' _] & Hiso).
    rewrite Hsatp. eapply (stack_access _ _ L' i va sum HL'); [|done|done].
    unfold stacks_mapped. by destruct (io_kernel _ _ _ _ _ _ _ Hiso) as (_ & _ & ->).
  - intros x Hx. destruct (decide (x = satp)) as [->|Hne].
    + rewrite Hsatp. cbn. by rewrite !csr_set_ne.
    + rewrite T9 by done. cbn. by rewrite csr_set_ne.
Qed.

(** C18. Going back to a program is running [userret].  Whenever a step of the system ends
    with process [i] in user mode, the end of [usertrap] or [forkret] has run and hands
    [userret] a page table; run with it, [userret] ends in user mode, at the saved pc, with
    every register as its field of the frame has it and the process's page table
    installed, and with the memory and the control registers of the system's own step. *)
Theorem userret_enters c c' i :
  creachable c → cstep c c' → c_run c' = RunUser i → c_run c ≠ RunUser i →
  ∃ p s0 s1 v, table (c_sys c') !! i = Some p ∧ returning i s0 v s1 ∧
  ∀ regs pc, let h := mkHart regs pc false (s_mach s1) in rget h a0 = v →
    ∃ h', run userret_code h = Some h' ∧ h_user h' = true ∧
      h_pc h' = tf_word (s_mach s1) (p_trapframe p) tf_epc ∧
      (∀ r o, (r, o) ∈ (a0, 56) :: saved_regs → rget h' r = ld32 (m_mem (s_mach s1)) (p_trapframe p + o)) ∧
      m_csr (h_m h') satp = user_satp p ∧ m_mem (h_m h') = m_mem (s_mach (c_sys c')) ∧
      ∀ x : csr_name, x ≠ satp → m_csr (h_m h') x = m_csr (s_mach (c_sys c')) x.
Proof.
  intros Hc Hstep Hrun Hne. pose proof (creachable_sound _ Hc) as (HI & HP & a & L & Hs & _).
  destruct (cstep_refines _ _ _ (so_repr _ _ _ Hs) (so_reach _ _ _ Hs) Hstep) as (a' & Hr' & Ha').
  destruct Hstep as [c c' _ H|s th j p sum va pa b Hp Hacc|s th j p g t Hp Hg]; [|by injection Hrun as ->|done].
  destruct H as [fuel regs s s' th r r' H|fuel regs s s1 s2 th r j res out _ _ _|s th j m t|s th r t _ _]; try done.
  cbn [c_sys c_run] in *. subst r'. pose proof Hs as [Hr _ HL _]. cbn [c_sys c_run] in *.
  destruct (code_to_user _ _ _ _ _ _ _ _ _ Hr HL H) as (s0 & s1 & v & Hret & Hsr & (L1 & HL1 & _) & Hcur & Hsatp & Hks).
  pose proof (creachable_stacks _ Hc) as Hst. cbn [c_sys] in Hst.
  destruct (returning_ready _ _ _ _ Hret Hcur) as (p & Hp & -> & Hrd).
  { rewrite Hsatp. by eapply laid_satp_u32. }
  { intros q. apply stacks_at_nonneg. by eapply stacks_at_kept. }
  pose proof (sret_done _ _ _ Hsr) as Hs'. assert (table s' !! i = Some p) as Hp' by (rewrite Hs'; exact Hp).
  destruct (laid_space _ _ _ _ _ HL1 (table_entry _ _ _ Hp)) as (sp & _ & Hso).
  assert (p_pid p ≠ None) as Hpid by (by eapply (user_pid (mkConfig s' th (RunUser i)) a')).
  exists p, s0, s1, (user_satp p). split; [done|]. split; [done|]. intros regs' pc Ha0. set (h := mkHart regs' pc false (s_mach s1)).
  destruct (run_userret h (p_pagetable p) (sp_tabs sp) (live (s_mach s1) ∖ space_frames (unlocked p) sp) (sp_pages sp) (p_trapframe p))
    as (h' & Hrun' & Hregs & Hpc & Hus & Hsat & Hst' & Hm & Hcsr); [|done|exact Ha0|].
  { eapply (slot_process h (m_csr (s_mach s1)) _ (unlocked p)); [exact Hso|done| |done]. unfold h. cbn [h_m]. by destruct (s_mach s1). }
  exists h'. rewrite Hs'. split_and!; [done| |by rewrite Hpc; apply (rd_sepc _ _ Hrd)|done|done|done|].
  - rewrite Hus. unfold h. cbn [h_m]. by rewrite (rd_mode _ _ Hrd).
  - intros x Hx. cbn [s_mach set_mach m_csr set_csr]. destruct (decide (x = sstatus)) as [->|Hxs].
    + by rewrite Hst', csr_set_eq.
    + by rewrite Hcsr, csr_set_ne.
Qed.
End properties.

(** ** Witnesses, on the example machine *)

#[local] Existing Instance simple_env.
#[local] Existing Instance simple_laws.

Definition example_trap : trap_info := mkTrapInfo USER_START 8 0 0.

(** The child of init traps: the handler runs on the child's kernel stack. *)
Lemma uservec_enters_witness : ∃ c p h', creachable c ∧ table (c_sys c) !! 1%nat = Some p ∧
  run (uservec_code 0x80200300) (trapped_hart (s_mach (c_sys c)) p example_regs example_trap) = Some h' ∧
  h_pc h' = usertrap_addr ∧ rget h' sp = kstack_at 1 + KSTACK_SIZE ∧ ld32 (m_mem (h_m h')) (p_trapframe p + 92) = 42.
Proof.
  destruct child_stores_reachable as (c & th & q & _ & _ & Hc & Heq & _).
  assert (c_run c = RunUser 1) as Hrun by by rewrite Heq.
  destruct (uservec_enters c 1 Hc Hrun) as (p & Hp & _ & Hrest).
  destruct (Hrest example_regs example_trap 0x80200300) as (h' & Hr & Hpc & _ & Hsp & _ & _ & Hregs & _).
  { apply example_regs_u32. }
  exists c, p, h'. split; [exact Hc|]. split; [exact Hp|]. split; [exact Hr|]. split; [exact Hpc|]. split; [exact Hsp|].
  etrans; [apply (Hregs s3 92); set_solver +|done].
Defined.

(** The child of init starts its program where init left off. *)
Lemma userret_enters_witness : ∃ c c' p v h', creachable c ∧ table (c_sys c') !! 1%nat = Some p ∧ v = user_satp p ∧
  h_user h' = true ∧ m_csr (h_m h') satp = v ∧ m_mem (h_m h') = m_mem (s_mach (c_sys c')).
Proof.
  destruct child_starts_reachable as (c & c' & Hc & Hstep & Hrun & Hpre).
  destruct (userret_enters c c' 1 Hc Hstep Hrun) as (p & s0 & s1 & v & Hp & _ & Hrest); [by rewrite Hpre|].
  destruct (Hrest (λ _, v) 0) as (h' & _ & Hus & _ & _ & Hsatp & Hm & _); [done|].
  exists c, c', p, (user_satp p), h'. split_and!; done.
Defined.
